(** * The snapshot-replay dispatcher (replayMultipleFiles) in Rocq

    A shallow embedding of the replay harness: the [ConcurrencyLimiter]
    class, the dispatcher [processContent] and its three per-folder
    workflows ([processNode], [processNodeForValidate],
    [processNodeForWrite]), and [cleanFailedSnapshots].

    - The file system is an ordered association list from paths to nodes;
      [readdirSync] lists a folder in the order of the list, so that an
      entry that is made is listed last, where Node lists by name. The
      theorems take a listing as it is read, and none says where in a
      listing a new entry comes.
    - The [async] functions of the dispatcher are programs of a free monad
      [Prog]: one constructor per call that touches the outside (the [fs]
      module, the console, the limiter, the replay job).
    - The event loop is a step function on a [System]: the dispatcher runs
      from one suspension to the next ([Tick]), and the worker threads and
      the inline replay engine report through events of their own.
    - The replay tool that a job runs is not part of the program. Its
      report is an event; what it writes in the folder of its test case
      is outside the model, and a report changes no file here. *)

From Stdlib Require Import ZArith Lia.
From stdpp Require Import prelude strings pretty.

Local Open Scope Z_scope.
Local Open Scope string_scope.
Local Open Scope list_scope.

(** ** Paths and the file system *)

(** A path is the list of its components: the template literal
    [`${a}/${b}`] is [a ++ [b]]. *)
Abbreviation path := (list string).

Definition render (p : path) : string := String.concat "/" p.

Inductive node : Type :=
| File (text : string)
| Dir.

Definition FS := list (path * node).

(** [fs.Dirent], as [readdirSync(_, { withFileTypes: true })] returns it. *)
Record Dirent : Type := MkDirent {
  name : string;
  isDirectory : bool;
}.

Inductive Error : Type :=
| AssertionError (msg : string)
| FsError (code : string) (p : path)
| SyntaxError
| TypeError
| JobError (text : string).

Inductive result (A : Type) : Type :=
| Ok (a : A)
| Err (e : Error).
Arguments Ok {A} a.
Arguments Err {A} e.

#[global] Instance node_eq_dec : EqDecision node.
Proof. solve_decision. Defined.
#[global] Instance Dirent_eq_dec : EqDecision Dirent.
Proof. solve_decision. Defined.
#[global] Instance Error_eq_dec : EqDecision Error.
Proof. solve_decision. Defined.

Fixpoint fs_get (fs : FS) (p : path) : option node :=
  match fs with
  | [] => None
  | (q, n) :: fs' => if decide (q = p) then Some n else fs_get fs' p
  end.

(** Writing an entry replaces the entry of that path where there is one,
    and appends a new entry otherwise. *)
Fixpoint fs_put (fs : FS) (p : path) (n : node) : FS :=
  match fs with
  | [] => [(p, n)]
  | (q, m) :: fs' =>
      if decide (q = p) then (q, n) :: fs' else (q, m) :: fs_put fs' p n
  end.

Fixpoint fs_del (fs : FS) (p : path) : FS :=
  match fs with
  | [] => []
  | (q, m) :: fs' =>
      if decide (q = p) then fs_del fs' p else (q, m) :: fs_del fs' p
  end.

Definition is_dir_node (n : node) : bool :=
  match n with Dir => true | File _ => false end.

(** The working directory [[]] is always there. *)
Definition is_directory (fs : FS) (p : path) : bool :=
  match p with
  | [] => true
  | _ => match fs_get fs p with Some Dir => true | _ => false end
  end.

Definition parent (p : path) : path := removelast p.

(** The entry of [e] as a child of directory [d], if it is one. *)
Definition dirent_in (d : path) (e : path * node) : option Dirent :=
  match last (fst e) with
  | Some x =>
      if decide (fst e = d ++ [x])
      then Some (MkDirent x (is_dir_node (snd e)))
      else None
  | None => None
  end.

Definition children (fs : FS) (d : path) : list Dirent :=
  omap (dirent_in d) fs.

Definition fs_existsSync (fs : FS) (p : path) : bool :=
  match fs_get fs p with Some _ => true | None => false end.

Definition fs_readdirSync (fs : FS) (p : path) : result (list Dirent) :=
  match fs_get fs p with
  | Some Dir => Ok (children fs p)
  | Some (File _) => Err (FsError "ENOTDIR" p)
  | None => Err (FsError "ENOENT" p)
  end.

Definition fs_readFileSync (fs : FS) (p : path) : result string :=
  match fs_get fs p with
  | Some (File t) => Ok t
  | Some Dir => Err (FsError "EISDIR" p)
  | None => Err (FsError "ENOENT" p)
  end.

(** [mkdirSync(p, { recursive: true })]: every missing prefix of [p] is
    created, an existing directory is left alone, and a file in the way is
    an error that names [p]: [EEXIST] when the file is at [p] itself,
    [ENOTDIR] when it is on the way to it. [done] is the prefix already
    walked. *)
Fixpoint mkdir_from (fs : FS) (done todo : path) : result FS :=
  match todo with
  | [] => Ok fs
  | c :: todo' =>
      let d := done ++ [c] in
      match fs_get fs d with
      | None => mkdir_from (fs_put fs d Dir) d todo'
      | Some Dir => mkdir_from fs d todo'
      | Some (File _) =>
          Err (FsError (match todo' with [] => "EEXIST" | _ => "ENOTDIR" end)
                       (d ++ todo'))
      end
  end.

Definition fs_mkdirSync (fs : FS) (p : path) : result FS := mkdir_from fs [] p.

Definition writable (fs : FS) (p : path) : result unit :=
  if negb (is_directory fs (parent p)) then Err (FsError "ENOENT" p)
  else match fs_get fs p with
       | Some Dir => Err (FsError "EISDIR" p)
       | _ => Ok tt
       end.

Definition fs_copyFileSync (fs : FS) (src dst : path) : result FS :=
  match fs_readFileSync fs src with
  | Ok t =>
      match writable fs dst with
      | Ok _ => Ok (fs_put fs dst (File t))
      | Err e => Err e
      end
  | Err e => Err e
  end.

Definition fs_writeFileSync (fs : FS) (p : path) (text : string) : result FS :=
  match writable fs p with
  | Ok _ => Ok (fs_put fs p (File text))
  | Err e => Err e
  end.

Definition fs_unlinkSync (fs : FS) (p : path) : result FS :=
  match fs_get fs p with
  | Some (File _) => Ok (fs_del fs p)
  | Some Dir => Err (FsError "EISDIR" p)
  | None => Err (FsError "ENOENT" p)
  end.

Definition fs_rmdirSync (fs : FS) (p : path) : result FS :=
  match fs_get fs p with
  | Some Dir =>
      match children fs p with
      | [] => Ok (fs_del fs p)
      | _ => Err (FsError "ENOTEMPTY" p)
      end
  | Some (File _) => Err (FsError "ENOTDIR" p)
  | None => Err (FsError "ENOENT" p)
  end.

(** ** The data of the dispatcher *)

Inductive Mode : Type :=
| Write
| Compare
| Stress
| Validate.

#[global] Instance Mode_eq_dec : EqDecision Mode.
Proof. solve_decision. Defined.

Record IWorkerArgs : Type := MkArgs {
  folder : path;
  mode : Mode;
  snapFreq : Z;
  initializeFromSnapshotsDir : option path;
}.

#[global] Instance IWorkerArgs_eq_dec : EqDecision IWorkerArgs.
Proof. solve_decision. Defined.

Definition numberOfThreads : Z := 4.

(** A reference to an [IWorkerArgs] object: [data] is one object, passed
    around and written to in place. *)
Definition ref := nat.

(** ** Programs of the dispatcher *)

Inductive Prog (A : Type) : Type :=
| Ret (a : A)
| Throw (e : Error)
| ExistsSync (p : path) (k : bool -> Prog A)
| ReaddirSync (p : path) (k : list Dirent -> Prog A)
| ReadFileSync (p : path) (k : string -> Prog A)
| MkdirSync (p : path) (k : Prog A)
| CopyFileSync (src dst : path) (k : Prog A)
| WriteFileSync (p : path) (text : string) (k : Prog A)
| UnlinkSync (p : path) (k : Prog A)
| RmdirSync (p : path) (k : Prog A)
| ConsoleError (msg : string) (k : Prog A)
| NewArgs (a : IWorkerArgs) (k : ref -> Prog A)
| GetArgs (r : ref) (k : IWorkerArgs -> Prog A)
| SetInitializeFromSnapshotsDir (r : ref) (d : path) (k : Prog A)
| ImportWorkerThreads (k : bool -> Prog A)
| AddWork (r : ref) (k : Prog A)
| ProcessOneFile (r : ref) (k : Prog A)
| WaitAll (k : Prog A).

Arguments Ret {A} a.
Arguments Throw {A} e.
Arguments ExistsSync {A} p k.
Arguments ReaddirSync {A} p k.
Arguments ReadFileSync {A} p k.
Arguments MkdirSync {A} p k.
Arguments CopyFileSync {A} src dst k.
Arguments WriteFileSync {A} p text k.
Arguments UnlinkSync {A} p k.
Arguments RmdirSync {A} p k.
Arguments ConsoleError {A} msg k.
Arguments NewArgs {A} a k.
Arguments GetArgs {A} r k.
Arguments SetInitializeFromSnapshotsDir {A} r d k.
Arguments ImportWorkerThreads {A} k.
Arguments AddWork {A} r k.
Arguments ProcessOneFile {A} r k.
Arguments WaitAll {A} k.

Fixpoint bind {A B : Type} (m : Prog A) (f : A -> Prog B) : Prog B :=
  match m with
  | Ret a => f a
  | Throw e => Throw e
  | ExistsSync p k => ExistsSync p (fun x => bind (k x) f)
  | ReaddirSync p k => ReaddirSync p (fun x => bind (k x) f)
  | ReadFileSync p k => ReadFileSync p (fun x => bind (k x) f)
  | MkdirSync p k => MkdirSync p (bind k f)
  | CopyFileSync s d k => CopyFileSync s d (bind k f)
  | WriteFileSync p t k => WriteFileSync p t (bind k f)
  | UnlinkSync p k => UnlinkSync p (bind k f)
  | RmdirSync p k => RmdirSync p (bind k f)
  | ConsoleError s k => ConsoleError s (bind k f)
  | NewArgs a k => NewArgs a (fun x => bind (k x) f)
  | GetArgs r k => GetArgs r (fun x => bind (k x) f)
  | SetInitializeFromSnapshotsDir r d k =>
      SetInitializeFromSnapshotsDir r d (bind k f)
  | ImportWorkerThreads k => ImportWorkerThreads (fun x => bind (k x) f)
  | AddWork r k => AddWork r (bind k f)
  | ProcessOneFile r k => ProcessOneFile r (bind k f)
  | WaitAll k => WaitAll (bind k f)
  end.

#[global] Instance Prog_ret : MRet Prog := @Ret.
#[global] Instance Prog_bind : MBind Prog := fun A B f m => bind m f.

Definition assert (b : bool) (msg : string) : Prog unit :=
  if b then Ret tt else Throw (AssertionError msg).

(** [for (const x of l) { body }], where [continue] is [Ret tt]. *)
Fixpoint forOf {X : Type} (l : list X) (body : X -> Prog unit) : Prog unit :=
  match l with
  | [] => Ret tt
  | x :: l' => body x ;; forOf l' body
  end.

(** One call each, returning what the call returns. *)
Definition existsSync (p : path) : Prog bool := ExistsSync p Ret.
Definition readdirSync (p : path) : Prog (list Dirent) := ReaddirSync p Ret.
Definition readFileSync (p : path) : Prog string := ReadFileSync p Ret.
Definition mkdirSync (p : path) : Prog unit := MkdirSync p (Ret tt).
Definition copyFileSync (src dst : path) : Prog unit :=
  CopyFileSync src dst (Ret tt).
Definition writeFileSync (p : path) (text : string) : Prog unit :=
  WriteFileSync p text (Ret tt).
Definition unlinkSync (p : path) : Prog unit := UnlinkSync p (Ret tt).
Definition rmdirSync (p : path) : Prog unit := RmdirSync p (Ret tt).
Definition console_error (msg : string) : Prog unit :=
  ConsoleError msg (Ret tt).
Definition newArgs (a : IWorkerArgs) : Prog ref := NewArgs a Ret.
Definition getArgs (r : ref) : Prog IWorkerArgs := GetArgs r Ret.
Definition setInitializeFromSnapshotsDir (r : ref) (d : path) : Prog unit :=
  SetInitializeFromSnapshotsDir r d (Ret tt).
Definition importWorkerThreads : Prog bool := ImportWorkerThreads Ret.
Definition limiter_addWork (r : ref) : Prog unit := AddWork r (Ret tt).
Definition await_processOneFile (r : ref) : Prog unit :=
  ProcessOneFile r (Ret tt).
Definition limiter_waitAll : Prog unit := WaitAll (Ret tt).

(** A text that is one component of a path: it is not empty, it is not
    [.] or [..], and it has no [/] in it. *)
Fixpoint has_slash (s : string) : bool :=
  match s with
  | EmptyString => false
  | String c s' => Ascii.eqb c (Ascii.ascii_of_nat 47) || has_slash s'
  end.

Definition path_component (v : string) : bool :=
  negb (String.eqb v "") && negb (String.eqb v ".")
  && negb (String.eqb v "..") && negb (has_slash v).

(** What [JSON.parse(text).snapshotVersion] comes to for the text of a
    version stamp. [JSON.parse] throws a [SyntaxError] on a text that is
    not JSON; on the text [null] it returns [null], and reading the
    property throws a [TypeError]. In every other case the property is
    read, and [Version v] has the text [v] that the template string of
    [newSrcDir] makes of that value ([undefined] where the property is
    missing). *)
Inductive Parsed : Type :=
| Version (v : string)
| NotJSON
| NoObject.

Definition JSON_parse (r : Parsed) : Prog string :=
  match r with
  | Version v => Ret v
  | NotJSON => Throw SyntaxError
  | NoObject => Throw TypeError
  end.

Section Dispatcher.

(** [fileLocation] is what [getFileLocations] finds when the module is
    loaded; [pkgVersion] comes from [./packageVersion]. *)
Variable fileLocation : path.
Variable pkgVersion : string.

(** What [JSON.parse(text).snapshotVersion] comes to for a text (see
    [Parsed]), and [JSON.stringify({ snapshotVersion: v })]. *)
Variable snapshotVersionOf : string -> Parsed.
Variable stampOf : string -> string.

(** [processNode]: the worker-thread module is imported first; without it,
    or when [concurrently] is false, the job runs in line. *)
Definition processNode (data : ref) (concurrently : bool) : Prog unit :=
  threads ← importWorkerThreads;
  if negb concurrently || negb threads
  then await_processOneFile data
  else limiter_addWork data.

Definition processNodeForValidate (data : ref) (concurrently : bool)
  : Prog unit :=
  d ← getArgs data;
  let srcSnapshotsFolder := folder d ++ ["src_snapshots"] in
  ex ← existsSync srcSnapshotsFolder;
  if negb ex then Ret tt
  else
    nodes ← readdirSync srcSnapshotsFolder;
    forOf nodes (fun node =>
      if negb (isDirectory node) then Ret tt
      else
        setInitializeFromSnapshotsDir data
          (srcSnapshotsFolder ++ [name node]);;
        processNode data concurrently).

(** [processNodeForWrite]. The template string of [newSrcDir] pastes the
    version into the text of the path; here the version is one component
    of the path. The two agree for a version that is a [path_component].
    A version with a [/] in it, or [.], [..] or the empty text, names
    another folder in the source: the theorems on the archive folder are
    stated for versions that are a [path_component]. *)
Definition processNodeForWrite (data : ref) (concurrently : bool)
  : Prog unit :=
  d ← getArgs data;
  let currentSnapshotsDir := folder d ++ ["current_snapshots"] in
  ex ← existsSync currentSnapshotsDir;
  assert ex
    ("Directory " +:+ render currentSnapshotsDir +:+ " does not exist!");;
  let versionFileName := currentSnapshotsDir ++ ["snapshotVersion.json"] in
  ex ← existsSync versionFileName;
  assert ex
    ("Version file " +:+ render versionFileName +:+ " does not exist");;
  text ← readFileSync versionFileName;
  version ← JSON_parse (snapshotVersionOf text);
  let newSrcDir := folder d ++ ["src_snapshots"; version] in
  mkdirSync newSrcDir;;
  subNodes ← readdirSync currentSnapshotsDir;
  forOf subNodes (fun subNode =>
    assert (negb (isDirectory subNode)) "";;
    copyFileSync (currentSnapshotsDir ++ [name subNode])
                 (newSrcDir ++ [name subNode]));;
  processNode data concurrently;;
  writeFileSync versionFileName (stampOf pkgVersion).

Definition cleanFailedSnapshots (dir : path) : Prog unit :=
  let currentSnapshotsDir := dir ++ ["current_snapshots"] in
  ex ← existsSync currentSnapshotsDir;
  if negb ex then Ret tt
  else
    let failedSnapshotsDir := currentSnapshotsDir ++ ["FailedSnapshots"] in
    ex ← existsSync failedSnapshotsDir;
    if negb ex then Ret tt
    else
      nodes ← readdirSync failedSnapshotsDir;
      forOf nodes (fun node =>
        if isDirectory node then Ret tt
        else unlinkSync (failedSnapshotsDir ++ [name node]));;
      rmdirSync failedSnapshotsDir.

(** The body of the loop of [processContent], for one entry of the
    listing of [fileLocation]. *)
Definition processEntry (mode : Mode) (concurrently : bool) (node : Dirent)
  : Prog unit :=
  if negb (isDirectory node) then Ret tt
  else
    let dir := fileLocation ++ [name node] in
    let messages := dir ++ ["messages.json"] in
    ex ← existsSync messages;
    if negb ex then console_error ("Can't locate " +:+ render messages)
    else
      cleanFailedSnapshots dir;;
      let snapFreq := if decide (mode = Stress) then 50 else 1000 in
      data ← newArgs (MkArgs dir mode snapFreq None);
      match mode with
      | Validate => processNodeForValidate data concurrently
      | Write => processNodeForWrite data concurrently
      | _ => processNode data concurrently
      end.

Definition processContent (mode : Mode) (concurrently : bool) : Prog unit :=
  nodes ← readdirSync fileLocation;
  forOf nodes (processEntry mode concurrently);;
  limiter_waitAll.

End Dispatcher.

(** ** The state of a run *)

Inductive PState : Type :=
| Pending
| Fulfilled
| Rejected (e : Error).

#[global] Instance PState_eq_dec : EqDecision PState.
Proof. solve_decision. Defined.

Definition is_pending (s : PState) : bool :=
  match s with Pending => true | _ => false end.
Definition is_fulfilled (s : PState) : bool :=
  match s with Fulfilled => true | _ => false end.
Definition is_rejected (s : PState) : bool :=
  match s with Rejected _ => true | _ => false end.

(** A replay job. [workerData] is the copy of the arguments the job was
    started with; [settled] is the promise of [worker()] (or, in line, of
    [processOneFile(data)]); [chained] is [p = worker().then(...)]. *)
Record Job : Type := MkJob {
  workerData : IWorkerArgs;
  inline : bool;
  settled : PState;
  chained : PState;
}.

(** The fields of [ConcurrencyLimiter]. [promises] holds the jobs whose [p]
    was pushed; [deferred] refers to a [Deferred] object. *)
Record ConcurrencyLimiter : Type := MkLimiter {
  promises : list nat;
  deferred : option nat;
  limit : Z;
}.

Inductive Action : Type :=
| ActMkdir (p : path)
| ActCopy (src dst : path)
| ActWrite (p : path) (text : string)
| ActUnlink (p : path)
| ActRmdir (p : path)
| ActStart (j : nat)
| ActSettle (j : nat) (ok : bool).

#[global] Instance Action_eq_dec : EqDecision Action.
Proof. solve_decision. Defined.

Record World : Type := MkWorld {
  fs : FS;
  (** the [IWorkerArgs] objects *)
  heap : list IWorkerArgs;
  limiter : ConcurrencyLimiter;
  (** the [Deferred] objects: how often [resolve()] was called on each *)
  deferreds : list nat;
  jobs : list Job;
  (** [Promise.all(this.promises)], once [waitAll] was called: the jobs it
      watches and its state *)
  all : option (list nat * PState);
  console : list string;
  (** what was done so far, oldest first *)
  acts : list Action;
  (** whether [import("worker_threads")] succeeds *)
  threads : bool;
}.

Definition set_fs (w : World) (x : FS) : World :=
  MkWorld x (heap w) (limiter w) (deferreds w) (jobs w) (all w) (console w)
          (acts w) (threads w).
Definition set_heap (w : World) (x : list IWorkerArgs) : World :=
  MkWorld (fs w) x (limiter w) (deferreds w) (jobs w) (all w) (console w)
          (acts w) (threads w).
Definition set_limiter (w : World) (x : ConcurrencyLimiter) : World :=
  MkWorld (fs w) (heap w) x (deferreds w) (jobs w) (all w) (console w)
          (acts w) (threads w).
Definition set_deferreds (w : World) (x : list nat) : World :=
  MkWorld (fs w) (heap w) (limiter w) x (jobs w) (all w) (console w)
          (acts w) (threads w).
Definition set_jobs (w : World) (x : list Job) : World :=
  MkWorld (fs w) (heap w) (limiter w) (deferreds w) x (all w) (console w)
          (acts w) (threads w).
Definition set_all (w : World) (x : option (list nat * PState)) : World :=
  MkWorld (fs w) (heap w) (limiter w) (deferreds w) (jobs w) x (console w)
          (acts w) (threads w).
Definition log (w : World) (msg : string) : World :=
  MkWorld (fs w) (heap w) (limiter w) (deferreds w) (jobs w) (all w)
          (console w ++ [msg]) (acts w) (threads w).
Definition did (w : World) (a : Action) : World :=
  MkWorld (fs w) (heap w) (limiter w) (deferreds w) (jobs w) (all w)
          (console w) (acts w ++ [a]) (threads w).

(** Where the dispatcher is. *)
Inductive Control : Type :=
| Ready (k : Prog unit)
    (** a continuation is queued *)
| AwaitDeferred (d : nat) (data : ref) (k : Prog unit)
    (** inside [addWork], at [await this.deferred.promise] *)
| AwaitInline (j : nat) (k : Prog unit)
    (** at [await processOneFile(data)] *)
| AwaitAll (k : Prog unit)
    (** at the promise of [limiter.waitAll()] *)
| Settled (r : PState).
    (** the promise of [processContent] is settled *)

Record System : Type := MkSystem {
  world : World;
  ctl : Control;
}.

(** ** ConcurrencyLimiter *)

Definition resolved (w : World) (d : nat) : bool :=
  match deferreds w !! d with Some (S _) => true | _ => false end.

(** [Deferred.resolve()] on object [d]. *)
Definition resolve (w : World) (d : nat) : World :=
  set_deferreds w (alter S d (deferreds w)).

(** The callback of [worker().then(...)]; it returns the state [p] settles
    in: an assertion that fails in the callback rejects [p]. *)
Definition onFulfilled (w : World) : World * PState :=
  let l := limit (limiter w) + 1 in
  let w1 := set_limiter w (MkLimiter (promises (limiter w))
                                     (deferred (limiter w)) l) in
  match deferred (limiter w) with
  | Some d =>
      if decide (l = 0)
      then (set_limiter (resolve w1 d)
              (MkLimiter (promises (limiter w)) None l), Fulfilled)
      else (w1, Rejected (AssertionError ""))
  | None => (w1, Fulfilled)
  end.

(** [const p = worker().then(...); this.promises.push(p)]: the worker is
    created on a copy of the arguments as they are now. *)
Definition startWorker (w : World) (data : ref) : result World :=
  match heap w !! data with
  | Some a =>
      let j := length (jobs w) in
      let w1 := set_jobs w (jobs w ++ [MkJob a false Pending Pending]) in
      let w2 := did w1 (ActStart j) in
      Ok (set_limiter w2 (MkLimiter (promises (limiter w2) ++ [j])
                                    (deferred (limiter w2))
                                    (limit (limiter w2))))
  | None => Err TypeError
  end.

(** How a call of [addWork] goes on: the worker was started, the call waits
    for a slot, or an assertion failed. *)
Inductive Admission : Type :=
| Started (w : World)
| Suspended (w : World) (d : nat)
| Failed (w : World) (e : Error).

(** [addWork] up to its [await], or to its end when there is a slot. *)
Definition addWork (w : World) (data : ref) : Admission :=
  let l := limit (limiter w) - 1 in
  let w1 := set_limiter w (MkLimiter (promises (limiter w))
                                     (deferred (limiter w)) l) in
  if decide (l < 0) then
    match deferred (limiter w1) with
    | Some _ => Failed w1 (AssertionError "")
    | None =>
        let d := length (deferreds w1) in
        let w2 := set_deferreds w1 (deferreds w1 ++ [0%nat]) in
        Suspended (set_limiter w2 (MkLimiter (promises (limiter w2))
                                             (Some d) l)) d
    end
  else
    match startWorker w1 data with
    | Ok w2 => Started w2
    | Err e => Failed w1 e
    end.

(** [addWork] from its [await] on. *)
Definition addWork_resume (w : World) (data : ref) : Admission :=
  match deferred (limiter w) with
  | Some _ => Failed w (AssertionError "")
  | None =>
      if decide (limit (limiter w) >= 0) then
        match startWorker w data with
        | Ok w2 => Started w2
        | Err e => Failed w e
        end
      else Failed w (AssertionError "")
  end.

(** [Promise.all] over the promises [ps]: the first rejection it meets,
    else fulfilled when all are. *)
Fixpoint promise_all (ps : list PState) : PState :=
  match ps with
  | [] => Fulfilled
  | Rejected e :: _ => Rejected e
  | Fulfilled :: ps' => promise_all ps'
  | Pending :: ps' =>
      match promise_all ps' with
      | Rejected e => Rejected e
      | _ => Pending
      end
  end.

Definition chained_of (w : World) (j : nat) : PState :=
  match jobs w !! j with Some job => chained job | None => Pending end.

(** [waitAll()]: [Promise.all(this.promises)]. *)
Definition waitAll (w : World) : World * PState :=
  let watched := promises (limiter w) in
  let r := promise_all (chained_of w <$> watched) in
  (set_all w (Some (watched, r)), r).

(** The reaction of [Promise.all] when the promise [p] of job [j] settles
    in state [r]. *)
Definition all_reacts (w : World) (j : nat) (r : PState) : World :=
  match all w with
  | Some (watched, Pending) =>
      if decide (j ∈ watched) then
        match r with
        | Rejected e => set_all w (Some (watched, Rejected e))
        | Fulfilled =>
            if forallb (fun i => is_fulfilled (chained_of w i)) watched
            then set_all w (Some (watched, Fulfilled))
            else w
        | Pending => w
        end
      else w
  | _ => w
  end.

(** ** The replay job *)

Definition nl : string := String (Ascii.ascii_of_nat 10) EmptyString.

Definition extra : string :=
  "If you changed snapshot representation and validated new format is backward compatible, you can run `npm run test:generate` to regenerate baseline snapshots".

(** What a worker thread reports. *)
Inductive WorkerEvent : Type :=
| OnMessage (error : string)
| OnError (e : Error)
| OnExit (code : Z).

(** The three listeners of the promise in [processNode]; only the first
    call of [resolve] or [reject] counts. *)
Definition listener (m : Mode) (ev : WorkerEvent) : PState :=
  match ev with
  | OnMessage error =>
      if decide (m = Compare)
      then Rejected (JobError (error +:+ nl +:+ extra))
      else Rejected (JobError error)
  | OnError e => Rejected e
  | OnExit code =>
      if decide (code <> 0)
      then Rejected (JobError ("Worker stopped with exit code "
                               +:+ pretty code))
      else Fulfilled
  end.

(** What [new ReplayTool(replayArgs).Go()] does. *)
Inductive EngineResult : Type :=
| Returns (errors : list string)
| Throws (e : Error).

(** [processOneFile], from the result of the replay engine. *)
Definition processOneFile (r : EngineResult) : PState :=
  match r with
  | Returns [] => Fulfilled
  | Returns errors =>
      Rejected (JobError ("Errors" +:+ nl +:+ " " +:+ String.concat nl errors))
  | Throws e => Rejected e
  end.

(** ** The dispatcher between two suspensions *)

Definition fail (w : World) (e : Error) : System :=
  MkSystem w (Settled (Rejected e)).

Fixpoint run (p : Prog unit) (w : World) : System :=
  match p with
  | Ret _ => MkSystem w (Settled Fulfilled)
  | Throw e => fail w e
  | ExistsSync p k => run (k (fs_existsSync (fs w) p)) w
  | ReaddirSync p k =>
      match fs_readdirSync (fs w) p with
      | Ok l => run (k l) w
      | Err e => fail w e
      end
  | ReadFileSync p k =>
      match fs_readFileSync (fs w) p with
      | Ok t => run (k t) w
      | Err e => fail w e
      end
  | MkdirSync p k =>
      match fs_mkdirSync (fs w) p with
      | Ok f => run k (did (set_fs w f) (ActMkdir p))
      | Err e => fail w e
      end
  | CopyFileSync src dst k =>
      match fs_copyFileSync (fs w) src dst with
      | Ok f => run k (did (set_fs w f) (ActCopy src dst))
      | Err e => fail w e
      end
  | WriteFileSync p t k =>
      match fs_writeFileSync (fs w) p t with
      | Ok f => run k (did (set_fs w f) (ActWrite p t))
      | Err e => fail w e
      end
  | UnlinkSync p k =>
      match fs_unlinkSync (fs w) p with
      | Ok f => run k (did (set_fs w f) (ActUnlink p))
      | Err e => fail w e
      end
  | RmdirSync p k =>
      match fs_rmdirSync (fs w) p with
      | Ok f => run k (did (set_fs w f) (ActRmdir p))
      | Err e => fail w e
      end
  | ConsoleError msg k => run k (log w msg)
  | NewArgs a k => run (k (length (heap w))) (set_heap w (heap w ++ [a]))
  | GetArgs r k =>
      match heap w !! r with
      | Some a => run (k a) w
      | None => fail w TypeError
      end
  | SetInitializeFromSnapshotsDir r d k =>
      match heap w !! r with
      | Some a =>
          run k (set_heap w
                   (<[r := MkArgs (folder a) (mode a) (snapFreq a) (Some d)]>
                      (heap w)))
      | None => fail w TypeError
      end
  | ImportWorkerThreads k => MkSystem w (Ready (k (threads w)))
  | AddWork r k =>
      match addWork w r with
      | Started w' => run k w'
      | Suspended w' d => MkSystem w' (AwaitDeferred d r k)
      | Failed w' e => fail w' e
      end
  | ProcessOneFile r k =>
      match heap w !! r with
      | Some a =>
          let j := length (jobs w) in
          let w1 := set_jobs w (jobs w ++ [MkJob a true Pending Pending]) in
          MkSystem (did w1 (ActStart j)) (AwaitInline j k)
      | None => fail w TypeError
      end
  | WaitAll k =>
      match waitAll w with
      | (w', Fulfilled) => run k w'
      | (w', Rejected e) => fail w' e
      | (w', Pending) => MkSystem w' (AwaitAll k)
      end
  end.

(** ** The event loop *)

Inductive Event : Type :=
| Tick
    (** the dispatcher runs on, to its next suspension *)
| Worker (j : nat) (ev : WorkerEvent)
    (** the worker thread of job [j] reports *)
| Engine (j : nat) (r : EngineResult).
    (** the replay engine of the in-line job [j] is done *)

Definition set_job (w : World) (j : nat) (job : Job) : World :=
  set_jobs w (<[j := job]> (jobs w)).

(** The dispatcher, when the promise it waits on has settled. *)
Definition wake (w : World) (c : Control) : Control :=
  match c with
  | AwaitAll k =>
      match all w with
      | Some (_, Fulfilled) => Ready k
      | Some (_, Rejected e) => Settled (Rejected e)
      | _ => c
      end
  | _ => c
  end.

(** A report of the worker of job [j]: the first one settles the promise
    of [worker()], the callback of [then] runs, and [p] settles. *)
Definition worker_reports (s : System) (j : nat) (job : Job)
    (ev : WorkerEvent) : System :=
  let w := world s in
  match settled job with
  | Pending =>
      let r := listener (mode (workerData job)) ev in
      let '(w1, p) := match r with
                      | Fulfilled => onFulfilled w
                      | _ => (w, r)
                      end in
      let w2 := set_job w1 j (MkJob (workerData job) false r p) in
      let w3 := did w2 (ActSettle j (is_fulfilled r)) in
      let w4 := all_reacts w3 j p in
      MkSystem w4 (wake w4 (ctl s))
  | _ => s
  end.

(** The replay of the in-line job [j] is done: [processOneFile] returns
    or throws, and [await processOneFile(data)] with it. Before it throws,
    the [catch] of [processOneFile] writes a line to the console; that
    line is abbreviated here to its first words and the folder, where the
    source prints the arguments as JSON and the error. *)
Definition engine_reports (s : System) (j : nat) (job : Job) (k : Prog unit)
    (res : EngineResult) : System :=
  let w := world s in
  let r := processOneFile res in
  let w1 := set_job w j (MkJob (workerData job) true r r) in
  let w2 := did w1 (ActSettle j (is_fulfilled r)) in
  match r with
  | Rejected e =>
      MkSystem (log w2 ("Unhandled Error processing "
                          +:+ render (folder (workerData job))))
               (Settled (Rejected e))
  | _ => MkSystem w2 (Ready k)
  end.

Definition step (s : System) (ev : Event) : option System :=
  match ev with
  | Tick =>
      match ctl s with
      | Ready p => Some (run p (world s))
      | AwaitDeferred d r k =>
          if resolved (world s) d then
            match addWork_resume (world s) r with
            | Started w' => Some (run k w')
            | Suspended w' d' => Some (MkSystem w' (AwaitDeferred d' r k))
            | Failed w' e => Some (fail w' e)
            end
          else None
      | _ => None
      end
  | Worker j ev =>
      match jobs (world s) !! j with
      | Some job =>
          if inline job then None else Some (worker_reports s j job ev)
      | None => None
      end
  | Engine j res =>
      match ctl s, jobs (world s) !! j with
      | AwaitInline j' k, Some job =>
          if decide (j = j') then
            if inline job then Some (engine_reports s j job k res) else None
          else None
      | _, _ => None
      end
  end.

Fixpoint exec (s : System) (evs : list Event) : option System :=
  match evs with
  | [] => Some s
  | ev :: evs' =>
      match step s ev with
      | Some s' => exec s' evs'
      | None => None
      end
  end.

(** [new ConcurrencyLimiter(capacity)] and nothing else yet. *)
Definition boot (capacity : Z) (f : FS) (th : bool) : World :=
  MkWorld f [] (MkLimiter [] None capacity) [] [] None [] [] th.

Definition start (capacity : Z) (f : FS) (th : bool) (main : Prog unit)
  : System :=
  MkSystem (boot capacity f th) (Ready main).

(** ** What the claims speak of *)

Fixpoint count {A : Type} (P : A -> bool) (l : list A) : Z :=
  match l with
  | [] => 0
  | x :: l' => (if P x then 1 else 0) + count P l'
  end.

(** An admitted job that runs: its worker has not reported yet. *)
Definition runs (job : Job) : bool :=
  negb (inline job) && is_pending (settled job).

(** An admitted job whose slot was not given back. *)
Definition holds_slot (job : Job) : bool :=
  negb (inline job) && negb (is_fulfilled (settled job)).

Definition running (w : World) : Z := count runs (jobs w).
Definition held (w : World) : Z := count holds_slot (jobs w).

(** The counter of the gate, read as the number of slots taken. *)
Definition inFlight (capacity : Z) (w : World) : Z :=
  capacity - limit (limiter w).

(** The gate is at rest: no admission is waiting in [addWork]. *)
Definition quiescent (w : World) : Prop := deferred (limiter w) = None.

Definition waiting (c : Control) : Z :=
  match c with AwaitDeferred _ _ _ => 1 | _ => 0 end.

(** The invariant of the gate, for a limiter made with [capacity]. *)
Record gate_inv (capacity : Z) (w : World) (c : Control) : Prop := {
  gi_count : limit (limiter w) <= capacity - held w - waiting c;
  gi_ctl :
    match c with
    | AwaitDeferred d _ _ =>
        if resolved w d
        then deferred (limiter w) = None /\ 0 <= limit (limiter w)
        else deferred (limiter w) = Some d /\ limit (limiter w) = -1
    | _ => deferred (limiter w) = None /\ 0 <= limit (limiter w)
    end;
  gi_once : Forall (fun n => (n <= 1)%nat) (deferreds w);
  gi_fresh : forall d, deferred (limiter w) = Some d ->
                       deferreds w !! d = Some 0%nat;
}.

(** The invariant between two admissions: nothing waits in [addWork]. *)
Definition gate_ready (capacity : Z) (w : World) : Prop :=
  gate_inv capacity w (Settled Fulfilled).

(** ** The shape of a dispatcher program *)

(** [p] never calls [limiter.waitAll()]. *)
Fixpoint no_waitAll {A : Type} (p : Prog A) : Prop :=
  match p with
  | Ret _ | Throw _ => True
  | ExistsSync _ k => forall x, no_waitAll (k x)
  | ReaddirSync _ k => forall x, no_waitAll (k x)
  | ReadFileSync _ k => forall x, no_waitAll (k x)
  | MkdirSync _ k => no_waitAll k
  | CopyFileSync _ _ k => no_waitAll k
  | WriteFileSync _ _ k => no_waitAll k
  | UnlinkSync _ k => no_waitAll k
  | RmdirSync _ k => no_waitAll k
  | ConsoleError _ k => no_waitAll k
  | NewArgs _ k => forall x, no_waitAll (k x)
  | GetArgs _ k => forall x, no_waitAll (k x)
  | SetInitializeFromSnapshotsDir _ _ k => no_waitAll k
  | ImportWorkerThreads k => forall x, no_waitAll (k x)
  | AddWork _ k => no_waitAll k
  | ProcessOneFile _ k => no_waitAll k
  | WaitAll _ => False
  end.

(** [p] returns in one way only: [return limiter.waitAll()], the one call
    of [waitAll] it makes. *)
Fixpoint returns_waitAll (p : Prog unit) : Prop :=
  match p with
  | Ret _ => False
  | Throw _ => True
  | ExistsSync _ k => forall x, returns_waitAll (k x)
  | ReaddirSync _ k => forall x, returns_waitAll (k x)
  | ReadFileSync _ k => forall x, returns_waitAll (k x)
  | MkdirSync _ k => returns_waitAll k
  | CopyFileSync _ _ k => returns_waitAll k
  | WriteFileSync _ _ k => returns_waitAll k
  | UnlinkSync _ k => returns_waitAll k
  | RmdirSync _ k => returns_waitAll k
  | ConsoleError _ k => returns_waitAll k
  | NewArgs _ k => forall x, returns_waitAll (k x)
  | GetArgs _ k => forall x, returns_waitAll (k x)
  | SetInitializeFromSnapshotsDir _ _ k => returns_waitAll k
  | ImportWorkerThreads k => forall x, returns_waitAll (k x)
  | AddWork _ k => returns_waitAll k
  | ProcessOneFile _ k => returns_waitAll k
  | WaitAll k => k = Ret tt
  end.

(** Job [j] was admitted through [addWork]. *)
Definition admitted (w : World) (j : nat) : Prop :=
  exists job, jobs w !! j = Some job /\ inline job = false.

(** What the dispatcher may be doing, given how far [waitAll] is. *)
Definition report_ctl (w : World) (c : Control) : Prop :=
  match all w with
  | None =>
      match c with
      | Ready p | AwaitDeferred _ _ p | AwaitInline _ p => returns_waitAll p
      | Settled (Rejected _) => True
      | _ => False
      end
  | Some (_, Pending) => c = AwaitAll (Ret tt)
  | Some (_, Fulfilled) => c = Ready (Ret tt) \/ c = Settled Fulfilled
  | Some (_, Rejected e) => c = Settled (Rejected e)
  end.

(** The invariant of a run that ends in [return limiter.waitAll()]. *)
Record report_inv (w : World) (c : Control) : Prop := {
  ri_promises : forall j, j ∈ promises (limiter w) <-> admitted w j;
  ri_nodup : NoDup (promises (limiter w));
  ri_chained : forall j job, jobs w !! j = Some job ->
      (chained job = Pending <-> settled job = Pending)
      /\ (chained job = Fulfilled -> settled job = Fulfilled);
  ri_watch : forall ws r, all w = Some (ws, r) -> ws = promises (limiter w);
  ri_all : forall ws r, all w = Some (ws, r) ->
      match r with
      | Fulfilled => forall j, j ∈ ws -> chained_of w j = Fulfilled
      | Rejected e => exists j, j ∈ ws /\ chained_of w j = Rejected e
      | Pending => forall j, j ∈ ws -> is_rejected (chained_of w j) = false
      end;
  ri_ctl : report_ctl w c;
  ri_inline : forall j job, jobs w !! j = Some job -> inline job = true ->
      match c with
      | Settled (Rejected _) => True
      | AwaitInline j' _ => j = j' \/ settled job = Fulfilled
      | _ => settled job = Fulfilled
      end;
}.

(** ** A small corpus, for the examples *)

Definition ex_root : path := ["content"; "snapshotTestContent"].

(** One test case: its operation log and its current snapshots. *)
Definition ex_case (n : string) : FS :=
  [ (ex_root ++ [n], Dir);
    (ex_root ++ [n; "messages.json"], File "ops");
    (ex_root ++ [n; "current_snapshots"], Dir);
    (ex_root ++ [n; "current_snapshots"; "snapshotVersion.json"],
     File "0.9.0");
    (ex_root ++ [n; "current_snapshots"; "snapshot_1000.json"],
     File "tree") ].

Definition ex_corpus (names : list string) : FS :=
  [(["content"], Dir); (ex_root, Dir)] ++ concat (ex_case <$> names).

(** In the examples the text of a version stamp is the version itself. *)
Definition ex_versionOf (text : string) : Parsed := Version text.
Definition ex_stampOf (v : string) : string := v.

Definition ex_processContent : Mode -> bool -> Prog unit :=
  processContent ex_root "1.0.0" ex_versionOf ex_stampOf.

Definition ex_run (names : list string) (th : bool) (m : Mode)
    (concurrently : bool) (evs : list Event) : option System :=
  exec (start numberOfThreads (ex_corpus names) th
          (ex_processContent m concurrently)) evs.

(** The state a run of the example corpus ends in (the state it starts
    in when one of the events cannot happen). *)
Definition ex_state (names : list string) (th : bool) (m : Mode)
    (concurrently : bool) (evs : list Event) : System :=
  default (start numberOfThreads (ex_corpus names) th
             (ex_processContent m concurrently))
          (ex_run names th m concurrently evs).

(** Two folders, both jobs admitted, [waitAll] called, and then: the second
    worker exits with code 1; or the first worker reports a mismatch. *)
Definition ex_second_fails : System :=
  ex_state ["a"; "b"] true Compare true
    [Tick; Tick; Tick; Worker 1 (OnExit 1)].
Definition ex_first_fails : System :=
  ex_state ["a"; "b"] true Compare true
    [Tick; Tick; Tick; Worker 0 (OnMessage "snapshot mismatch")].

(** Five folders and four threads: the fifth admission waits, and the four
    workers that run all fail. *)
Definition ex_four_failures : list Event :=
  [Tick; Tick; Tick; Tick; Tick; Tick;
   Worker 0 (OnExit 1); Worker 1 (OnMessage "snapshot mismatch");
   Worker 2 (OnError (JobError "crash")); Worker 3 (OnExit 1)].
Definition ex_starved : System :=
  ex_state ["a"; "b"; "c"; "d"; "e"] true Compare true ex_four_failures.

(** Two folders: both jobs succeed; and, in line, the first job fails. *)
Definition ex_all_pass : System :=
  ex_state ["a"; "b"] true Compare true
    [Tick; Tick; Tick; Worker 0 (OnExit 0); Worker 1 (OnExit 0); Tick].
Definition ex_inline_failure : System :=
  ex_state ["a"; "b"] true Compare false
    [Tick; Tick; Engine 0 (Returns ["snapshot mismatch"])].

(** The calls of [fs] throw errors of the file system only. *)
Inductive fs_error : Error -> Prop :=
| fs_error_intro c p : fs_error (FsError c p).

(** The body of the loop of [processNodeForWrite], and what follows the
    [import] in [processNode]. *)
Definition copy_step (currentSnapshotsDir newSrcDir : path)
    (subNode : Dirent) : Prog unit :=
  assert (negb (isDirectory subNode)) "";;
  copyFileSync (currentSnapshotsDir ++ [name subNode])
               (newSrcDir ++ [name subNode]).

Definition submit (data : ref) (concurrently threads : bool) : Prog unit :=
  if negb concurrently || negb threads
  then await_processOneFile data
  else limiter_addWork data.

(** What the loop of [processNodeForWrite] does for the entries [l]. *)
Definition copies (currentSnapshotsDir newSrcDir : path) (l : list Dirent)
  : list Action :=
  (fun x => ActCopy (currentSnapshotsDir ++ [name x])
                    (newSrcDir ++ [name x])) <$> l.

(** Two states of a run with the same objects, gate, jobs and console:
    they differ in files and in the record of what was done, at most. *)
Record quiet (w w' : World) : Prop := {
  quiet_heap : heap w' = heap w;
  quiet_limiter : limiter w' = limiter w;
  quiet_deferreds : deferreds w' = deferreds w;
  quiet_jobs : jobs w' = jobs w;
  quiet_all : all w' = all w;
  quiet_console : console w' = console w;
  quiet_threads : threads w' = threads w;
}.

(** One folder in Write mode, outside a run of [processContent]: the
    arguments of its job are object [0], the gate is idle. *)
Definition ex_args (n : string) : IWorkerArgs :=
  MkArgs (ex_root ++ [n]) Write 1000 None.
Definition ex_world (f : FS) : World :=
  MkWorld f [ex_args "a"] (MkLimiter [] None numberOfThreads) [] [] None []
          [] true.

(** A test case without its baseline, and one where a failed Stress run
    left its [FailedSnapshots] behind. *)
Definition ex_bare : FS :=
  [(["content"], Dir); (ex_root, Dir); (ex_root ++ ["a"], Dir);
   (ex_root ++ ["a"; "messages.json"], File "ops")].
Definition ex_leftover : FS :=
  ex_corpus ["a"]
  ++ [(ex_root ++ ["a"; "current_snapshots"; "FailedSnapshots"], Dir);
      (ex_root ++ ["a"; "current_snapshots"; "late.json"], File "late")].

(** What may happen to the files of [current_snapshots] between two runs:
    files directly inside it are written (the replayed snapshots, the
    version stamp) or removed. *)
Inductive baseline_edits (currentSnapshotsDir : path) : FS -> FS -> Prop :=
| edits_none f : baseline_edits currentSnapshotsDir f f
| edits_write f f' x t :
    baseline_edits currentSnapshotsDir f f' ->
    baseline_edits currentSnapshotsDir f
      (fs_put f' (currentSnapshotsDir ++ [x]) (File t))
| edits_unlink f f' x :
    baseline_edits currentSnapshotsDir f f' ->
    baseline_edits currentSnapshotsDir f
      (fs_del f' (currentSnapshotsDir ++ [x])).

(** Write mode twice for one folder, by a build whose version is the one
    of the stamp: the first migration; the files after the job has
    replayed the snapshot and the stamp was written again; the second
    migration. *)
Definition ex_first : System :=
  run (processNodeForWrite "0.9.0" ex_versionOf ex_stampOf 0%nat true
         ≫= (fun _ => Ret tt))
      (ex_world (ex_corpus ["a"])).
Definition ex_between : FS :=
  fs_put
    (fs_put (fs (world ex_first))
       ((folder (ex_args "a") ++ ["current_snapshots"])
          ++ ["snapshot_1000.json"])
       (File "tree, replayed"))
    ((folder (ex_args "a") ++ ["current_snapshots"])
       ++ ["snapshotVersion.json"])
    (File "0.9.0").
Definition ex_second : System :=
  run (processNodeForWrite "0.9.0" ex_versionOf ex_stampOf 0%nat true
         ≫= (fun _ => Ret tt))
      (ex_world ex_between).

(** A state without what was written to the console, and two outcomes of
    a run that are the same up to the console. *)
Definition mute (w : World) : World :=
  MkWorld (fs w) (heap w) (limiter w) (deferreds w) (jobs w) (all w) []
          (acts w) (threads w).

Definition same_outcome (o o' : option System) : Prop :=
  match o, o' with
  | Some s, Some s' => ctl s = ctl s' /\ mute (world s) = mute (world s')
  | None, None => True
  | _, _ => False
  end.

(** A corpus with a folder that has no operation log. *)
Definition ex_nolog : FS := ex_corpus ["a"] ++ [(ex_root ++ ["nolog"], Dir)].

(** The body of the loop of [processNodeForValidate]. *)
Definition validate_step (data : ref) (concurrently : bool)
    (srcSnapshotsFolder : path) (node : Dirent) : Prog unit :=
  if negb (isDirectory node) then Ret tt
  else
    setInitializeFromSnapshotsDir data (srcSnapshotsFolder ++ [name node]);;
    processNode data concurrently.

(** The arguments of the jobs of Validate mode for the entries [l] of
    [src_snapshots]: one for each directory, in the order of the listing. *)
Definition versionJobs (d : IWorkerArgs) (l : list Dirent)
  : list IWorkerArgs :=
  (fun n => MkArgs (folder d) (mode d) (snapFreq d)
                   (Some ((folder d ++ ["src_snapshots"]) ++ [name n])))
    <$> List.filter isDirectory l.

(** What [readdirSync] lists, nothing when it throws. *)
Definition listing (f : FS) (p : path) : list Dirent :=
  match fs_readdirSync f p with Ok l => l | Err _ => [] end.

(** Where the workflow of [processNodeForValidate] can be, with the
    entries [done] behind it and [rest] to come. *)
Inductive validate_ctl (data : ref) (concurrently : bool) (d : IWorkerArgs)
    (h : list IWorkerArgs) : list Dirent -> list Dirent -> Control -> Prop :=
| at_start rest :
    h !! data = Some d ->
    validate_ctl data concurrently d h [] rest
      (Ready (processNodeForValidate data concurrently))
| at_loop done rest :
    validate_ctl data concurrently d h done rest
      (Ready (forOf rest (validate_step data concurrently
                            (folder d ++ ["src_snapshots"]))))
| at_submit done n rest th :
    isDirectory n = true ->
    h !! data
    = Some (MkArgs (folder d) (mode d) (snapFreq d)
                   (Some ((folder d ++ ["src_snapshots"]) ++ [name n]))) ->
    validate_ctl data concurrently d h done (n :: rest)
      (Ready (submit data concurrently th;;
              forOf rest (validate_step data concurrently
                            (folder d ++ ["src_snapshots"]))))
| at_gate done n rest dd :
    isDirectory n = true ->
    h !! data
    = Some (MkArgs (folder d) (mode d) (snapFreq d)
                   (Some ((folder d ++ ["src_snapshots"]) ++ [name n]))) ->
    validate_ctl data concurrently d h done (n :: rest)
      (AwaitDeferred dd data
         (forOf rest (validate_step data concurrently
                        (folder d ++ ["src_snapshots"]))))
| at_job done rest j :
    validate_ctl data concurrently d h done rest
      (AwaitInline j
         (forOf rest (validate_step data concurrently
                        (folder d ++ ["src_snapshots"]))))
| at_end done :
    validate_ctl data concurrently d h done [] (Settled Fulfilled)
| at_error done rest e :
    validate_ctl data concurrently d h done rest (Settled (Rejected e)).

Inductive validate_inv (data : ref) (concurrently : bool) (d : IWorkerArgs)
    (f : FS) (base : list IWorkerArgs) (s : System) : Prop :=
| validate_inv_intro done rest :
    listing f (folder d ++ ["src_snapshots"]) = done ++ rest ->
    validate_ctl data concurrently d (heap (world s)) done rest (ctl s) ->
    fs (world s) = f ->
    (exists a, heap (world s) !! data = Some a
               /\ folder a = folder d /\ mode a = mode d
               /\ snapFreq a = snapFreq d) ->
    workerData <$> jobs (world s) = base ++ versionJobs d done ->
    validate_inv data concurrently d f base s.

(** A test case with the snapshots of three older versions, its job
    arguments as [processContent] makes them in Validate mode, and two
    runs of its workflow: with worker threads, to the end; in line, where
    the first job fails. *)
Definition ex_versions : FS :=
  [(["content"], Dir); (ex_root, Dir); (ex_root ++ ["a"], Dir);
   (ex_root ++ ["a"; "messages.json"], File "ops");
   (ex_root ++ ["a"; "src_snapshots"], Dir);
   (ex_root ++ ["a"; "src_snapshots"; "1.0"], Dir);
   (ex_root ++ ["a"; "src_snapshots"; "README.md"], File "notes");
   (ex_root ++ ["a"; "src_snapshots"; "2.0"], Dir);
   (ex_root ++ ["a"; "src_snapshots"; "3.0"], Dir)].
Definition ex_validate_args : IWorkerArgs :=
  MkArgs (ex_root ++ ["a"]) Validate 1000 None.
Definition ex_validate_world : World :=
  MkWorld ex_versions [ex_validate_args] (MkLimiter [] None numberOfThreads)
          [] [] None [] [] true.
Definition ex_validate (concurrently : bool) (evs : list Event) : System :=
  default (MkSystem ex_validate_world (Ready (Ret tt)))
    (exec (MkSystem ex_validate_world
             (Ready (processNodeForValidate 0%nat concurrently))) evs).
Definition ex_validated : System :=
  ex_validate true [Tick; Tick; Tick; Tick].
Definition ex_validate_failed : System :=
  ex_validate false [Tick; Tick; Engine 0 (Returns ["snapshot mismatch"])].

(** The actions of the workflow that starts job [j]: all but the reports
    of other jobs. *)
Definition is_own (j : nat) (a : Action) : bool :=
  match a with ActSettle i _ => bool_decide (i = j) | _ => true end.

(** What the workflow of one folder in Write mode can have done, in order:
    [migration] is the [mkdir] and the copies, [stamp] the write of the
    version stamp, [j] the job, [inline] whether the job runs in line. *)
Inductive write_trace (migration : list Action) (j : nat) (stamp : Action)
    (inline : bool) : list Action -> Prop :=
| wt_migrating tr :
    tr `prefix_of` migration -> write_trace migration j stamp inline tr
| wt_started :
    write_trace migration j stamp inline (migration ++ [ActStart j])
| wt_settled ok :
    write_trace migration j stamp inline
      (migration ++ [ActStart j; ActSettle j ok])
| wt_inline_stamped :
    inline = true ->
    write_trace migration j stamp inline
      (migration ++ [ActStart j; ActSettle j true; stamp])
| wt_threads_stamped :
    inline = false ->
    write_trace migration j stamp inline (migration ++ [ActStart j; stamp])
| wt_threads_reported ok :
    inline = false ->
    write_trace migration j stamp inline
      (migration ++ [ActStart j; stamp; ActSettle j ok]).

(** Where that workflow can be, and what it has done there. [main] is the
    workflow, [f0], [h0] and [th] are the files, the objects and the
    worker-thread module it starts with. *)
Inductive write_phase (main : Prog unit) (f0 : FS) (h0 : list IWorkerArgs)
    (th : bool) (data : ref) (concurrently : bool) (migration : list Action)
    (j : nat) (vf : path) (text : string) (s : System)
  : list Action -> Prop :=
| wp_start :
    ctl s = Ready main ->
    fs (world s) = f0 -> heap (world s) = h0 -> threads (world s) = th ->
    length (jobs (world s)) = j ->
    write_phase main f0 h0 th data concurrently migration j vf text s []
| wp_stopped e tr :
    ctl s = Settled (Rejected e) ->
    length (jobs (world s)) = j ->
    tr `prefix_of` migration ->
    write_phase main f0 h0 th data concurrently migration j vf text s tr
| wp_ready :
    ctl s = Ready (submit data concurrently th;; writeFileSync vf text) ->
    length (jobs (world s)) = j ->
    write_phase main f0 h0 th data concurrently migration j vf text s
      migration
| wp_gate dd :
    negb concurrently || negb th = false ->
    ctl s = AwaitDeferred dd data (writeFileSync vf text) ->
    length (jobs (world s)) = j ->
    write_phase main f0 h0 th data concurrently migration j vf text s
      migration
| wp_inline job :
    negb concurrently || negb th = true ->
    ctl s = AwaitInline j (writeFileSync vf text) ->
    jobs (world s) !! j = Some job -> inline job = true ->
    write_phase main f0 h0 th data concurrently migration j vf text s
      (migration ++ [ActStart j])
| wp_inline_ok job :
    negb concurrently || negb th = true ->
    ctl s = Ready (writeFileSync vf text) ->
    jobs (world s) !! j = Some job -> inline job = true ->
    write_phase main f0 h0 th data concurrently migration j vf text s
      (migration ++ [ActStart j; ActSettle j true])
| wp_inline_end job c ok tail :
    negb concurrently || negb th = true ->
    ctl s = Settled c ->
    jobs (world s) !! j = Some job -> inline job = true ->
    (tail = [] /\ c <> Fulfilled
     \/ tail = [ActWrite vf text] /\ ok = true) ->
    write_phase main f0 h0 th data concurrently migration j vf text s
      (migration ++ [ActStart j; ActSettle j ok] ++ tail)
| wp_threads job c wr st :
    negb concurrently || negb th = false ->
    ctl s = Settled c ->
    jobs (world s) !! j = Some job -> inline job = false ->
    (wr = [] /\ c <> Fulfilled \/ wr = [ActWrite vf text]) ->
    (st = [] /\ settled job = Pending
     \/ (exists ok, st = [ActSettle j ok]) /\ settled job <> Pending) ->
    write_phase main f0 h0 th data concurrently migration j vf text s
      (migration ++ [ActStart j] ++ wr ++ st).

(** The workflow of Write mode for one folder, in line and with worker
    threads: to its end; and with worker threads, when the dispatcher has
    run twice and the worker has not reported, and when it then exits
    with code 1. *)
Definition ex_write (concurrently : bool) (evs : list Event) : System :=
  default (MkSystem (ex_world (ex_corpus ["a"])) (Ready (Ret tt)))
    (exec (MkSystem (ex_world (ex_corpus ["a"]))
             (Ready (processNodeForWrite "1.0.0" ex_versionOf ex_stampOf
                       0%nat concurrently))) evs).
Definition ex_written : System :=
  ex_write false [Tick; Tick; Engine 0 (Returns []); Tick].
Definition ex_stamped_early : System := ex_write true [Tick; Tick].
Definition ex_stamped_then_failed : System :=
  ex_write true [Tick; Tick; Worker 0 (OnExit 1)].

(** The same workflow in line, when the replay finds a mismatch. *)
Definition ex_write_failed_in_line : System :=
  ex_write false [Tick; Tick; Engine 0 (Returns ["snapshot mismatch"])].

(** The promise [p] of every job is settled as the job is: the callback
    of [then] has not turned a success into a failure. *)
Definition mirrors (w : World) : Prop :=
  Forall (fun job => chained job = settled job) (jobs w).

(** Five folders and four threads, when the fifth admission waits. *)
Definition ex_waiting : System :=
  ex_state ["a"; "b"; "c"; "d"; "e"] true Compare true
    [Tick; Tick; Tick; Tick; Tick; Tick].

(** The job the dispatcher waits for in line has not settled. *)
Definition awaits_pending (s : System) : Prop :=
  match ctl s with
  | AwaitInline j _ =>
      exists job, jobs (world s) !! j = Some job /\ inline job = true
                  /\ settled job = Pending
  | _ => True
  end.

(** After six turns of the dispatcher, the first worker reports a
    mismatch. *)
Definition ex_reported : System :=
  default ex_waiting (step ex_waiting (Worker 0 (OnMessage "mismatch"))).

(** The body of the loop of [cleanFailedSnapshots], and what the loop
    does for the entries [l]: directories are passed over. *)
Definition clean_step (failedSnapshotsDir : path) (node : Dirent)
  : Prog unit :=
  if isDirectory node then Ret tt
  else unlinkSync (failedSnapshotsDir ++ [name node]).

Definition unlinks (failedSnapshotsDir : path) (l : list Dirent)
  : list Action :=
  (fun x => ActUnlink (failedSnapshotsDir ++ [name x]))
    <$> List.filter (fun x => negb (isDirectory x)) l.

(** A test case whose [FailedSnapshots] holds two files, and one where it
    also holds a folder. *)
Definition ex_failed : FS :=
  ex_corpus ["a"]
  ++ [(ex_root ++ ["a"; "current_snapshots"; "FailedSnapshots"], Dir);
      (ex_root ++ ["a"; "current_snapshots"; "FailedSnapshots"; "s1.json"],
       File "x");
      (ex_root ++ ["a"; "current_snapshots"; "FailedSnapshots"; "s2.json"],
       File "y")].
Definition ex_failed_nested : FS :=
  ex_failed
  ++ [(ex_root ++ ["a"; "current_snapshots"; "FailedSnapshots"; "old"], Dir)].

(** The test case [a] after a Stress run that failed, every folder
    listed by name. *)
Definition ex_stress_leftover : FS :=
  [(["content"], Dir); (ex_root, Dir); (ex_root ++ ["a"], Dir);
   (ex_root ++ ["a"; "current_snapshots"], Dir);
   (ex_root ++ ["a"; "current_snapshots"; "FailedSnapshots"], Dir);
   (ex_root ++ ["a"; "current_snapshots"; "FailedSnapshots"; "s1.json"],
    File "x");
   (ex_root ++ ["a"; "current_snapshots"; "FailedSnapshots"; "s2.json"],
    File "y");
   (ex_root ++ ["a"; "current_snapshots"; "snapshotVersion.json"],
    File "0.9.0");
   (ex_root ++ ["a"; "current_snapshots"; "snapshot_1000.json"],
    File "tree");
   (ex_root ++ ["a"; "messages.json"], File "ops")].

(** The entries of the corpus that start no workflow: files, and folders
    without an operation log; and what is written to the console for the
    entries [l] when all of them are such. *)
Definition passed_over (f : FS) (fileLocation : path) (node : Dirent)
  : bool :=
  negb (isDirectory node)
  || negb (fs_existsSync f ((fileLocation ++ [name node])
                              ++ ["messages.json"])).

Definition notices (fileLocation : path) (l : list Dirent) : list string :=
  (fun node => "Can't locate "
               +:+ render ((fileLocation ++ [name node])
                             ++ ["messages.json"]))
    <$> List.filter isDirectory l.

(** A corpus with nothing to replay: a file and a folder without log. *)
Definition ex_idle : FS :=
  [(["content"], Dir); (ex_root, Dir); (ex_root ++ ["README.md"], File "-");
   (ex_root ++ ["nolog"], Dir)].

(** The arguments [processContent] makes for a folder of the corpus in
    mode [m]; only Validate mode sets [initializeFromSnapshotsDir]. *)
Definition args_of_run (fileLocation : path) (m : Mode) (a : IWorkerArgs)
  : Prop :=
  mode a = m
  /\ snapFreq a = (if decide (m = Stress) then 50 else 1000)
  /\ (exists n, folder a = fileLocation ++ [n])
  /\ (m <> Validate -> initializeFromSnapshotsDir a = None).

(** Every object of arguments [p] makes satisfies [P], and [p] sets
    [initializeFromSnapshotsDir] only if [allowed]. *)
Fixpoint makes {A : Type} (P : IWorkerArgs -> Prop) (allowed : Prop)
    (p : Prog A) : Prop :=
  match p with
  | Ret _ | Throw _ => True
  | ExistsSync _ k => forall x, makes P allowed (k x)
  | ReaddirSync _ k => forall x, makes P allowed (k x)
  | ReadFileSync _ k => forall x, makes P allowed (k x)
  | MkdirSync _ k => makes P allowed k
  | CopyFileSync _ _ k => makes P allowed k
  | WriteFileSync _ _ k => makes P allowed k
  | UnlinkSync _ k => makes P allowed k
  | RmdirSync _ k => makes P allowed k
  | ConsoleError _ k => makes P allowed k
  | NewArgs a k => P a /\ forall x, makes P allowed (k x)
  | GetArgs _ k => forall x, makes P allowed (k x)
  | SetInitializeFromSnapshotsDir _ _ k => allowed /\ makes P allowed k
  | ImportWorkerThreads k => forall x, makes P allowed (k x)
  | AddWork _ k => makes P allowed k
  | ProcessOneFile _ k => makes P allowed k
  | WaitAll k => makes P allowed k
  end.

(** The invariant: the objects, the jobs and what the dispatcher is still
    to run. *)
Definition args_inv (P : IWorkerArgs -> Prop) (allowed : Prop) (s : System)
  : Prop :=
  Forall P (heap (world s))
  /\ Forall (fun job => P (workerData job)) (jobs (world s))
  /\ match ctl s with
     | Ready p | AwaitDeferred _ _ p | AwaitInline _ p | AwaitAll p =>
         makes P allowed p
     | Settled _ => True
     end.

(** Test cases whose baseline cannot be migrated: the stamp is a folder;
    a file lies where the archive of the version is to be made. *)
Definition ex_stamp_is_folder : FS :=
  [(["content"], Dir); (ex_root, Dir); (ex_root ++ ["a"], Dir);
   (ex_root ++ ["a"; "current_snapshots"], Dir);
   (ex_root ++ ["a"; "current_snapshots"; "snapshotVersion.json"], Dir)].
Definition ex_archive_blocked : FS :=
  ex_corpus ["a"] ++ [(ex_root ++ ["a"; "src_snapshots"], File "oops")].

(** [p] does not call [limiter.addWork] when the import of
    [worker_threads] gives [th]. *)
Fixpoint no_addWork {A : Type} (th : bool) (p : Prog A) : Prop :=
  match p with
  | Ret _ | Throw _ => True
  | ExistsSync _ k => forall x, no_addWork th (k x)
  | ReaddirSync _ k => forall x, no_addWork th (k x)
  | ReadFileSync _ k => forall x, no_addWork th (k x)
  | MkdirSync _ k => no_addWork th k
  | CopyFileSync _ _ k => no_addWork th k
  | WriteFileSync _ _ k => no_addWork th k
  | UnlinkSync _ k => no_addWork th k
  | RmdirSync _ k => no_addWork th k
  | ConsoleError _ k => no_addWork th k
  | NewArgs _ k => forall x, no_addWork th (k x)
  | GetArgs _ k => forall x, no_addWork th (k x)
  | SetInitializeFromSnapshotsDir _ _ k => no_addWork th k
  | ImportWorkerThreads k => no_addWork th (k th)
  | AddWork _ k => False
  | ProcessOneFile _ k => no_addWork th k
  | WaitAll k => no_addWork th k
  end.

(** The invariant of a run in line: the gate is as it was made. *)
Definition inline_inv (C : Z) (th : bool) (s : System) : Prop :=
  limiter (world s) = MkLimiter [] None C
  /\ deferreds (world s) = []
  /\ threads (world s) = th
  /\ Forall (fun job => inline job = true) (jobs (world s))
  /\ (all (world s) = None \/ all (world s) = Some ([], Fulfilled))
  /\ match ctl s with
     | Ready p | AwaitInline _ p => no_addWork th p
     | AwaitDeferred _ _ _ | AwaitAll _ => False
     | Settled _ => True
     end.

(** ** [getFileLocations]

    Here the paths of the file system are absolute. A location is a path
    relative to the working directory, as written in the source, or an
    absolute path, as [nodePath.join(__dirname, "..", p)] makes it. *)
Inductive Location : Type :=
| Relative (p : path)
| Absolute (p : path).

Definition resolve_location (cwd : path) (l : Location) : path :=
  match l with Relative p => cwd ++ p | Absolute p => p end.

Definition getFileLocations (f : FS) (cwd dirname : path)
  : result (Location * Location) :=
  let origTestCollateralPath := ["content"; "snapshotTestContent"] in
  let workerPath := ["dist"; "replayWorker.js"] in
  if fs_existsSync f (cwd ++ origTestCollateralPath) then
    if fs_existsSync f (cwd ++ workerPath)
    then Ok (Relative origTestCollateralPath, Relative workerPath)
    else Err (AssertionError
                "Cannot find worker js file: ./dist/replayWorker.js")
  else
    let testCollateralPath := parent dirname ++ origTestCollateralPath in
    let workerPath := parent dirname ++ workerPath in
    if fs_existsSync f testCollateralPath then
      if fs_existsSync f workerPath
      then Ok (Absolute testCollateralPath, Absolute workerPath)
      else Err (AssertionError
                  ("Cannot find worker js file: /" +:+ render workerPath))
    else Err (AssertionError
                "Cannot find test collateral path: content/snapshotTestContent").

(** A package built in [/pkg], run from a directory that has test content
    of its own and no worker. *)
Definition ex_disk : FS :=
  [(["pkg"], Dir); (["pkg"; "dist"], Dir);
   (["pkg"; "dist"; "replayWorker.js"], File "js");
   (["pkg"; "content"], Dir);
   (["pkg"; "content"; "snapshotTestContent"], Dir);
   (["work"], Dir); (["work"; "content"], Dir);
   (["work"; "content"; "snapshotTestContent"], Dir)].

(** ** Runs in line

    A job that ran in line and succeeded; and the shape of the jobs of a
    run in line: every job has succeeded but the last one, which may be
    the one the dispatcher waits for, or the one that failed and ended the
    run. *)
Definition passed (job : Job) : Prop :=
  inline job = true /\ settled job = Fulfilled /\ chained job = Fulfilled.

Definition sequential (s : System) : Prop :=
  match ctl s with
  | AwaitInline j _ =>
      exists done a,
        jobs (world s) = done ++ [MkJob a true Pending Pending]
        /\ j = length done /\ Forall passed done
  | Settled (Rejected e) =>
      exists done rest,
        jobs (world s) = done ++ rest /\ Forall passed done
        /\ (rest = []
            \/ exists a, rest = [MkJob a true (Rejected e) (Rejected e)])
  | _ => Forall passed (jobs (world s))
  end.

(** The second test case of a run in line is being replayed. *)
Definition ex_second_in_line : System :=
  ex_state ["a"; "b"] true Compare false
    [Tick; Tick; Engine 0 (Returns []); Tick; Tick].

(** The events of a run in line in which every replay succeeds. *)
Definition replays_succeed (evs : list Event) : Prop :=
  Forall (fun ev => match ev with
                    | Tick => True
                    | Engine _ res => res = Returns []
                    | Worker _ _ => False
                    end) evs.

(** ** What the dispatcher does to the files

    [writes P p]: every call of [p] that changes files is recorded as an
    action of [P]. The invariant of a run: so is every action recorded so
    far, and every call of what the dispatcher is still to run. *)
Fixpoint writes {A : Type} (P : Action -> Prop) (p : Prog A) : Prop :=
  match p with
  | Ret _ | Throw _ => True
  | ExistsSync _ k => forall x, writes P (k x)
  | ReaddirSync _ k => forall x, writes P (k x)
  | ReadFileSync _ k => forall x, writes P (k x)
  | MkdirSync q k => P (ActMkdir q) /\ writes P k
  | CopyFileSync src dst k => P (ActCopy src dst) /\ writes P k
  | WriteFileSync q t k => P (ActWrite q t) /\ writes P k
  | UnlinkSync q k => P (ActUnlink q) /\ writes P k
  | RmdirSync q k => P (ActRmdir q) /\ writes P k
  | ConsoleError _ k => writes P k
  | NewArgs _ k => forall x, writes P (k x)
  | GetArgs _ k => forall x, writes P (k x)
  | SetInitializeFromSnapshotsDir _ _ k => writes P k
  | ImportWorkerThreads k => forall x, writes P (k x)
  | AddWork _ k => writes P k
  | ProcessOneFile _ k => writes P k
  | WaitAll k => writes P k
  end.

Definition writes_inv (P : Action -> Prop) (s : System) : Prop :=
  Forall P (acts (world s))
  /\ match ctl s with
     | Ready p | AwaitDeferred _ _ p | AwaitInline _ p | AwaitAll p =>
         writes P p
     | Settled _ => True
     end.

(** What the dispatcher does outside Write mode: it starts jobs, takes
    their reports, and removes what a failed Stress run left in the
    [FailedSnapshots] of a test case. *)
Definition cleans (fileLocation : path) (a : Action) : Prop :=
  match a with
  | ActStart _ | ActSettle _ _ => True
  | ActUnlink q =>
      exists n x,
        q = fileLocation ++ [n; "current_snapshots"; "FailedSnapshots"; x]
  | ActRmdir q =>
      exists n, q = fileLocation ++ [n; "current_snapshots"; "FailedSnapshots"]
  | ActMkdir _ | ActCopy _ _ | ActWrite _ _ => False
  end.

(** A Compare run over a corpus where a Stress run had failed. *)
Definition ex_compare_after_stress : System :=
  default (start numberOfThreads ex_stress_leftover true (Ret tt))
    (exec (start numberOfThreads ex_stress_leftover true
             (processContent ex_root "1.0.0" ex_versionOf ex_stampOf
                Compare true))
       [Tick; Tick; Worker 0 (OnExit 0); Tick]).

(** * Theorems *)

(** ** Counting jobs *)

Lemma count_app {A : Type} (P : A -> bool) (l1 l2 : list A) :
  count P (l1 ++ l2) = count P l1 + count P l2.
Proof. induction l1 as [|x l1 IH]; simpl; [lia | rewrite IH; lia]. Qed.

Lemma count_nonneg {A : Type} (P : A -> bool) (l : list A) : 0 <= count P l.
Proof. induction l as [|x l IH]; simpl; [lia | destruct (P x); lia]. Qed.

Lemma count_insert {A : Type} (P : A -> bool) (l : list A) (j : nat) (x y : A) :
  l !! j = Some x ->
  count P (<[j := y]> l)
  = count P l - (if P x then 1 else 0) + (if P y then 1 else 0).
Proof.
  revert j. induction l as [|a l IH]; intros [|j] H; simpl in *; try discriminate.
  - injection H as ->. lia.
  - rewrite (IH j H). lia.
Qed.

Lemma count_le {A : Type} (P Q : A -> bool) (l : list A) :
  (forall x, P x = true -> Q x = true) -> count P l <= count Q l.
Proof.
  intros HPQ. induction l as [|a l IH]; simpl; [lia|].
  destruct (P a) eqn:Ha; [rewrite (HPQ a Ha); lia|].
  destruct (Q a); lia.
Qed.

Lemma running_le_held (w : World) : running w <= held w.
Proof.
  apply count_le. intros job. unfold runs, holds_slot.
  destruct (inline job), (settled job); simpl; congruence.
Qed.

(** ** The invariant of the gate *)

Lemma gate_inv_idle C w c :
  waiting c = 0 -> gate_inv C w c <-> gate_ready C w.
Proof.
  intros Hc. unfold gate_ready.
  split; intros [H1 H2 H3 H4]; split; auto; destruct c; simpl in *; try lia; auto.
Qed.

Lemma gate_ready_same C w w' :
  limiter w' = limiter w -> jobs w' = jobs w -> deferreds w' = deferreds w ->
  gate_ready C w -> gate_ready C w'.
Proof.
  intros Hl Hj Hd [H1 H2 H3 H4]. split; simpl in *; unfold held in *;
    rewrite ?Hl, ?Hj, ?Hd; auto.
Qed.

Lemma startWorker_ready C w r w' :
  startWorker w r = Ok w' ->
  deferred (limiter w) = None ->
  0 <= limit (limiter w) ->
  limit (limiter w) <= C - held w - 1 ->
  Forall (fun n => (n <= 1)%nat) (deferreds w) ->
  gate_ready C w'.
Proof.
  unfold startWorker. destruct (heap w !! r); [|discriminate].
  intros [= <-] Hd Hl Hc Ho. split; simpl; auto.
  - unfold held. simpl. rewrite count_app. simpl. fold (held w). lia.
  - intros d. rewrite Hd. discriminate.
Qed.

Lemma gate_ready_ctl C w c : waiting c = 0 -> gate_ready C w -> gate_inv C w c.
Proof. intros. by apply gate_inv_idle. Qed.

Lemma run_gate_inv C (p : Prog unit) :
  forall w, gate_ready C w -> gate_inv C (world (run p w)) (ctl (run p w)).
Proof.
  assert (Hfail : forall w e, gate_ready C w -> gate_inv C w (Settled (Rejected e))).
  { intros. by apply gate_ready_ctl. }
  induction p as [a|e|q k IH|q k IH|q k IH|q k IH|src dst k IH|q t k IH|q k IH
                 |q k IH|msg k IH|a k IH|r k IH|r d k IH|k IH|r k IH|r k IH|k IH];
    intros w Hw; simpl.
  - exact Hw.
  - by apply Hfail.
  - apply IH, Hw.
  - destruct (fs_readdirSync _ _); simpl; [apply IH, Hw | by apply Hfail].
  - destruct (fs_readFileSync _ _); simpl; [apply IH, Hw | by apply Hfail].
  - destruct (fs_mkdirSync _ _); simpl; [|by apply Hfail].
    apply IH. revert Hw. by apply gate_ready_same.
  - destruct (fs_copyFileSync _ _ _); simpl; [|by apply Hfail].
    apply IH. revert Hw. by apply gate_ready_same.
  - destruct (fs_writeFileSync _ _ _); simpl; [|by apply Hfail].
    apply IH. revert Hw. by apply gate_ready_same.
  - destruct (fs_unlinkSync _ _); simpl; [|by apply Hfail].
    apply IH. revert Hw. by apply gate_ready_same.
  - destruct (fs_rmdirSync _ _); simpl; [|by apply Hfail].
    apply IH. revert Hw. by apply gate_ready_same.
  - apply IH. revert Hw. by apply gate_ready_same.
  - apply IH. revert Hw. by apply gate_ready_same.
  - destruct (heap w !! r); simpl; [apply IH, Hw | by apply Hfail].
  - destruct (heap w !! r); simpl; [|by apply Hfail].
    apply IH. revert Hw. by apply gate_ready_same.
  - apply gate_ready_ctl; [done | exact Hw].
  - destruct Hw as [H1 H2 H3 H4]. simpl in *. destruct H2 as [H2 H2'].
    unfold addWork. simpl. rewrite H2.
    destruct (decide (limit (limiter w) - 1 < 0)) as [Hneg|Hpos]; simpl.
    + split; simpl.
      * unfold held in *. simpl. lia.
      * unfold resolved. simpl.
        rewrite lookup_app_r by lia. rewrite Nat.sub_diag. simpl.
        split; [done | lia].
      * apply Forall_app. split; [done | repeat constructor].
      * intros d [= <-]. rewrite lookup_app_r by lia.
        by rewrite Nat.sub_diag.
    + destruct (startWorker _ r) as [w2|e] eqn:Hs; simpl.
      * apply IH. eapply startWorker_ready; [exact Hs | simpl; auto ..].
        -- lia.
        -- unfold held in *. simpl. lia.
      * split; simpl; auto.
        -- unfold held in *. simpl. lia.
        -- split; [done | lia].
        -- discriminate.
  - destruct (heap w !! r); simpl; [|by apply Hfail].
    destruct Hw as [H1 H2 H3 H4]. split; simpl in *; auto.
    unfold held in *. simpl. rewrite count_app. simpl. lia.
  - set (r := promise_all _).
    assert (Hw' : gate_ready C (set_all w (Some (promises (limiter w), r)))).
    { revert Hw. apply gate_ready_same; reflexivity. }
    destruct r as [| |e]; simpl.
    + apply gate_ready_ctl; [done | exact Hw'].
    + apply IH, Hw'.
    + by apply Hfail.
Qed.


Lemma gate_inv_ext C w w' c :
  limiter w' = limiter w -> held w' <= held w -> deferreds w' = deferreds w ->
  gate_inv C w c -> gate_inv C w' c.
Proof.
  intros Hl Hh Hd [H1 H2 H3 H4].
  split; unfold resolved in *; rewrite ?Hl, ?Hd; auto. lia.
Qed.

Lemma gate_inv_swap C w c c' :
  waiting c = 0 -> waiting c' = 0 -> gate_inv C w c -> gate_inv C w c'.
Proof.
  intros Hc Hc' H. apply gate_inv_idle; [done|]. by apply (gate_inv_idle C w c).
Qed.

Lemma gate_inv_wake C w c : gate_inv C w c -> gate_inv C w (wake w c).
Proof.
  intros H. destruct c; simpl; auto.
  destruct (all w) as [[? [| |e]]|]; auto; by apply (gate_inv_swap C w (AwaitAll k)).
Qed.

Lemma all_reacts_limiter w j r : limiter (all_reacts w j r) = limiter w.
Proof.
  unfold all_reacts. destruct (all w) as [[ws [| |e]]|]; try done.
  destruct (decide _); [|done]. destruct r; [done| |done].
  by destruct (forallb _ _).
Qed.
Lemma all_reacts_jobs w j r : jobs (all_reacts w j r) = jobs w.
Proof.
  unfold all_reacts. destruct (all w) as [[ws [| |e]]|]; try done.
  destruct (decide _); [|done]. destruct r; [done| |done].
  by destruct (forallb _ _).
Qed.
Lemma all_reacts_deferreds w j r : deferreds (all_reacts w j r) = deferreds w.
Proof.
  unfold all_reacts. destruct (all w) as [[ws [| |e]]|]; try done.
  destruct (decide _); [|done]. destruct r; [done| |done].
  by destruct (forallb _ _).
Qed.

Lemma held_set_job w j job job' :
  jobs w !! j = Some job ->
  held (set_job w j job')
  = held w - (if holds_slot job then 1 else 0)
           + (if holds_slot job' then 1 else 0).
Proof. intros H. unfold held. simpl. by apply count_insert. Qed.

Lemma listener_settles m ev : listener m ev <> Pending.
Proof.
  destruct ev; simpl; try done; by destruct (decide _).
Qed.

Lemma worker_reports_gate_inv C s j job ev :
  jobs (world s) !! j = Some job -> inline job = false ->
  gate_inv C (world s) (ctl s) ->
  gate_inv C (world (worker_reports s j job ev))
             (ctl (worker_reports s j job ev)).
Proof.
  intros Hj Hin Hinv. unfold worker_reports.
  destruct (settled job) eqn:Hst; try exact Hinv.
  pose proof (listener_settles (mode (workerData job)) ev) as Hne.
  assert (Hold : holds_slot job = true).
  { unfold holds_slot. by rewrite Hin, Hst. }
  destruct (listener _ ev) as [| |e] eqn:Hr; [done| |].
  - (* the job succeeded: the callback runs *)
    destruct Hinv as [H1 H2 H3 H4].
    unfold onFulfilled.
    destruct (deferred (limiter (world s))) as [d|] eqn:Hd.
    + assert (Hl : limit (limiter (world s)) = -1
                   /\ deferreds (world s) !! d = Some 0%nat).
      { split; [|by apply H4].
        destruct (ctl s); try (by destruct H2).
        destruct (resolved _ _); by destruct H2. }
      destruct Hl as [Hl Hz].
      destruct (decide (limit (limiter (world s)) + 1 = 0)) as [_|]; [|lia].
      simpl. apply gate_inv_wake. split.
      * rewrite all_reacts_limiter at 1. unfold held.
        rewrite all_reacts_jobs. simpl.
        rewrite (count_insert _ _ _ job) by done. rewrite Hold. simpl.
        fold (held (world s)). destruct (ctl s); simpl in *; lia.
      * rewrite all_reacts_limiter. unfold resolved.
        rewrite all_reacts_deferreds. simpl.
        destruct (ctl s) as [|d' ? ?| | |] eqn:Hc; try (split; [done|lia]).
        unfold resolved in H2.
        destruct (decide (d = d')) as [Heq|Hdd].
        -- subst d'. rewrite list_lookup_alter_eq, Hz. simpl. split; [done|lia].
        -- rewrite list_lookup_alter_ne by done.
           destruct (deferreds (world s) !! d') as [[|?]|] eqn:Hd';
             simpl; try (split; [done|lia]);
             destruct H2 as [H2 _]; congruence.
      * rewrite all_reacts_deferreds. simpl.
        apply Forall_alter; [done|]. intros n Hn. rewrite Hz in Hn.
        injection Hn as <-. lia.
      * rewrite all_reacts_limiter. simpl. discriminate.
    + simpl. apply gate_inv_wake. split.
      * rewrite all_reacts_limiter at 1. unfold held.
        rewrite all_reacts_jobs. simpl.
        rewrite (count_insert _ _ _ job) by done. rewrite Hold. simpl.
        fold (held (world s)). lia.
      * rewrite all_reacts_limiter. unfold resolved.
        rewrite all_reacts_deferreds. simpl.
        destruct (ctl s) as [|d' ? ?| | |] eqn:Hc;
          try (destruct H2; split; [done|lia]).
        unfold resolved in H2. 
        destruct (deferreds (world s) !! d') as [[|?]|] eqn:Hd';
          simpl; try (destruct H2; split; [done|lia]);
          destruct H2 as [H2 _]; congruence.
      * by rewrite all_reacts_deferreds.
      * rewrite all_reacts_limiter. simpl. discriminate.
  - (* the job failed: nothing is given back *)
    simpl. apply gate_inv_wake. revert Hinv. apply gate_inv_ext.
    + by rewrite all_reacts_limiter.
    + unfold held. rewrite all_reacts_jobs. simpl.
      rewrite (count_insert _ _ _ job) by done. rewrite Hold. simpl. lia.
    + by rewrite all_reacts_deferreds.
Qed.

Lemma engine_reports_gate_inv C s j job k res :
  jobs (world s) !! j = Some job ->
  gate_inv C (world s) (AwaitInline j k) ->
  gate_inv C (world (engine_reports s j job k res))
             (ctl (engine_reports s j job k res)).
Proof.
  intros Hj Hinv. unfold engine_reports.
  assert (Hh : forall r, held (did (set_job (world s) j
                       (MkJob (workerData job) true r r))
                       (ActSettle j (is_fulfilled r))) <= held (world s)).
  { intros r. unfold held. simpl. rewrite (count_insert _ _ _ job) by done.
    replace (holds_slot (MkJob (workerData job) true r r)) with false
      by reflexivity.
    destruct (holds_slot job); lia. }
  destruct (processOneFile res) as [| |e]; simpl;
    apply (gate_inv_swap C _ (AwaitInline j k)); try done;
    revert Hinv; apply gate_inv_ext; auto.
  apply (Hh (Rejected e)).
Qed.

Lemma step_gate_inv C s ev s' :
  gate_inv C (world s) (ctl s) -> step s ev = Some s' ->
  gate_inv C (world s') (ctl s').
Proof.
  intros Hinv Hstep. destruct ev as [|j ev|j res]; simpl in Hstep.
  - destruct (ctl s) as [p|d r k|j k|k|r] eqn:Hc; try discriminate.
    + injection Hstep as <-. apply run_gate_inv.
      by apply (gate_inv_idle C (world s) (Ready p)).
    + destruct Hinv as [H1 H2 H3 H4]. simpl in *.
      destruct (resolved (world s) d) eqn:Hres; [|discriminate].
      destruct H2 as [H2 H2'].
      unfold addWork_resume in Hstep. rewrite H2 in Hstep.
      destruct (decide (limit (limiter (world s)) >= 0)) as [_|Hn]; [|lia].
      destruct (startWorker (world s) r) as [w2|e] eqn:Hs;
        injection Hstep as <-.
      * apply run_gate_inv. eapply startWorker_ready; eauto.
      * split; simpl; auto. lia.
  - destruct (jobs (world s) !! j) as [job|] eqn:Hj; [|discriminate].
    destruct (inline job) eqn:Hin; [discriminate|].
    injection Hstep as <-. by apply worker_reports_gate_inv.
  - destruct (ctl s) as [p|d r k|j' k|k|r] eqn:Hc; try discriminate.
    destruct (jobs (world s) !! j) as [job|] eqn:Hj; [|discriminate].
    destruct (decide (j = j')) as [->|]; [|discriminate].
    destruct (inline job); [|discriminate].
    injection Hstep as <-. by apply engine_reports_gate_inv.
Qed.

Lemma exec_gate_inv C evs : forall s s',
  gate_inv C (world s) (ctl s) -> exec s evs = Some s' ->
  gate_inv C (world s') (ctl s').
Proof.
  induction evs as [|ev evs IH]; intros s s' Hinv Hex; simpl in Hex.
  - by injection Hex as <-.
  - destruct (step s ev) as [s1|] eqn:Hs; [|discriminate].
    eapply IH; [|exact Hex]. eapply step_gate_inv; eauto.
Qed.

Lemma start_gate_inv C f th main :
  0 <= C -> gate_inv C (world (start C f th main)) (ctl (start C f th main)).
Proof.
  intros HC. split; simpl; auto.
  - unfold held. simpl. lia.
  - discriminate.
Qed.

(** ** The shape of the dispatcher *)

Lemma no_waitAll_bind {A B : Type} (p : Prog A) (k : A -> Prog B) :
  no_waitAll p -> (forall a, no_waitAll (k a)) -> no_waitAll (bind p k).
Proof. induction p; simpl; intros Hp Hk; auto. Qed.

Lemma returns_waitAll_bind {A : Type} (p : Prog A) (k : A -> Prog unit) :
  no_waitAll p -> (forall a, returns_waitAll (k a)) ->
  returns_waitAll (bind p k).
Proof. induction p; simpl; intros Hp Hk; auto. done. Qed.

Lemma no_waitAll_forOf {X : Type} (l : list X) (body : X -> Prog unit) :
  (forall x, no_waitAll (body x)) -> no_waitAll (forOf l body).
Proof.
  intros Hb. induction l as [|x l IH]; simpl; [done|].
  apply no_waitAll_bind; auto.
Qed.

Lemma no_waitAll_assert b msg : no_waitAll (assert b msg).
Proof. by destruct b. Qed.

Lemma no_waitAll_JSON_parse (r : Parsed) :
  no_waitAll (JSON_parse r).
Proof. by destruct r. Qed.

Ltac shape :=
  repeat first
    [ done
    | apply no_waitAll_assert
    | apply no_waitAll_JSON_parse
    | apply no_waitAll_forOf
    | apply no_waitAll_bind
    | apply returns_waitAll_bind
    | intro
    | match goal with
      | |- context [if ?b then _ else _] => destruct b
      | |- context [match ?m with Write => _ | _ => _ end] => destruct m
      end
    | progress simpl ].

Lemma no_waitAll_processNode data conc : no_waitAll (processNode data conc).
Proof. unfold processNode. shape. Qed.

Lemma no_waitAll_processNodeForValidate data conc :
  no_waitAll (processNodeForValidate data conc).
Proof. unfold processNodeForValidate, processNode. shape. Qed.

Lemma no_waitAll_processNodeForWrite pkgVersion snapshotVersionOf stampOf
    data conc :
  no_waitAll (processNodeForWrite pkgVersion snapshotVersionOf stampOf data conc).
Proof. unfold processNodeForWrite, processNode. shape. Qed.

Lemma no_waitAll_cleanFailedSnapshots dir : no_waitAll (cleanFailedSnapshots dir).
Proof. unfold cleanFailedSnapshots. shape. Qed.

Lemma no_waitAll_processEntry fileLocation pkgVersion snapshotVersionOf stampOf
    mode conc node :
  no_waitAll (processEntry fileLocation pkgVersion snapshotVersionOf stampOf
                mode conc node).
Proof.
  unfold processEntry, cleanFailedSnapshots, processNodeForWrite,
    processNodeForValidate, processNode.
  shape.
Qed.

Lemma returns_waitAll_processContent fileLocation pkgVersion snapshotVersionOf
    stampOf mode conc :
  returns_waitAll (processContent fileLocation pkgVersion snapshotVersionOf
                     stampOf mode conc).
Proof.
  intros nodes. simpl. apply returns_waitAll_bind; [|done].
  apply no_waitAll_forOf. apply no_waitAll_processEntry.
Qed.

(** ** The invariant of the report *)

Lemma promise_all_spec (ps : list PState) :
  match promise_all ps with
  | Fulfilled => Forall (fun s => s = Fulfilled) ps
  | Rejected e => Rejected e ∈ ps
  | Pending => Forall (fun s => is_rejected s = false) ps
  end.
Proof.
  induction ps as [|[| |e] ps IH]; simpl.
  - constructor.
  - destruct (promise_all ps) as [| |e].
    + by constructor.
    + constructor; [done|]. eapply Forall_impl; [exact IH|].
      by intros ? ->.
    + apply elem_of_cons; by right.
  - destruct (promise_all ps) as [| |e].
    + by constructor.
    + by constructor.
    + apply elem_of_cons; by right.
  - apply elem_of_cons; by left.
Qed.

Lemma processOneFile_settles res : processOneFile res <> Pending.
Proof. destruct res as [[|]|]; done. Qed.

Lemma report_inv_quiet w w' c :
  jobs w' = jobs w -> promises (limiter w') = promises (limiter w) ->
  all w' = all w -> report_inv w c -> report_inv w' c.
Proof.
  intros Hj Hp Ha [H1 H2 H3 H4 H5 H6 H7].
  split; unfold admitted, report_ctl, chained_of in *;
    rewrite ?Hj, ?Hp, ?Ha; auto.
Qed.

Lemma report_inv_ready w p c :
  all w = None -> report_inv w (Ready p) ->
  match c with
  | Ready k | AwaitDeferred _ _ k => returns_waitAll k
  | Settled (Rejected _) => True
  | _ => False
  end ->
  report_inv w c.
Proof.
  intros Ha [H1 H2 H3 H4 H5 H6 H7] Hc. split; auto.
  - unfold report_ctl in *. rewrite Ha in *.
    destruct c as [| | | |[]]; done.
  - intros j job Hj Hin. specialize (H7 j job Hj Hin). simpl in H7.
    destruct c as [| | | |[]]; done.
Qed.

Lemma admitted_lt w j : admitted w j -> (j < length (jobs w))%nat.
Proof. intros (job & Hj & _). by apply lookup_lt_Some in Hj. Qed.

Lemma startWorker_report w r w' p k :
  startWorker w r = Ok w' -> all w = None -> returns_waitAll k ->
  report_inv w (Ready p) ->
  report_inv w' (Ready k) /\ all w' = None.
Proof.
  unfold startWorker. destruct (heap w !! r) as [a|]; [|discriminate].
  intros [= <-] Ha Hk [H1 H2 H3 H4 H5 H6 H7]. split; [|done].
  split; simpl.
  - intros j. rewrite elem_of_app, list_elem_of_singleton, H1.
    unfold admitted. simpl. split.
    + intros [(job & Hj & Hin)| ->].
      * exists job. split; [|done]. by apply lookup_app_l_Some.
      * exists (MkJob a false Pending Pending). split; [|reflexivity].
        rewrite lookup_app_r by lia. by rewrite Nat.sub_diag.
    + intros (job & Hj & Hin).
      apply lookup_app_Some in Hj as [Hj|[Hge Hj]]; [left; eauto|].
      right. apply lookup_lt_Some in Hj. simpl in Hj. lia.
  - apply NoDup_app. split_and!; [done| |apply NoDup_singleton].
    intros j Hj ->%list_elem_of_singleton.
    apply H1, admitted_lt in Hj. lia.
  - intros j job Hj.
    apply lookup_app_Some in Hj as [Hj|[Hge Hj]]; [eauto|].
    destruct (j - length (jobs w))%nat; [|done].
    by injection Hj as <-.
  - rewrite Ha. discriminate.
  - rewrite Ha. discriminate.
  - unfold report_ctl. simpl. by rewrite Ha.
  - intros j job Hj Hin.
    apply lookup_app_Some in Hj as [Hj|[Hge Hj]]; [by apply (H7 j job)|].
    destruct (j - length (jobs w))%nat; [|done].
    injection Hj as <-. done.
Qed.

Lemma run_report_inv (p : Prog unit) : forall w,
  all w = None -> report_inv w (Ready p) ->
  report_inv (world (run p w)) (ctl (run p w)).
Proof.
  assert (Hfail : forall w q e, all w = None -> report_inv w (Ready q) ->
                                report_inv w (Settled (Rejected e))).
  { intros w q e H0 H. by apply (report_inv_ready _ _ _ H0 H). }
  assert (Hnext : forall w w' q k,
             jobs w' = jobs w -> promises (limiter w') = promises (limiter w) ->
             all w' = all w -> all w = None -> returns_waitAll k ->
             report_inv w (Ready q) -> report_inv w' (Ready k)).
  { intros w w' q k Hj Hp Ha Hn Hk H.
    apply (report_inv_quiet w); auto.
    by apply (report_inv_ready _ q). }
  induction p as [a|e|q k IH|q k IH|q k IH|q k IH|src dst k IH|q t k IH|q k IH
                 |q k IH|msg k IH|a k IH|r k IH|r d k IH|k IH|r k IH|r k IH|k IH];
    intros w Ha Hw; simpl;
    pose proof (ri_ctl _ _ Hw) as Hc; unfold report_ctl in Hc;
    rewrite Ha in Hc; simpl in Hc.
  - done.
  - by apply (Hfail w (Throw e)).
  - apply IH; [done|]. eapply (Hnext w); [reflexivity..|done|auto|exact Hw].
  - destruct (fs_readdirSync _ _); simpl; [|by eapply Hfail].
    apply IH; [done|]. eapply (Hnext w); [reflexivity..|done|auto|exact Hw].
  - destruct (fs_readFileSync _ _); simpl; [|by eapply Hfail].
    apply IH; [done|]. eapply (Hnext w); [reflexivity..|done|auto|exact Hw].
  - destruct (fs_mkdirSync _ _); simpl; [|by eapply Hfail].
    apply IH; [done|]. eapply (Hnext w); [reflexivity..|done|auto|exact Hw].
  - destruct (fs_copyFileSync _ _ _); simpl; [|by eapply Hfail].
    apply IH; [done|]. eapply (Hnext w); [reflexivity..|done|auto|exact Hw].
  - destruct (fs_writeFileSync _ _ _); simpl; [|by eapply Hfail].
    apply IH; [done|]. eapply (Hnext w); [reflexivity..|done|auto|exact Hw].
  - destruct (fs_unlinkSync _ _); simpl; [|by eapply Hfail].
    apply IH; [done|]. eapply (Hnext w); [reflexivity..|done|auto|exact Hw].
  - destruct (fs_rmdirSync _ _); simpl; [|by eapply Hfail].
    apply IH; [done|]. eapply (Hnext w); [reflexivity..|done|auto|exact Hw].
  - apply IH; [done|]. eapply (Hnext w); [reflexivity..|done|auto|exact Hw].
  - apply IH; [done|]. eapply (Hnext w); [reflexivity..|done|auto|exact Hw].
  - destruct (heap w !! r); simpl; [|by eapply Hfail].
    apply IH; [done|]. eapply (Hnext w); [reflexivity..|done|auto|exact Hw].
  - destruct (heap w !! r); simpl; [|by eapply Hfail].
    apply IH; [done|]. eapply (Hnext w); [reflexivity..|done|auto|exact Hw].
  - by apply (report_inv_ready _ (ImportWorkerThreads k)).
  - unfold addWork.
    set (w1 := set_limiter w _).
    assert (Hw1 : report_inv w1 (Ready (AddWork r k))).
    { eapply (Hnext w); eauto. }
    assert (Ha1 : all w1 = None) by done.
    destruct (decide (limit (limiter w) - 1 < 0)); simpl.
    + destruct (deferred (limiter w)); simpl; [by eapply Hfail|].
      apply (report_inv_quiet w1); try done.
      by apply (report_inv_ready _ (AddWork r k)).
    + destruct (startWorker w1 r) as [w2|e] eqn:Hs; simpl; [|by eapply Hfail].
      destruct (startWorker_report _ _ _ _ k Hs Ha1 Hc Hw1) as [Hw2 Ha2].
      by apply IH.
  - destruct (heap w !! r) as [a|]; simpl; [|by eapply Hfail].
    destruct Hw as [H1 H2 H3 H4 H5 H6 H7]. split; simpl.
    + intros j. rewrite H1. unfold admitted. simpl. split.
      * intros (job & Hj & Hin). exists job. split; [|done].
        by apply lookup_app_l_Some.
      * intros (job & Hj & Hin).
        apply lookup_app_Some in Hj as [Hj|[Hge Hj]]; [eauto|].
        destruct (j - length (jobs w))%nat; [|done].
        injection Hj as <-. done.
    + done.
    + intros j job Hj.
      apply lookup_app_Some in Hj as [Hj|[Hge Hj]]; [eauto|].
      destruct (j - length (jobs w))%nat; [|done].
      by injection Hj as <-.
    + rewrite Ha. discriminate.
    + rewrite Ha. discriminate.
    + unfold report_ctl. simpl. by rewrite Ha.
    + intros j job Hj Hin.
      apply lookup_app_Some in Hj as [Hj|[Hge Hj]].
      * right. by apply (H7 j job).
      * left. apply lookup_lt_Some in Hj. simpl in Hj. lia.
  - subst k. set (r := promise_all _).
    pose proof (promise_all_spec (chained_of w <$> promises (limiter w)))
      as Hspec. fold r in Hspec.
    destruct Hw as [H1 H2 H3 H4 H5 H6 H7].
    assert (Hch : forall x, chained_of (set_all w x) = chained_of w) by done.
    destruct r as [| |e]; simpl; split; simpl; auto;
      try (intros ws r' [= <- <-]); try done.
    + rewrite Forall_forall in Hspec. intros j Hj.
      apply Hspec. apply list_elem_of_fmap. eauto.
    + rewrite Forall_forall in Hspec. intros j Hj.
      apply Hspec. apply list_elem_of_fmap. eauto.
    + by right.
    + apply list_elem_of_fmap in Hspec as (j & Hj1 & Hj2). eauto.
Qed.

Lemma report_inv_resume w d r k :
  report_inv w (AwaitDeferred d r k) -> report_inv w (Ready (AddWork r k)).
Proof.
  intros [H1 H2 H3 H4 H5 H6 H7]. split; auto.
  unfold report_ctl in *.
  destruct (all w) as [[? [| |?]]|]; try done. by destruct H6.
Qed.

Lemma report_inv_all_none w c :
  report_inv w c ->
  match c with
  | AwaitDeferred _ _ _ | AwaitInline _ _ => all w = None
  | _ => True
  end.
Proof.
  intros H. pose proof (ri_ctl _ _ H) as Hc. unfold report_ctl in Hc.
  destruct c; try done; destruct (all w) as [[? [| |?]]|]; try done;
    destruct Hc; done.
Qed.

Lemma chained_of_set_job w j job i :
  (j < length (jobs w))%nat ->
  chained_of (set_job w j job) i
  = if decide (i = j) then chained job else chained_of w i.
Proof.
  intros Hlt. unfold chained_of, set_job. simpl.
  destruct (decide (i = j)) as [->|Hne].
  - by rewrite list_lookup_insert_eq.
  - by rewrite list_lookup_insert_ne.
Qed.

Lemma worker_reports_report_inv s j job ev :
  jobs (world s) !! j = Some job -> inline job = false ->
  report_inv (world s) (ctl s) ->
  report_inv (world (worker_reports s j job ev))
             (ctl (worker_reports s j job ev)).
Proof.
  intros Hj Hin Hinv. unfold worker_reports.
  destruct (settled job) eqn:Hst; try exact Hinv.
  pose proof (listener_settles (mode (workerData job)) ev) as Hne.
  set (r := listener _ ev) in *.
  set (wp := match r with Fulfilled => onFulfilled (world s) | _ => (world s, r) end).
  assert (Hwp : jobs wp.1 = jobs (world s)
                /\ promises (limiter wp.1) = promises (limiter (world s))
                /\ all wp.1 = all (world s)
                /\ wp.2 <> Pending
                /\ (wp.2 = Fulfilled -> r = Fulfilled)).
  { unfold wp. destruct r as [| |e]; simpl; try done.
    unfold onFulfilled. destruct (deferred _); [destruct (decide _)|]; done. }
  destruct wp as [w1 p]. simpl in Hwp.
  destruct Hwp as (Hj1 & Hp1 & Ha1 & Hp & Hpr).
  assert (Hlt : (j < length (jobs w1))%nat).
  { rewrite Hj1. by apply lookup_lt_Some in Hj. }
  set (job' := MkJob (workerData job) false r p).
  set (w3 := did (set_job w1 j job') (ActSettle j (is_fulfilled r))).
  assert (Hch : forall i, chained_of w3 i
                  = if decide (i = j) then p else chained_of (world s) i).
  { intros i. unfold w3. change (chained_of (did ?w _) i) with (chained_of w i).
    rewrite chained_of_set_job by done. simpl.
    destruct (decide _); [done|]. unfold chained_of. by rewrite Hj1. }
  destruct Hinv as [H1 H2 H3 H4 H5 H6 H7].
  assert (Hadm : forall i, admitted w3 i <-> admitted (world s) i).
  { intros i. unfold admitted, w3. simpl. rewrite Hj1.
    destruct (decide (i = j)) as [->|Hij].
    - rewrite list_lookup_insert_eq by (by apply lookup_lt_Some in Hj).
      split; intros _; eauto.
    - by rewrite list_lookup_insert_ne. }
  assert (Hold : chained_of (world s) j = Pending).
  { unfold chained_of. rewrite Hj. by apply (H3 j job Hj). }
  (* the state before Promise.all reacts *)
  assert (H3' : forall i jb, jobs w3 !! i = Some jb ->
      (chained jb = Pending <-> settled jb = Pending)
      /\ (chained jb = Fulfilled -> settled jb = Fulfilled)).
  { intros i jb. unfold w3. simpl. rewrite Hj1.
    destruct (decide (i = j)) as [->|Hij].
    - rewrite list_lookup_insert_eq by (by apply lookup_lt_Some in Hj).
      intros [= <-]. simpl. split; [split; intros; done | done].
    - rewrite list_lookup_insert_ne by done. apply H3. }
  assert (Hjw : j ∈ promises (limiter (world s))).
  { apply H1. exists job. done. }
  assert (Hinl : forall i jb, jobs w3 !! i = Some jb -> inline jb = true ->
      match ctl s with
      | Settled (Rejected _) => True
      | AwaitInline j' _ => i = j' \/ settled jb = Fulfilled
      | _ => settled jb = Fulfilled
      end).
  { intros i jb Hi Hinl.
    assert (Hne' : i <> j).
    { intros ->. unfold w3 in Hi. simpl in Hi.
      rewrite list_lookup_insert_eq in Hi by done.
      injection Hi as <-. done. }
    unfold w3 in Hi. simpl in Hi.
    rewrite list_lookup_insert_ne, Hj1 in Hi by done.
    by apply (H7 i jb Hi Hinl). }
  assert (Hbase : forall wf c,
    jobs wf = jobs w3 -> promises (limiter wf) = promises (limiter (world s)) ->
    (forall ws r', all wf = Some (ws, r') -> ws = promises (limiter (world s))) ->
    (forall ws r', all wf = Some (ws, r') ->
      match r' with
      | Fulfilled => forall j, j ∈ ws -> chained_of w3 j = Fulfilled
      | Rejected e => exists j, j ∈ ws /\ chained_of w3 j = Rejected e
      | Pending => forall j, j ∈ ws -> is_rejected (chained_of w3 j) = false
      end) ->
    report_ctl wf c ->
    (forall i jb, jobs w3 !! i = Some jb -> inline jb = true ->
      match c with
      | Settled (Rejected _) => True
      | AwaitInline j' _ => i = j' \/ settled jb = Fulfilled
      | _ => settled jb = Fulfilled
      end) ->
    report_inv wf c).
  { intros wf c Hjf Hpf Hwf Haf Hcf Hif. split; auto.
    - intros i. rewrite Hpf, H1, <- Hadm. unfold admitted. by rewrite Hjf.
    - by rewrite Hpf.
    - intros i jb. rewrite Hjf. apply H3'.
    - intros ws r' Hw. rewrite Hpf. eauto.
    - intros ws r' Hw. specialize (Haf ws r' Hw). unfold chained_of in *.
      by rewrite Hjf.
    - intros i jb. rewrite Hjf. apply Hif. }
  simpl. fold job'. fold w3.
  unfold all_reacts. replace (all w3) with (all (world s)) by (by rewrite <- Ha1).
  destruct (all (world s)) as [[ws [| |e]]|] eqn:Hall.
  - (* Promise.all is pending *)
    pose proof (H4 _ _ eq_refl) as ->. pose proof (H5 _ _ eq_refl) as Hno.
    simpl in Hno. unfold report_ctl in H6. rewrite Hall in H6.
    rewrite decide_True by done.
    destruct p as [| |e]; [done| |].
    + destruct (forallb _ _) eqn:Hfa.
      * rewrite H6. simpl. apply Hbase; simpl; auto.
        -- by intros ws r' [= <- <-].
        -- intros ws r' [= <- <-]. intros i Hi.
           rewrite forallb_forall in Hfa.
           apply list_elem_of_In, Hfa in Hi.
           by destruct (chained_of w3 i).
        -- unfold report_ctl. simpl. by left.
        -- intros i jb Hi Hinl'. specialize (Hinl i jb Hi Hinl').
           by rewrite H6 in Hinl.
      * rewrite H6. simpl. rewrite Ha1. apply Hbase; simpl; auto.
        -- rewrite Ha1. by intros ws r' [= <- <-].
        -- rewrite Ha1. intros ws r' [= <- <-]. intros i Hi.
           rewrite Hch. destruct (decide _); [done|]. by apply Hno.
        -- unfold report_ctl. simpl. by rewrite Ha1.
        -- intros i jb Hi Hinl'. specialize (Hinl i jb Hi Hinl').
           by rewrite H6 in Hinl.
    + rewrite H6. simpl. apply Hbase; simpl; auto.
      * by intros ws r' [= <- <-].
      * intros ws r' [= <- <-]. exists j. split; [done|].
        rewrite Hch. by rewrite decide_True.
      * unfold report_ctl. simpl. done.
  - (* Promise.all is fulfilled already: no job can be pending *)
    pose proof (H4 _ _ eq_refl) as ->. pose proof (H5 _ _ eq_refl) as Hno.
    simpl in Hno. rewrite (Hno j Hjw) in Hold. done.
  - (* Promise.all is rejected already *)
    pose proof (H4 _ _ eq_refl) as ->. pose proof (H5 _ _ eq_refl) as Hno.
    simpl in Hno. unfold report_ctl in H6. rewrite Hall in H6.
    rewrite H6. simpl. apply Hbase; simpl; auto.
    + rewrite Ha1. by intros ws r' [= <- <-].
    + rewrite Ha1. intros ws r' [= <- <-].
      destruct Hno as (i & Hi & Hie). exists i. split; [done|].
      rewrite Hch. destruct (decide (i = j)) as [->|]; [congruence|done].
    + unfold report_ctl. simpl. by rewrite Ha1.
  - (* waitAll was not called yet *)
    unfold report_ctl in H6. rewrite Hall in H6.
    replace (wake w3 (ctl s)) with (ctl s)
      by (unfold wake, w3; simpl; rewrite Ha1; by destruct (ctl s)).
    apply Hbase; simpl; auto.
    + rewrite Ha1. discriminate.
    + rewrite Ha1. discriminate.
    + unfold report_ctl. simpl. by rewrite Ha1.
Qed.

Lemma engine_reports_report_inv s j job k res :
  jobs (world s) !! j = Some job -> inline job = true ->
  report_inv (world s) (AwaitInline j k) ->
  report_inv (world (engine_reports s j job k res))
             (ctl (engine_reports s j job k res)).
Proof.
  intros Hj Hin Hinv. unfold engine_reports.
  pose proof (report_inv_all_none _ _ Hinv) as Ha. simpl in Ha.
  pose proof (processOneFile_settles res) as Hne.
  set (r := processOneFile res) in *.
  set (w2 := did (set_job (world s) j (MkJob (workerData job) true r r))
                 (ActSettle j (is_fulfilled r))).
  destruct Hinv as [H1 H2 H3 H4 H5 H6 H7].
  assert (Hlook : forall i jb, jobs w2 !! i = Some jb ->
            (i = j /\ jb = MkJob (workerData job) true r r)
            \/ (i <> j /\ jobs (world s) !! i = Some jb)).
  { intros i jb. unfold w2. simpl.
    destruct (decide (i = j)) as [->|Hij].
    - rewrite list_lookup_insert_eq by (by apply lookup_lt_Some in Hj).
      intros [= <-]. by left.
    - rewrite list_lookup_insert_ne by done. by right. }
  assert (Hbase : forall wf c,
    jobs wf = jobs w2 -> promises (limiter wf) = promises (limiter (world s)) ->
    all wf = None -> report_ctl wf c ->
    (forall i jb, jobs w2 !! i = Some jb -> inline jb = true ->
      match c with
      | Settled (Rejected _) => True
      | AwaitInline j' _ => i = j' \/ settled jb = Fulfilled
      | _ => settled jb = Fulfilled
      end) ->
    report_inv wf c).
  { intros wf c Hjf Hpf Haf Hcf Hif. split; auto.
    - intros i. rewrite Hpf, H1. unfold admitted. rewrite Hjf. split.
      + intros (jb & Hi & Hinl).
        assert (i <> j) by congruence.
        exists jb. split; [|done]. unfold w2. simpl.
        by rewrite list_lookup_insert_ne.
      + intros (jb & Hi & Hinl).
        destruct (Hlook i jb Hi) as [[-> ->]|[Hij Hi']]; [done|eauto].
    - by rewrite Hpf.
    - intros i jb. rewrite Hjf. intros Hi.
      destruct (Hlook i jb Hi) as [[-> ->]|[Hij Hi']]; [done|eauto].
    - rewrite Haf. discriminate.
    - rewrite Haf. discriminate.
    - intros i jb. rewrite Hjf. apply Hif. }
  unfold report_ctl in H6. rewrite Ha in H6.
  destruct r as [| |e] eqn:Hr; [done| |]; simpl; fold w2.
  - apply Hbase; auto.
    + unfold report_ctl. simpl. by rewrite Ha.
    + intros i jb Hi Hinl.
      destruct (Hlook i jb Hi) as [[-> ->]|[Hij Hi']]; [done|].
      destruct (H7 i jb Hi' Hinl); done.
  - apply Hbase; auto. unfold report_ctl. simpl. by rewrite Ha.
Qed.

Lemma step_report_inv s ev s' :
  report_inv (world s) (ctl s) -> step s ev = Some s' ->
  report_inv (world s') (ctl s').
Proof.
  intros Hinv Hstep. destruct ev as [|j ev|j res]; simpl in Hstep.
  - destruct (ctl s) as [p|d r k|j k|k|r] eqn:Hc; try discriminate.
    + injection Hstep as <-.
      destruct (all (world s)) as [[ws [| |e]]|] eqn:Ha.
      * pose proof (ri_ctl _ _ Hinv) as H6. unfold report_ctl in H6.
        by rewrite Ha in H6.
      * pose proof (ri_ctl _ _ Hinv) as H6. unfold report_ctl in H6.
        rewrite Ha in H6. destruct H6 as [[= ->]|]; [|done]. simpl.
        destruct Hinv as [H1 H2 H3 H4 H5 H6 H7]. split; auto.
        unfold report_ctl. rewrite Ha. by right.
      * pose proof (ri_ctl _ _ Hinv) as H6. unfold report_ctl in H6.
        by rewrite Ha in H6.
      * by apply run_report_inv.
    + pose proof (report_inv_all_none _ _ Hinv) as Ha. simpl in Ha.
      apply report_inv_resume in Hinv.
      destruct (resolved (world s) d); [|discriminate].
      unfold addWork_resume in Hstep.
      pose proof (ri_ctl _ _ Hinv) as Hk. unfold report_ctl in Hk.
      rewrite Ha in Hk. simpl in Hk.
      destruct (deferred (limiter (world s))).
      { injection Hstep as <-. by apply (report_inv_ready _ (AddWork r k)). }
      destruct (decide _).
      * destruct (startWorker (world s) r) as [w2|e] eqn:Hs;
          injection Hstep as <-.
        -- destruct (startWorker_report _ _ _ _ k Hs Ha Hk Hinv) as [Hw2 Ha2].
           by apply run_report_inv.
        -- by apply (report_inv_ready _ (AddWork r k)).
      * injection Hstep as <-. by apply (report_inv_ready _ (AddWork r k)).
  - destruct (jobs (world s) !! j) as [job|] eqn:Hj; [|discriminate].
    destruct (inline job) eqn:Hin; [discriminate|].
    injection Hstep as <-. by apply worker_reports_report_inv.
  - destruct (ctl s) as [p|d r k|j' k|k|r] eqn:Hc; try discriminate.
    destruct (jobs (world s) !! j) as [job|] eqn:Hj; [|discriminate].
    destruct (decide (j = j')) as [->|]; [|discriminate].
    destruct (inline job) eqn:Hin; [|discriminate].
    injection Hstep as <-. by apply engine_reports_report_inv.
Qed.

Lemma exec_report_inv evs : forall s s',
  report_inv (world s) (ctl s) -> exec s evs = Some s' ->
  report_inv (world s') (ctl s').
Proof.
  induction evs as [|ev evs IH]; intros s s' Hinv Hex; simpl in Hex.
  - by injection Hex as <-.
  - destruct (step s ev) as [s1|] eqn:Hs; [|discriminate].
    eapply IH; [|exact Hex]. eapply step_report_inv; eauto.
Qed.

Lemma start_report_inv C f th main :
  returns_waitAll main ->
  report_inv (world (start C f th main)) (ctl (start C f th main)).
Proof.
  intros Hm. split; simpl; try done.
  - intros j. unfold admitted. simpl. split; [by intros ?%elem_of_nil|].
    by intros (? & ? & ?).
  - constructor.
Qed.

(** ** What [waitAll] reports *)

Lemma worker_reports_all s j job ev :
  all (world (worker_reports s j job ev))
  = match all (world s) with
    | Some (ws, Pending) => all (world (worker_reports s j job ev))
    | a => a
    end.
Proof.
  destruct (all (world s)) as [[ws [| |e]]|] eqn:Ha; try done;
    unfold worker_reports; destruct (settled job); try done;
    destruct (listener _ ev); simpl; try done;
    unfold all_reacts; simpl; try (by rewrite Ha);
    unfold onFulfilled;
    destruct (deferred _); try destruct (decide _); simpl; by rewrite Ha.
Qed.

Lemma all_sticks_step s ev s' ws r :
  report_inv (world s) (ctl s) ->
  all (world s) = Some (ws, r) -> r <> Pending ->
  step s ev = Some s' -> all (world s') = Some (ws, r).
Proof.
  intros Hinv Ha Hr Hstep.
  pose proof (ri_ctl _ _ Hinv) as Hc. unfold report_ctl in Hc.
  rewrite Ha in Hc.
  destruct ev as [|j ev|j res]; simpl in Hstep.
  - destruct r as [| |e]; [done| |].
    + destruct Hc as [Hc|Hc]; rewrite Hc in Hstep; [|done].
      by injection Hstep as <-.
    + by rewrite Hc in Hstep.
  - destruct (jobs (world s) !! j) as [job|]; [|done].
    destruct (inline job); [done|]. injection Hstep as <-.
    rewrite worker_reports_all, Ha. by destruct r.
  - destruct r as [| |e]; [done| |].
    + by destruct Hc as [Hc|Hc]; rewrite Hc in Hstep.
    + by rewrite Hc in Hstep.
Qed.

Lemma all_sticks evs : forall s s' ws r,
  report_inv (world s) (ctl s) ->
  all (world s) = Some (ws, r) -> r <> Pending ->
  exec s evs = Some s' -> all (world s') = Some (ws, r).
Proof.
  induction evs as [|ev evs IH]; intros s s' ws r Hinv Ha Hr Hex;
    simpl in Hex.
  - by injection Hex as <-.
  - destruct (step s ev) as [s1|] eqn:Hs; [|discriminate].
    eapply (IH s1); eauto using step_report_inv, all_sticks_step.
Qed.

(** A worker that has not reported can always report, and its first report
    settles the job as the listeners say. *)
Lemma worker_can_report s j job ev :
  jobs (world s) !! j = Some job -> inline job = false ->
  settled job = Pending ->
  exists s',
    step s (Worker j ev) = Some s'
    /\ exists job', jobs (world s') !! j = Some job'
                    /\ settled job' = listener (mode (workerData job)) ev.
Proof.
  intros Hj Hin Hst. simpl. rewrite Hj, Hin.
  eexists. split; [reflexivity|].
  assert (Hlt : (j < length (jobs (world s)))%nat)
    by (by apply lookup_lt_Some in Hj).
  unfold worker_reports. rewrite Hst.
  destruct (listener _ ev) eqn:Hl; simpl;
    [| unfold onFulfilled;
       destruct (deferred _); try destruct (decide _); simpl |];
    eexists; (split; [rewrite all_reacts_jobs; simpl;
                      by apply list_lookup_insert_eq | done]).
Qed.

Lemma worker_reports_length s j job ev :
  length (jobs (world (worker_reports s j job ev)))
  = length (jobs (world s)).
Proof.
  unfold worker_reports. destruct (settled job); try done.
  destruct (listener _ ev); simpl;
    [| unfold onFulfilled;
       destruct (deferred _); try destruct (decide _); simpl |];
    rewrite all_reacts_jobs; simpl; by rewrite length_insert.
Qed.

Lemma worker_reports_settled s j job ev r :
  ctl s = Settled r -> ctl (worker_reports s j job ev) = Settled r.
Proof.
  intros Hc. unfold worker_reports. destruct (settled job); try done.
  destruct (listener _ ev); simpl;
    [| unfold onFulfilled;
       destruct (deferred _); try destruct (decide _); simpl |];
    by rewrite Hc.
Qed.

(** Once the promise of [processContent] is settled the dispatcher does
    nothing more: no job is started after that. *)
Lemma settled_is_final evs : forall s s' r,
  ctl s = Settled r -> exec s evs = Some s' ->
  ctl s' = Settled r /\ length (jobs (world s')) = length (jobs (world s)).
Proof.
  induction evs as [|ev evs IH]; intros s s' r Hc Hex; simpl in Hex.
  - by injection Hex as <-.
  - destruct (step s ev) as [s1|] eqn:Hs; [|discriminate].
    assert (H1 : ctl s1 = Settled r
                 /\ length (jobs (world s1)) = length (jobs (world s))).
    { destruct ev as [|j ev|j res]; simpl in Hs.
      - by rewrite Hc in Hs.
      - destruct (jobs (world s) !! j) as [job|]; [|done].
        destruct (inline job); [done|]. injection Hs as <-.
        split; [by apply worker_reports_settled
               | apply worker_reports_length].
      - by rewrite Hc in Hs. }
    destruct H1 as [Hc1 Hl1]. destruct (IH s1 s' r Hc1 Hex) as [? ?].
    split; [done | congruence].
Qed.

Lemma worker_failure_is_local s j job ev e s' :
  report_inv (world s) (ctl s) ->
  jobs (world s) !! j = Some job -> settled job = Pending ->
  listener (mode (workerData job)) ev = Rejected e ->
  step s (Worker j ev) = Some s' ->
  heap (world s') = heap (world s)
  /\ limiter (world s') = limiter (world s)
  /\ jobs (world s')
     = <[j := MkJob (workerData job) false (Rejected e) (Rejected e)]>
         (jobs (world s))
  /\ ((forall k, ctl s <> AwaitAll k) -> ctl s' = ctl s)
  /\ (forall k, ctl s = AwaitAll k -> ctl s' = Settled (Rejected e)).
Proof.
  intros Hinv Hj Hst Hl Hstep. simpl in Hstep. rewrite Hj in Hstep.
  destruct (inline job) eqn:Hin; [done|]. injection Hstep as <-.
  unfold worker_reports. rewrite Hst, Hl. simpl.
  set (w3 := did _ _).
  assert (Hfs : forall x, heap (all_reacts w3 j x) = heap (world s)).
  { intros x. unfold all_reacts. simpl.
    destruct (all (world s)) as [[ws [| |?]]|]; try done.
    destruct (decide _); [|done]. destruct x; try done.
    by destruct (forallb _ _). }
  rewrite (Hfs (Rejected e)).
  rewrite all_reacts_limiter, all_reacts_jobs.
  split; [done|]. split; [done|]. split; [done|]. split.
  - intros Hno. destruct (ctl s) as [| | |k|] eqn:Hc; try done.
    by destruct (Hno k).
  - intros k Hc. rewrite Hc. simpl.
    pose proof (ri_ctl _ _ Hinv) as H6. unfold report_ctl in H6.
    rewrite Hc in H6.
    destruct (all (world s)) as [[ws [| |?]]|] eqn:Ha; try done;
      [|by destruct H6].
    pose proof (ri_watch _ _ Hinv _ _ Ha) as ->.
    assert (Hjw : j ∈ promises (limiter (world s))).
    { apply (ri_promises _ _ Hinv). by exists job. }
    unfold all_reacts. simpl. rewrite Ha. by rewrite decide_True.
Qed.

(** A dispatcher that waits for a slot while no job is pending: no
    event changes anything any more. *)
Lemma starved_is_stuck s d data k ev s' :
  ctl s = AwaitDeferred d data k -> resolved (world s) d = false ->
  (forall job, job ∈ jobs (world s) -> settled job <> Pending) ->
  step s ev = Some s' -> s' = s.
Proof.
  intros Hc Hres Hnone. destruct ev as [|j ev|j res]; simpl.
  - by rewrite Hc, Hres.
  - destruct (jobs (world s) !! j) as [job|] eqn:Hj; [|done].
    destruct (inline job); [done|]. intros [= <-].
    unfold worker_reports.
    assert (Hne : settled job <> Pending).
    { apply Hnone. by apply list_elem_of_lookup_2 in Hj. }
    by destruct (settled job).
  - by rewrite Hc.
Qed.

Lemma settled_is_reported w r :
  report_inv w (Settled r) -> r <> Pending.
Proof.
  intros Hinv ->. pose proof (ri_ctl _ _ Hinv) as H. unfold report_ctl in H.
  destruct (all w) as [[ws [| |e]]|]; try done. by destruct H.
Qed.

Lemma engine_failure_aborts s j res e s' :
  step s (Engine j res) = Some s' -> processOneFile res = Rejected e ->
  ctl s' = Settled (Rejected e).
Proof.
  simpl. destruct (ctl s); try done.
  destruct (jobs (world s) !! j) as [job|]; [|done].
  destruct (decide _); [|done]. destruct (inline job); [|done].
  intros [= <-] Hr. unfold engine_reports. by rewrite Hr.
Qed.

Lemma success_means_no_failure w :
  report_inv w (Settled Fulfilled) ->
  forall j job, jobs w !! j = Some job -> settled job = Fulfilled.
Proof.
  intros [H1 H2 H3 H4 H5 H6 H7] j job Hj.
  destruct (inline job) eqn:Hin; [by apply (H7 j job)|].
  unfold report_ctl in H6.
  destruct (all w) as [[ws [| |e]]|] eqn:Ha; try done.
  pose proof (H4 _ _ eq_refl) as ->.
  assert (Hjw : j ∈ promises (limiter w)) by (apply H1; by exists job).
  pose proof (H5 _ _ eq_refl j Hjw) as Hch. simpl in Hch.
  unfold chained_of in Hch. rewrite Hj in Hch. by apply (H3 j job Hj).
Qed.

(** ** The claims about the gate and about the report of a run *)

(** C1. Whatever the mode, the corpus and the order in which the workers
    report, a run of the dispatcher never has more than [numberOfThreads]
    admitted jobs running, and whenever no admission waits in [addWork]
    the slots its counter says are taken are between none and all. *)
Theorem C1_bounded_concurrency (fileLocation : path) (pkgVersion : string)
    (snapshotVersionOf : string -> Parsed) (stampOf : string -> string)
    (m : Mode) (concurrently : bool) (f : FS) (th : bool)
    (evs : list Event) (s : System) :
  exec (start numberOfThreads f th
          (processContent fileLocation pkgVersion snapshotVersionOf stampOf
             m concurrently)) evs = Some s ->
  running (world s) <= numberOfThreads
  /\ (quiescent (world s) ->
      0 <= inFlight numberOfThreads (world s) <= numberOfThreads).
Proof.
  intros Hex.
  assert (HC : 0 <= numberOfThreads) by done.
  pose proof (exec_gate_inv numberOfThreads evs _ _
                (start_gate_inv numberOfThreads f th _ HC) Hex)
    as [H1 H2 H3 H4].
  pose proof (running_le_held (world s)) as Hr.
  pose proof (count_nonneg holds_slot (jobs (world s))) as Hh.
  fold (held (world s)) in Hh.
  assert (Hw : 0 <= waiting (ctl s) <= 1) by (destruct (ctl s); simpl; lia).
  split.
  - destruct (ctl s) as [|d ? ?| | |]; simpl in *; try lia.
    destruct (resolved _ _); lia.
  - unfold quiescent, inFlight. intros Hq.
    destruct (ctl s) as [|d ? ?| | |]; simpl in *; try lia.
    destruct (resolved _ _); [lia|]. destruct H2; congruence.
Qed.

Lemma C1_witness :
  exists s,
    ex_run ["a"; "b"] true Compare true [Tick; Tick; Worker 0 (OnExit 0)]
    = Some s
    /\ running (world s) <= numberOfThreads
    /\ (quiescent (world s) ->
        0 <= inFlight numberOfThreads (world s) <= numberOfThreads).
Proof.
  eexists. split; [vm_compute; reflexivity|].
  apply (C1_bounded_concurrency ex_root "1.0.0" ex_versionOf ex_stampOf
           Compare true (ex_corpus ["a"; "b"]) true
           [Tick; Tick; Worker 0 (OnExit 0)]).
  vm_compute. reflexivity.
Defined.




(** C3: the code keeps the slot of a job that fails. Five folders, four
    threads: the fifth admission waits, the four running workers all fail,
    and the gate stays as it was: the counter is not incremented, the
    waiter is neither resolved nor cleared, no job runs any more, and the
    dispatcher cannot run on. *)
Theorem C3_failed_job_keeps_its_slot :
  ex_run ["a"; "b"; "c"; "d"; "e"] true Compare true ex_four_failures
  = Some ex_starved
  /\ limit (limiter (world ex_starved)) = -1
  /\ deferred (limiter (world ex_starved)) = Some 0%nat
  /\ resolved (world ex_starved) 0 = false
  /\ settled <$> jobs (world ex_starved)
     = [Rejected (JobError "Worker stopped with exit code 1");
        Rejected (JobError ("snapshot mismatch" +:+ nl +:+ extra));
        Rejected (JobError "crash");
        Rejected (JobError "Worker stopped with exit code 1")]
  /\ running (world ex_starved) = 0
  /\ step ex_starved Tick = None.
Proof.
  split; [vm_compute; reflexivity|].
  split; [vm_compute; reflexivity|].
  split; [vm_compute; reflexivity|].
  split; [vm_compute; reflexivity|].
  split; [vm_compute; reflexivity|].
  split; vm_compute; reflexivity.
Qed.




(** ** Running a program that is followed by another *)

Lemma run_bind (p : Prog unit) (k : unit -> Prog unit) : forall w,
  run (p ≫= k) w
  = match ctl (run p w) with
    | Settled Fulfilled => run (k tt) (world (run p w))
    | Settled _ => run p w
    | Ready q => MkSystem (world (run p w)) (Ready (q ≫= k))
    | AwaitDeferred d r q =>
        MkSystem (world (run p w)) (AwaitDeferred d r (q ≫= k))
    | AwaitInline j q => MkSystem (world (run p w)) (AwaitInline j (q ≫= k))
    | AwaitAll q => MkSystem (world (run p w)) (AwaitAll (q ≫= k))
    end.
Proof.
  induction p as [a|e|q k' IH|q k' IH|q k' IH|q k' IH|src dst k' IH|q t k' IH
                 |q k' IH|q k' IH|msg k' IH|a k' IH|r k' IH|r d k' IH|k' IH
                 |r k' IH|r k' IH|k' IH];
    intros w; simpl;
    first
      [ done
      | by destruct a
      | apply IH
      | match goal with
        | |- context [match ?x with Ok _ => _ | Err _ => _ end] =>
            destruct x; [apply IH | done]
        | |- context [heap w !! ?r] =>
            destruct (heap w !! r); first [apply IH | done]
        | |- context [addWork w ?r] =>
            destruct (addWork w r); [apply IH | done | done]
        | |- context [promise_all ?l] =>
            destruct (promise_all l); [done | apply IH | done]
        end ].
Qed.

Lemma run_forOf_nil {X : Type} (body : X -> Prog unit) w :
  run (forOf [] body) w = MkSystem w (Settled Fulfilled).
Proof. done. Qed.

Lemma run_forOf_cons {X : Type} (body : X -> Prog unit) x l w :
  run (forOf (x :: l) body) w
  = match ctl (run (body x) w) with
    | Settled Fulfilled => run (forOf l body) (world (run (body x) w))
    | Settled _ => run (body x) w
    | Ready q =>
        MkSystem (world (run (body x) w)) (Ready (q ;; forOf l body))
    | AwaitDeferred d r q =>
        MkSystem (world (run (body x) w))
                 (AwaitDeferred d r (q ;; forOf l body))
    | AwaitInline j q =>
        MkSystem (world (run (body x) w)) (AwaitInline j (q ;; forOf l body))
    | AwaitAll q =>
        MkSystem (world (run (body x) w)) (AwaitAll (q ;; forOf l body))
    end.
Proof. simpl forOf. apply run_bind. Qed.

(** ** What the calls of [fs] throw *)

Lemma fs_readdirSync_error f p e : fs_readdirSync f p = Err e -> fs_error e.
Proof.
  unfold fs_readdirSync. destruct (fs_get f p) as [[]|]; intros [=]; subst;
    constructor.
Qed.

Lemma fs_readFileSync_error f p e : fs_readFileSync f p = Err e -> fs_error e.
Proof.
  unfold fs_readFileSync. destruct (fs_get f p) as [[]|]; intros [=]; subst;
    constructor.
Qed.

Lemma mkdir_from_error todo : forall f done e,
  mkdir_from f done todo = Err e -> fs_error e.
Proof.
  induction todo as [|c todo IH]; intros f dn e; simpl; [done|].
  destruct (fs_get f (dn ++ [c])) as [[]|]; eauto.
  intros [= <-]. constructor.
Qed.

Lemma writable_error f p e : writable f p = Err e -> fs_error e.
Proof.
  unfold writable. destruct (negb _); [intros [= <-]; constructor|].
  destruct (fs_get f p) as [[]|]; intros [=]; subst; constructor.
Qed.

Lemma fs_copyFileSync_error f src dst e :
  fs_copyFileSync f src dst = Err e -> fs_error e.
Proof.
  unfold fs_copyFileSync.
  destruct (fs_readFileSync f src) eqn:Hr;
    [|intros [= <-]; eauto using fs_readFileSync_error].
  destruct (writable f dst) eqn:Hw; [done|].
  intros [= <-]. eauto using writable_error.
Qed.

(** ** The migration of [processNodeForWrite] *)

Lemma run_copy_step cur dst x w :
  run (copy_step cur dst x) w
  = if isDirectory x then fail w (AssertionError "")
    else match fs_copyFileSync (fs w) (cur ++ [name x]) (dst ++ [name x]) with
         | Ok f =>
             MkSystem (did (set_fs w f)
                         (ActCopy (cur ++ [name x]) (dst ++ [name x])))
                      (Settled Fulfilled)
         | Err e => fail w e
         end.
Proof.
  unfold copy_step. destruct (isDirectory x); simpl; [done|].
  by destruct (fs_copyFileSync _ _ _).
Qed.

Lemma copy_loop_ctl cur dst l : forall w,
  let s := run (forOf l (copy_step cur dst)) w in
  ctl s = Settled Fulfilled
  \/ ctl s = Settled (Rejected (AssertionError ""))
  \/ exists e, fs_error e /\ ctl s = Settled (Rejected e).
Proof.
  induction l as [|x l IH]; intros w; [by left|].
  cbv zeta. rewrite run_forOf_cons, run_copy_step.
  destruct (isDirectory x); [by right; left|].
  destruct (fs_copyFileSync _ _ _) as [f|e] eqn:Hcp; simpl.
  - apply IH.
  - right. right. exists e. eauto using fs_copyFileSync_error.
Qed.

Section Migration.
Variable pkgVersion : string.
Variable snapshotVersionOf : string -> Parsed.
Variable stampOf : string -> string.

Lemma processNodeForWrite_run data concurrently (k : unit -> Prog unit) w d :
  heap w !! data = Some d ->
  let cur := folder d ++ ["current_snapshots"] in
  let vf := cur ++ ["snapshotVersion.json"] in
  fs_existsSync (fs w) cur = true ->
  fs_existsSync (fs w) vf = true ->
  run (processNodeForWrite pkgVersion snapshotVersionOf stampOf data
         concurrently ≫= k) w
  = match fs_readFileSync (fs w) vf with
    | Err e => fail w e
    | Ok text =>
      match snapshotVersionOf text with
      | NotJSON => fail w SyntaxError
      | NoObject => fail w TypeError
      | Version v =>
        let dst := folder d ++ ["src_snapshots"; v] in
        match fs_mkdirSync (fs w) dst with
        | Err e => fail w e
        | Ok f1 =>
          let w1 := did (set_fs w f1) (ActMkdir dst) in
          match fs_readdirSync f1 cur with
          | Err e => fail w1 e
          | Ok l =>
            let s := run (forOf l (copy_step cur dst)) w1 in
            match ctl s with
            | Settled Fulfilled =>
                MkSystem (world s)
                  (Ready ((submit data concurrently (threads (world s));;
                           writeFileSync vf (stampOf pkgVersion)) ≫= k))
            | _ => s
            end
          end
        end
      end
    end.
Proof.
  intros Hd cur vf Hc Hv. unfold processNodeForWrite. simpl.
  rewrite Hd. simpl. fold cur. rewrite Hc. simpl. fold vf. rewrite Hv. simpl.
  destruct (fs_readFileSync (fs w) vf) as [text|e]; [|done].
  destruct (snapshotVersionOf text) as [v| |]; [|done..]. simpl.
  destruct (fs_mkdirSync (fs w) _) as [f1|e]; [|done]. simpl.
  destruct (fs_readdirSync f1 cur) as [l|e]; [|done].
  set (dst := folder d ++ ["src_snapshots"; v]).
  set (w1 := did (set_fs w f1) (ActMkdir dst)).
  change (Prog_bind ()%type ()%type k ?m) with (m ≫= k).
  rewrite run_bind.
  change (forOf l _) with (forOf l (copy_step cur dst)).
  rewrite run_bind.
  destruct (copy_loop_ctl cur dst l w1) as [H|[H|(e & He & H)]];
    rewrite H; simpl.
  - done.
  - destruct (run (forOf l (copy_step cur dst)) w1) as [w' c].
    simpl in H. by subst c.
  - destruct (run (forOf l (copy_step cur dst)) w1) as [w' c].
    simpl in H. by subst c.
Qed.
End Migration.

(** C9. In Write mode a folder without [current_snapshots], or without
    the version stamp in it, fails the assertion that names what is
    missing, before anything is read, written or submitted: the state of
    the run is untouched, and the run is rejected with that assertion,
    whatever was to come next ([k]). When both exist neither of the two
    assertions fails. *)
Theorem C9_write_needs_its_baseline (pkgVersion : string)
    (snapshotVersionOf : string -> Parsed)
    (stampOf : string -> string) (data : ref) (concurrently : bool)
    (k : unit -> Prog unit) (w : World) (d : IWorkerArgs) :
  heap w !! data = Some d ->
  let currentSnapshotsDir := folder d ++ ["current_snapshots"] in
  let versionFileName := currentSnapshotsDir ++ ["snapshotVersion.json"] in
  let noDirectory :=
    AssertionError ("Directory " +:+ render currentSnapshotsDir
                      +:+ " does not exist!") in
  let noVersionFile :=
    AssertionError ("Version file " +:+ render versionFileName
                      +:+ " does not exist") in
  let s := run (processNodeForWrite pkgVersion snapshotVersionOf stampOf
                  data concurrently ≫= k) w in
  (fs_existsSync (fs w) currentSnapshotsDir = false ->
   s = fail w noDirectory)
  /\ (fs_existsSync (fs w) currentSnapshotsDir = true ->
      fs_existsSync (fs w) versionFileName = false ->
      s = fail w noVersionFile)
  /\ (fs_existsSync (fs w) currentSnapshotsDir = true ->
      fs_existsSync (fs w) versionFileName = true ->
      ctl s <> Settled (Rejected noDirectory)
      /\ ctl s <> Settled (Rejected noVersionFile)).
Proof.
  intros Hd cur vf e1 e2 s. split; [|split].
  - intros Hc. unfold s, processNodeForWrite. simpl. rewrite Hd. simpl.
    fold cur. by rewrite Hc.
  - intros Hc Hv. unfold s, processNodeForWrite. simpl. rewrite Hd. simpl.
    fold cur. rewrite Hc. simpl. fold vf. by rewrite Hv.
  - intros Hc Hv.
    assert (Hno : forall e, ctl s = Settled (Rejected e) ->
                    (e = SyntaxError \/ e = TypeError)
                    \/ e = AssertionError "" \/ fs_error e).
    { intros e. unfold s.
      rewrite (processNodeForWrite_run _ _ _ _ _ _ _ _ Hd Hc Hv).
      fold cur vf.
      destruct (fs_readFileSync (fs w) vf) as [text|e'] eqn:Hr.
      2:{ intros [= <-]. eauto using fs_readFileSync_error. }
      destruct (snapshotVersionOf text) as [v| |];
        [|intros [= <-]; left; by left|intros [= <-]; left; by right].
      cbv zeta.
      destruct (fs_mkdirSync (fs w) _) as [f1|e'] eqn:Hm.
      2:{ intros [= <-]. eauto using mkdir_from_error. }
      destruct (fs_readdirSync f1 cur) as [l|e'] eqn:Hl.
      2:{ intros [= <-]. eauto using fs_readdirSync_error. }
      destruct (copy_loop_ctl cur (folder d ++ ["src_snapshots"; v]) l
                  (did (set_fs w f1)
                     (ActMkdir (folder d ++ ["src_snapshots"; v]))))
        as [H|[H|(e' & He & H)]]; rewrite H; simpl; [done|..].
      - rewrite H. intros [= <-]. auto.
      - rewrite H. intros [= <-]. auto. }
    split; intros Hs; apply Hno in Hs as [[Hs|Hs]|[Hs|Hs]];
      try discriminate Hs; inversion Hs.
Qed.

(** ** The file system *)

Lemma fs_get_put f p n q :
  fs_get (fs_put f p n) q = if decide (p = q) then Some n else fs_get f q.
Proof.
  induction f as [|[r m] f IH]; simpl.
  - by destruct (decide (p = q)).
  - destruct (decide (r = p)) as [->|Hrp]; simpl.
    + by destruct (decide (p = q)).
    + destruct (decide (r = q)) as [->|Hrq].
      * by rewrite decide_False by done.
      * done.
Qed.

Lemma fs_get_None f p : fs_get f p = None <-> p ∉ f.*1.
Proof.
  induction f as [|[r m] f IH]; simpl.
  - split; [intros _; apply not_elem_of_nil | done].
  - rewrite not_elem_of_cons. destruct (decide (r = p)) as [->|Hrp].
    + split; [done | by intros [? _]].
    + rewrite IH. split; [by split | by intros [_ ?]].
Qed.

Lemma fs_get_Some_elem f p n : fs_get f p = Some n -> (p, n) ∈ f.
Proof.
  induction f as [|[r m] f IH]; simpl; [done|].
  destruct (decide (r = p)) as [->|Hrp].
  - intros [= ->]. apply elem_of_cons; by left.
  - intros H. apply elem_of_cons; right; auto.
Qed.

Lemma fs_elem_get f p n : NoDup f.*1 -> (p, n) ∈ f -> fs_get f p = Some n.
Proof.
  induction f as [|[r m] f IH]; [by intros _ ?%elem_of_nil|].
  intros [Hr Hnd]%NoDup_cons [[= -> ->]|Hin]%elem_of_cons;
    cbn [fs_get].
  - by destruct (decide (r = r)).
  - destruct (decide (r = p)) as [->|Hrp]; [|auto].
    destruct Hr. apply list_elem_of_fmap. by exists (p, n).
Qed.

Lemma fs_put_keys f p n :
  (fs_put f p n).*1 = if decide (p ∈ f.*1) then f.*1 else f.*1 ++ [p].
Proof.
  induction f as [|[r m] f IH].
  - destruct (decide (p ∈ _)) as [Hin|_]; [|done].
    by apply elem_of_nil in Hin.
  - cbn [fs_put]. destruct (decide (r = p)) as [->|Hrp].
    + clear IH. destruct (decide (p ∈ _)) as [_|Hout]; [reflexivity|].
      destruct Hout. rewrite fmap_cons. apply elem_of_cons; by left.
    + rewrite !fmap_cons, IH. cbn [fst].
      destruct (decide (p ∈ f.*1)) as [Hin|Hout];
        destruct (decide (p ∈ r :: f.*1)) as [Hin'|Hout']; try done.
      * destruct Hout'. apply elem_of_cons; by right.
      * apply elem_of_cons in Hin' as [->|?]; done.
Qed.

Lemma fs_put_NoDup f p n : NoDup f.*1 -> NoDup (fs_put f p n).*1.
Proof.
  intros H. rewrite fs_put_keys. destruct (decide _); [done|].
  apply NoDup_app. split_and!; [done | | apply NoDup_singleton].
  intros x Hx ->%list_elem_of_singleton. done.
Qed.

Lemma fs_del_keys f p : (fs_del f p).*1 = filter (fun q => q <> p) f.*1.
Proof.
  induction f as [|[r m] f IH]; [done|].
  cbn [fs_del]. rewrite fmap_cons, filter_cons. cbn [fst].
  destruct (decide (r = p)) as [->|Hrp].
  - by rewrite decide_False by (by intros ?).
  - rewrite decide_True by done. by rewrite fmap_cons, IH.
Qed.

Lemma fs_del_NoDup f p : NoDup f.*1 -> NoDup (fs_del f p).*1.
Proof. intros H. rewrite fs_del_keys. by apply NoDup_filter. Qed.

Lemma fs_get_del f p q :
  fs_get (fs_del f p) q = if decide (p = q) then None else fs_get f q.
Proof.
  induction f as [|[r m] f IH]; cbn [fs_del fs_get].
  - by destruct (decide (p = q)).
  - destruct (decide (r = p)) as [->|Hrp]; cbn [fs_get].
    + rewrite IH. destruct (decide (p = q)); [done|].
      by destruct (decide (p = q)).
    + destruct (decide (r = q)) as [->|Hrq]; [|done].
      by destruct (decide (p = q)).
Qed.

(** A path is the child of one directory only. *)
Lemma child_inj (d d' : path) (x x' : string) :
  d ++ [x] = d' ++ [x'] -> d = d' /\ x = x'.
Proof. intros H. apply app_inj_tail in H. done. Qed.

Lemma dirent_in_Some d e x b :
  dirent_in d e = Some (MkDirent x b)
  <-> e.1 = d ++ [x] /\ b = is_dir_node e.2.
Proof.
  unfold dirent_in. destruct e as [q n]. simpl.
  destruct (last q) as [y|] eqn:Hl.
  - destruct (decide (q = d ++ [y])) as [->|Hne].
    + split.
      * by intros [= -> ->].
      * intros [[_ ->]%child_inj ->]. done.
    + split; [done|]. intros [-> _]. rewrite last_snoc in Hl.
      injection Hl as <-. done.
  - split; [done|]. intros [-> _]. by rewrite last_snoc in Hl.
Qed.

Lemma dirent_in_None d e :
  dirent_in d e = None <-> forall x, e.1 <> d ++ [x].
Proof.
  split.
  - intros H x Hx. destruct (dirent_in d e) as [[y b]|] eqn:He; [done|].
    assert (dirent_in d e = Some (MkDirent x (is_dir_node e.2)))
      by (by apply dirent_in_Some).
    congruence.
  - intros H. destruct (dirent_in d e) as [[y b]|] eqn:He; [|done].
    apply dirent_in_Some in He as [He _]. by destruct (H y).
Qed.

Lemma elem_of_children f d x b :
  MkDirent x b ∈ children f d
  <-> exists n, (d ++ [x], n) ∈ f /\ b = is_dir_node n.
Proof.
  unfold children. rewrite list_elem_of_omap. split.
  - intros ([q n] & Hin & [Hq Hb]%dirent_in_Some). simpl in *. subst.
    eauto.
  - intros (n & Hin & ->). exists (d ++ [x], n). split; [done|].
    by apply dirent_in_Some.
Qed.

Lemma children_cons f d e :
  children (e :: f) d
  = match dirent_in d e with
    | Some x => x :: children f d
    | None => children f d
    end.
Proof. done. Qed.

Lemma children_names_NoDup f d :
  NoDup f.*1 -> NoDup (name <$> children f d).
Proof.
  induction f as [|[q n] f IH]; [constructor|].
  rewrite fmap_cons, children_cons. cbn [fst].
  intros [Hq Hnd]%NoDup_cons.
  destruct (dirent_in d (q, n)) as [[x b]|] eqn:He; [|auto].
  rewrite fmap_cons. cbn [name].
  apply NoDup_cons. split; [|auto].
  apply dirent_in_Some in He as [He _]. cbn [fst] in He. subst q.
  intros (e & Hx & He)%list_elem_of_fmap. destruct e as [y b'].
  cbn [name] in Hx. subst y.
  apply (elem_of_children f d x b') in He as (m & Hin & _).
  apply Hq. apply list_elem_of_fmap. by exists (d ++ [x], m).
Qed.

Lemma children_put_other f p n d :
  (forall x, p <> d ++ [x]) -> children (fs_put f p n) d = children f d.
Proof.
  intros Hp.
  assert (Hnone : forall m, dirent_in d (p, m) = None).
  { intros m. apply dirent_in_None. exact Hp. }
  induction f as [|[r m] f IH]; cbn [fs_put].
  - by rewrite children_cons, Hnone.
  - destruct (decide (r = p)) as [->|Hrp].
    + by rewrite !children_cons, !Hnone.
    + by rewrite !children_cons, IH.
Qed.

Lemma children_put_new f d x n :
  fs_get f (d ++ [x]) = None ->
  children (fs_put f (d ++ [x]) n) d
  = children f d ++ [MkDirent x (is_dir_node n)].
Proof.
  assert (Hsome : dirent_in d (d ++ [x], n)
                  = Some (MkDirent x (is_dir_node n)))
    by (by apply dirent_in_Some).
  induction f as [|[r m] f IH]; cbn [fs_put fs_get]; intros Hget.
  - by rewrite children_cons, Hsome.
  - destruct (decide (r = d ++ [x])) as [->|Hrp]; [done|].
    rewrite !children_cons, IH by done. by destruct (dirent_in d (r, m)).
Qed.

Lemma children_put_old f d x n m :
  fs_get f (d ++ [x]) = Some m -> is_dir_node m = is_dir_node n ->
  children (fs_put f (d ++ [x]) n) d = children f d.
Proof.
  intros Hget Hk. revert Hget.
  induction f as [|[r m'] f IH]; cbn [fs_put fs_get]; [done|].
  destruct (decide (r = d ++ [x])) as [->|Hrp].
  - intros [= ->]. rewrite !children_cons. unfold dirent_in. cbn [fst snd].
    by rewrite Hk.
  - intros Hget. by rewrite !children_cons, IH.
Qed.

Lemma children_del_other f p d :
  (forall x, p <> d ++ [x]) -> children (fs_del f p) d = children f d.
Proof.
  intros Hp.
  induction f as [|[r m] f IH]; cbn [fs_del]; [done|].
  destruct (decide (r = p)) as [->|Hrp].
  - rewrite children_cons, IH.
    replace (dirent_in d (p, m)) with (@None Dirent); [done|].
    symmetry. by apply dirent_in_None.
  - by rewrite !children_cons, IH.
Qed.

Lemma parent_child (d : path) (x : string) : parent (d ++ [x]) = d.
Proof. unfold parent. apply removelast_last. Qed.

Lemma child_ne_self (d : path) (x : string) : d ++ [x] <> d.
Proof.
  intros H. apply (f_equal length) in H. rewrite length_app in H.
  simpl in H. lia.
Qed.

Lemma is_directory_put f p n q :
  p <> q -> is_directory (fs_put f p n) q = is_directory f q.
Proof.
  intros Hpq. unfold is_directory. destruct q; [done|].
  by rewrite fs_get_put, decide_False.
Qed.

(** ** [mkdirSync] with [recursive] *)

Lemma mkdir_from_spec todo : forall f dn f1,
  mkdir_from f dn todo = Ok f1 ->
  (NoDup f.*1 -> NoDup f1.*1)
  /\ (forall q, fs_get f q = fs_get f1 q
                \/ (fs_get f q = None /\ fs_get f1 q = Some Dir
                    /\ exists i, (0 < i <= length todo)%nat
                                 /\ q = dn ++ take i todo))
  /\ (forall i, (0 < i <= length todo)%nat ->
                fs_get f1 (dn ++ take i todo) = Some Dir).
Proof.
  induction todo as [|c todo IH]; intros f dn f1; cbn [mkdir_from].
  - intros [= <-]. split; [done|]. split; [by left|]. simpl. lia.
  - assert (Hstep : forall f', mkdir_from f' (dn ++ [c]) todo = Ok f1 ->
      fs_get f' (dn ++ [c]) = Some Dir ->
      (NoDup f'.*1 -> NoDup f1.*1)
      /\ (forall q, fs_get f' q = fs_get f1 q
            \/ (fs_get f' q = None /\ fs_get f1 q = Some Dir
                /\ exists i, (1 < i <= S (length todo))%nat
                             /\ q = dn ++ take i (c :: todo)))
      /\ (forall i, (0 < i <= S (length todo))%nat ->
                    fs_get f1 (dn ++ take i (c :: todo)) = Some Dir)).
    { intros f' Hm Hc. destruct (IH _ _ _ Hm) as (H1 & H2 & H3).
      split; [done|]. split.
      - intros q. destruct (H2 q) as [?|(? & ? & i & Hi & ->)]; [by left|].
        right. split_and!; try done. exists (S i). split; [lia|].
        by rewrite <- app_assoc.
      - intros [|i] Hi; [lia|]. destruct i as [|i].
        + simpl. rewrite take_0.
          destruct (H2 (dn ++ [c])) as [H|(H & _)]; congruence.
        + specialize (H3 (S i) ltac:(lia)).
          by rewrite <- app_assoc in H3. }
    destruct (fs_get f (dn ++ [c])) as [[t|]|] eqn:Hc; [done| |].
    + intros Hm. destruct (Hstep f Hm Hc) as (H1 & H2 & H3).
      split; [done|]. split; [|done].
      intros q. destruct (H2 q) as [?|(? & ? & i & Hi & ->)]; [by left|].
      right. split_and!; try done. exists i. split; [simpl; lia | done].
    + intros Hm.
      destruct (Hstep (fs_put f (dn ++ [c]) Dir) Hm) as (H1 & H2 & H3).
      { by rewrite fs_get_put, decide_True. }
      split; [intros; by apply H1, fs_put_NoDup|]. split; [|done].
      intros q. destruct (decide (dn ++ [c] = q)) as [<-|Hq].
      * right. split; [done|]. split.
        -- specialize (H3 1%nat ltac:(lia)). simpl in H3.
           by rewrite take_0 in H3.
        -- exists 1%nat. split; [simpl; lia|]. simpl. by rewrite take_0.
      * destruct (H2 q) as [H|(H & ? & i & Hi & ->)];
          rewrite fs_get_put, decide_False in H by done.
        -- by left.
        -- right. split_and!; try done. exists i.
           split; [simpl; lia | done].
Qed.

Lemma mkdir_from_children todo : forall f dn f1 (d : path) (x : string),
  mkdir_from f dn todo = Ok f1 -> todo <> [] -> dn ++ todo = d ++ [x] ->
  children f1 d
  = match fs_get f (d ++ [x]) with
    | Some _ => children f d
    | None => children f d ++ [MkDirent x true]
    end.
Proof.
  induction todo as [|c todo IH]; intros f dn f1 d x Hm Hne Heq; [done|].
  cbn [mkdir_from] in Hm.
  destruct todo as [|c' todo].
  - (* the last component: the directory itself *)
    apply child_inj in Heq as [-> ->].
    destruct (fs_get f (d ++ [x])) as [[t|]|] eqn:Hc; [done| |].
    + by injection Hm as <-.
    + injection Hm as <-. by apply children_put_new.
  - (* a directory on the way *)
    assert (Hlen : (length (dn ++ [c]) < length (d ++ [x]))%nat).
    { rewrite <- Heq, !length_app. simpl. lia. }
    assert (Hother : forall y, dn ++ [c] <> d ++ [y]).
    { intros y Hy. apply (f_equal length) in Hy.
      rewrite !length_app in *. simpl in *. lia. }
    assert (Hdx : dn ++ [c] <> d ++ [x]) by apply Hother.
    assert (Heq' : (dn ++ [c]) ++ c' :: todo = d ++ [x])
      by (by rewrite <- app_assoc).
    destruct (fs_get f (dn ++ [c])) as [[t|]|] eqn:Hc; [done| |].
    + by eapply IH.
    + erewrite IH; [|exact Hm|done|exact Heq'].
      rewrite fs_get_put, decide_False by done.
      by rewrite children_put_other.
Qed.

Lemma fs_mkdirSync_spec f (d : path) (x : string) f1 :
  fs_mkdirSync f (d ++ [x]) = Ok f1 ->
  (NoDup f.*1 -> NoDup f1.*1)
  /\ fs_get f1 (d ++ [x]) = Some Dir
  /\ (forall y, fs_get f1 (d ++ [x; y]) = fs_get f (d ++ [x; y]))
  /\ (forall q y, (length d < length q)%nat ->
                  fs_get f1 (q ++ [y]) = fs_get f (q ++ [y]))
  /\ children f1 d
     = match fs_get f (d ++ [x]) with
       | Some _ => children f d
       | None => children f d ++ [MkDirent x true]
       end.
Proof.
  unfold fs_mkdirSync. intros Hm.
  destruct (mkdir_from_spec _ _ _ _ Hm) as (H1 & H2 & H3).
  assert (Hfar : forall q, (length (d ++ [x]) < length q)%nat ->
                           fs_get f1 q = fs_get f q).
  { intros q Hq. destruct (H2 q) as [?|(_ & _ & i & Hi & ->)]; [done|].
    rewrite app_nil_l, length_take in Hq. lia. }
  split; [done|]. split; [|split; [|split]].
  - assert (Hl : (0 < length (d ++ [x]) <= length (d ++ [x]))%nat)
      by (rewrite length_app; simpl; lia).
    specialize (H3 _ Hl). by rewrite app_nil_l, firstn_all in H3.
  - intros y. apply Hfar. rewrite !length_app. simpl. lia.
  - intros q y Hq. apply Hfar. rewrite !length_app. simpl. lia.
  - apply (mkdir_from_children _ _ _ _ _ _ Hm); [|done].
    by destruct d.
Qed.

(** ** The loop that copies the current snapshots *)

Lemma quiet_refl w : quiet w w.
Proof. by split. Qed.

Lemma quiet_trans w1 w2 w3 : quiet w1 w2 -> quiet w2 w3 -> quiet w1 w3.
Proof. intros [] []. split; congruence. Qed.

Lemma fs_copyFileSync_Ok f src dst f' :
  fs_copyFileSync f src dst = Ok f' ->
  exists t, fs_get f src = Some (File t) /\ f' = fs_put f dst (File t)
            /\ is_directory f (parent dst) = true
            /\ fs_get f dst <> Some Dir.
Proof.
  unfold fs_copyFileSync, fs_readFileSync, writable.
  destruct (fs_get f src) as [[t|]|]; try done.
  destruct (is_directory f (parent dst)); simpl; [|done].
  destruct (fs_get f dst) as [[t'|]|] eqn:Hd; try done;
    intros [= <-]; exists t; by rewrite ?Hd.
Qed.

Lemma fs_copyFileSync_can f src dst t :
  fs_get f src = Some (File t) -> is_directory f (parent dst) = true ->
  fs_get f dst <> Some Dir ->
  fs_copyFileSync f src dst = Ok (fs_put f dst (File t)).
Proof.
  intros Hs Hp Hd. unfold fs_copyFileSync, fs_readFileSync, writable.
  rewrite Hs, Hp. simpl. by destruct (fs_get f dst) as [[t'|]|].
Qed.

Lemma copy_loop_spec (cur dst : path) l : forall w,
  let s := run (forOf l (copy_step cur dst)) w in
  quiet w (world s)
  /\ (NoDup (fs w).*1 -> NoDup (fs (world s)).*1)
  /\ (forall d, d <> dst -> children (fs (world s)) d = children (fs w) d)
  /\ exists done,
       done `prefix_of` l
       /\ acts (world s) = acts w ++ copies cur dst done
       /\ (forall x, x ∈ done -> isDirectory x = false)
       /\ (forall q, (forall y, y ∈ done -> q <> dst ++ [name y]) ->
                     fs_get (fs (world s)) q = fs_get (fs w) q)
       /\ ((forall a b, cur ++ [a] <> dst ++ [b]) ->
           forall x, x ∈ done ->
             exists t, fs_get (fs w) (cur ++ [name x]) = Some (File t)
                       /\ fs_get (fs (world s)) (dst ++ [name x])
                          = Some (File t))
       /\ match ctl s with
          | Settled Fulfilled => done = l
          | Settled (Rejected e) =>
              exists x rest,
                l = done ++ x :: rest
                /\ if isDirectory x then e = AssertionError ""
                   else fs_copyFileSync (fs (world s)) (cur ++ [name x])
                          (dst ++ [name x]) = Err e
          | _ => False
          end.
Proof.
  induction l as [|x l IH]; intros w; cbv zeta.
  - rewrite run_forOf_nil. simpl.
    split; [apply quiet_refl|]. split; [done|]. split; [done|].
    exists []. split_and!; try done.
    + by rewrite app_nil_r.
    + by intros ? ?%elem_of_nil.
    + by intros _ ? ?%elem_of_nil.
  - rewrite run_forOf_cons, run_copy_step.
    destruct (isDirectory x) eqn:Hx.
    { simpl. split; [apply quiet_refl|]. split; [done|]. split; [done|].
      exists []. split_and!; try done.
      - apply prefix_nil.
      - by rewrite app_nil_r.
      - by intros ? ?%elem_of_nil.
      - by intros _ ? ?%elem_of_nil.
      - exists x, l. by rewrite Hx. }
    destruct (fs_copyFileSync _ _ _) as [f|e] eqn:Hcp.
    2:{ simpl. split; [apply quiet_refl|]. split; [done|]. split; [done|].
        exists []. split_and!; try done.
        - apply prefix_nil.
        - by rewrite app_nil_r.
        - by intros ? ?%elem_of_nil.
        - by intros _ ? ?%elem_of_nil.
        - exists x, l. by rewrite Hx. }
    simpl.
    apply fs_copyFileSync_Ok in Hcp as (t & Hsrc & -> & Hpar & Hdst).
    set (w1 := did (set_fs w _) _).
    destruct (IH w1) as (Hq & Hnd & Hch & done & Hpre & Hacts & Hfiles
                         & Hframe & Hcont & Hctl).
    split; [by destruct Hq; split|].
    split; [intros; by apply Hnd, fs_put_NoDup|].
    split.
    { intros d Hd. rewrite (Hch d Hd). unfold w1. simpl.
      apply children_put_other. intros y Hy.
      by apply child_inj in Hy as [? _]. }
    exists (x :: done). split_and!.
    + by apply prefix_cons.
    + rewrite Hacts. unfold w1. simpl. by rewrite <- app_assoc.
    + intros y [->|Hy]%elem_of_cons; auto.
    + intros q Hq'. rewrite Hframe.
      * unfold w1. simpl. rewrite fs_get_put, decide_False; [done|].
        intros <-. apply (Hq' x); [apply elem_of_cons; by left | done].
      * intros y Hy. apply Hq'. apply elem_of_cons; by right.
    + intros Hcd y Hy.
      assert (Hsame : forall a, fs_get (fs w1) (cur ++ [a])
                                = fs_get (fs w) (cur ++ [a])).
      { intros a. unfold w1. simpl. rewrite fs_get_put, decide_False; [done|].
        intros H. by apply (Hcd a (name x)). }
      destruct (decide (name y ∈ name <$> done)) as [Hin|Hnone].
      * apply list_elem_of_fmap in Hin as (z & Hzy & Hz). symmetry in Hzy.
        destruct (Hcont Hcd z Hz) as (t' & H1 & H2).
        exists t'. rewrite <- Hzy. by rewrite <- Hsame.
      * apply elem_of_cons in Hy as [->|Hy].
        -- exists t. split; [done|]. rewrite Hframe.
           ++ unfold w1. simpl. by rewrite fs_get_put, decide_True.
           ++ intros z Hz Heq. apply Hnone. apply list_elem_of_fmap.
              exists z. split; [|done].
              by apply child_inj in Heq as [_ ?].
        -- destruct Hnone. apply list_elem_of_fmap. by exists y.
    + destruct (ctl (run (forOf l (copy_step cur dst)) w1)) as [| | | |[| |e]];
        try done.
      * by subst.
      * destruct Hctl as (y & rest & -> & Hy). by exists y, rest.
Qed.

Lemma mkdir_from_children_other todo (d : path) : forall f dn f1,
  mkdir_from f dn todo = Ok f1 ->
  (forall i y, dn ++ take i todo <> d ++ [y]) ->
  children f1 d = children f d.
Proof.
  induction todo as [|c todo IH]; intros f dn f1; cbn [mkdir_from].
  - by intros [= <-].
  - intros Hm Hne.
    assert (Hne' : forall i y, (dn ++ [c]) ++ take i todo <> d ++ [y]).
    { intros i y. rewrite <- app_assoc. apply (Hne (S i) y). }
    destruct (fs_get f (dn ++ [c])) as [[t|]|] eqn:Hg; [done|..].
    + by apply (IH _ _ _ Hm).
    + rewrite (IH _ _ _ Hm Hne'). apply children_put_other.
      intros y. apply (Hne 1%nat y).
Qed.

Lemma mkdir_from_keeps todo : forall f dn f1 q n,
  mkdir_from f dn todo = Ok f1 -> fs_get f q = Some n -> fs_get f1 q = Some n.
Proof.
  intros f dn f1 q n Hm Hq.
  destruct (mkdir_from_spec _ _ _ _ Hm) as (_ & H & _).
  destruct (H q) as [<-|(? & _)]; congruence.
Qed.

(** The first subdirectory of a listing is where the copy loop stops. *)
Lemma first_directory (done pre rest post : list Dirent) x sub :
  done ++ x :: rest = pre ++ sub :: post ->
  (forall y, y ∈ done -> isDirectory y = false) ->
  (forall y, y ∈ pre -> isDirectory y = false) ->
  isDirectory sub = true ->
  (isDirectory x = true /\ done = pre)
  \/ (isDirectory x = false /\ exists rest', pre = done ++ x :: rest').
Proof.
  revert pre. induction done as [|a done IH]; intros pre Heq Hd Hp Hs.
  - destruct pre as [|b pre]; simplify_eq/=.
    + by left.
    + right. split; [apply Hp; apply elem_of_cons; by left | by exists pre].
  - destruct pre as [|b pre]; simplify_eq/=.
    + rewrite Hd in Hs; [done | apply elem_of_cons; by left].
    + destruct (IH pre H0) as [[? ->]|[? [r ->]]]; try done.
      * intros y Hy. apply Hd. apply elem_of_cons; by right.
      * intros y Hy. apply Hp. apply elem_of_cons; by right.
      * by left.
      * right. split; [done|]. by exists r.
Qed.

Lemma copy_loop_stops (cur dst : path) sub post :
  isDirectory sub = true ->
  (forall a b, cur ++ [a] <> dst ++ [b]) ->
  forall pre w,
  is_directory (fs w) dst = true ->
  (forall x, x ∈ pre ->
     isDirectory x = false
     /\ exists t, fs_get (fs w) (cur ++ [name x]) = Some (File t)) ->
  (forall y, fs_get (fs w) (dst ++ [y]) <> Some Dir) ->
  ctl (run (forOf (pre ++ sub :: post) (copy_step cur dst)) w)
  = Settled (Rejected (AssertionError "")).
Proof.
  intros Hsub Hcd. induction pre as [|x pre IH]; intros w Hdst Hpre Harch.
  - simpl app. rewrite run_forOf_cons, run_copy_step. by rewrite Hsub.
  - simpl app. rewrite run_forOf_cons, run_copy_step.
    destruct (Hpre x) as (Hx & t & Ht); [apply elem_of_cons; by left|].
    rewrite Hx.
    rewrite (fs_copyFileSync_can _ _ _ t); try done.
    2:{ by rewrite parent_child. }
    simpl. apply IH; simpl.
    + rewrite is_directory_put; [done | apply child_ne_self].
    + intros y Hy. destruct (Hpre y) as (? & t' & ?);
        [apply elem_of_cons; by right|].
      split; [done|]. exists t'.
      rewrite fs_get_put, decide_False; [done|]. intros H'. symmetry in H'. by apply Hcd in H'.
    + intros y. rewrite fs_get_put. destruct (decide _); [done|apply Harch].
Qed.

Lemma sibling_ne (d : path) (x y a b : string) :
  x <> y -> d ++ [x; a] <> d ++ [y; b].
Proof. intros Hxy H. by simplify_list_eq. Qed.

Lemma child_ne_grandchild (d : path) (x y a b : string) :
  d ++ [x] ++ [a] <> d ++ [y; a] ++ [b].
Proof.
  intros H. apply (f_equal length) in H. rewrite !length_app in H.
  simpl in H. lia.
Qed.

Lemma is_directory_Dir f p : fs_get f p = Some Dir -> is_directory f p = true.
Proof. intros H. unfold is_directory. destruct p; [done|]. by rewrite H. Qed.

Lemma fs_readdirSync_Ok f d l :
  fs_readdirSync f d = Ok l -> fs_get f d = Some Dir /\ l = children f d.
Proof.
  unfold fs_readdirSync. destruct (fs_get f d) as [[t|]|]; try done.
  by intros [= <-].
Qed.

Lemma fs_readFileSync_Ok f p t :
  fs_readFileSync f p = Ok t -> fs_get f p = Some (File t).
Proof.
  unfold fs_readFileSync. destruct (fs_get f p) as [[t'|]|]; try done.
  by intros [= <-].
Qed.

Lemma fs_existsSync_Some f p n : fs_get f p = Some n -> fs_existsSync f p = true.
Proof. intros H. unfold fs_existsSync. by rewrite H. Qed.

Lemma children_file f d x :
  NoDup f.*1 -> x ∈ children f d -> isDirectory x = false ->
  exists t, fs_get f (d ++ [name x]) = Some (File t).
Proof.
  intros Hnd Hx Hf. destruct x as [x b]. simpl in *. subst b.
  apply elem_of_children in Hx as (n & Hin & Hn).
  apply fs_elem_get in Hin; [|done].
  destruct n as [t|]; [by exists t | done].
Qed.

(** Creating the archive folder of a version does not touch the listing of
    [current_snapshots]. *)
Lemma archive_mkdir_keeps_current f (folder : path) (v : string) f1 :
  fs_mkdirSync f (folder ++ ["src_snapshots"; v]) = Ok f1 ->
  children f1 (folder ++ ["current_snapshots"])
  = children f (folder ++ ["current_snapshots"]).
Proof.
  intros Hm. apply (mkdir_from_children_other _ _ _ _ _ Hm).
  intros i y H. simpl in H.
  assert (Hlen := f_equal length H).
  rewrite length_take, !length_app in Hlen. simpl in Hlen.
  rewrite take_ge in H by (rewrite length_app; simpl; lia).
  by simplify_list_eq.
Qed.

Lemma current_ne_archive (folder : path) (v a b : string) :
  (folder ++ ["current_snapshots"]) ++ [a]
  <> (folder ++ ["src_snapshots"; v]) ++ [b].
Proof.
  intros H. apply (f_equal length) in H. rewrite !length_app in H.
  simpl in H. lia.
Qed.

(** C10. In the migration of [processNodeForWrite] every entry of
    [current_snapshots] is asserted to be a file. When the listing of
    [current_snapshots] has a subdirectory [sub], with the entries [pre]
    before it all files, and the steps before the loop succeed (the
    version file is read and parsed, the archive folder is made), the
    workflow is rejected inside the loop: no job is added, nothing else
    changes but files and the record of actions, and what was done is the
    [mkdir] and the copies of some entries [done] before [sub]. Either the
    assertion failed at [sub], with exactly [pre] copied, or a copy of a
    file of [pre] threw before [sub] was reached. In both cases [sub] is
    neither copied nor passed over for the entries after it. When no two
    entries have the same path and the archive folder has no
    subdirectory, the second case is out: the assertion fails. *)
Theorem C10_subdirectory_fails_the_assertion
    pkgVersion snapshotVersionOf stampOf data concurrently
    (k : unit -> Prog unit) w d text v f1 pre sub post :
  heap w !! data = Some d ->
  let cur := folder d ++ ["current_snapshots"] in
  let vf := cur ++ ["snapshotVersion.json"] in
  let dst := folder d ++ ["src_snapshots"; v] in
  fs_readdirSync (fs w) cur = Ok (pre ++ sub :: post) ->
  (forall x, x ∈ pre -> isDirectory x = false) ->
  isDirectory sub = true ->
  fs_readFileSync (fs w) vf = Ok text ->
  snapshotVersionOf text = Version v ->
  fs_mkdirSync (fs w) dst = Ok f1 ->
  let s := run (processNodeForWrite pkgVersion snapshotVersionOf stampOf
                  data concurrently ≫= k) w in
  (exists e done,
     ctl s = Settled (Rejected e)
     /\ quiet w (world s)
     /\ acts (world s) = acts w ++ ActMkdir dst :: copies cur dst done
     /\ ((e = AssertionError "" /\ done = pre)
         \/ (fs_error e /\ exists x rest, pre = done ++ x :: rest)))
  /\ (NoDup (fs w).*1 ->
      (forall y, fs_get (fs w) (dst ++ [y]) <> Some Dir) ->
      ctl s = Settled (Rejected (AssertionError ""))
      /\ acts (world s) = acts w ++ ActMkdir dst :: copies cur dst pre).
Proof.
  intros Hd cur vf dst Hl Hpre Hsub Hr Hv Hm s.
  destruct (fs_readdirSync_Ok _ _ _ Hl) as [Hcur Hch].
  assert (Hvf := fs_readFileSync_Ok _ _ _ Hr).
  assert (Hl1 : fs_readdirSync f1 cur = Ok (pre ++ sub :: post)).
  { unfold fs_readdirSync.
    rewrite (mkdir_from_keeps _ _ _ _ _ _ Hm Hcur).
    unfold cur. rewrite (archive_mkdir_keeps_current _ _ _ _ Hm).
    by rewrite Hch. }
  set (w1 := did (set_fs w f1) (ActMkdir dst)).
  set (s1 := run (forOf (pre ++ sub :: post) (copy_step cur dst)) w1).
  assert (Hrun : ctl s1 <> Settled Fulfilled -> s = s1).
  { intros Hne. unfold s.
    rewrite (processNodeForWrite_run _ _ _ _ _ _ _ _ Hd
               (fs_existsSync_Some _ _ _ Hcur) (fs_existsSync_Some _ _ _ Hvf)).
    fold cur vf. rewrite Hr, Hv. cbv zeta. fold dst. rewrite Hm, Hl1.
    fold w1 s1. by destruct (ctl s1) as [| | | |[| |e]]. }
  destruct (copy_loop_spec cur dst (pre ++ sub :: post) w1)
    as (Hq & _ & _ & done & _ & Hacts & Hfiles & _ & _ & Hctl).
  fold s1 in Hq, Hacts, Hctl.
  assert (Hgen : exists e,
     ctl s1 = Settled (Rejected e)
     /\ ((e = AssertionError "" /\ done = pre)
         \/ (fs_error e /\ exists x rest, pre = done ++ x :: rest))).
  { destruct (ctl s1) as [| | | |[| |e]]; try done.
    - subst done. rewrite Hfiles in Hsub; [done|].
      apply elem_of_app. right. apply elem_of_cons. by left.
    - destruct Hctl as (x & rest & Heq & Hx). exists e. split; [done|].
      symmetry in Heq.
      destruct (first_directory _ _ _ _ _ _ Heq Hfiles Hpre Hsub)
        as [[Hxd ->]|[Hxf Hrest]].
      + rewrite Hxd in Hx. by left.
      + rewrite Hxf in Hx. right. destruct Hrest as [r ->].
        split; [apply (fs_copyFileSync_error _ _ _ _ Hx) | by exists x, r]. }
  destruct Hgen as (e & Hs1 & Hcase).
  assert (Hs : s = s1) by (apply Hrun; by rewrite Hs1).
  split.
  - exists e, done. rewrite Hs. split_and!; try done.
    + destruct Hq. by split.
    + rewrite Hacts. unfold w1. simpl. by rewrite <- app_assoc.
  - intros Hnd Harch.
    destruct (fs_mkdirSync_spec (fs w) (folder d ++ ["src_snapshots"]) v f1)
      as (_ & Hdir & Hsame & _).
    { by rewrite <- app_assoc. }
    assert (Hstop : ctl s1 = Settled (Rejected (AssertionError ""))).
    { apply copy_loop_stops; try done.
      - apply current_ne_archive.
      - apply is_directory_Dir. unfold dst, w1. simpl.
        by rewrite <- app_assoc in Hdir.
      - intros x Hx. split; [by apply Hpre|].
        destruct (children_file (fs w) cur x Hnd) as [t Ht].
        + rewrite <- Hch. apply elem_of_app. by left.
        + by apply Hpre.
        + exists t. apply (mkdir_from_keeps _ _ _ _ _ _ Hm Ht).
      - intros y. unfold w1, dst. simpl.
        specialize (Hsame y). specialize (Harch y). unfold dst in Harch.
        rewrite <- !app_assoc in Hsame. rewrite <- app_assoc in Harch.
        rewrite <- app_assoc. simpl in *. by rewrite Hsame. }
    rewrite Hs. split; [done|].
    rewrite Hs1 in Hstop. injection Hstop as ->.
    destruct Hcase as [[_ ->]|[He _]]; [|inversion He].
    rewrite Hacts. unfold w1. simpl. by rewrite <- app_assoc.
Qed.

Lemma C9_witness :
  run (processNodeForWrite "1.0.0" ex_versionOf ex_stampOf 0%nat true
         ≫= (fun _ => Ret tt)) (ex_world ex_bare)
  = fail (ex_world ex_bare)
      (AssertionError
         ("Directory " +:+ render (ex_root ++ ["a"; "current_snapshots"])
            +:+ " does not exist!")).
Proof.
  apply (C9_write_needs_its_baseline "1.0.0" ex_versionOf ex_stampOf 0%nat
           true (fun _ => Ret tt) (ex_world ex_bare) (ex_args "a") eq_refl).
  reflexivity.
Defined.

Lemma C10_witness :
  ctl (run (processNodeForWrite "1.0.0" ex_versionOf ex_stampOf 0%nat true
              ≫= (fun _ => Ret tt)) (ex_world ex_leftover))
  = Settled (Rejected (AssertionError ""))
  /\ acts (world (run (processNodeForWrite "1.0.0" ex_versionOf ex_stampOf
                         0%nat true ≫= (fun _ => Ret tt))
                    (ex_world ex_leftover)))
     = [ActMkdir (ex_root ++ ["a"; "src_snapshots"; "0.9.0"]);
        ActCopy (ex_root ++ ["a"; "current_snapshots"; "snapshotVersion.json"])
                (ex_root ++ ["a"; "src_snapshots"; "0.9.0";
                             "snapshotVersion.json"]);
        ActCopy (ex_root ++ ["a"; "current_snapshots"; "snapshot_1000.json"])
                (ex_root ++ ["a"; "src_snapshots"; "0.9.0";
                             "snapshot_1000.json"])].
Proof.
  assert (Hm : exists f1,
            fs_mkdirSync ex_leftover
              (ex_root ++ ["a"] ++ ["src_snapshots"; "0.9.0"]) = Ok f1)
    by (eexists; vm_compute; reflexivity).
  destruct Hm as [f1 Hm].
  apply (C10_subdirectory_fails_the_assertion "1.0.0" ex_versionOf ex_stampOf
           0%nat true (fun _ => Ret tt) (ex_world ex_leftover) (ex_args "a")
           "0.9.0" "0.9.0" f1
           [MkDirent "snapshotVersion.json" false;
            MkDirent "snapshot_1000.json" false]
           (MkDirent "FailedSnapshots" true)
           [MkDirent "late.json" false] eq_refl).
  - vm_compute. reflexivity.
  - intros x Hx. repeat (apply elem_of_cons in Hx as [->|Hx]; [done|]).
    by apply elem_of_nil in Hx.
  - reflexivity.
  - vm_compute. reflexivity.
  - reflexivity.
  - exact Hm.
  - apply (bool_decide_unpack _). vm_compute. exact I.
  - intros y Hy. apply fs_get_Some_elem in Hy.
    repeat (apply elem_of_cons in Hy as [Hy|Hy]; [by simplify_list_eq|]).
    by apply elem_of_nil in Hy.
Defined.

(** ** The archive of a version *)

Lemma elem_of_children_names f d y :
  y ∈ name <$> children f d <-> fs_existsSync f (d ++ [y]) = true.
Proof.
  unfold fs_existsSync. rewrite list_elem_of_fmap. split.
  - intros ([x b] & -> & Hx). simpl.
    apply elem_of_children in Hx as (n & Hin & _).
    destruct (fs_get f (d ++ [x])) eqn:Hg; [done|].
    apply fs_get_None in Hg. destruct Hg. apply list_elem_of_fmap.
    by exists (d ++ [x], n).
  - destruct (fs_get f (d ++ [y])) as [n|] eqn:Hg; [|done]. intros _.
    exists (MkDirent y (is_dir_node n)). split; [done|].
    apply elem_of_children. exists n. split; [|done].
    by apply fs_get_Some_elem.
Qed.

Lemma baseline_edits_NoDup cur f f' :
  baseline_edits cur f f' -> NoDup f.*1 -> NoDup f'.*1.
Proof.
  induction 1; intros; auto using fs_put_NoDup, fs_del_NoDup.
Qed.

Lemma baseline_edits_children cur f f' d :
  baseline_edits cur f f' -> d <> cur -> children f' d = children f d.
Proof.
  intros H Hd. induction H as [|f f' x t _ IH|f f' x _ IH]; [done|..].
  - rewrite children_put_other; [done|].
    intros y Hy. by apply child_inj in Hy as [? _].
  - rewrite children_del_other; [done|].
    intros y Hy. by apply child_inj in Hy as [? _].
Qed.

Lemma baseline_edits_get cur f f' q :
  baseline_edits cur f f' -> (forall x, q <> cur ++ [x]) ->
  fs_get f' q = fs_get f q.
Proof.
  intros H Hq. induction H as [|f f' x t _ IH|f f' x _ IH]; [done|..].
  - rewrite fs_get_put, decide_False; [done|]. intros <-. by apply (Hq x).
  - rewrite fs_get_del, decide_False; [done|]. intros <-. by apply (Hq x).
Qed.

(** When every file copied is in the archive already, the listing of the
    archive folder is what it was: the files are replaced in place. *)
Lemma copy_loop_listing (cur dst : path) l : forall w,
  ctl (run (forOf l (copy_step cur dst)) w) = Settled Fulfilled ->
  (forall x, x ∈ l -> fs_existsSync (fs w) (dst ++ [name x]) = true) ->
  children (fs (world (run (forOf l (copy_step cur dst)) w))) dst
  = children (fs w) dst.
Proof.
  induction l as [|x l IH]; intros w; [done|].
  rewrite run_forOf_cons, run_copy_step.
  destruct (isDirectory x); [done|].
  destruct (fs_copyFileSync _ _ _) as [f|e] eqn:Hcp; [|done]. simpl.
  apply fs_copyFileSync_Ok in Hcp as (t & _ & -> & _ & Hnd).
  intros Hctl Hex.
  assert (Hx : fs_existsSync (fs w) (dst ++ [name x]) = true)
    by (apply Hex, elem_of_cons; by left).
  unfold fs_existsSync in Hx.
  destruct (fs_get (fs w) (dst ++ [name x])) as [[t'|]|] eqn:Hg; try done.
  rewrite IH; [|done|].
  - simpl. by apply (children_put_old _ _ _ _ (File t')).
  - intros y Hy. simpl. unfold fs_existsSync. rewrite fs_get_put.
    destruct (decide _); [done|]. apply Hex, elem_of_cons. by right.
Qed.

Lemma archive_mkdir_keeps_files f (folder : path) (v y : string) f1 :
  fs_mkdirSync f (folder ++ ["src_snapshots"; v]) = Ok f1 ->
  fs_get f1 ((folder ++ ["current_snapshots"]) ++ [y])
  = fs_get f ((folder ++ ["current_snapshots"]) ++ [y]).
Proof.
  intros Hm. destruct (mkdir_from_spec _ _ _ _ Hm) as (_ & H & _).
  destruct (H ((folder ++ ["current_snapshots"]) ++ [y]))
    as [?|(_ & _ & i & _ & Hi)]; [done|].
  simpl in Hi. assert (Hlen := f_equal length Hi).
  rewrite length_take, !length_app in Hlen. simpl in Hlen.
  rewrite take_ge in Hi by (rewrite length_app; simpl; lia).
  by simplify_list_eq.
Qed.

Lemma archive_mkdir_keeps_listing f (folder : path) (v : string) f1 :
  fs_mkdirSync f (folder ++ ["src_snapshots"; v]) = Ok f1 ->
  children f1 (folder ++ ["src_snapshots"; v])
  = children f (folder ++ ["src_snapshots"; v]).
Proof.
  intros Hm. apply (mkdir_from_children_other _ _ _ _ _ Hm).
  intros i y H. simpl in H. assert (Hlen := f_equal length H).
  rewrite length_take, !length_app in Hlen. simpl in Hlen. lia.
Qed.

(** One migration that succeeds: the workflow of the folder is about to
    submit its job. *)
Lemma migration_spec pkgVersion snapshotVersionOf stampOf data concurrently
    (k : unit -> Prog unit) w d text v kont :
  heap w !! data = Some d ->
  let cur := folder d ++ ["current_snapshots"] in
  let vf := cur ++ ["snapshotVersion.json"] in
  let src := folder d ++ ["src_snapshots"] in
  let dst := src ++ [v] in
  let s := run (processNodeForWrite pkgVersion snapshotVersionOf stampOf
                  data concurrently ≫= k) w in
  let f' := fs (world s) in
  NoDup (fs w).*1 ->
  fs_readFileSync (fs w) vf = Ok text ->
  snapshotVersionOf text = Version v ->
  ctl s = Ready kont ->
  NoDup f'.*1
  /\ quiet w (world s)
  /\ acts (world s)
     = acts w ++ ActMkdir dst :: copies cur dst (children (fs w) cur)
  /\ children f' src
     = (if fs_existsSync (fs w) dst then children (fs w) src
        else children (fs w) src ++ [MkDirent v true])
  /\ fs_get f' dst = Some Dir
  /\ (forall x, x ∈ children (fs w) cur ->
        isDirectory x = false
        /\ exists t, fs_get (fs w) (cur ++ [name x]) = Some (File t)
                     /\ fs_get f' (dst ++ [name x]) = Some (File t))
  /\ (forall y, y ∉ name <$> children (fs w) cur ->
        fs_get f' (dst ++ [y]) = fs_get (fs w) (dst ++ [y]))
  /\ ((forall x, x ∈ children (fs w) cur ->
         fs_existsSync (fs w) (dst ++ [name x]) = true) ->
      children f' dst = children (fs w) dst)
  /\ children f' cur = children (fs w) cur
  /\ (forall y, fs_get f' (cur ++ [y]) = fs_get (fs w) (cur ++ [y])).
Proof.
  intros Hd cur vf src dst s f' Hnd Hr Hv Hctl.
  assert (Hdst : dst = folder d ++ ["src_snapshots"; v])
    by (unfold dst, src; by rewrite <- app_assoc).
  assert (Hvf := fs_readFileSync_Ok _ _ _ Hr).
  destruct (fs_existsSync (fs w) cur) eqn:Hc.
  2:{ exfalso. revert Hctl. unfold s, processNodeForWrite. simpl.
      rewrite Hd. simpl. fold cur. by rewrite Hc. }
  revert Hctl. unfold f', s.
  rewrite (processNodeForWrite_run _ _ _ _ _ _ _ _ Hd Hc
             (fs_existsSync_Some _ _ _ Hvf)).
  fold cur vf. rewrite Hr, Hv. cbv zeta. rewrite <- Hdst.
  destruct (fs_mkdirSync (fs w) dst) as [f1|e] eqn:Hm; [|done].
  destruct (fs_readdirSync f1 cur) as [l|e] eqn:Hl; [|done].
  destruct (fs_mkdirSync_spec (fs w) src v f1 Hm)
    as (Hnd2 & Hdir & Hsame & _ & Hsrc).
  rewrite Hdst in Hm.
  apply fs_readdirSync_Ok in Hl as [_ ->].
  assert (Hcur : children f1 cur = children (fs w) cur)
    by apply (archive_mkdir_keeps_current _ _ _ _ Hm).
  rewrite Hcur.
  set (w1 := did (set_fs w f1) (ActMkdir dst)).
  destruct (copy_loop_spec cur dst (children (fs w) cur) w1)
    as (Hq & Hnd1 & Hch & done & _ & Hacts & Hfiles & Hframe & Hcont & Hdone).
  assert (Hcd : forall a b, cur ++ [a] <> dst ++ [b]).
  { intros a b. rewrite Hdst. apply current_ne_archive. }
  set (s1 := run _ w1) in *.
  destruct (ctl s1) as [| | | |[| |e]] eqn:Hloop; try done;
    try (by rewrite Hloop).
  subst done. simpl. intros _.
  split_and!.
  - by apply Hnd1, Hnd2.
  - destruct Hq. by split.
  - rewrite Hacts. unfold w1. simpl. by rewrite <- app_assoc.
  - rewrite Hch.
    + unfold w1. simpl. rewrite Hsrc. unfold fs_existsSync, dst.
      by destruct (fs_get (fs w) (src ++ [v])).
    + apply not_eq_sym, child_ne_self.
  - rewrite Hframe; [done|]. intros y _. apply not_eq_sym, child_ne_self.
  - intros x Hx. split; [by apply Hfiles|].
    destruct (Hcont Hcd x Hx) as (t & H1 & H2). exists t. split; [|done].
    unfold w1 in H1. simpl in H1. unfold cur in H1.
    by rewrite (archive_mkdir_keeps_files _ _ _ _ _ Hm) in H1.
  - intros y Hy. rewrite Hframe.
    + unfold w1, dst. simpl. rewrite <- !app_assoc. apply Hsame.
    + intros x Hx Heq. apply child_inj in Heq as [_ ->].
      apply Hy, list_elem_of_fmap. by exists x.
  - intros Hex. unfold s1. rewrite copy_loop_listing; [|done|].
    + unfold w1. simpl. rewrite Hdst.
      apply (archive_mkdir_keeps_listing _ _ _ _ Hm).
    + intros x Hx. unfold w1, fs_existsSync. simpl.
      specialize (Hex x Hx). unfold fs_existsSync in Hex.
      destruct (fs_get (fs w) (dst ++ [name x])) as [n|] eqn:Hg; [|done].
      by rewrite (mkdir_from_keeps _ _ _ _ _ _ Hm Hg).
  - rewrite Hch; [|by intros H; apply (f_equal length) in H; unfold cur in H;
                      rewrite Hdst, !length_app in H; simpl in H; lia].
    unfold w1, cur. simpl. apply (archive_mkdir_keeps_current _ _ _ _ Hm).
  - intros y. rewrite Hframe.
    + unfold w1, cur. simpl. apply (archive_mkdir_keeps_files _ _ _ _ _ Hm).
    + intros x _. apply Hcd.
Qed.

(** C6. Two migrations of [processNodeForWrite] for one folder that both
    succeed and both read the version [v] from the stamp, the second one
    starting after files of [current_snapshots] were written or removed;
    [v] is one component of a path. The first creates the folder
    [src_snapshots/v] when there is none, and no other folder: the
    entries of [src_snapshots] are the ones it had, and [v] (in which
    place of the listing is not said); the second creates none: the
    listing of [src_snapshots] is the same after it, with one folder
    named [v]. In that folder no name is listed twice, every file of
    [current_snapshots] is there with the content it has at the second
    run, and when the second run has no file name the first had not, the
    listing of the folder is the same as after the first run: files are
    replaced, none is added. *)
Theorem C6_one_archive_folder_per_version
    pkgVersion snapshotVersionOf stampOf (data data2 : ref)
    (concurrently concurrently2 : bool) (k k2 : unit -> Prog unit)
    (w w2 : World) d d2 text text2 v kont kont2 :
  heap w !! data = Some d ->
  heap w2 !! data2 = Some d2 ->
  folder d2 = folder d ->
  let cur := folder d ++ ["current_snapshots"] in
  let vf := cur ++ ["snapshotVersion.json"] in
  let src := folder d ++ ["src_snapshots"] in
  let dst := src ++ [v] in
  let s := run (processNodeForWrite pkgVersion snapshotVersionOf stampOf
                  data concurrently ≫= k) w in
  let s2 := run (processNodeForWrite pkgVersion snapshotVersionOf stampOf
                   data2 concurrently2 ≫= k2) w2 in
  NoDup (fs w).*1 ->
  fs_readFileSync (fs w) vf = Ok text ->
  snapshotVersionOf text = Version v ->
  path_component v = true ->
  ctl s = Ready kont ->
  baseline_edits cur (fs (world s)) (fs w2) ->
  fs_readFileSync (fs w2) vf = Ok text2 ->
  snapshotVersionOf text2 = Version v ->
  ctl s2 = Ready kont2 ->
  children (fs (world s)) src
  ≡ₚ (if fs_existsSync (fs w) dst then children (fs w) src
      else MkDirent v true :: children (fs w) src)
  /\ children (fs (world s2)) src = children (fs (world s)) src
  /\ NoDup (name <$> children (fs (world s2)) src)
  /\ MkDirent v true ∈ children (fs (world s2)) src
  /\ NoDup (name <$> children (fs (world s2)) dst)
  /\ (forall x, x ∈ children (fs w2) cur ->
        exists t, fs_get (fs w2) (cur ++ [name x]) = Some (File t)
                  /\ fs_get (fs (world s2)) (dst ++ [name x])
                     = Some (File t))
  /\ ((forall x, x ∈ children (fs w2) cur ->
         name x ∈ name <$> children (fs w) cur) ->
      children (fs (world s2)) dst = children (fs (world s)) dst).
Proof.
  intros Hd Hd2 Hfolder cur vf src dst s s2 Hnd Hr Hv _ Hctl Hedits Hr2 Hv2
    Hctl2.
  destruct (migration_spec pkgVersion snapshotVersionOf stampOf data
              concurrently k w d text v kont Hd Hnd Hr Hv Hctl)
    as (Hnd' & _ & _ & Hsrc & Hdir & Hfiles & _ & _ & _ & _).
  fold cur src dst s in Hnd', Hsrc, Hdir, Hfiles.
  assert (Hnd2 := baseline_edits_NoDup _ _ _ Hedits Hnd').
  assert (Hsd : src <> cur).
  { unfold src, cur. intros H. by simplify_list_eq. }
  assert (Hdc : dst <> cur).
  { unfold dst, src, cur. intros H. apply (f_equal length) in H.
    rewrite !length_app in H. simpl in H. lia. }
  assert (Hdx : forall y x, dst ++ [y] <> cur ++ [x]).
  { intros y x H. by apply child_inj in H as [? _]. }
  unfold vf, cur in Hr2. rewrite <- Hfolder in Hr2.
  destruct (migration_spec pkgVersion snapshotVersionOf stampOf data2
              concurrently2 k2 w2 d2 text2 v kont2 Hd2 Hnd2 Hr2 Hv2 Hctl2)
    as (Hnd'' & _ & _ & Hsrc2 & Hdir2 & Hfiles2 & _ & Hlist2 & _ & _).
  rewrite Hfolder in Hsrc2, Hdir2, Hfiles2, Hlist2.
  fold cur src dst s2 in Hnd'', Hsrc2, Hdir2, Hfiles2, Hlist2.
  assert (Hex2 : fs_existsSync (fs w2) dst = true).
  { unfold fs_existsSync.
    rewrite (baseline_edits_get _ _ _ _ Hedits), Hdir; [done|].
    intros x H. by apply child_inj in H as [? _]. }
  rewrite Hex2 in Hsrc2.
  rewrite (baseline_edits_children _ _ _ _ Hedits Hsd) in Hsrc2.
  split_and!.
  - rewrite Hsrc. destruct (fs_existsSync (fs w) dst); [done|].
    symmetry. apply Permutation_cons_append.
  - done.
  - by apply children_names_NoDup.
  - apply elem_of_children. exists Dir. split; [|done].
    by apply fs_get_Some_elem.
  - by apply children_names_NoDup.
  - intros x Hx. by destruct (Hfiles2 x Hx) as (_ & ?).
  - intros Hnames. rewrite Hlist2.
    + apply (baseline_edits_children _ _ _ _ Hedits Hdc).
    + intros x Hx. apply Hnames in Hx.
      apply list_elem_of_fmap in Hx as (x0 & Hn & Hx0).
      destruct (Hfiles x0 Hx0) as (_ & t & _ & Ht).
      unfold fs_existsSync.
      rewrite (baseline_edits_get _ _ _ _ Hedits); [|apply Hdx].
      by rewrite Hn, Ht.
Qed.

Lemma C6_witness :
  children (fs (world ex_second)) (ex_root ++ ["a"; "src_snapshots"])
  = [MkDirent "0.9.0" true]
  /\ children (fs (world ex_second))
       (ex_root ++ ["a"; "src_snapshots"; "0.9.0"])
     = children (fs (world ex_first))
         (ex_root ++ ["a"; "src_snapshots"; "0.9.0"])
  /\ fs_get (fs (world ex_second))
       (ex_root ++ ["a"; "src_snapshots"; "0.9.0"; "snapshot_1000.json"])
     = Some (File "tree, replayed").
Proof.
  assert (Hk : exists kont, ctl ex_first = Ready kont)
    by (eexists; vm_compute; reflexivity).
  assert (Hk2 : exists kont, ctl ex_second = Ready kont)
    by (eexists; vm_compute; reflexivity).
  destruct Hk as [kont Hk], Hk2 as [kont2 Hk2].
  destruct (C6_one_archive_folder_per_version "0.9.0" ex_versionOf ex_stampOf
              0%nat 0%nat true true (fun _ => Ret tt) (fun _ => Ret tt)
              (ex_world (ex_corpus ["a"])) (ex_world ex_between)
              (ex_args "a") (ex_args "a") "0.9.0" "0.9.0" "0.9.0" kont kont2
              eq_refl eq_refl eq_refl)
    as (H1 & H2 & _ & _ & _ & H6 & H7).
  - apply (bool_decide_unpack _). vm_compute. exact I.
  - vm_compute. reflexivity.
  - reflexivity.
  - reflexivity.
  - exact Hk.
  - exact (edits_write _ _ _ "snapshotVersion.json" "0.9.0"
             (edits_write _ _ _ "snapshot_1000.json" "tree, replayed"
                (edits_none _ _))).
  - vm_compute. reflexivity.
  - reflexivity.
  - exact Hk2.
  - split; [|split].
    + etransitivity; [exact H2|]. apply Permutation_singleton_r.
      etransitivity; [exact H1|]. vm_compute. reflexivity.
    + apply H7. intros x Hx. apply (bool_decide_unpack _).
      assert (Hc : children (fs (ex_world ex_between))
                     (folder (ex_args "a") ++ ["current_snapshots"])
                   = [MkDirent "snapshotVersion.json" false;
                      MkDirent "snapshot_1000.json" false])
        by (vm_compute; reflexivity).
      rewrite Hc in Hx.
      repeat (apply elem_of_cons in Hx as [->|Hx];
              [vm_compute; exact I|]).
      apply elem_of_nil in Hx. destruct Hx.
    + destruct (H6 (MkDirent "snapshot_1000.json" false)) as (t & Ht & Ht').
      * apply (bool_decide_unpack _). vm_compute. exact I.
      * assert (Hc : fs_get (fs (ex_world ex_between))
                       ((folder (ex_args "a") ++ ["current_snapshots"])
                          ++ ["snapshot_1000.json"])
                     = Some (File "tree, replayed"))
          by (vm_compute; reflexivity).
        cbn [name] in Ht, Ht'. rewrite Hc in Ht. injection Ht as <-.
        exact Ht'.
Defined.

(** ** The console is written, never read *)

Lemma mute_eq w w' :
  mute w = mute w' ->
  exists f h l ds js a ac th c c',
    w = MkWorld f h l ds js a c ac th /\ w' = MkWorld f h l ds js a c' ac th.
Proof.
  destruct w, w'. unfold mute. simpl. intros [= -> -> -> -> -> -> -> ->].
  by repeat eexists.
Qed.

Ltac muted H :=
  apply mute_eq in H
    as (?f & ?h & ?l & ?ds & ?js & ?a & ?ac & ?th & ?c & ?c' & -> & ->).

Lemma run_console p : forall w w',
  mute w = mute w' ->
  ctl (run p w) = ctl (run p w')
  /\ mute (world (run p w)) = mute (world (run p w')).
Proof.
  induction p as [x|e|q k IH|q k IH|q k IH|q k IH|src dst k IH|q t k IH
                  |q k IH|q k IH|msg k IH|a0 k IH|r k IH|r d k IH|k IH|r k IH
                  |r k IH|k IH];
    intros w w' H; muted H; cbn [run fs heap].
  - done.
  - done.
  - by apply IH.
  - destruct (fs_readdirSync f q); [by apply IH | done].
  - destruct (fs_readFileSync f q); [by apply IH | done].
  - destruct (fs_mkdirSync f q); [by apply IH | done].
  - destruct (fs_copyFileSync f src dst); [by apply IH | done].
  - destruct (fs_writeFileSync f q t); [by apply IH | done].
  - destruct (fs_unlinkSync f q); [by apply IH | done].
  - destruct (fs_rmdirSync f q); [by apply IH | done].
  - by apply IH.
  - by apply IH.
  - destruct (h !! r); [by apply IH | done].
  - destruct (h !! r); [by apply IH | done].
  - done.
  - unfold addWork, startWorker. cbn.
    repeat (case_match; simplify_eq/=); try done; by apply IH.
  - destruct (h !! r); done.
  - unfold waitAll. cbn.
    destruct (promise_all _); [done | by apply IH | done].
Qed.

Lemma step_console s s' ev :
  ctl s = ctl s' -> mute (world s) = mute (world s') ->
  same_outcome (step s ev) (step s' ev).
Proof.
  destruct s as [w c0], s' as [w' c0']. simpl. intros <- H.
  destruct ev as [|j ev|j res]; unfold step; cbn [ctl world].
  - destruct c0 as [p|d r k|j k|k|r]; try done.
    + simpl. by apply run_console.
    + muted H. unfold resolved. cbn.
      destruct (ds !! d) as [[|n]|]; try done.
      unfold addWork_resume, startWorker. cbn.
      repeat (case_match; simplify_eq/=); try done; by apply run_console.
  - muted H. cbn. destruct (js !! j) as [job|]; [|done].
    destruct (inline job); [done|].
    unfold worker_reports. cbn.
    destruct (settled job); try done.
    unfold onFulfilled, all_reacts, wake, resolve, chained_of, set_job. cbn.
    repeat (case_match; simplify_eq/=); done.
  - muted H. cbn. destruct c0 as [p|d r k|j' k|k|r]; try done.
    destruct (js !! j) as [job|]; [|done].
    destruct (decide (j = j')); [|done]. destruct (inline job); [|done].
    unfold engine_reports. cbn. by destruct (processOneFile res).
Qed.

Lemma exec_console evs : forall s s',
  ctl s = ctl s' -> mute (world s) = mute (world s') ->
  same_outcome (exec s evs) (exec s' evs).
Proof.
  induction evs as [|ev evs IH]; intros s s' Hc Hw; [done|].
  cbn [exec]. assert (H := step_console s s' ev Hc Hw).
  destruct (step s ev), (step s' ev); try done.
  destruct H. by apply IH.
Qed.

(** C8. In the loop of [processContent], in every mode, a folder without
    [messages.json] is logged and passed over: the run goes on with the
    entries after it, and with what follows the loop, from the same state
    with one line more on the console. No job is started, nothing is
    written and nothing is thrown for it. Whatever happens next, the run
    is the one it would have been without the folder, up to the console. *)
Theorem C8_folder_without_log_is_skipped
    fileLocation pkgVersion snapshotVersionOf stampOf (mode : Mode)
    (concurrently : bool) (node : Dirent) (rest : list Dirent)
    (k : unit -> Prog unit) (w : World) :
  isDirectory node = true ->
  let messages := (fileLocation ++ [name node]) ++ ["messages.json"] in
  fs_existsSync (fs w) messages = false ->
  let body := processEntry fileLocation pkgVersion snapshotVersionOf stampOf
                mode concurrently in
  run (forOf (node :: rest) body ≫= k) w
  = run (forOf rest body ≫= k) (log w ("Can't locate " +:+ render messages))
  /\ forall evs,
       same_outcome (exec (run (forOf (node :: rest) body ≫= k) w) evs)
                    (exec (run (forOf rest body ≫= k) w) evs).
Proof.
  intros Hdir messages Hno body.
  assert (Hskip :
    run (forOf (node :: rest) body ≫= k) w
    = run (forOf rest body ≫= k)
          (log w ("Can't locate " +:+ render messages))).
  { assert (Hbody : run (body node) w
                     = MkSystem (log w ("Can't locate " +:+ render messages))
                                (Settled Fulfilled)).
    { unfold body, processEntry. rewrite Hdir.
      cbn [negb run bind existsSync mbind mret]. simpl.
      fold messages. by rewrite Hno. }
    rewrite !(run_bind _ k), run_forOf_cons. by rewrite Hbody. }
  split; [done|]. intros evs. rewrite Hskip.
  by apply exec_console; apply run_console.
Qed.

Lemma C8_witness :
  run (forOf [MkDirent "nolog" true; MkDirent "a" true]
         (processEntry ex_root "1.0.0" ex_versionOf ex_stampOf Compare true)
       ≫= (fun _ => limiter_waitAll))
      (boot numberOfThreads ex_nolog true)
  = run (forOf [MkDirent "a" true]
           (processEntry ex_root "1.0.0" ex_versionOf ex_stampOf Compare true)
         ≫= (fun _ => limiter_waitAll))
        (log (boot numberOfThreads ex_nolog true)
           ("Can't locate "
              +:+ render ((ex_root ++ ["nolog"]) ++ ["messages.json"]))).
Proof.
  apply (proj1 (C8_folder_without_log_is_skipped ex_root "1.0.0"
                  ex_versionOf ex_stampOf Compare true
                  (MkDirent "nolog" true) [MkDirent "a" true]
                  (fun _ => limiter_waitAll)
                  (boot numberOfThreads ex_nolog true) eq_refl eq_refl)).
Defined.

(** ** Validate mode *)

Lemma versionJobs_app d l l' :
  versionJobs d (l ++ l') = versionJobs d l ++ versionJobs d l'.
Proof. unfold versionJobs. by rewrite List.filter_app, fmap_app. Qed.

Lemma versionJobs_file d n : isDirectory n = false -> versionJobs d [n] = [].
Proof. intros H. unfold versionJobs. simpl. by rewrite H. Qed.

Lemma versionJobs_dir d n :
  isDirectory n = true ->
  versionJobs d [n]
  = [MkArgs (folder d) (mode d) (snapFreq d)
            (Some ((folder d ++ ["src_snapshots"]) ++ [name n]))].
Proof. intros H. unfold versionJobs. simpl. by rewrite H. Qed.

Lemma workerData_set_job w j job job' :
  jobs w !! j = Some job -> workerData job' = workerData job ->
  workerData <$> jobs (set_job w j job') = workerData <$> jobs w.
Proof.
  intros Hj Hw. unfold set_job. simpl. rewrite list_fmap_insert.
  apply list_insert_id. by rewrite list_lookup_fmap, Hj, Hw.
Qed.

Lemma run_validate_step data concurrently src n w :
  run (validate_step data concurrently src n) w
  = if isDirectory n then
      match heap w !! data with
      | Some a =>
          MkSystem
            (set_heap w (<[data := MkArgs (folder a) (mode a) (snapFreq a)
                                     (Some (src ++ [name n]))]> (heap w)))
            (Ready (submit data concurrently (threads w)))
      | None => fail w TypeError
      end
    else MkSystem w (Settled Fulfilled).
Proof.
  unfold validate_step. destruct (isDirectory n); [|done]. simpl.
  by destruct (heap w !! data).
Qed.

Lemma run_processNodeForValidate data concurrently w :
  run (processNodeForValidate data concurrently) w
  = match heap w !! data with
    | Some d =>
        let src := folder d ++ ["src_snapshots"] in
        if fs_existsSync (fs w) src then
          match fs_readdirSync (fs w) src with
          | Ok l => run (forOf l (validate_step data concurrently src)) w
          | Err e => fail w e
          end
        else MkSystem w (Settled Fulfilled)
    | None => fail w TypeError
    end.
Proof.
  unfold processNodeForValidate. simpl.
  destruct (heap w !! data) as [d|]; [|done]. simpl.
  destruct (fs_existsSync _ _); [|done]. simpl.
  by destruct (fs_readdirSync _ _).
Qed.

Section Validate.
Variables (data : ref) (concurrently : bool) (d : IWorkerArgs).
Variable base : list IWorkerArgs.

Local Abbreviation src := (folder d ++ ["src_snapshots"]).
Local Abbreviation body := (validate_step data concurrently src).
Local Abbreviation Inv := (validate_inv data concurrently d).

Lemma validate_loop f rest : forall done w,
  listing f src = done ++ rest ->
  fs w = f ->
  (exists a, heap w !! data = Some a /\ folder a = folder d
             /\ mode a = mode d /\ snapFreq a = snapFreq d) ->
  workerData <$> jobs w = base ++ versionJobs d done ->
  Inv f base (run (forOf rest body) w).
Proof.
  induction rest as [|n rest IH]; intros done w Hn Hf Hh Hj.
  - rewrite run_forOf_nil. econstructor; try done. simpl. constructor.
  - rewrite run_forOf_cons, run_validate_step.
    destruct (isDirectory n) eqn:Hdir.
    + destruct Hh as (a & Ha & Hfo & Hmo & Hsn). rewrite Ha. simpl.
      assert (Hlook : <[data := MkArgs (folder a) (mode a) (snapFreq a)
                                  (Some (src ++ [name n]))]> (heap w) !! data
                      = Some (MkArgs (folder d) (mode d) (snapFreq d)
                                (Some (src ++ [name n])))).
      { rewrite list_lookup_insert_eq, Hfo, Hmo, Hsn; [done|].
        by apply lookup_lt_Some in Ha. }
      apply (validate_inv_intro _ _ _ _ _ _ done (n :: rest)); simpl;
        try done.
      * by apply at_submit.
      * eauto.
    + simpl. apply (IH (done ++ [n])); try done.
      * by rewrite <- app_assoc.
      * by rewrite versionJobs_app, versionJobs_file, app_nil_r.
Qed.

Lemma validate_step_inv f s ev s' :
  Inv f base s -> step s ev = Some s' -> Inv f base s'.
Proof.
  intros [done rest Hn Hc Hf Hh Hj].
  destruct s as [w c]. simpl in *.
  destruct ev as [|j ev|j res]; unfold step; cbn [ctl world].
  - (* the dispatcher runs on *)
    inversion Hc as [rest0 Hd|done0 rest0|done0 n rest0 th Hdir Hd
                     |done0 n rest0 dd Hdir Hd|done0 rest0 j| |done0 rest0 e];
      subst; try done.
    + (* the start of the workflow *)
      rewrite run_processNodeForValidate, Hd. cbv zeta.
      intros [= <-]. pose proof Hn as Hn'.
      unfold listing, fs_readdirSync in Hn'.
      unfold fs_readdirSync, fs_existsSync.
      destruct (fs_get (fs w) (folder d ++ ["src_snapshots"]))
        as [[t|]|] eqn:Hs; simpl in Hn' |- *.
      * apply (validate_inv_intro _ _ _ _ _ _ [] rest); try done.
        apply at_error.
      * apply (validate_loop _ _ []); try done.
        unfold listing, fs_readdirSync. by rewrite Hs.
      * subst rest. simpl in Hn.
        apply (validate_inv_intro _ _ _ _ _ _ [] []); simpl;
          try done. apply at_end.
    + intros [= <-]. by apply (validate_loop _ rest done).
    + (* the job is submitted *)
      rewrite run_bind. unfold submit. intros [= <-].
      assert (Hdone : listing (fs w) src = (done ++ [n]) ++ rest0)
        by (by rewrite <- app_assoc).
      destruct (negb concurrently || negb th).
      * simpl. rewrite Hd. simpl.
        apply (validate_inv_intro _ _ _ _ _ _ (done ++ [n]) rest0); simpl;
          try done.
        -- apply at_job.
        -- rewrite fmap_app, Hj, versionJobs_app, (versionJobs_dir _ _ Hdir).
           by rewrite <- app_assoc.
      * cbn [run limiter_addWork]. unfold addWork.
        destruct (decide (limit (limiter w) - 1 < 0)).
        -- simpl. destruct (deferred (limiter w)); simpl.
           ++ apply (validate_inv_intro _ _ _ _ _ _ done (n :: rest0));
                simpl; try done. apply at_error.
           ++ apply (validate_inv_intro _ _ _ _ _ _ done (n :: rest0));
                simpl; try done. by apply at_gate.
        -- unfold startWorker. simpl. rewrite Hd. simpl.
           apply (validate_loop _ rest0 (done ++ [n])); simpl; try done.
           rewrite fmap_app, Hj, versionJobs_app, (versionJobs_dir _ _ Hdir).
           by rewrite <- app_assoc.
    + (* a slot is free *)
      destruct (resolved w dd); [|done].
      assert (Hdone : listing (fs w) src = (done ++ [n]) ++ rest0)
        by (by rewrite <- app_assoc).
      unfold addWork_resume.
      destruct (deferred (limiter w)).
      { intros [= <-]. apply (validate_inv_intro _ _ _ _ _ _ done (n :: rest0));
          simpl; try done. apply at_error. }
      destruct (decide (limit (limiter w) >= 0)).
      2:{ intros [= <-].
          apply (validate_inv_intro _ _ _ _ _ _ done (n :: rest0));
            simpl; try done. apply at_error. }
      unfold startWorker. rewrite Hd. intros [= <-].
      apply (validate_loop _ rest0 (done ++ [n])); simpl; try done.
      rewrite fmap_app, Hj, versionJobs_app, (versionJobs_dir _ _ Hdir).
      by rewrite <- app_assoc.
  - (* a worker reports *)
    destruct (jobs w !! j) as [job|] eqn:Hjob; [|done].
    destruct (inline job); [done|]. intros [= <-].
    unfold worker_reports. cbn [world ctl].
    destruct (settled job) eqn:Hset.
    2,3: by apply (validate_inv_intro _ _ _ _ _ _ done rest).
    set (r := listener _ _).
    assert (Hquiet : forall w1 p,
      (w1, p) = match r with Fulfilled => onFulfilled w | _ => (w, r) end ->
      fs w1 = fs w /\ heap w1 = heap w /\ jobs w1 = jobs w).
    { intros w1 p. unfold onFulfilled, resolve.
      destruct r; try (by intros [= -> _]).
      repeat case_match; by intros [= -> _]. }
    destruct (match r with Fulfilled => onFulfilled w | _ => (w, r) end)
      as [w1 p] eqn:Hw1.
    destruct (Hquiet w1 p eq_refl) as (Hfs1 & Hh1 & Hj1).
    set (w3 := did (set_job w1 j _) _).
    assert (Hw3 : fs w3 = fs w /\ heap w3 = heap w
                  /\ workerData <$> jobs w3 = workerData <$> jobs w).
    { unfold w3. simpl. split_and!; try done.
      rewrite <- Hj1. apply (workerData_set_job w1 j job); [|done].
      by rewrite Hj1. }
    destruct Hw3 as (Hfs3 & Hh3 & Hj3).
    assert (Hw4 : fs (all_reacts w3 j p) = fs w
                  /\ heap (all_reacts w3 j p) = heap w
                  /\ jobs (all_reacts w3 j p) = jobs w3).
    { unfold all_reacts. repeat case_match; simpl; by rewrite ?Hfs3, ?Hh3. }
    destruct Hw4 as (Hfs4 & Hh4 & Hj4).
    assert (Hwake : wake (all_reacts w3 j p) c = c).
    { inversion Hc; subst; done. }
    rewrite Hwake.
    apply (validate_inv_intro _ _ _ _ _ _ done rest); simpl; try done.
    + by rewrite Hh4.
    + by rewrite Hfs4.
    + by rewrite Hh4.
    + by rewrite Hj4, Hj3.
  - (* the engine of a job in line is done *)
    inversion Hc as [rest0 Hd|done0 rest0|done0 n rest0 th Hdir Hd
                     |done0 n rest0 dd Hdir Hd|done0 rest0 j0| |done0 rest0 e];
      subst; try done.
    destruct (jobs w !! j) as [job|] eqn:Hjob; [|done].
    destruct (decide (j = j0)) as [->|]; [|done].
    destruct (inline job); [|done]. intros [= <-].
    unfold engine_reports. cbn [world ctl].
    assert (Hwd : forall r,
              workerData <$> <[j0 := MkJob (workerData job) true r r]> (jobs w)
              = workerData <$> jobs w).
    { intros r. by apply (workerData_set_job w j0 job). }
    destruct (processOneFile res);
      apply (validate_inv_intro _ _ _ _ _ _ done rest); simpl;
      rewrite ?Hwd; try done; try apply at_loop; apply at_error.
Qed.

Lemma validate_exec_inv f evs : forall s s',
  Inv f base s -> exec s evs = Some s' -> Inv f base s'.
Proof.
  induction evs as [|ev evs IH]; intros s s' Hs; simpl.
  - by intros [= <-].
  - destruct (step s ev) as [s1|] eqn:Hstep; [|done].
    apply IH. by apply (validate_step_inv f s ev).
Qed.

End Validate.




(** ** The order of the steps in Write mode *)

Lemma copies_prefix cur dst l l' :
  l `prefix_of` l' -> copies cur dst l `prefix_of` copies cur dst l'.
Proof. intros [k ->]. unfold copies. rewrite fmap_app. by eexists. Qed.

Section WriteOrder.
Variable pkgVersion : string.
Variable snapshotVersionOf : string -> Parsed.
Variable stampOf : string -> string.

(** The workflow up to its first suspension, at the [import] of
    [processNode]: the migration is done, or the workflow has stopped in
    it. *)
Lemma write_first_tick data concurrently w d text v :
  heap w !! data = Some d ->
  let cur := folder d ++ ["current_snapshots"] in
  let vf := cur ++ ["snapshotVersion.json"] in
  let dst := folder d ++ ["src_snapshots"; v] in
  let migration := ActMkdir dst :: copies cur dst (children (fs w) cur) in
  let s := run (processNodeForWrite pkgVersion snapshotVersionOf stampOf
                  data concurrently) w in
  fs_readFileSync (fs w) vf = Ok text ->
  snapshotVersionOf text = Version v ->
  quiet w (world s)
  /\ ((ctl s = Ready (submit data concurrently (threads w);;
                      writeFileSync vf (stampOf pkgVersion))
       /\ acts (world s) = acts w ++ migration)
      \/ (exists e tr, ctl s = Settled (Rejected e)
                       /\ tr `prefix_of` migration
                       /\ acts (world s) = acts w ++ tr)).
Proof.
  intros Hd cur vf dst migration s Hr Hv.
  assert (Hvf := fs_existsSync_Some _ _ _ (fs_readFileSync_Ok _ _ _ Hr)).
  unfold s, processNodeForWrite. simpl. rewrite Hd. simpl. fold cur.
  destruct (fs_existsSync (fs w) cur) eqn:Hc; simpl.
  2:{ split; [apply quiet_refl|]. right. eexists. exists []. split; [done|].
      split; [apply prefix_nil | by rewrite app_nil_r]. }
  fold vf. rewrite Hvf. simpl. rewrite Hr. simpl. rewrite Hv. simpl.
  fold dst.
  destruct (fs_mkdirSync (fs w) dst) as [f1|e] eqn:Hm; simpl.
  2:{ split; [apply quiet_refl|]. right. eexists. exists []. split; [done|].
      split; [apply prefix_nil | by rewrite app_nil_r]. }
  set (w1 := did (set_fs w f1) (ActMkdir dst)).
  destruct (fs_readdirSync f1 cur) as [l|e] eqn:Hl.
  2:{ split; [by split|]. right. eexists. exists [ActMkdir dst].
      split; [done|]. split; [|done]. by apply prefix_cons, prefix_nil. }
  apply fs_readdirSync_Ok in Hl as [_ ->].
  assert (Hcur : children f1 cur = children (fs w) cur)
    by apply (archive_mkdir_keeps_current _ _ _ _ Hm).
  rewrite Hcur.
  change (forOf (children (fs w) cur) _)
    with (forOf (children (fs w) cur) (copy_step cur dst)).
  rewrite run_bind.
  destruct (copy_loop_spec cur dst (children (fs w) cur) w1)
    as (Hq & _ & _ & done & Hpre & Hacts & _ & _ & _ & Hdone).
  set (s1 := run (forOf _ _) w1) in *.
  assert (Hq' : quiet w (world s1)) by (destruct Hq; by split).
  destruct (ctl s1) as [| | | |[| |e]] eqn:Hs1; try done.
  - subst done. simpl. split; [done|]. left.
    destruct Hq as [_ _ _ _ _ _ ->]. split; [done|].
    rewrite Hacts. unfold w1, migration. simpl. by rewrite <- app_assoc.
  - split; [done|]. right. exists e, (ActMkdir dst :: copies cur dst done).
    split; [done|]. split.
    + by apply prefix_cons, copies_prefix.
    + rewrite Hacts. unfold w1. simpl. by rewrite <- app_assoc.
Qed.

End WriteOrder.

Lemma filter_own_snoc j l a :
  List.filter (is_own j) (l ++ [a])
  = List.filter (is_own j) l ++ (if is_own j a then [a] else []).
Proof. rewrite List.filter_app. simpl. by destruct (is_own j a). Qed.

(** A report of a worker thread: nothing but the gate, the job and
    [Promise.all] changes, and the report is recorded once. *)
Lemma worker_reports_world s i job ev :
  jobs (world s) !! i = Some job ->
  let s' := worker_reports s i job ev in
  (settled job <> Pending -> s' = s)
  /\ (settled job = Pending ->
      exists r p,
        r <> Pending
        /\ fs (world s') = fs (world s)
        /\ heap (world s') = heap (world s)
        /\ threads (world s') = threads (world s)
        /\ jobs (world s')
           = <[i := MkJob (workerData job) false r p]> (jobs (world s))
        /\ acts (world s')
           = acts (world s) ++ [ActSettle i (is_fulfilled r)]
        /\ ctl s' = wake (world s') (ctl s)).
Proof.
  intros Hi s'. unfold s', worker_reports. split.
  - intros Hne. by destruct (settled job).
  - intros ->. set (r := listener _ _).
    assert (Hr : r <> Pending) by apply listener_settles.
    assert (Hq : forall w1 p,
      (w1, p) = match r with
                | Fulfilled => onFulfilled (world s)
                | _ => (world s, r)
                end ->
      fs w1 = fs (world s) /\ heap w1 = heap (world s)
      /\ threads w1 = threads (world s) /\ jobs w1 = jobs (world s)
      /\ acts w1 = acts (world s)).
    { intros w1 p. unfold onFulfilled, resolve.
      destruct r; try (by intros [= -> _]).
      repeat case_match; by intros [= -> _]. }
    destruct (match r with Fulfilled => onFulfilled (world s) | _ => _ end)
      as [w1 p] eqn:Hw1.
    destruct (Hq w1 p eq_refl) as (H1 & H2 & H3 & H4 & H5).
    exists r, p. split; [done|].
    set (w3 := did (set_job w1 i _) _).
    assert (Hall : fs (all_reacts w3 i p) = fs w3
                   /\ heap (all_reacts w3 i p) = heap w3
                   /\ threads (all_reacts w3 i p) = threads w3
                   /\ jobs (all_reacts w3 i p) = jobs w3
                   /\ acts (all_reacts w3 i p) = acts w3).
    { unfold all_reacts. repeat case_match; done. }
    destruct Hall as (A1 & A2 & A3 & A4 & A5). cbn [world ctl].
    rewrite A1, A2, A3, A4, A5. unfold w3. simpl.
    by rewrite H1, H2, H3, H4, H5.
Qed.

Lemma filter_own_copies j cur dst l :
  List.filter (is_own j) (copies cur dst l) = copies cur dst l.
Proof. induction l as [|x l IH]; [done|]. simpl. by rewrite IH. Qed.

Lemma filter_own_prefix j (tr l : list Action) :
  tr `prefix_of` l -> List.filter (is_own j) l = l ->
  List.filter (is_own j) tr = tr.
Proof.
  intros [k ->]. rewrite List.filter_app. intros H.
  assert (Hlen : length (List.filter (is_own j) tr) = length tr).
  { apply (f_equal length) in H. rewrite !length_app in H.
    pose proof (List.filter_length_le (is_own j) tr).
    pose proof (List.filter_length_le (is_own j) k). lia. }
  apply app_inj_1 in H; [by destruct H | done].
Qed.

Lemma run_stamp vf text w :
  run (writeFileSync vf text) w
  = match fs_writeFileSync (fs w) vf text with
    | Ok f => MkSystem (did (set_fs w f) (ActWrite vf text))
                       (Settled Fulfilled)
    | Err e => fail w e
    end.
Proof. simpl. by destruct (fs_writeFileSync _ _ _). Qed.

(** How [addWork] ends, before and after its [await]. *)
Lemma addWork_cases w data :
  match addWork w data with
  | Started w' =>
      exists a l,
        heap w !! data = Some a
        /\ w' = set_limiter
                  (did (set_jobs w (jobs w ++ [MkJob a false Pending Pending]))
                       (ActStart (length (jobs w)))) l
  | Suspended w' _ | Failed w' _ => jobs w' = jobs w /\ acts w' = acts w
  end.
Proof.
  unfold addWork, startWorker.
  destruct (decide (limit (limiter w) - 1 < 0)); simpl.
  - by destruct (deferred (limiter w)).
  - destruct (heap w !! data) as [a|]; [|done]. exists a. by eexists.
Qed.

Lemma addWork_resume_cases w data :
  match addWork_resume w data with
  | Started w' =>
      exists a l,
        heap w !! data = Some a
        /\ w' = set_limiter
                  (did (set_jobs w (jobs w ++ [MkJob a false Pending Pending]))
                       (ActStart (length (jobs w)))) l
  | Suspended w' _ => False
  | Failed w' _ => w' = w
  end.
Proof.
  unfold addWork_resume, startWorker.
  destruct (deferred (limiter w)); [done|].
  destruct (decide (limit (limiter w) >= 0)); [|done].
  destruct (heap w !! data) as [a|]; [|done]. exists a. by eexists.
Qed.

Lemma run_submit_threads data concurrently th k w :
  negb concurrently || negb th = false ->
  run (submit data concurrently th ≫= k) w
  = match addWork w data with
    | Started w' => run (k tt) w'
    | Suspended w' dd => MkSystem w' (AwaitDeferred dd data (k tt))
    | Failed w' e => fail w' e
    end.
Proof.
  intros H. rewrite run_bind. unfold submit. rewrite H. simpl.
  by destruct (addWork w data).
Qed.

Lemma run_submit_inline data concurrently th k w :
  negb concurrently || negb th = true ->
  run (submit data concurrently th ≫= k) w
  = match heap w !! data with
    | Some a =>
        MkSystem
          (did (set_jobs w (jobs w ++ [MkJob a true Pending Pending]))
               (ActStart (length (jobs w))))
          (AwaitInline (length (jobs w)) (k tt))
    | None => fail w TypeError
    end.
Proof.
  intros H. rewrite run_bind. unfold submit. rewrite H. simpl.
  by destruct (heap w !! data).
Qed.

Section WriteSteps.
Variable pkgVersion : string.
Variable snapshotVersionOf : string -> Parsed.
Variable stampOf : string -> string.
Variables (data : ref) (concurrently : bool) (w0 : World) (d : IWorkerArgs).
Variables (text v : string).
Hypothesis Hd : heap w0 !! data = Some d.

Local Abbreviation cur := (folder d ++ ["current_snapshots"]).
Local Abbreviation vf := (cur ++ ["snapshotVersion.json"]).
Local Abbreviation dst := (folder d ++ ["src_snapshots"; v]).
Local Abbreviation migration :=
  (ActMkdir dst :: copies cur dst (children (fs w0) cur)).
Local Abbreviation j0 := (length (jobs w0)).
Local Abbreviation main :=
  (processNodeForWrite pkgVersion snapshotVersionOf stampOf data
     concurrently).
Local Abbreviation phase :=
  (write_phase main (fs w0) (heap w0) (threads w0) data concurrently
     migration j0 vf (stampOf pkgVersion)).
Local Abbreviation own := (List.filter (is_own j0)).

Hypothesis Hr : fs_readFileSync (fs w0) vf = Ok text.
Hypothesis Hv : snapshotVersionOf text = Version v.

Lemma own_migration : own migration = migration.
Proof. simpl. by rewrite filter_own_copies. Qed.

(** The job is started and the stamp is written in one turn of the
    dispatcher. *)
Lemma write_admitted w w' new a l :
  negb concurrently || negb (threads w0) = false ->
  acts w = acts w0 ++ new -> own new = migration ->
  length (jobs w) = j0 ->
  w' = set_limiter
         (did (set_jobs w (jobs w ++ [MkJob a false Pending Pending]))
              (ActStart (length (jobs w)))) l ->
  exists new',
    acts (world (run (writeFileSync vf (stampOf pkgVersion)) w'))
    = acts w0 ++ new'
    /\ phase (run (writeFileSync vf (stampOf pkgVersion)) w') (own new').
Proof.
  intros Hth Hacts Hown Hlen ->. rewrite run_stamp, Hlen.
  assert (Hjob : (jobs w ++ [MkJob a false Pending Pending]) !! j0
                 = Some (MkJob a false Pending Pending))
    by (by apply list_lookup_middle).
  destruct (fs_writeFileSync _ _ _) as [f|e]; simpl.
  - exists (new ++ [ActStart j0; ActWrite vf (stampOf pkgVersion)]).
    split; [by rewrite Hacts, <- !app_assoc|].
    replace (own (new ++ [ActStart j0; ActWrite vf (stampOf pkgVersion)]))
      with (migration ++ [ActStart j0] ++ [ActWrite vf (stampOf pkgVersion)]
              ++ [])
      by (by rewrite List.filter_app, Hown).
    eapply (wp_threads _ _ _ _ _ _ _ _ _ _ _ _ Fulfilled
              [ActWrite vf (stampOf pkgVersion)] []); simpl;
      [exact Hth | reflexivity | exact Hjob | reflexivity | by right
      | by left].
  - exists (new ++ [ActStart j0]).
    split; [by rewrite Hacts, <- !app_assoc|].
    replace (own (new ++ [ActStart j0]))
      with (migration ++ [ActStart j0] ++ [] ++ [])
      by (by rewrite List.filter_app, Hown).
    eapply (wp_threads _ _ _ _ _ _ _ _ _ _ _ _ (Rejected e) [] []); simpl;
      [exact Hth | reflexivity | exact Hjob | reflexivity | by left
      | by left].
Qed.

Lemma write_tick_inv s s' new :
  acts (world s) = acts w0 ++ new -> phase s (own new) ->
  step s Tick = Some s' ->
  exists new', acts (world s') = acts w0 ++ new' /\ phase s' (own new').
Proof.
  destruct s as [w c]. cbn [world ctl step]. intros Hacts Hph.
  inversion Hph as [Hc Hfs Hh Hth Hlen Htr
                   |e tr Hc Hlen Hpre Htr
                   |Hc Hlen Htr
                   |dd Hinl Hc Hlen Htr
                   |job Hinl Hc Hjob Hin Htr
                   |job Hinl Hc Hjob Hin Htr
                   |job c0 ok tail Hinl Hc Hjob Hin Htail Htr
                   |job c0 wr st Hinl Hc Hjob Hin Hwr Hst Htr];
    cbn [ctl world] in *; subst c; try done.
  - (* the migration *)
    intros Hs. apply (inj Some) in Hs. subst s'.
    destruct (write_first_tick pkgVersion snapshotVersionOf stampOf data
                concurrently w d text v) as (Hq & Hcase).
    { by rewrite Hh. }
    { by rewrite Hfs. }
    { done. }
    rewrite Hfs, Hth in Hcase.
    destruct Hq as [_ _ _ Hjobs _ _ _].
    destruct Hcase as [[Hc Ha]|(e & tr & Hc & Hpre & Ha)].
    + exists (new ++ migration). split; [by rewrite Ha, Hacts, <- app_assoc|].
      replace (own (new ++ migration)) with migration
        by (by rewrite List.filter_app, <- Htr, own_migration).
      apply wp_ready; [done | by rewrite Hjobs].
    + exists (new ++ tr). split; [by rewrite Ha, Hacts, <- app_assoc|].
      replace (own (new ++ tr)) with tr
        by (by rewrite List.filter_app, <- Htr,
                 (filter_own_prefix _ _ _ Hpre own_migration)).
      apply (wp_stopped _ _ _ _ _ _ _ _ _ _ _ e); [done | by rewrite Hjobs
                                                    | done].
  - (* the job is submitted *)
    intros Hs. apply (inj Some) in Hs. subst s'.
    destruct (negb concurrently || negb (threads w0)) eqn:Hinl.
    + rewrite (run_submit_inline _ _ _ _ _ Hinl), Hlen.
      destruct (heap w !! data) as [a|]; cbn [world ctl acts did].
      * exists (new ++ [ActStart j0]).
        split; [simpl; by rewrite Hacts, <- app_assoc|].
        replace (own (new ++ [ActStart j0])) with (migration ++ [ActStart j0])
          by (by rewrite filter_own_snoc, <- Htr).
        apply (wp_inline _ _ _ _ _ _ _ _ _ _ _ (MkJob a true Pending Pending));
          simpl; try done.
        by apply list_lookup_middle.
      * exists new. split; [done|]. rewrite <- Htr.
        by apply (wp_stopped _ _ _ _ _ _ _ _ _ _ _ TypeError).
    + rewrite (run_submit_threads _ _ _ _ _ Hinl).
      assert (Hcase := addWork_cases w data).
      destruct (addWork w data) as [w'|w' dd|w' e].
      * destruct Hcase as (a & l & _ & Hw').
        by apply (write_admitted w w' new a l).
      * destruct Hcase as [Hj Ha]. exists new. cbn [world ctl].
        split; [by rewrite Ha|]. rewrite <- Htr.
        apply (wp_gate _ _ _ _ _ _ _ _ _ _ _ dd); simpl; try done.
        by rewrite Hj.
      * destruct Hcase as [Hj Ha]. exists new. cbn [world ctl fail].
        split; [by rewrite Ha|]. rewrite <- Htr.
        apply (wp_stopped _ _ _ _ _ _ _ _ _ _ _ e); simpl; try done.
        by rewrite Hj.
  - (* a slot is free *)
    destruct (resolved w dd); [|done].
    assert (Hcase := addWork_resume_cases w data).
    destruct (addWork_resume w data) as [w'|w' dd'|w' e]; [|done|].
    + intros Hs. apply (inj Some) in Hs. subst s'.
      destruct Hcase as (a & l & _ & Hw').
      by apply (write_admitted w w' new a l).
    + intros Hs. apply (inj Some) in Hs. subst s' w'.
      exists new. split; [done|]. rewrite <- Htr.
      by apply (wp_stopped _ _ _ _ _ _ _ _ _ _ _ e).
  - (* the stamp, after the job in line *)
    intros Hs. apply (inj Some) in Hs. subst s'. rewrite run_stamp.
    destruct (fs_writeFileSync _ _ _) as [f|e]; simpl.
    + exists (new ++ [ActWrite vf (stampOf pkgVersion)]).
      split; [by rewrite Hacts, <- app_assoc|].
      replace (own (new ++ [ActWrite vf (stampOf pkgVersion)]))
        with (migration ++ [ActStart j0; ActSettle j0 true]
                ++ [ActWrite vf (stampOf pkgVersion)])
        by (rewrite filter_own_snoc, <- Htr; simpl; rewrite <- ?app_assoc;
            reflexivity).
      apply (wp_inline_end _ _ _ _ _ _ _ _ _ _ _ job Fulfilled true
               [ActWrite vf (stampOf pkgVersion)]); auto.
    + exists new. split; [done|].
      replace (own new)
        with (migration ++ [ActStart j0; ActSettle j0 true] ++ [])
        by (by rewrite <- Htr).
      apply (wp_inline_end _ _ _ _ _ _ _ _ _ _ _ job (Rejected e) true []);
        auto.
Qed.

Lemma write_worker_inv s i job ev new :
  acts (world s) = acts w0 ++ new -> phase s (own new) ->
  jobs (world s) !! i = Some job -> inline job = false ->
  exists new',
    acts (world (worker_reports s i job ev)) = acts w0 ++ new'
    /\ phase (worker_reports s i job ev) (own new').
Proof.
  intros Hacts Hph Hi Hin.
  destruct (worker_reports_world s i job ev Hi) as [Hsame Hrep].
  destruct (decide (settled job = Pending)) as [Hp|Hnp].
  2:{ rewrite (Hsame Hnp). by exists new. }
  destruct (Hrep Hp) as (r & p & Hr' & Hfs & Hh & Hth & Hjobs & Ha & Hctl).
  set (s' := worker_reports s i job ev) in *. clear Hsame Hrep.
  assert (Hlen : length (jobs (world s')) = length (jobs (world s)))
    by (rewrite Hjobs; apply length_insert).
  assert (Hlt := lookup_lt_Some _ _ _ Hi).
  assert (Hother : forall k, k <> i ->
            jobs (world s') !! k = jobs (world s) !! k).
  { intros k Hk. rewrite Hjobs. by apply list_lookup_insert_ne. }
  exists (new ++ [ActSettle i (is_fulfilled r)]).
  split; [by rewrite Ha, Hacts, <- app_assoc|].
  rewrite filter_own_snoc. cbn [is_own].
  inversion Hph as [Hc Hfs0 Hh0 Hth0 Hlen0 Htr
                   |e tr Hc Hlen0 Hpre Htr
                   |Hc Hlen0 Htr
                   |dd Hinl Hc Hlen0 Htr
                   |job0 Hinl Hc Hjob Hin0 Htr
                   |job0 Hinl Hc Hjob Hin0 Htr
                   |job0 c0 ok tail Hinl Hc Hjob Hin0 Htail Htr
                   |job0 c0 wr st Hinl Hc Hjob Hin0 Hwr Hst Htr];
    rewrite Hc in Hctl; cbn [wake] in Hctl.
  - rewrite bool_decide_false, app_nil_r by lia.
    apply wp_start; congruence.
  - rewrite bool_decide_false, app_nil_r by lia.
    apply (wp_stopped _ _ _ _ _ _ _ _ _ _ _ e); [done | congruence | done].
  - rewrite bool_decide_false, app_nil_r by lia.
    apply wp_ready; congruence.
  - rewrite bool_decide_false, app_nil_r by lia.
    apply (wp_gate _ _ _ _ _ _ _ _ _ _ _ dd); [done | done | congruence].
  - destruct (decide (i = j0)) as [->|Hne]; [congruence|].
    rewrite bool_decide_false, app_nil_r by done.
    change (phase s' (migration ++ [ActStart j0])).
    apply (wp_inline _ _ _ _ _ _ _ _ _ _ _ job0); try done.
    by rewrite Hother.
  - destruct (decide (i = j0)) as [->|Hne]; [congruence|].
    rewrite bool_decide_false, app_nil_r by done.
    change (phase s' (migration ++ [ActStart j0; ActSettle j0 true])).
    apply (wp_inline_ok _ _ _ _ _ _ _ _ _ _ _ job0); try done.
    by rewrite Hother.
  - destruct (decide (i = j0)) as [->|Hne]; [congruence|].
    rewrite bool_decide_false, app_nil_r by done.
    change (phase s' (migration ++ [ActStart j0; ActSettle j0 ok] ++ tail)).
    apply (wp_inline_end _ _ _ _ _ _ _ _ _ _ _ job0 c0); try done.
    by rewrite Hother.
  - destruct (decide (i = j0)) as [->|Hne].
    + assert (job0 = job) as -> by congruence.
      destruct Hst as [[-> _]|[_ ?]]; [|done].
      rewrite bool_decide_true by done.
      change (phase s' ((migration ++ [ActStart j0] ++ wr ++ [])
                          ++ [ActSettle j0 (is_fulfilled r)])).
      replace ((migration ++ [ActStart j0] ++ wr ++ [])
                 ++ [ActSettle j0 (is_fulfilled r)])
        with (migration ++ [ActStart j0] ++ wr
                ++ [ActSettle j0 (is_fulfilled r)])
        by (rewrite app_nil_r, <- !app_assoc; reflexivity).
      apply (wp_threads _ _ _ _ _ _ _ _ _ _ _
               (MkJob (workerData job) false r p) c0); try done.
      * rewrite Hjobs. by apply list_lookup_insert_eq.
      * right. split; [by eexists | done].
    + rewrite bool_decide_false, app_nil_r by done.
      change (phase s' (migration ++ [ActStart j0] ++ wr ++ st)).
      apply (wp_threads _ _ _ _ _ _ _ _ _ _ _ job0 c0); try done.
      by rewrite Hother.
Qed.

Lemma write_engine_inv s i res s' new :
  acts (world s) = acts w0 ++ new -> phase s (own new) ->
  step s (Engine i res) = Some s' ->
  exists new', acts (world s') = acts w0 ++ new' /\ phase s' (own new').
Proof.
  destruct s as [w c]. cbn [world ctl step]. intros Hacts Hph.
  inversion Hph as [Hc Hfs0 Hh0 Hth0 Hlen0 Htr
                   |e tr Hc Hlen0 Hpre Htr
                   |Hc Hlen0 Htr
                   |dd Hinl Hc Hlen0 Htr
                   |job0 Hinl Hc Hjob Hin0 Htr
                   |job0 Hinl Hc Hjob Hin0 Htr
                   |job0 c0 ok tail Hinl Hc Hjob Hin0 Htail Htr
                   |job0 c0 wr st Hinl Hc Hjob Hin0 Hwr Hst Htr];
    cbn [ctl world] in *; subst c; try done.
  destruct (jobs w !! i) as [job|] eqn:Hi; [|done].
  destruct (decide (i = j0)) as [->|]; [|done].
  destruct (inline job); [|done].
  intros Hs. apply (inj Some) in Hs. subst s'.
  unfold engine_reports. cbn [world ctl].
  assert (Hlt := lookup_lt_Some _ _ _ Hi).
  assert (Hset : forall r,
            jobs (set_job w j0 (MkJob (workerData job) true r r)) !! j0
            = Some (MkJob (workerData job) true r r)).
  { intros r. unfold set_job. simpl. by apply list_lookup_insert_eq. }
  pose proof (processOneFile_settles res) as Hne.
  destruct (processOneFile res) as [| |e]; [done|..].
  - exists (new ++ [ActSettle j0 true]).
    split; [simpl; by rewrite Hacts, <- app_assoc|].
    replace (own (new ++ [ActSettle j0 true]))
      with (migration ++ [ActStart j0; ActSettle j0 true])
      by (rewrite filter_own_snoc, <- Htr; cbn [is_own];
          rewrite bool_decide_true by done; simpl; rewrite <- ?app_assoc;
          reflexivity).
    eapply wp_inline_ok; simpl; [done | done | apply Hset | done].
  - exists (new ++ [ActSettle j0 false]).
    split; [simpl; by rewrite Hacts, <- app_assoc|].
    replace (own (new ++ [ActSettle j0 false]))
      with (migration ++ [ActStart j0; ActSettle j0 false] ++ [])
      by (rewrite filter_own_snoc, <- Htr; cbn [is_own];
          rewrite bool_decide_true by done; simpl; rewrite <- ?app_assoc;
          reflexivity).
    eapply (wp_inline_end _ _ _ _ _ _ _ _ _ _ _ _ (Rejected e)); simpl;
      [done | done | apply Hset | done | by left].
Qed.

Lemma write_exec_inv evs : forall s s' new,
  acts (world s) = acts w0 ++ new -> phase s (own new) ->
  exec s evs = Some s' ->
  exists new', acts (world s') = acts w0 ++ new' /\ phase s' (own new').
Proof.
  induction evs as [|ev evs IH]; intros s s' new Hacts Hph; cbn [exec].
  - intros [= <-]. by exists new.
  - destruct (step s ev) as [s1|] eqn:Hstep; [|done].
    assert (H1 : exists new1, acts (world s1) = acts w0 ++ new1
                              /\ phase s1 (own new1)).
    { destruct ev as [|i ev|i res].
      - by apply (write_tick_inv s s1 new).
      - unfold step in Hstep.
        destruct (jobs (world s) !! i) as [job|] eqn:Hi; [|done].
        destruct (inline job) eqn:Hin; [done|].
        apply (inj Some) in Hstep. subst s1.
        by apply (write_worker_inv s i job ev new).
      - by apply (write_engine_inv s i res s1 new). }
    destruct H1 as (new1 & Ha1 & Hp1). by apply (IH s1 s' new1).
Qed.

End WriteSteps.

(** The order of the steps of Write mode, as the code has it. The
    workflow of [processNodeForWrite] for one
    folder whose version stamp reads [v], run from any state, between any
    events. What it has done, the reports of other jobs left out, is one
    of the traces of [write_trace]: the [mkdir] and the copies of the
    migration, as far as they went; then the start of the job, after all
    of them; then, in line, the report of the job and, only when the job
    has succeeded, the write of the stamp; with worker threads, the write
    of the stamp right after the start of the job, in the same turn of the
    dispatcher, and the report of the job, if any, after it. When the
    workflow returns, all three steps are done, in that order. *)
Theorem write_steps_in_order
    pkgVersion snapshotVersionOf stampOf (data : ref) (concurrently : bool)
    (w : World) (d : IWorkerArgs) (text v : string) (evs : list Event)
    (s : System) :
  heap w !! data = Some d ->
  let cur := folder d ++ ["current_snapshots"] in
  let vf := cur ++ ["snapshotVersion.json"] in
  let dst := folder d ++ ["src_snapshots"; v] in
  let migration := ActMkdir dst :: copies cur dst (children (fs w) cur) in
  let j := length (jobs w) in
  let stamp := ActWrite vf (stampOf pkgVersion) in
  let inline := negb concurrently || negb (threads w) in
  fs_readFileSync (fs w) vf = Ok text ->
  snapshotVersionOf text = Version v ->
  exec (MkSystem w (Ready (processNodeForWrite pkgVersion snapshotVersionOf
                             stampOf data concurrently))) evs
  = Some s ->
  exists new,
    acts (world s) = acts w ++ new
    /\ write_trace migration j stamp inline (List.filter (is_own j) new)
    /\ (ctl s = Settled Fulfilled ->
        if inline
        then List.filter (is_own j) new
             = migration ++ [ActStart j; ActSettle j true; stamp]
        else exists report,
               List.filter (is_own j) new
               = migration ++ ActStart j :: stamp :: report).
Proof.
  intros Hd cur vf dst migration j stamp inline Hr Hv Hex.
  destruct (write_exec_inv pkgVersion snapshotVersionOf stampOf data
              concurrently w d text v Hd Hr Hv evs
              (MkSystem w (Ready (processNodeForWrite pkgVersion
                                    snapshotVersionOf stampOf data
                                    concurrently))) s [])
    as (new & Hacts & Hph).
  { simpl. by rewrite app_nil_r. }
  { simpl. by apply wp_start. }
  { exact Hex. }
  exists new. split; [done|].
  fold cur vf dst migration j stamp in Hph. fold inline in Hph.
  set (tr := List.filter (is_own j) new) in *. clearbody tr.
  destruct Hph as [Hc Hfs0 Hh0 Hth0 Hlen0
                  |e tr Hc Hlen0 Hpre
                  |Hc Hlen0
                  |dd Hinl Hc Hlen0
                  |job0 Hinl Hc Hjob Hin0
                  |job0 Hinl Hc Hjob Hin0
                  |job0 c0 ok tail Hinl Hc Hjob Hin0 Htail
                  |job0 c0 wr st Hinl Hc Hjob Hin0 Hwr Hst];
    rewrite Hc.
  - split; [apply wt_migrating, prefix_nil | done].
  - split; [by apply wt_migrating | done].
  - split; [by apply wt_migrating | done].
  - split; [by apply wt_migrating | done].
  - split; [apply wt_started | done].
  - split; [apply wt_settled | done].
  - fold inline in Hinl. rewrite Hinl.
    destruct Htail as [[-> Hc0]|[-> ->]].
    + split; [apply (wt_settled _ _ _ _ ok) | congruence].
    + split; [by apply wt_inline_stamped | done].
  - fold inline in Hinl. rewrite Hinl.
    destruct Hwr as [[-> Hc0]| ->].
    + split; [|congruence].
      destruct Hst as [[-> _]|[[ok ->] _]];
        [apply wt_started | apply (wt_settled _ _ _ _ ok)].
    + split; [|intros _; by exists st].
      destruct Hst as [[-> _]|[[ok ->] _]];
        [by apply wt_threads_stamped | by apply wt_threads_reported].
Qed.

Lemma write_steps_in_order_example :
  exists new,
    acts (world ex_written) = acts (ex_world (ex_corpus ["a"])) ++ new
    /\ List.filter (is_own 0) new
       = [ActMkdir (ex_root ++ ["a"; "src_snapshots"; "0.9.0"]);
          ActCopy
            (ex_root ++ ["a"; "current_snapshots"; "snapshotVersion.json"])
            (ex_root ++ ["a"; "src_snapshots"; "0.9.0";
                         "snapshotVersion.json"]);
          ActCopy
            (ex_root ++ ["a"; "current_snapshots"; "snapshot_1000.json"])
            (ex_root ++ ["a"; "src_snapshots"; "0.9.0";
                         "snapshot_1000.json"]);
          ActStart 0; ActSettle 0 true;
          ActWrite
            (ex_root ++ ["a"; "current_snapshots"; "snapshotVersion.json"])
            "1.0.0"].
Proof.
  assert (Hex : exec (MkSystem (ex_world (ex_corpus ["a"]))
                        (Ready (processNodeForWrite "1.0.0" ex_versionOf
                                  ex_stampOf 0%nat false)))
                  [Tick; Tick; Engine 0 (Returns []); Tick]
                = Some ex_written)
    by (vm_compute; reflexivity).
  assert (Hctl : ctl ex_written = Settled Fulfilled)
    by (vm_compute; reflexivity).
  assert (Hr : fs_readFileSync (fs (ex_world (ex_corpus ["a"])))
                 ((folder (ex_args "a") ++ ["current_snapshots"])
                    ++ ["snapshotVersion.json"]) = Ok "0.9.0")
    by (vm_compute; reflexivity).
  destruct (write_steps_in_order "1.0.0" ex_versionOf ex_stampOf 0%nat
              false (ex_world (ex_corpus ["a"])) (ex_args "a") "0.9.0"
              "0.9.0" [Tick; Tick; Engine 0 (Returns []); Tick] ex_written
              eq_refl Hr eq_refl Hex)
    as (new & Ha & _ & Hfin).
  exists new. split; [exact Ha|]. exact (Hfin Hctl).
Defined.

(** C4: the code does not keep the order of the three steps when the
    job runs in a worker thread. One folder, its stamp reading [0.9.0],
    is processed in Write mode by the build [1.0.0]. After two turns of
    the dispatcher the migration is done, the job is started and has not
    reported, and the stamp already reads [1.0.0]: it was written right
    after the start of the job. The worker then exits with code 1: the
    job has failed, after the stamp was written. In line, where the same
    replay finds a mismatch, the run is rejected and the dispatcher does
    not write the stamp. *)
Theorem C4_stamp_is_written_before_the_job_ends :
  exec (MkSystem (ex_world (ex_corpus ["a"]))
          (Ready (processNodeForWrite "1.0.0" ex_versionOf ex_stampOf 0%nat
                    true)))
    [Tick; Tick; Worker 0 (OnExit 1)]
  = Some ex_stamped_then_failed
  /\ exec (MkSystem (ex_world (ex_corpus ["a"]))
             (Ready (processNodeForWrite "1.0.0" ex_versionOf ex_stampOf
                       0%nat true)))
       [Tick; Tick]
     = Some ex_stamped_early
  /\ settled <$> jobs (world ex_stamped_early) = [Pending]
  /\ fs_readFileSync (fs (world ex_stamped_early))
       (ex_root ++ ["a"; "current_snapshots"; "snapshotVersion.json"])
     = Ok "1.0.0"
  /\ List.filter (is_own 0) (acts (world ex_stamped_then_failed))
     = [ActMkdir (ex_root ++ ["a"; "src_snapshots"; "0.9.0"]);
        ActCopy
          (ex_root ++ ["a"; "current_snapshots"; "snapshotVersion.json"])
          (ex_root ++ ["a"; "src_snapshots"; "0.9.0";
                       "snapshotVersion.json"]);
        ActCopy
          (ex_root ++ ["a"; "current_snapshots"; "snapshot_1000.json"])
          (ex_root ++ ["a"; "src_snapshots"; "0.9.0"; "snapshot_1000.json"]);
        ActStart 0;
        ActWrite
          (ex_root ++ ["a"; "current_snapshots"; "snapshotVersion.json"])
          "1.0.0";
        ActSettle 0 false]
  /\ settled <$> jobs (world ex_stamped_then_failed)
     = [Rejected (JobError "Worker stopped with exit code 1")]
  /\ exec (MkSystem (ex_world (ex_corpus ["a"]))
             (Ready (processNodeForWrite "1.0.0" ex_versionOf ex_stampOf
                       0%nat false)))
       [Tick; Tick; Engine 0 (Returns ["snapshot mismatch"])]
     = Some ex_write_failed_in_line
  /\ is_rejected
       (match ctl ex_write_failed_in_line with
        | Settled r => r
        | _ => Pending
        end) = true
  /\ List.filter (is_own 0) (acts (world ex_write_failed_in_line))
     = [ActMkdir (ex_root ++ ["a"; "src_snapshots"; "0.9.0"]);
        ActCopy
          (ex_root ++ ["a"; "current_snapshots"; "snapshotVersion.json"])
          (ex_root ++ ["a"; "src_snapshots"; "0.9.0";
                       "snapshotVersion.json"]);
        ActCopy
          (ex_root ++ ["a"; "current_snapshots"; "snapshot_1000.json"])
          (ex_root ++ ["a"; "src_snapshots"; "0.9.0"; "snapshot_1000.json"]);
        ActStart 0;
        ActSettle 0 false].
Proof.
  split_and!; vm_compute; reflexivity.
Qed.

(** ** The assertions of the gate *)

Lemma onFulfilled_ok C w c : gate_inv C w c -> (onFulfilled w).2 = Fulfilled.
Proof.
  intros [_ Hc _ _]. unfold onFulfilled.
  destruct (deferred (limiter w)) as [d|] eqn:Hd; [|done].
  destruct c as [p|d' r k|j k|k|r]; try (by destruct Hc).
  destruct (resolved w d'); destruct Hc as [Hc Hl]; [congruence|].
  rewrite Hl. by destruct (decide (-1 + 1 = 0)).
Qed.

Lemma addWork_ok C w c data w' e :
  gate_inv C w c -> waiting c = 0 ->
  addWork w data = Failed w' e -> e = TypeError.
Proof.
  intros [_ Hc _ _] Hw. unfold addWork, startWorker. simpl.
  assert (Hd : deferred (limiter w) = None).
  { destruct c; try (by destruct Hc). done. }
  rewrite Hd. destruct (decide _); [done|].
  destruct (heap w !! data); [done|]. by intros [= _ <-].
Qed.

Lemma addWork_resume_ok C w d data k w' e :
  gate_inv C w (AwaitDeferred d data k) -> resolved w d = true ->
  addWork_resume w data = Failed w' e -> e = TypeError.
Proof.
  intros [_ Hc _ _] Hr. simpl in Hc. rewrite Hr in Hc. destruct Hc as [Hd Hl].
  unfold addWork_resume, startWorker. rewrite Hd.
  destruct (decide _); [|lia].
  destruct (heap w !! data); [done|]. by intros [= _ <-].
Qed.

(** The dispatcher starts jobs and leaves the jobs it has started alone. *)
Lemma run_jobs_prefix (p : Prog unit) : forall w,
  jobs w `prefix_of` jobs (world (run p w)).
Proof.
  induction p as [a|e|q k IH|q k IH|q k IH|q k IH|src dst k IH|q t k IH|q k IH
                 |q k IH|msg k IH|a k IH|r k IH|r d k IH|k IH|r k IH|r k IH
                 |k IH];
    intros w; cbn [run].
  - done.
  - done.
  - apply IH.
  - destruct (fs_readdirSync _ _); [apply IH | done].
  - destruct (fs_readFileSync _ _); [apply IH | done].
  - destruct (fs_mkdirSync _ _); [apply (IH (did (set_fs w _) _)) | done].
  - destruct (fs_copyFileSync _ _ _);
      [apply (IH (did (set_fs w _) _)) | done].
  - destruct (fs_writeFileSync _ _ _);
      [apply (IH (did (set_fs w _) _)) | done].
  - destruct (fs_unlinkSync _ _); [apply (IH (did (set_fs w _) _)) | done].
  - destruct (fs_rmdirSync _ _); [apply (IH (did (set_fs w _) _)) | done].
  - apply (IH (log w msg)).
  - apply (IH _ (set_heap w _)).
  - destruct (heap w !! r); [apply IH | done].
  - destruct (heap w !! r); [apply (IH (set_heap w _)) | done].
  - done.
  - assert (Hc := addWork_cases w r).
    destruct (addWork w r) as [w'|w' dd|w' e].
    + destruct Hc as (a & l & _ & ->).
      etransitivity; [|apply IH]. simpl. by apply prefix_app_r.
    + destruct Hc as [Hj _]. simpl. by rewrite Hj.
    + destruct Hc as [Hj _]. simpl. by rewrite Hj.
  - destruct (heap w !! r); [|done]. simpl. by apply prefix_app_r.
  - unfold waitAll. simpl.
    destruct (promise_all _); [done | apply (IH (set_all w _)) | done].
Qed.

Lemma run_mirrors (p : Prog unit) : forall w,
  mirrors w -> mirrors (world (run p w)).
Proof.
  unfold mirrors.
  induction p as [a|e|q k IH|q k IH|q k IH|q k IH|src dst k IH|q t k IH|q k IH
                 |q k IH|msg k IH|a k IH|r k IH|r d k IH|k IH|r k IH|r k IH
                 |k IH];
    intros w Hw; cbn [run].
  - done.
  - done.
  - by apply IH.
  - destruct (fs_readdirSync _ _); [by apply IH | done].
  - destruct (fs_readFileSync _ _); [by apply IH | done].
  - destruct (fs_mkdirSync _ _); [by apply (IH (did (set_fs w _) _)) | done].
  - destruct (fs_copyFileSync _ _ _);
      [by apply (IH (did (set_fs w _) _)) | done].
  - destruct (fs_writeFileSync _ _ _);
      [by apply (IH (did (set_fs w _) _)) | done].
  - destruct (fs_unlinkSync _ _); [by apply (IH (did (set_fs w _) _)) | done].
  - destruct (fs_rmdirSync _ _); [by apply (IH (did (set_fs w _) _)) | done].
  - by apply (IH (log w msg)).
  - by apply (IH _ (set_heap w _)).
  - destruct (heap w !! r); [by apply IH | done].
  - destruct (heap w !! r); [by apply (IH (set_heap w _)) | done].
  - done.
  - assert (Hc := addWork_cases w r).
    destruct (addWork w r) as [w'|w' dd|w' e].
    + destruct Hc as (a & l & _ & ->). apply IH. simpl.
      apply Forall_app. split; [done|]. by repeat constructor.
    + destruct Hc as [Hj _]. simpl. by rewrite Hj.
    + destruct Hc as [Hj _]. simpl. by rewrite Hj.
  - destruct (heap w !! r); [|done]. simpl.
    apply Forall_app. split; [done|]. by repeat constructor.
  - unfold waitAll. simpl.
    destruct (promise_all _); [done | by apply (IH (set_all w _)) | done].
Qed.

Lemma step_mirrors C s ev s' :
  gate_inv C (world s) (ctl s) -> mirrors (world s) ->
  step s ev = Some s' -> mirrors (world s').
Proof.
  intros Hg Hm. destruct ev as [|j ev|j res]; simpl.
  - destruct (ctl s) as [p|d r k|j k|k|r]; try done.
    + intros [= <-]. by apply run_mirrors.
    + destruct (resolved (world s) d); [|done].
      assert (Hc := addWork_resume_cases (world s) r).
      destruct (addWork_resume (world s) r) as [w'|w' dd|w' e]; [|done|].
      * intros [= <-]. destruct Hc as (a & l & _ & ->).
        apply run_mirrors. unfold mirrors. simpl.
        apply Forall_app. split; [done|]. by repeat constructor.
      * intros [= <-]. by subst w'.
  - destruct (jobs (world s) !! j) as [job|] eqn:Hj; [|done].
    destruct (inline job); [done|]. intros [= <-].
    destruct (worker_reports_world s j job ev Hj) as [Hsame Hrep].
    destruct (decide (settled job = Pending)) as [Hp|Hnp];
      [|by rewrite (Hsame Hnp)].
    clear Hrep Hsame. unfold worker_reports. rewrite Hp.
    assert (Hok := onFulfilled_ok C _ _ Hg).
    set (r := listener _ _).
    assert (Hrp : forall w1 p,
              (w1, p) = match r with
                        | Fulfilled => onFulfilled (world s)
                        | _ => (world s, r)
                        end ->
              p = r /\ jobs w1 = jobs (world s)).
    { intros w1 p. destruct r; try (by intros [= -> ->]).
      destruct (onFulfilled (world s)) as [w2 p2] eqn:Ho. simpl in Hok.
      intros [= -> ->]. split; [done|].
      revert Ho. unfold onFulfilled, resolve.
      repeat case_match; by intros [= <- _]. }
    destruct (match r with Fulfilled => _ | _ => _ end) as [w1 p].
    destruct (Hrp w1 p eq_refl) as [-> Hj1]. cbn [world].
    assert (Hall : forall w3, jobs (all_reacts w3 j r) = jobs w3).
    { intros w3. unfold all_reacts. repeat case_match; done. }
    unfold mirrors. rewrite Hall. simpl. rewrite Hj1.
    by apply Forall_insert.
  - destruct (ctl s) as [p|d r k|j' k|k|r]; try done.
    destruct (jobs (world s) !! j) as [job|]; [|done].
    destruct (decide (j = j')); [|done]. destruct (inline job); [|done].
    intros [= <-]. unfold engine_reports, mirrors.
    destruct (processOneFile res); simpl; by apply Forall_insert.
Qed.

Lemma exec_mirrors C evs : forall s s',
  gate_inv C (world s) (ctl s) -> mirrors (world s) ->
  exec s evs = Some s' -> mirrors (world s').
Proof.
  induction evs as [|ev evs IH]; intros s s' Hg Hm; simpl.
  - by intros [= <-].
  - destruct (step s ev) as [s1|] eqn:Hs; [|done].
    apply IH; [by apply (step_gate_inv C s ev) | by apply (step_mirrors C s ev)].
Qed.

(** X1. In a run of [processContent] no assertion of the
    [ConcurrencyLimiter] fails. [addWork], called when no admission
    waits, starts the job or waits; resumed after its [await] it starts
    the job; in both cases the only other outcome is that the arguments
    are no object. The callback of [then] ends without failing, so the
    promise [p] of every job is settled as the job itself. *)
Theorem X1_gate_assertions_never_fail (fileLocation : path)
    (pkgVersion : string) (snapshotVersionOf : string -> Parsed)
    (stampOf : string -> string) (m : Mode) (concurrently : bool)
    (f : FS) (th : bool) (evs : list Event) (s : System) :
  exec (start numberOfThreads f th
          (processContent fileLocation pkgVersion snapshotVersionOf stampOf
             m concurrently)) evs = Some s ->
  (forall data w' e,
     waiting (ctl s) = 0 -> addWork (world s) data = Failed w' e ->
     e = TypeError)
  /\ (forall d data k w' e,
        ctl s = AwaitDeferred d data k -> resolved (world s) d = true ->
        addWork_resume (world s) data = Failed w' e -> e = TypeError)
  /\ (onFulfilled (world s)).2 = Fulfilled
  /\ (forall job, job ∈ jobs (world s) -> chained job = settled job).
Proof.
  intros Hex.
  assert (Hg : gate_inv numberOfThreads (world s) (ctl s)).
  { eapply exec_gate_inv; [|exact Hex]. by apply start_gate_inv. }
  assert (Hm : mirrors (world s)).
  { eapply (exec_mirrors numberOfThreads); [| |exact Hex].
    - by apply start_gate_inv.
    - constructor. }
  split_and!.
  - intros data w' e Hw Ha. by apply (addWork_ok _ _ _ _ _ _ Hg Hw Ha).
  - intros d data k w' e Hc Hr Ha. rewrite Hc in Hg.
    by apply (addWork_resume_ok _ _ _ _ _ _ _ Hg Hr Ha).
  - by apply (onFulfilled_ok _ _ _ Hg).
  - intros job Hj. unfold mirrors in Hm. rewrite Forall_forall in Hm. auto.
Qed.

Lemma X1_witness :
  (onFulfilled (world ex_waiting)).2 = Fulfilled
  /\ (forall job, job ∈ jobs (world ex_waiting) ->
        chained job = settled job).
Proof.
  assert (Hex : exec (start numberOfThreads
                        (ex_corpus ["a"; "b"; "c"; "d"; "e"]) true
                        (processContent ex_root "1.0.0" ex_versionOf
                           ex_stampOf Compare true))
                  [Tick; Tick; Tick; Tick; Tick; Tick] = Some ex_waiting)
    by (vm_compute; reflexivity).
  destruct (X1_gate_assertions_never_fail ex_root "1.0.0" ex_versionOf
              ex_stampOf Compare true (ex_corpus ["a"; "b"; "c"; "d"; "e"])
              true [Tick; Tick; Tick; Tick; Tick; Tick] ex_waiting Hex)
    as (_ & _ & H3 & H4).
  split; [exact H3 | exact H4].
Defined.

(** X2. When an admission waits in [addWork] and a worker that runs
    exits with code 0, its job is fulfilled, the counter goes from -1 to
    0, the waiter is resolved and forgotten, and the dispatcher can run
    on: at its next turn the waiting job is started, with the arguments
    as they are then, and the jobs started before stay in place. *)
Theorem X2_success_wakes_the_waiter (fileLocation : path)
    (pkgVersion : string) (snapshotVersionOf : string -> Parsed)
    (stampOf : string -> string) (m : Mode) (concurrently : bool)
    (f : FS) (th : bool) (evs : list Event) (s : System)
    (d : nat) (data : ref) (k : Prog unit) (j : nat) (job : Job)
    (a : IWorkerArgs) :
  exec (start numberOfThreads f th
          (processContent fileLocation pkgVersion snapshotVersionOf stampOf
             m concurrently)) evs = Some s ->
  ctl s = AwaitDeferred d data k ->
  resolved (world s) d = false ->
  jobs (world s) !! j = Some job -> inline job = false ->
  settled job = Pending ->
  heap (world s) !! data = Some a ->
  exists s' s'',
    step s (Worker j (OnExit 0)) = Some s'
    /\ ctl s' = AwaitDeferred d data k
    /\ resolved (world s') d = true
    /\ deferred (limiter (world s')) = None
    /\ limit (limiter (world s')) = 0
    /\ jobs (world s')
       = <[j := MkJob (workerData job) false Fulfilled Fulfilled]>
           (jobs (world s))
    /\ step s' Tick = Some s''
    /\ (jobs (world s') ++ [MkJob a false Pending Pending])
       `prefix_of` jobs (world s'').
Proof.
  intros Hex Hc Hres Hj Hin Hp Ha.
  assert (Hg : gate_inv numberOfThreads (world s) (ctl s)).
  { eapply exec_gate_inv; [|exact Hex]. by apply start_gate_inv. }
  destruct Hg as [_ Hgc _ Hfresh]. rewrite Hc in Hgc. simpl in Hgc.
  rewrite Hres in Hgc. destruct Hgc as [Hd Hl].
  pose proof (Hfresh d Hd) as Hd0.
  set (w3 := did (set_job
                    (set_limiter (resolve
                       (set_limiter (world s)
                          (MkLimiter (promises (limiter (world s)))
                             (Some d) 0)) d)
                       (MkLimiter (promises (limiter (world s))) None 0))
                    j (MkJob (workerData job) false Fulfilled Fulfilled))
                 (ActSettle j true)).
  assert (Hs' : step s (Worker j (OnExit 0))
                = Some (MkSystem (all_reacts w3 j Fulfilled)
                          (AwaitDeferred d data k))).
  { cbn [step]. rewrite Hj, Hin. f_equal.
    unfold worker_reports. rewrite Hp. cbn [listener].
    destruct (decide (0 <> 0)) as [?|_]; [done|].
    unfold onFulfilled. rewrite Hd, Hl.
    destruct (decide (-1 + 1 = 0)) as [_|?]; [|done].
    cbn [world ctl]. rewrite Hc. reflexivity. }
  set (s' := MkSystem (all_reacts w3 j Fulfilled) (AwaitDeferred d data k)).
  assert (Hc' : ctl s' = AwaitDeferred d data k) by done.
  assert (Hfacts : resolved (world s') d = true
                   /\ limiter (world s')
                      = MkLimiter (promises (limiter (world s))) None 0
                   /\ jobs (world s')
                      = <[j := MkJob (workerData job) false Fulfilled
                                 Fulfilled]> (jobs (world s))
                   /\ heap (world s') = heap (world s)).
  { unfold s'. cbn [world]. unfold resolved.
    rewrite all_reacts_deferreds, all_reacts_limiter, all_reacts_jobs.
    split_and!; try done.
    - unfold w3, resolve. simpl. by rewrite list_lookup_alter_eq, Hd0.
    - unfold all_reacts. repeat case_match; done. }
  destruct Hfacts as (Hr' & Hlim & Hjobs & Hheap).
  assert (Hcase := addWork_resume_cases (world s') data).
  assert (Htick : exists w', addWork_resume (world s') data = Started w').
  { unfold addWork_resume, startWorker. rewrite Hlim. cbn [deferred limit].
    destruct (decide (0 >= 0)); [|lia]. rewrite Hheap, Ha. eauto. }
  destruct Htick as [w' Hw1]. rewrite Hw1 in Hcase.
  destruct Hcase as (a' & l & Ha' & ->).
  rewrite Hheap, Ha in Ha'. injection Ha' as <-.
  exists s', (run k (set_limiter
                       (did (set_jobs (world s')
                               (jobs (world s')
                                ++ [MkJob a false Pending Pending]))
                            (ActStart (length (jobs (world s'))))) l)).
  rewrite Hlim. split_and!; try done.
  - cbn [step]. rewrite Hc', Hr'. by rewrite Hw1.
  - apply (run_jobs_prefix k).
Qed.

Lemma X2_witness :
  exists s' s'',
    step ex_waiting (Worker 0 (OnExit 0)) = Some s'
    /\ resolved (world s') 0%nat = true
    /\ limit (limiter (world s')) = 0
    /\ step s' Tick = Some s''.
Proof.
  assert (Hex : exec (start numberOfThreads
                        (ex_corpus ["a"; "b"; "c"; "d"; "e"]) true
                        (processContent ex_root "1.0.0" ex_versionOf
                           ex_stampOf Compare true))
                  [Tick; Tick; Tick; Tick; Tick; Tick] = Some ex_waiting)
    by (vm_compute; reflexivity).
  assert (Hc : exists k, ctl ex_waiting = AwaitDeferred 0%nat 4%nat k)
    by (eexists; vm_compute; reflexivity).
  destruct Hc as [k Hc].
  assert (Hj : exists job, jobs (world ex_waiting) !! 0%nat = Some job
                           /\ inline job = false /\ settled job = Pending)
    by (eexists; split_and!; vm_compute; reflexivity).
  destruct Hj as (job & Hj & Hin & Hp).
  assert (Ha : exists a, heap (world ex_waiting) !! 4%nat = Some a)
    by (eexists; vm_compute; reflexivity).
  destruct Ha as [a Ha].
  assert (Hr : resolved (world ex_waiting) 0%nat = false)
    by (vm_compute; reflexivity).
  destruct (X2_success_wakes_the_waiter ex_root "1.0.0" ex_versionOf
              ex_stampOf Compare true (ex_corpus ["a"; "b"; "c"; "d"; "e"])
              true [Tick; Tick; Tick; Tick; Tick; Tick] ex_waiting
              0%nat 4%nat k 0%nat job a Hex Hc Hr Hj Hin Hp Ha)
    as (s' & s'' & H1 & _ & H3 & _ & H5 & _ & H7 & _).
  exists s', s''. split; [exact H1|]. split; [exact H3|].
  split; [exact H5 | exact H7].
Defined.

(** ** What a job has reported stays *)

Lemma run_awaits_pending (p : Prog unit) : forall w,
  awaits_pending (run p w).
Proof.
  unfold awaits_pending.
  induction p as [a|e|q k IH|q k IH|q k IH|q k IH|src dst k IH|q t k IH|q k IH
                 |q k IH|msg k IH|a k IH|r k IH|r d k IH|k IH|r k IH|r k IH
                 |k IH];
    intros w; cbn [run].
  - done.
  - done.
  - apply IH.
  - destruct (fs_readdirSync _ _); [apply IH | done].
  - destruct (fs_readFileSync _ _); [apply IH | done].
  - destruct (fs_mkdirSync _ _); [apply IH | done].
  - destruct (fs_copyFileSync _ _ _); [apply IH | done].
  - destruct (fs_writeFileSync _ _ _); [apply IH | done].
  - destruct (fs_unlinkSync _ _); [apply IH | done].
  - destruct (fs_rmdirSync _ _); [apply IH | done].
  - apply IH.
  - apply IH.
  - destruct (heap w !! r); [apply IH | done].
  - destruct (heap w !! r); [apply IH | done].
  - done.
  - destruct (addWork w r); [apply IH | by simpl | by unfold fail].
  - destruct (heap w !! r); [|done]. simpl. eexists.
    split; [by apply list_lookup_middle | done].
  - unfold waitAll. simpl. destruct (promise_all _); [done | apply IH | done].
Qed.

Lemma step_awaits_pending s ev s' :
  awaits_pending s -> step s ev = Some s' -> awaits_pending s'.
Proof.
  intros Hs. destruct ev as [|j ev|j res]; simpl.
  - destruct (ctl s) as [p|d r k|j k|k|r]; try done.
    + intros [= <-]. apply run_awaits_pending.
    + destruct (resolved _ _); [|done].
      destruct (addWork_resume _ _); intros [= <-]; try done.
      apply run_awaits_pending.
  - destruct (jobs (world s) !! j) as [job|] eqn:Hj; [|done].
    destruct (inline job) eqn:Hin; [done|]. intros [= <-].
    destruct (worker_reports_world s j job ev Hj) as [Hsame Hrep].
    destruct (decide (settled job = Pending)) as [Hp|Hnp];
      [|by rewrite (Hsame Hnp)].
    destruct (Hrep Hp) as (r & p & _ & _ & _ & _ & Hjobs & _ & Hc).
    unfold awaits_pending in *. rewrite Hc.
    destruct (ctl s) as [q|d r' k|j' k|k|r'] eqn:Hcs; try done.
    + simpl. destruct Hs as (job' & Hj' & Hin' & Hp').
      exists job'. split; [|done]. rewrite Hjobs.
      rewrite list_lookup_insert_ne; [done|]. intros <-. congruence.
    + simpl. by repeat case_match.
  - destruct (ctl s) as [p|d r k|j' k|k|r]; try done.
    destruct (jobs (world s) !! j) as [job|]; [|done].
    destruct (decide (j = j')); [|done]. destruct (inline job); [|done].
    intros [= <-]. unfold engine_reports, awaits_pending.
    by destruct (processOneFile res).
Qed.

Lemma step_keeps_reports s ev s' j job :
  awaits_pending s -> step s ev = Some s' ->
  jobs (world s) !! j = Some job -> settled job <> Pending ->
  jobs (world s') !! j = Some job.
Proof.
  intros Hs Hstep Hj Hp. destruct ev as [|i ev|i res]; simpl in Hstep.
  - assert (Hpre : forall p w, jobs w !! j = Some job ->
                     jobs (world (run p w)) !! j = Some job).
    { intros p w Hw. destruct (run_jobs_prefix p w) as [l ->].
      by apply lookup_app_l_Some. }
    destruct (ctl s) as [p|d r k|j' k|k|r]; try done.
    + injection Hstep as <-. by apply Hpre.
    + destruct (resolved _ _); [|done].
      assert (Hc := addWork_resume_cases (world s) r).
      destruct (addWork_resume (world s) r) as [w'|w' dd|w' e]; [|done|].
      * injection Hstep as <-. destruct Hc as (a & l & _ & ->).
        apply Hpre. simpl. by apply lookup_app_l_Some.
      * injection Hstep as <-. by subst w'.
  - destruct (jobs (world s) !! i) as [job'|] eqn:Hi; [|done].
    destruct (inline job'); [done|]. injection Hstep as <-.
    destruct (worker_reports_world s i job' ev Hi) as [Hsame Hrep].
    destruct (decide (settled job' = Pending)) as [Hp'|Hnp];
      [|by rewrite (Hsame Hnp)].
    destruct (Hrep Hp') as (r & p & _ & _ & _ & _ & Hjobs & _).
    rewrite Hjobs. rewrite list_lookup_insert_ne; [done|].
    intros <-. congruence.
  - unfold awaits_pending in Hs.
    destruct (ctl s) as [p|d r k|j' k|k|r]; try done.
    destruct (jobs (world s) !! i) as [job'|] eqn:Hi; [|done].
    destruct (decide (i = j')) as [->|]; [|done].
    destruct (inline job'); [|done]. injection Hstep as <-.
    destruct Hs as (job'' & Hj'' & _ & Hp'').
    assert (j <> j') by (intros ->; congruence).
    unfold engine_reports.
    destruct (processOneFile res); simpl;
      by rewrite list_lookup_insert_ne.
Qed.

Lemma exec_keeps_reports evs : forall s s' j job,
  awaits_pending s -> exec s evs = Some s' ->
  jobs (world s) !! j = Some job -> settled job <> Pending ->
  jobs (world s') !! j = Some job.
Proof.
  induction evs as [|ev evs IH]; intros s s' j job Hs; simpl.
  - by intros [= <-].
  - destruct (step s ev) as [s1|] eqn:Hstep; [|done].
    intros Hex Hj Hp. apply (IH s1); try done.
    + by apply (step_awaits_pending s ev).
    + by apply (step_keeps_reports s ev).
Qed.

Lemma exec_awaits_pending evs : forall s s',
  awaits_pending s -> exec s evs = Some s' -> awaits_pending s'.
Proof.
  induction evs as [|ev evs IH]; intros s s' Hs; simpl.
  - by intros [= <-].
  - destruct (step s ev) as [s1|] eqn:Hstep; [|done].
    apply IH. by apply (step_awaits_pending s ev).
Qed.

(** X3. The promise of a job is settled by the first report of its
    worker, and by nothing after it. The first report fulfils the job
    exactly when it is an exit with code 0; a message rejects it, in
    Compare mode with the hint to regenerate the snapshots appended. A
    job that has settled, in a run of any program of the dispatcher,
    stays exactly as it is through everything that follows: later
    reports of its worker, reports of other jobs, and the dispatcher. *)
Theorem X3_first_report_settles (main : Prog unit) (C : Z) (f : FS)
    (th : bool) (evs evs' : list Event) (s s' : System) (j : nat)
    (job : Job) (ev : WorkerEvent) :
  exec (start C f th main) evs = Some s ->
  jobs (world s) !! j = Some job ->
  inline job = false -> settled job = Pending ->
  exec s (Worker j ev :: evs') = Some s' ->
  let r := listener (mode (workerData job)) ev in
  (r = Fulfilled <-> ev = OnExit 0)
  /\ (forall error, ev = OnMessage error ->
        r = Rejected (JobError (if decide (mode (workerData job) = Compare)
                                then error +:+ nl +:+ extra else error)))
  /\ exists p, jobs (world s') !! j
               = Some (MkJob (workerData job) false r p).
Proof.
  intros Hex Hj Hin Hp Hex' r.
  split; [|split].
  - unfold r. destruct ev as [error|e|code]; simpl.
    + by destruct (decide _).
    + done.
    + destruct (decide (code <> 0)) as [Hc|Hc].
      * split; [done|]. by intros [= ->].
      * split; [|done]. intros _. f_equal.
        destruct (decide (code = 0)); [done|]. by destruct Hc.
  - intros error ->. unfold r. simpl. by destruct (decide _).
  - assert (Hs : awaits_pending s).
    { eapply exec_awaits_pending; [|exact Hex]. done. }
    cbn [exec] in Hex'.
    destruct (step s (Worker j ev)) as [s1|] eqn:Hstep; [|done].
    assert (Hs1 : awaits_pending s1)
      by (by apply (step_awaits_pending s (Worker j ev))).
    simpl in Hstep. rewrite Hj, Hin in Hstep. injection Hstep as <-.
    destruct (worker_reports_world s j job ev Hj) as [_ Hrep].
    destruct (Hrep Hp) as (r' & p & Hr' & _ & _ & _ & Hjobs & _ & _).
    assert (Hr : r' = r).
    { clear -Hjobs Hp Hj. unfold worker_reports in Hjobs. rewrite Hp in Hjobs.
      fold r in Hjobs. revert Hjobs.
      destruct (match r with Fulfilled => _ | _ => _ end) as [w1 p1] eqn:Hw.
      cbn [world]. rewrite all_reacts_jobs. simpl.
      assert (Hj1 : jobs w1 = jobs (world s)).
      { revert Hw. unfold onFulfilled, resolve.
        destruct r; repeat case_match; by intros [= <- _]. }
      rewrite Hj1. intros Heq.
      apply (f_equal (fun l => l !! j)) in Heq.
      apply lookup_lt_Some in Hj.
      rewrite !list_lookup_insert_eq in Heq by done. congruence. }
    subst r'. exists p.
    eapply (exec_keeps_reports evs'); [exact Hs1 | exact Hex' | | exact Hr'].
    rewrite Hjobs. apply list_lookup_insert_eq. by apply lookup_lt_Some in Hj.
Qed.

Lemma X3_witness :
  exists p,
    jobs (world ex_reported) !! 0%nat
    = Some (MkJob (MkArgs (ex_root ++ ["a"]) Compare 1000 None) false
              (Rejected (JobError ("mismatch" +:+ nl +:+ extra))) p).
Proof.
  assert (Hex : exec (start numberOfThreads
                        (ex_corpus ["a"; "b"; "c"; "d"; "e"]) true
                        (processContent ex_root "1.0.0" ex_versionOf
                           ex_stampOf Compare true))
                  [Tick; Tick; Tick; Tick; Tick; Tick] = Some ex_waiting)
    by (vm_compute; reflexivity).
  assert (Hj : exists p,
            jobs (world ex_waiting) !! 0%nat
            = Some (MkJob (MkArgs (ex_root ++ ["a"]) Compare 1000 None)
                      false Pending p))
    by (eexists; vm_compute; reflexivity).
  destruct Hj as [p0 Hj].
  assert (Hex' : exec ex_waiting [Worker 0 (OnMessage "mismatch")]
                 = Some ex_reported)
    by (vm_compute; reflexivity).
  destruct (X3_first_report_settles _ _ _ _ _ _ _ _ _ _ _
              Hex Hj eq_refl eq_refl Hex') as (_ & _ & p & Hp).
  exists p. exact Hp.
Defined.

(** ** [cleanFailedSnapshots] *)

Lemma run_clean_step failed x w :
  run (clean_step failed x) w
  = if isDirectory x then MkSystem w (Settled Fulfilled)
    else match fs_unlinkSync (fs w) (failed ++ [name x]) with
         | Ok f => MkSystem (did (set_fs w f) (ActUnlink (failed ++ [name x])))
                            (Settled Fulfilled)
         | Err e => fail w e
         end.
Proof.
  unfold clean_step. destruct (isDirectory x); [done|]. simpl.
  by destruct (fs_unlinkSync _ _).
Qed.

Lemma unlinks_cons_file failed x l :
  isDirectory x = false ->
  unlinks failed (x :: l) = ActUnlink (failed ++ [name x]) :: unlinks failed l.
Proof. intros H. unfold unlinks. simpl. by rewrite H. Qed.

Lemma unlinks_cons_dir failed x l :
  isDirectory x = true -> unlinks failed (x :: l) = unlinks failed l.
Proof. intros H. unfold unlinks. simpl. by rewrite H. Qed.

(** The loop deletes the files listed, and nothing else. *)
Lemma unlink_loop_spec (failed : path) l : forall w,
  NoDup (name <$> l) ->
  (forall x, x ∈ l -> isDirectory x = false ->
             exists t, fs_get (fs w) (failed ++ [name x]) = Some (File t)) ->
  let s := run (forOf l (clean_step failed)) w in
  ctl s = Settled Fulfilled
  /\ quiet w (world s)
  /\ acts (world s) = acts w ++ unlinks failed l
  /\ (NoDup (fs w).*1 -> NoDup (fs (world s)).*1)
  /\ (forall x, x ∈ l -> isDirectory x = false ->
                fs_get (fs (world s)) (failed ++ [name x]) = None)
  /\ (forall q, (forall x, x ∈ l -> isDirectory x = false ->
                           q <> failed ++ [name x]) ->
                fs_get (fs (world s)) q = fs_get (fs w) q).
Proof.
  induction l as [|x l IH]; intros w Hnd Hfiles; cbv zeta.
  - rewrite run_forOf_nil. simpl. split_and!; try done.
    + by rewrite app_nil_r.
    + by intros ? ?%elem_of_nil.
  - rewrite fmap_cons in Hnd. apply NoDup_cons in Hnd as [Hx Hnd].
    rewrite run_forOf_cons, run_clean_step.
    destruct (isDirectory x) eqn:Hdir.
    + simpl. destruct (IH w Hnd) as (H1 & H2 & H3 & H4 & H5 & H6).
      { intros y Hy. apply Hfiles. apply elem_of_cons. by right. }
      split_and!; try done.
      * by rewrite unlinks_cons_dir.
      * intros y [->|Hy]%elem_of_cons Hf; [congruence | by apply H5].
      * intros q Hq. apply H6. intros y Hy. apply Hq.
        apply elem_of_cons. by right.
    + destruct (Hfiles x) as [t Ht]; [apply elem_of_cons; by left | done|].
      unfold fs_unlinkSync. rewrite Ht. simpl.
      set (w1 := did (set_fs w _) _).
      destruct (IH w1 Hnd) as (H1 & H2 & H3 & H4 & H5 & H6).
      { intros y Hy Hf. destruct (Hfiles y) as [t' Ht'];
          [apply elem_of_cons; by right | done|].
        exists t'. unfold w1. simpl. rewrite fs_get_del, decide_False; [done|].
        intros Heq. apply child_inj in Heq as [_ Heq]. apply Hx.
        rewrite Heq. apply list_elem_of_fmap. by exists y. }
      split_and!; try done.
      * destruct H2. by split.
      * rewrite H3, unlinks_cons_file by done. unfold w1. simpl.
        by rewrite <- app_assoc.
      * intros Hn. apply H4. unfold w1. simpl. by apply fs_del_NoDup.
      * intros y [->|Hy]%elem_of_cons Hf; [|by apply H5].
        rewrite H6.
        -- unfold w1. simpl. by rewrite fs_get_del, decide_True.
        -- intros z Hz _ Heq. apply child_inj in Heq as [_ Heq].
           apply Hx. rewrite Heq. apply list_elem_of_fmap. by exists z.
      * intros q Hq. rewrite H6.
        -- unfold w1. simpl. rewrite fs_get_del, decide_False; [done|].
           intros <-. apply (Hq x); [apply elem_of_cons; by left | done | done].
        -- intros y Hy. apply Hq. apply elem_of_cons. by right.
Qed.

Lemma NoDup_fmap_eq {A B : Type} (g : A -> B) (l : list A) x y :
  NoDup (g <$> l) -> x ∈ l -> y ∈ l -> g x = g y -> x = y.
Proof.
  induction l as [|a l IH]; [by intros _ ?%elem_of_nil|].
  rewrite fmap_cons. intros [Ha Hnd]%NoDup_cons.
  intros [->|Hx]%elem_of_cons [->|Hy]%elem_of_cons Heq; auto.
  - destruct Ha. rewrite Heq. apply list_elem_of_fmap. by exists y.
  - destruct Ha. rewrite <- Heq. apply list_elem_of_fmap. by exists x.
Qed.

Lemma clean_loop_ctl failed l : forall w,
  exists r, ctl (run (forOf l (clean_step failed)) w) = Settled r.
Proof.
  induction l as [|x l IH]; intros w; [by eexists|].
  rewrite run_forOf_cons, run_clean_step.
  destruct (isDirectory x); [apply IH|].
  destruct (fs_unlinkSync _ _); simpl; [apply IH | by eexists].
Qed.

Lemma run_cleanFailedSnapshots (dir : path) (k : unit -> Prog unit) w :
  let cur := dir ++ ["current_snapshots"] in
  let failed := cur ++ ["FailedSnapshots"] in
  run (cleanFailedSnapshots dir ≫= k) w
  = if negb (fs_existsSync (fs w) cur) then run (k tt) w
    else if negb (fs_existsSync (fs w) failed) then run (k tt) w
    else match fs_readdirSync (fs w) failed with
         | Err e => fail w e
         | Ok l =>
             let s := run (forOf l (clean_step failed)) w in
             match ctl s with
             | Settled Fulfilled =>
                 match fs_rmdirSync (fs (world s)) failed with
                 | Ok f => run (k tt) (did (set_fs (world s) f)
                                          (ActRmdir failed))
                 | Err e => fail (world s) e
                 end
             | _ => s
             end
         end.
Proof.
  intros cur failed. rewrite run_bind. unfold cleanFailedSnapshots.
  fold cur. fold failed. cbn [run existsSync bind mbind mret]. simpl.
  destruct (fs_existsSync (fs w) cur); simpl; [|done].
  destruct (fs_existsSync (fs w) failed); simpl; [|done].
  destruct (fs_readdirSync (fs w) failed) as [l|e]; simpl; [|done].
  change (forOf l _) with (forOf l (clean_step failed)).
  rewrite run_bind.
  destruct (clean_loop_ctl failed l w) as [r Hc].
  destruct (run (forOf l (clean_step failed)) w) as [w' c'] eqn:Hs.
  simpl in Hc. subst c'. simpl.
  destruct r as [| |e]; simpl; try done.
  by destruct (fs_rmdirSync _ _).
Qed.

Section Clean.
Variables (dir : path) (k : unit -> Prog unit) (w : World) (l : list Dirent).

Local Abbreviation cur := (dir ++ ["current_snapshots"]).
Local Abbreviation failed := (cur ++ ["FailedSnapshots"]).

Hypothesis Hnd : NoDup (fs w).*1.
Hypothesis Hcur : fs_existsSync (fs w) cur = true.
Hypothesis Hl : fs_readdirSync (fs w) failed = Ok l.

(** The loop, on the listing of [FailedSnapshots]. *)
Lemma clean_loop :
  let s := run (forOf l (clean_step failed)) w in
  ctl s = Settled Fulfilled
  /\ quiet w (world s)
  /\ acts (world s) = acts w ++ unlinks failed l
  /\ NoDup (fs (world s)).*1
  /\ fs_get (fs (world s)) failed = Some Dir
  /\ (forall x, x ∈ l -> isDirectory x = false ->
                fs_get (fs (world s)) (failed ++ [name x]) = None)
  /\ (forall x, x ∈ l -> isDirectory x = true ->
                fs_get (fs (world s)) (failed ++ [name x]) = Some Dir)
  /\ (forall x, x ∉ name <$> l ->
                fs_get (fs (world s)) (failed ++ [x]) = None)
  /\ (forall q, (forall x, q <> failed ++ [x]) ->
                fs_get (fs (world s)) q = fs_get (fs w) q).
Proof.
  destruct (fs_readdirSync_Ok _ _ _ Hl) as [Hdir Hch].
  assert (Hnames : NoDup (name <$> l))
    by (rewrite Hch; by apply children_names_NoDup).
  destruct (unlink_loop_spec failed l w Hnames)
    as (H1 & H2 & H3 & H4 & H5 & H6).
  { intros x Hx Hf. apply children_file; try done. by rewrite <- Hch. }
  cbv zeta. split_and!; try done.
  - by apply H4.
  - rewrite H6; [done|]. intros x _ _. apply not_eq_sym, child_ne_self.
  - intros x Hx Hd. rewrite H6.
    + destruct x as [n b]. simpl in *. subst b. rewrite Hch in Hx.
      apply elem_of_children in Hx as (nd & Hin & Hb).
      destruct nd; [done|]. by apply fs_elem_get.
    + intros y Hy Hf Heq. apply child_inj in Heq as [_ Heq].
      assert (x = y) by (by apply (NoDup_fmap_eq name l)).
      congruence.
  - intros x Hx. rewrite H6.
    + destruct (fs_get (fs w) (failed ++ [x])) as [n|] eqn:Hg; [|done].
      destruct Hx. rewrite Hch. apply elem_of_children_names.
      unfold fs_existsSync. by rewrite Hg.
    + intros y Hy _ Heq. apply child_inj in Heq as [_ ->].
      apply Hx. apply list_elem_of_fmap. by exists y.
  - intros q Hq. apply H6. intros x _ _. apply Hq.
Qed.

End Clean.

(** X4. [cleanFailedSnapshots] does nothing when the test case has no
    [current_snapshots], or no [FailedSnapshots] in it. When
    [FailedSnapshots] lists files only, these files are deleted in the
    order of the listing and then the folder is removed: afterwards
    neither the folder nor anything directly in it exists, every other
    path is as it was, and nothing else has changed when the caller goes
    on. *)
Theorem X4_cleanFailedSnapshots_removes_the_folder
    (dir : path) (k : unit -> Prog unit) (w : World) (l : list Dirent) :
  let cur := dir ++ ["current_snapshots"] in
  let failed := cur ++ ["FailedSnapshots"] in
  (fs_existsSync (fs w) cur = false \/ fs_existsSync (fs w) failed = false ->
   run (cleanFailedSnapshots dir ≫= k) w = run (k tt) w)
  /\ (NoDup (fs w).*1 ->
      fs_existsSync (fs w) cur = true ->
      fs_readdirSync (fs w) failed = Ok l ->
      (forall x, x ∈ l -> isDirectory x = false) ->
      exists w',
        run (cleanFailedSnapshots dir ≫= k) w = run (k tt) w'
        /\ quiet w w'
        /\ acts w' = acts w ++ unlinks failed l ++ [ActRmdir failed]
        /\ NoDup (fs w').*1
        /\ fs_get (fs w') failed = None
        /\ (forall x, fs_get (fs w') (failed ++ [x]) = None)
        /\ (forall q, q <> failed -> (forall x, q <> failed ++ [x]) ->
                      fs_get (fs w') q = fs_get (fs w) q)).
Proof.
  intros cur failed. split.
  - intros H. rewrite run_cleanFailedSnapshots. fold cur failed.
    destruct (fs_existsSync (fs w) cur); [|done].
    destruct H as [H|H]; [done|]. by rewrite H.
  - intros Hnd Hcur Hl Hfiles.
    destruct (clean_loop dir w l Hnd Hl)
      as (H1 & H2 & H3 & H4 & H5 & H6 & _ & H8 & H9).
    fold cur failed in H1, H2, H3, H4, H5, H6, H8, H9.
    set (s := run (forOf l (clean_step failed)) w) in *.
    assert (Hempty : children (fs (world s)) failed = []).
    { destruct (children (fs (world s)) failed) as [|[x b] rest] eqn:Hch;
        [done|]. exfalso.
      assert (Hin : MkDirent x b ∈ children (fs (world s)) failed)
        by (rewrite Hch; apply elem_of_cons; by left).
      apply elem_of_children in Hin as (n & Hin & _).
      apply fs_elem_get in Hin; [|done].
      destruct (decide (x ∈ name <$> l)) as [Hx|Hx].
      - apply list_elem_of_fmap in Hx as (y & -> & Hy).
        rewrite H6 in Hin; [done | done | by apply Hfiles].
      - by rewrite H8 in Hin. }
    exists (did (set_fs (world s) (fs_del (fs (world s)) failed))
              (ActRmdir failed)).
    split_and!.
    + rewrite run_cleanFailedSnapshots. fold cur failed. rewrite Hcur.
      destruct (fs_readdirSync_Ok _ _ _ Hl) as [Hdir _].
      unfold fs_existsSync at 1. rewrite Hdir, Hl. cbv zeta. fold s.
      rewrite H1. unfold fs_rmdirSync. by rewrite H5, Hempty.
    + destruct H2. by split.
    + simpl. rewrite H3. by rewrite <- app_assoc.
    + simpl. by apply fs_del_NoDup.
    + simpl. by rewrite fs_get_del, decide_True.
    + intros x. simpl. rewrite fs_get_del, decide_False
        by apply not_eq_sym, child_ne_self.
      destruct (decide (x ∈ name <$> l)) as [Hx|Hx]; [|by apply H8].
      apply list_elem_of_fmap in Hx as (y & -> & Hy).
      apply H6; [done | by apply Hfiles].
    + intros q Hq Hq'. simpl. rewrite fs_get_del, decide_False by done.
      by apply H9.
Qed.

Lemma X4_witness :
  exists w',
    run (cleanFailedSnapshots (ex_root ++ ["a"]) ≫= (fun _ => Ret tt))
        (ex_world ex_failed)
    = run (Ret tt) w'
    /\ fs_get (fs w')
         (((ex_root ++ ["a"]) ++ ["current_snapshots"])
            ++ ["FailedSnapshots"]) = None.
Proof.
  destruct (X4_cleanFailedSnapshots_removes_the_folder (ex_root ++ ["a"])
              (fun _ => Ret tt) (ex_world ex_failed)
              [MkDirent "s1.json" false; MkDirent "s2.json" false])
    as [_ H].
  destruct H as (w' & H1 & _ & _ & _ & H5 & _).
  - apply (bool_decide_unpack _). vm_compute. exact I.
  - vm_compute. reflexivity.
  - vm_compute. reflexivity.
  - intros x Hx.
    repeat (apply elem_of_cons in Hx as [->|Hx]; [reflexivity|]).
    apply elem_of_nil in Hx. destruct Hx.
  - exists w'. split; [exact H1 | exact H5].
Defined.

(** X5. When [FailedSnapshots] holds a folder, [cleanFailedSnapshots]
    still deletes the files listed, and then [rmdirSync] throws
    [ENOTEMPTY]: the folder and its subfolders stay, and since
    [processContent] does not catch the error, the run is rejected with it
    and what was to follow is not run. *)
Theorem X5_cleanFailedSnapshots_nested_folder
    (dir : path) (k : unit -> Prog unit) (w : World) (l : list Dirent)
    (sub : Dirent) :
  let cur := dir ++ ["current_snapshots"] in
  let failed := cur ++ ["FailedSnapshots"] in
  let s := run (cleanFailedSnapshots dir ≫= k) w in
  NoDup (fs w).*1 ->
  fs_existsSync (fs w) cur = true ->
  fs_readdirSync (fs w) failed = Ok l ->
  sub ∈ l -> isDirectory sub = true ->
  ctl s = Settled (Rejected (FsError "ENOTEMPTY" failed))
  /\ quiet w (world s)
  /\ acts (world s) = acts w ++ unlinks failed l
  /\ fs_get (fs (world s)) failed = Some Dir
  /\ (forall x, x ∈ l ->
        fs_get (fs (world s)) (failed ++ [name x])
        = if isDirectory x then Some Dir else None).
Proof.
  intros cur failed s Hnd Hcur Hl Hsub Hdir.
  destruct (clean_loop dir w l Hnd Hl)
    as (H1 & H2 & H3 & H4 & H5 & H6 & H7 & _ & _).
  fold cur failed in H1, H2, H3, H4, H5, H6, H7.
  set (s1 := run (forOf l (clean_step failed)) w) in *.
  assert (Hs : s = fail (world s1) (FsError "ENOTEMPTY" failed)).
  { unfold s. rewrite run_cleanFailedSnapshots. fold cur failed.
    rewrite Hcur.
    destruct (fs_readdirSync_Ok _ _ _ Hl) as [Hd _].
    unfold fs_existsSync at 1. rewrite Hd, Hl. cbv zeta. fold s1.
    rewrite H1. unfold fs_rmdirSync. rewrite H5.
    destruct (children (fs (world s1)) failed) as [|e rest] eqn:Hch; [|done].
    exfalso.
    assert (Hin : MkDirent (name sub) true ∈ children (fs (world s1)) failed).
    { apply elem_of_children. exists Dir. split; [|done].
      apply fs_get_Some_elem. by apply H7. }
    rewrite Hch in Hin. by apply elem_of_nil in Hin. }
  rewrite Hs. simpl. split_and!; try done.
  intros x Hx. destruct (isDirectory x) eqn:Hx'; [by apply H7 | by apply H6].
Qed.

Lemma X5_witness :
  ctl (run (cleanFailedSnapshots (ex_root ++ ["a"]) ≫= (fun _ => Ret tt))
         (ex_world ex_failed_nested))
  = Settled (Rejected (FsError "ENOTEMPTY"
      (((ex_root ++ ["a"]) ++ ["current_snapshots"])
         ++ ["FailedSnapshots"]))).
Proof.
  apply (X5_cleanFailedSnapshots_nested_folder (ex_root ++ ["a"])
           (fun _ => Ret tt) (ex_world ex_failed_nested)
           [MkDirent "s1.json" false; MkDirent "s2.json" false;
            MkDirent "old" true]
           (MkDirent "old" true)).
  - apply (bool_decide_unpack _). vm_compute. exact I.
  - vm_compute. reflexivity.
  - vm_compute. reflexivity.
  - apply (bool_decide_unpack _). vm_compute. exact I.
  - reflexivity.
Defined.

(** ** The loop of [processContent] *)

Lemma run_processContent fileLocation pkgVersion snapshotVersionOf stampOf
    m concurrently w :
  run (processContent fileLocation pkgVersion snapshotVersionOf stampOf m
         concurrently) w
  = match fs_readdirSync (fs w) fileLocation with
    | Ok l =>
        run (forOf l (processEntry fileLocation pkgVersion snapshotVersionOf
                        stampOf m concurrently)
             ≫= (fun _ => limiter_waitAll)) w
    | Err e => fail w e
    end.
Proof.
  unfold processContent. simpl. by destruct (fs_readdirSync _ _).
Qed.

Lemma run_processEntry_passed fileLocation pkgVersion snapshotVersionOf
    stampOf m concurrently node w :
  passed_over (fs w) fileLocation node = true ->
  run (processEntry fileLocation pkgVersion snapshotVersionOf stampOf m
         concurrently node) w
  = MkSystem
      (if isDirectory node
       then log w ("Can't locate "
                     +:+ render ((fileLocation ++ [name node])
                                   ++ ["messages.json"]))
       else w)
      (Settled Fulfilled).
Proof.
  unfold passed_over, processEntry. destruct (isDirectory node); [|done].
  simpl. intros ->. done.
Qed.

Lemma run_passed_over fileLocation pkgVersion snapshotVersionOf stampOf m
    concurrently (k : unit -> Prog unit) l : forall w,
  (forall node, node ∈ l -> passed_over (fs w) fileLocation node = true) ->
  run (forOf l (processEntry fileLocation pkgVersion snapshotVersionOf
                  stampOf m concurrently) ≫= k) w
  = run (k tt)
        (MkWorld (fs w) (heap w) (limiter w) (deferreds w) (jobs w) (all w)
                 (console w ++ notices fileLocation l) (acts w) (threads w)).
Proof.
  induction l as [|node l IH]; intros w Hl.
  - rewrite run_bind, run_forOf_nil. simpl. unfold notices. simpl.
    rewrite app_nil_r. by destruct w.
  - rewrite run_bind, run_forOf_cons, run_processEntry_passed
      by (apply Hl, elem_of_cons; by left).
    cbn [ctl world]. rewrite <- run_bind.
    rewrite IH.
    + f_equal. unfold notices. simpl.
      destruct (isDirectory node); simpl; [|done].
      by rewrite <- app_assoc.
    + intros n Hn. destruct (isDirectory node); simpl;
        apply Hl, elem_of_cons; by right.
Qed.

(** X6. What [processContent] does with a corpus that gives it no
    work. When the corpus folder cannot be listed, the run is rejected
    with the error of [readdirSync] and nothing is done. An entry that is
    no directory is passed over without a trace. And when every entry is
    a file or a folder without [messages.json], the run is fulfilled in
    the first turn of the dispatcher: no job is started, nothing is
    written, [waitAll] waits for no promise, and the console has one line
    for each folder, in the order of the listing. *)
Theorem X6_processContent_without_work
    fileLocation pkgVersion snapshotVersionOf stampOf (m : Mode)
    (concurrently : bool) :
  (forall w e,
     fs_readdirSync (fs w) fileLocation = Err e ->
     run (processContent fileLocation pkgVersion snapshotVersionOf stampOf m
            concurrently) w = fail w e)
  /\ (forall node rest (k : unit -> Prog unit) w,
        isDirectory node = false ->
        run (forOf (node :: rest)
               (processEntry fileLocation pkgVersion snapshotVersionOf
                  stampOf m concurrently) ≫= k) w
        = run (forOf rest
                 (processEntry fileLocation pkgVersion snapshotVersionOf
                    stampOf m concurrently) ≫= k) w)
  /\ (forall C f th l,
        fs_readdirSync f fileLocation = Ok l ->
        (forall node, node ∈ l -> passed_over f fileLocation node = true) ->
        run (processContent fileLocation pkgVersion snapshotVersionOf stampOf
               m concurrently) (boot C f th)
        = MkSystem
            (MkWorld f [] (MkLimiter [] None C) [] []
                     (Some ([], Fulfilled)) (notices fileLocation l) [] th)
            (Settled Fulfilled)).
Proof.
  split; [|split].
  - intros w e He. by rewrite run_processContent, He.
  - intros node rest k w Hn.
    rewrite !(run_bind _ k), run_forOf_cons, run_processEntry_passed.
    + by rewrite Hn.
    + unfold passed_over. by rewrite Hn.
  - intros C f th l Hl Hall.
    rewrite run_processContent. cbn [fs boot]. rewrite Hl.
    by rewrite run_passed_over.
Qed.

Lemma X6_witness :
  run (processContent ex_root "1.0.0" ex_versionOf ex_stampOf Stress true)
      (boot numberOfThreads ex_idle true)
  = MkSystem
      (MkWorld ex_idle [] (MkLimiter [] None numberOfThreads) [] []
         (Some ([], Fulfilled))
         (notices ex_root [MkDirent "README.md" false; MkDirent "nolog" true])
         [] true)
      (Settled Fulfilled).
Proof.
  destruct (X6_processContent_without_work ex_root "1.0.0" ex_versionOf
              ex_stampOf Stress true) as (_ & _ & H).
  apply H.
  - vm_compute. reflexivity.
  - intros node Hn.
    repeat (apply elem_of_cons in Hn as [->|Hn]; [vm_compute; reflexivity|]).
    apply elem_of_nil in Hn. destruct Hn.
Defined.

(** ** The arguments of the jobs *)

Lemma makes_bind {A B : Type} P Q (p : Prog A) (k : A -> Prog B) :
  makes P Q p -> (forall a, makes P Q (k a)) -> makes P Q (bind p k).
Proof.
  induction p; simpl; intros Hp Hk; auto; destruct Hp; split; auto.
Qed.

Lemma makes_forOf {X : Type} P Q (l : list X) (body : X -> Prog unit) :
  (forall x, makes P Q (body x)) -> makes P Q (forOf l body).
Proof.
  intros Hb. induction l as [|x l IH]; [done|]. simpl.
  apply makes_bind; auto.
Qed.

Lemma makes_assert P Q b msg : makes P Q (assert b msg).
Proof. by destruct b. Qed.

Lemma makes_JSON_parse P Q (r : Parsed) :
  makes P Q (JSON_parse r).
Proof. by destruct r. Qed.

Ltac made :=
  repeat first
    [ done
    | apply makes_assert
    | apply makes_JSON_parse
    | apply makes_forOf
    | apply makes_bind
    | intro
    | match goal with
      | |- context [if ?b then _ else _] => destruct b
      end
    | progress simpl ].

Lemma makes_processNode P Q data conc : makes P Q (processNode data conc).
Proof. unfold processNode. made. Qed.

Lemma makes_processNodeForWrite P Q pv sv st data conc :
  makes P Q (processNodeForWrite pv sv st data conc).
Proof.
  unfold processNodeForWrite.
  repeat first
    [ apply makes_processNode | done | apply makes_assert
    | apply makes_JSON_parse | apply makes_forOf | apply makes_bind | intro
    | progress simpl ].
Qed.

Lemma makes_processNodeForValidate P (Q : Prop) data conc :
  Q -> makes P Q (processNodeForValidate data conc).
Proof.
  intros HQ. unfold processNodeForValidate. simpl. intros d x.
  destruct (negb x); [done|]. simpl. intros l.
  apply makes_forOf. intros n. destruct (negb (isDirectory n)); [done|].
  simpl. split; [done|]. intros t. by destruct (_ || _).
Qed.

Lemma makes_cleanFailedSnapshots P Q dir :
  makes P Q (cleanFailedSnapshots dir).
Proof. unfold cleanFailedSnapshots. made. Qed.

Lemma makes_processContent fileLocation pv sv st m conc :
  makes (args_of_run fileLocation m) (m = Validate)
    (processContent fileLocation pv sv st m conc).
Proof.
  unfold processContent.
  apply makes_bind; [done|]. intros l.
  apply makes_bind; [|done]. apply makes_forOf. intros node.
  unfold processEntry. destruct (negb (isDirectory node)); [done|].
  apply makes_bind; [done|]. intros ex. destruct (negb ex); [done|].
  apply makes_bind; [apply makes_cleanFailedSnapshots|]. intros _.
  apply makes_bind.
  - simpl. split; [|done]. unfold args_of_run. simpl. split_and!; eauto.
  - intros data. destruct m.
    + apply makes_processNodeForWrite.
    + apply makes_processNode.
    + apply makes_processNode.
    + by apply makes_processNodeForValidate.
Qed.

Lemma addWork_heap w r :
  match addWork w r with
  | Started w' | Suspended w' _ | Failed w' _ => heap w' = heap w
  end.
Proof.
  unfold addWork, startWorker. destruct (decide _); simpl.
  - by destruct (deferred (limiter w)).
  - by destruct (heap w !! r).
Qed.

Section ArgsInv.
Variables (P : IWorkerArgs -> Prop) (Q : Prop).
Hypothesis Hset : forall a d, Q -> P a ->
  P (MkArgs (folder a) (mode a) (snapFreq a) (Some d)).

Lemma run_args_inv (p : Prog unit) : forall w,
  makes P Q p -> Forall P (heap w) ->
  Forall (fun job => P (workerData job)) (jobs w) ->
  args_inv P Q (run p w).
Proof.
  unfold args_inv.
  induction p as [a|e|q k IH|q k IH|q k IH|q k IH|src dst k IH|q t k IH|q k IH
                 |q k IH|msg k IH|a k IH|r k IH|r d k IH|k IH|r k IH|r k IH
                 |k IH];
    intros w Hp Hh Hj; cbn [run]; simpl in Hp.
  - done.
  - done.
  - by apply IH.
  - destruct (fs_readdirSync _ _); [by apply IH | done].
  - destruct (fs_readFileSync _ _); [by apply IH | done].
  - destruct (fs_mkdirSync _ _); [by apply IH | done].
  - destruct (fs_copyFileSync _ _ _); [by apply IH | done].
  - destruct (fs_writeFileSync _ _ _); [by apply IH | done].
  - destruct (fs_unlinkSync _ _); [by apply IH | done].
  - destruct (fs_rmdirSync _ _); [by apply IH | done].
  - by apply IH.
  - destruct Hp as [Ha Hk]. apply IH; simpl; try done.
    apply Forall_app. split; [done|]. by constructor.
  - destruct (heap w !! r); [by apply IH | done].
  - destruct Hp as [HQ Hk].
    destruct (heap w !! r) as [a|] eqn:Ha; [|done].
    apply IH; simpl; try done.
    apply Forall_insert; [done|]. apply Hset; [done|].
    rewrite Forall_lookup in Hh. by apply (Hh r).
  - simpl. auto.
  - assert (Hc := addWork_cases w r). assert (Hhp := addWork_heap w r).
    destruct (addWork w r) as [w'|w' dd|w' e].
    + destruct Hc as (a & l & Ha & ->). apply IH; simpl; try done.
      apply Forall_app. split; [done|]. constructor; [|done]. simpl.
      rewrite Forall_lookup in Hh. by apply (Hh r).
    + destruct Hc as [Hj' _]. simpl. by rewrite Hj', Hhp.
    + destruct Hc as [Hj' _]. simpl. by rewrite Hj', Hhp.
  - destruct (heap w !! r) as [a|] eqn:Ha; [|done]. simpl.
    split_and!; try done.
    apply Forall_app. split; [done|]. constructor; [|done]. simpl.
    rewrite Forall_lookup in Hh. by apply (Hh r).
  - unfold waitAll. simpl. destruct (promise_all _); [done | by apply IH | done].
Qed.

Lemma step_args_inv s ev s' :
  args_inv P Q s -> step s ev = Some s' -> args_inv P Q s'.
Proof.
  intros (Hh & Hj & Hc). destruct ev as [|j ev|j res]; simpl.
  - destruct (ctl s) as [p|d r k|j k|k|r]; try done.
    + intros [= <-]. by apply run_args_inv.
    + destruct (resolved _ _); [|done].
      assert (Hcase := addWork_resume_cases (world s) r).
      destruct (addWork_resume (world s) r) as [w'|w' dd|w' e]; [|done|].
      * intros [= <-]. destruct Hcase as (a & l & Ha & ->).
        apply run_args_inv; simpl; try done.
        apply Forall_app. split; [done|]. constructor; [|done]. simpl.
        rewrite Forall_lookup in Hh. by apply (Hh r).
      * intros [= <-]. subst w'. by split_and!.
  - destruct (jobs (world s) !! j) as [job|] eqn:Hjob; [|done].
    destruct (inline job); [done|]. intros [= <-].
    destruct (worker_reports_world s j job ev Hjob) as [Hsame Hrep].
    destruct (decide (settled job = Pending)) as [Hp|Hnp].
    2:{ rewrite (Hsame Hnp). by split_and!. }
    destruct (Hrep Hp) as (r & p & _ & _ & Hheap & _ & Hjobs & _ & Hctl).
    unfold args_inv. rewrite Hheap, Hjobs, Hctl. split_and!; try done.
    + apply Forall_insert; [done|]. simpl.
      rewrite Forall_lookup in Hj. by apply (Hj j).
    + destruct (ctl s) as [q|d r' k|j' k|k|r']; simpl in *; try done.
      by repeat case_match.
  - destruct (ctl s) as [p|d r k|j' k|k|r]; try done.
    destruct (jobs (world s) !! j) as [job|] eqn:Hjob; [|done].
    destruct (decide (j = j')); [|done]. destruct (inline job); [|done].
    intros [= <-]. unfold engine_reports, args_inv.
    assert (Hw : P (workerData job)).
    { rewrite Forall_lookup in Hj. by apply (Hj j). }
    destruct (processOneFile res); simpl; split_and!; try done;
      by apply Forall_insert.
Qed.

Lemma exec_args_inv evs : forall s s',
  args_inv P Q s -> exec s evs = Some s' -> args_inv P Q s'.
Proof.
  induction evs as [|ev evs IH]; intros s s' Hs; simpl.
  - by intros [= <-].
  - destruct (step s ev) as [s1|] eqn:Hstep; [|done].
    apply IH. by apply (step_args_inv s ev).
Qed.

End ArgsInv.

(** X7. Every job of a run of [processContent] in mode [m], started
    with worker threads or in line, at any moment of the run, carries the
    mode [m], the snapshot frequency of that mode (50 in Stress mode, 1000
    in the others) and the folder of an entry of the corpus folder; and
    outside Validate mode no job has [initializeFromSnapshotsDir]. *)
Theorem X7_jobs_carry_the_arguments_of_the_run
    fileLocation pkgVersion snapshotVersionOf stampOf (m : Mode)
    (concurrently : bool) (f : FS) (th : bool) (evs : list Event)
    (s : System) (job : Job) :
  exec (start numberOfThreads f th
          (processContent fileLocation pkgVersion snapshotVersionOf stampOf
             m concurrently)) evs = Some s ->
  job ∈ jobs (world s) ->
  mode (workerData job) = m
  /\ snapFreq (workerData job) = (if decide (m = Stress) then 50 else 1000)
  /\ (exists n, folder (workerData job) = fileLocation ++ [n])
  /\ (m <> Validate -> initializeFromSnapshotsDir (workerData job) = None).
Proof.
  intros Hex Hjob.
  assert (Hinv : args_inv (args_of_run fileLocation m) (m = Validate) s).
  { eapply exec_args_inv; [| |exact Hex].
    - intros a d -> (H1 & H2 & H3 & _). by split_and!.
    - split_and!; simpl; [constructor | constructor|].
      apply makes_processContent. }
  destruct Hinv as (_ & Hj & _). rewrite Forall_forall in Hj.
  by apply Hj.
Qed.

Lemma X7_witness :
  Forall (fun job => snapFreq (workerData job) = 1000)
         (jobs (world ex_waiting)).
Proof.
  apply Forall_forall. intros job Hjob.
  assert (Hex : exec (start numberOfThreads
                        (ex_corpus ["a"; "b"; "c"; "d"; "e"]) true
                        (processContent ex_root "1.0.0" ex_versionOf
                           ex_stampOf Compare true))
                  [Tick; Tick; Tick; Tick; Tick; Tick] = Some ex_waiting)
    by (vm_compute; reflexivity).
  apply (X7_jobs_carry_the_arguments_of_the_run _ _ _ _ _ _ _ _ _ _ job
           Hex Hjob).
Defined.

(** X8. A migration of [processNodeForWrite] that succeeds changes
    the files in two ways only. Folders on the way to, and including,
    [src_snapshots/v] that were not there are made; and for every entry
    of [current_snapshots] the file of that name in [src_snapshots/v]
    gets the content of the current file. Every other path is as it was:
    nothing is deleted, [current_snapshots] itself is untouched (the
    snapshots are copied, not moved) and so are the folders of other
    versions. The stamp in the archive is the one that was read: it names
    the version [v] of the folder it lies in. The version [v] is one
    component of a path. *)
Theorem X8_migration_touches_only_the_archive
    pkgVersion snapshotVersionOf stampOf (data : ref) (concurrently : bool)
    (k : unit -> Prog unit) (w : World) (d : IWorkerArgs) (text v : string)
    (kont : Prog unit) :
  heap w !! data = Some d ->
  let cur := folder d ++ ["current_snapshots"] in
  let vf := cur ++ ["snapshotVersion.json"] in
  let dst := folder d ++ ["src_snapshots"; v] in
  let s := run (processNodeForWrite pkgVersion snapshotVersionOf stampOf
                  data concurrently ≫= k) w in
  let f' := fs (world s) in
  NoDup (fs w).*1 ->
  fs_readFileSync (fs w) vf = Ok text ->
  snapshotVersionOf text = Version v ->
  path_component v = true ->
  ctl s = Ready kont ->
  (forall q,
     fs_get f' q = fs_get (fs w) q
     \/ (fs_get (fs w) q = None /\ fs_get f' q = Some Dir
         /\ q `prefix_of` dst)
     \/ (exists x t, x ∈ children (fs w) cur /\ q = dst ++ [name x]
                     /\ fs_get (fs w) (cur ++ [name x]) = Some (File t)
                     /\ fs_get f' q = Some (File t)))
  /\ (forall y, fs_get f' (cur ++ [y]) = fs_get (fs w) (cur ++ [y]))
  /\ (forall v' y, v' <> v ->
        fs_get f' (folder d ++ ["src_snapshots"; v'; y])
        = fs_get (fs w) (folder d ++ ["src_snapshots"; v'; y]))
  /\ fs_get f' (dst ++ ["snapshotVersion.json"]) = Some (File text).
Proof.
  intros Hd cur vf dst s f' Hnd Hr Hv _ Hctl.
  assert (Hvf := fs_readFileSync_Ok _ _ _ Hr).
  destruct (fs_existsSync (fs w) cur) eqn:Hc.
  2:{ exfalso. revert Hctl. unfold s, processNodeForWrite. simpl.
      rewrite Hd. simpl. fold cur. by rewrite Hc. }
  revert Hctl. unfold f', s.
  rewrite (processNodeForWrite_run _ _ _ _ _ _ _ _ Hd Hc
             (fs_existsSync_Some _ _ _ Hvf)).
  fold cur vf. rewrite Hr, Hv. cbv zeta. fold dst.
  destruct (fs_mkdirSync (fs w) dst) as [f1|e] eqn:Hm; [|done].
  destruct (fs_readdirSync f1 cur) as [l|e] eqn:Hl; [|done].
  apply fs_readdirSync_Ok in Hl as [_ ->].
  assert (Hcur : children f1 cur = children (fs w) cur)
    by apply (archive_mkdir_keeps_current _ _ _ _ Hm).
  rewrite Hcur.
  set (w1 := did (set_fs w f1) (ActMkdir dst)).
  destruct (copy_loop_spec cur dst (children (fs w) cur) w1)
    as (_ & _ & _ & done & _ & _ & _ & Hframe & Hcont & Hdone).
  assert (Hcd : forall a b, cur ++ [a] <> dst ++ [b])
    by (intros a b; apply current_ne_archive).
  set (s1 := run _ w1) in *.
  destruct (ctl s1) as [| | | |[| |e]] eqn:Hloop; try done;
    try (by rewrite Hloop).
  subst done. simpl. intros _.
  destruct (mkdir_from_spec _ _ _ _ Hm) as (_ & Hmk & _).
  assert (Hfiles : forall x, x ∈ children (fs w) cur ->
            exists t, fs_get (fs w) (cur ++ [name x]) = Some (File t)
                      /\ fs_get (fs (world s1)) (dst ++ [name x])
                         = Some (File t)).
  { intros x Hx. destruct (Hcont Hcd x Hx) as (t & H1 & H2).
    exists t. split; [|done]. unfold w1 in H1. simpl in H1.
    by rewrite (archive_mkdir_keeps_files _ _ _ _ _ Hm) in H1. }
  assert (Hall : forall q,
     fs_get (fs (world s1)) q = fs_get (fs w) q
     \/ (fs_get (fs w) q = None /\ fs_get (fs (world s1)) q = Some Dir
         /\ q `prefix_of` dst)
     \/ (exists x t, x ∈ children (fs w) cur /\ q = dst ++ [name x]
                     /\ fs_get (fs w) (cur ++ [name x]) = Some (File t)
                     /\ fs_get (fs (world s1)) q = Some (File t))).
  { intros q.
    destruct (decide (q ∈ (fun y => dst ++ [name y])
                            <$> children (fs w) cur)) as [Hin|Hout].
    - apply list_elem_of_fmap in Hin as (x & -> & Hx).
      destruct (Hfiles x Hx) as (t & H1 & H2). right. right.
      by exists x, t.
    - rewrite Hframe.
      2:{ intros y Hy ->. apply Hout. apply list_elem_of_fmap. by exists y. }
      unfold w1. simpl.
      destruct (Hmk q) as [<-|(H0 & H1 & i & _ & ->)]; [by left|].
      right. left. split_and!; try done. simpl.
      exists (drop i dst). by rewrite take_drop. }
  split_and!.
  - exact Hall.
  - intros y. rewrite Hframe; [|intros x _; apply Hcd].
    unfold w1. simpl. apply (archive_mkdir_keeps_files _ _ _ _ _ Hm).
  - intros v' y Hv'.
    destruct (Hall (folder d ++ ["src_snapshots"; v'; y]))
      as [H|[(_ & _ & Hpre)|(x & t & _ & Heq & _)]]; [done|..].
    + exfalso. destruct Hpre as [tl Htl]. unfold dst in Htl.
      apply (f_equal length) in Htl. rewrite !length_app in Htl.
      simpl in Htl. lia.
    + exfalso. unfold dst in Heq. rewrite <- app_assoc in Heq.
      by simplify_list_eq.
  - destruct (Hfiles (MkDirent "snapshotVersion.json" false))
      as (t & H1 & H2).
    { apply elem_of_children. exists (File text). split; [|done].
      by apply fs_get_Some_elem. }
    simpl in H1, H2. fold vf in H1. congruence.
Qed.

Lemma X8_witness :
  fs_get (fs (world ex_first))
    ((folder (ex_args "a") ++ ["src_snapshots"; "0.9.0"])
       ++ ["snapshotVersion.json"])
  = Some (File "0.9.0").
Proof.
  assert (Hk : exists kont, ctl ex_first = Ready kont)
    by (eexists; vm_compute; reflexivity).
  destruct Hk as [kont Hk].
  assert (Hr : fs_readFileSync (fs (ex_world (ex_corpus ["a"])))
                 ((folder (ex_args "a") ++ ["current_snapshots"])
                    ++ ["snapshotVersion.json"]) = Ok "0.9.0")
    by (vm_compute; reflexivity).
  assert (Hnd : NoDup (fs (ex_world (ex_corpus ["a"]))).*1).
  { apply (bool_decide_unpack _). vm_compute. exact I. }
  destruct (X8_migration_touches_only_the_archive "0.9.0" ex_versionOf
              ex_stampOf 0%nat true (fun _ => Ret tt)
              (ex_world (ex_corpus ["a"])) (ex_args "a") "0.9.0" "0.9.0"
              kont eq_refl Hnd Hr eq_refl eq_refl Hk)
    as (_ & _ & _ & H).
  exact H.
Defined.

(** X9. In Write mode a baseline whose stamp cannot be used stops the
    workflow before anything is done: when the stamp is a folder,
    [readFileSync] throws; when its text does not parse, [JSON.parse]
    throws a [SyntaxError]; when its text is [null], reading the version
    throws a [TypeError]; and when the folder for the archive cannot be
    made, [mkdirSync] throws. In each case the workflow is rejected with that
    error in the state it started in: no folder is made, nothing is
    copied, no job is started, and what was to follow is not run. *)
Theorem X9_write_stops_before_the_migration
    pkgVersion snapshotVersionOf stampOf (data : ref) (concurrently : bool)
    (k : unit -> Prog unit) (w : World) (d : IWorkerArgs) :
  heap w !! data = Some d ->
  let cur := folder d ++ ["current_snapshots"] in
  let vf := cur ++ ["snapshotVersion.json"] in
  let s := run (processNodeForWrite pkgVersion snapshotVersionOf stampOf
                  data concurrently ≫= k) w in
  fs_existsSync (fs w) cur = true ->
  (fs_get (fs w) vf = Some Dir -> s = fail w (FsError "EISDIR" vf))
  /\ (forall text,
        fs_readFileSync (fs w) vf = Ok text ->
        (snapshotVersionOf text = NotJSON -> s = fail w SyntaxError)
        /\ (snapshotVersionOf text = NoObject -> s = fail w TypeError))
  /\ (forall text v e,
        fs_readFileSync (fs w) vf = Ok text ->
        snapshotVersionOf text = Version v ->
        fs_mkdirSync (fs w) (folder d ++ ["src_snapshots"; v]) = Err e ->
        s = fail w e).
Proof.
  intros Hd cur vf s Hc. split; [|split].
  - intros Hdir. unfold s.
    rewrite (processNodeForWrite_run _ _ _ _ _ _ _ _ Hd Hc
               (fs_existsSync_Some _ _ _ Hdir)).
    fold cur vf. unfold fs_readFileSync. by rewrite Hdir.
  - intros text Hr. unfold s.
    rewrite (processNodeForWrite_run _ _ _ _ _ _ _ _ Hd Hc
               (fs_existsSync_Some _ _ _ (fs_readFileSync_Ok _ _ _ Hr))).
    fold cur vf. rewrite Hr. by split; intros ->.
  - intros text v e Hr Hv Hm. unfold s.
    rewrite (processNodeForWrite_run _ _ _ _ _ _ _ _ Hd Hc
               (fs_existsSync_Some _ _ _ (fs_readFileSync_Ok _ _ _ Hr))).
    fold cur vf. rewrite Hr, Hv. cbv zeta. by rewrite Hm.
Qed.

Lemma X9_witness :
  run (processNodeForWrite "1.0.0" ex_versionOf ex_stampOf 0%nat true
         ≫= (fun _ => Ret tt)) (ex_world ex_stamp_is_folder)
  = fail (ex_world ex_stamp_is_folder)
      (FsError "EISDIR"
         ((folder (ex_args "a") ++ ["current_snapshots"])
            ++ ["snapshotVersion.json"]))
  /\ exists e,
       run (processNodeForWrite "1.0.0" ex_versionOf ex_stampOf 0%nat true
              ≫= (fun _ => Ret tt)) (ex_world ex_archive_blocked)
       = fail (ex_world ex_archive_blocked) e.
Proof.
  split.
  - apply (X9_write_stops_before_the_migration "1.0.0" ex_versionOf
             ex_stampOf 0%nat true (fun _ => Ret tt)
             (ex_world ex_stamp_is_folder) (ex_args "a") eq_refl).
    + vm_compute. reflexivity.
    + vm_compute. reflexivity.
  - assert (Hm : exists e,
              fs_mkdirSync (fs (ex_world ex_archive_blocked))
                (folder (ex_args "a") ++ ["src_snapshots"; "0.9.0"]) = Err e)
      by (eexists; vm_compute; reflexivity).
    destruct Hm as [e Hm]. exists e.
    destruct (X9_write_stops_before_the_migration "1.0.0" ex_versionOf
                ex_stampOf 0%nat true (fun _ => Ret tt)
                (ex_world ex_archive_blocked) (ex_args "a") eq_refl)
      as (_ & _ & H).
    + vm_compute. reflexivity.
    + apply (H "0.9.0" "0.9.0" e); [vm_compute; reflexivity | reflexivity
                                    | exact Hm].
Defined.

(** ** Runs in line *)

Lemma no_addWork_bind {A B : Type} th (p : Prog A) (k : A -> Prog B) :
  no_addWork th p -> (forall a, no_addWork th (k a)) ->
  no_addWork th (bind p k).
Proof. induction p; simpl; intros Hp Hk; auto. Qed.

Lemma no_addWork_forOf {X : Type} th (l : list X) (body : X -> Prog unit) :
  (forall x, no_addWork th (body x)) -> no_addWork th (forOf l body).
Proof.
  intros Hb. induction l as [|x l IH]; [done|]. simpl.
  apply no_addWork_bind; auto.
Qed.

Lemma no_addWork_assert th b msg : no_addWork th (assert b msg).
Proof. by destruct b. Qed.

Lemma no_addWork_JSON_parse th (r : Parsed) :
  no_addWork th (JSON_parse r).
Proof. by destruct r. Qed.

Lemma no_addWork_processNode th data conc :
  negb conc || negb th = true -> no_addWork th (processNode data conc).
Proof. intros H. unfold processNode. simpl. by rewrite H. Qed.

Ltac inline_shape H :=
  repeat first
    [ done
    | apply (no_addWork_processNode _ _ _ H)
    | apply no_addWork_assert
    | apply no_addWork_JSON_parse
    | apply no_addWork_forOf
    | apply no_addWork_bind
    | intro
    | match goal with
      | |- context [if ?b then _ else _] => destruct b
      end ].

Lemma no_addWork_processNodeForWrite th pv sv st data conc :
  negb conc || negb th = true ->
  no_addWork th (processNodeForWrite pv sv st data conc).
Proof. intros H. unfold processNodeForWrite. inline_shape H. Qed.

Lemma no_addWork_processNodeForValidate th data conc :
  negb conc || negb th = true ->
  no_addWork th (processNodeForValidate data conc).
Proof. intros H. unfold processNodeForValidate. inline_shape H. Qed.

Lemma no_addWork_cleanFailedSnapshots th dir :
  no_addWork th (cleanFailedSnapshots dir).
Proof.
  unfold cleanFailedSnapshots.
  repeat first
    [ done | apply no_addWork_forOf | apply no_addWork_bind | intro
    | match goal with
      | |- context [if ?b then _ else _] => destruct b
      end ].
Qed.

Lemma no_addWork_processContent th fileLocation pv sv st m conc :
  negb conc || negb th = true ->
  no_addWork th (processContent fileLocation pv sv st m conc).
Proof.
  intros H. unfold processContent.
  apply no_addWork_bind; [done|]. intros l.
  apply no_addWork_bind; [|done]. apply no_addWork_forOf. intros node.
  unfold processEntry. destruct (negb (isDirectory node)); [done|].
  apply no_addWork_bind; [done|]. intros ex. destruct (negb ex); [done|].
  apply no_addWork_bind; [apply no_addWork_cleanFailedSnapshots|]. intros _.
  apply no_addWork_bind; [done|]. intros data. destruct m.
  - by apply no_addWork_processNodeForWrite.
  - by apply no_addWork_processNode.
  - by apply no_addWork_processNode.
  - by apply no_addWork_processNodeForValidate.
Qed.

Lemma run_inline_inv C th (p : Prog unit) : forall w,
  no_addWork th p ->
  inline_inv C th (MkSystem w (Ready p)) ->
  inline_inv C th (run p w).
Proof.
  unfold inline_inv.
  induction p as [a|e|q k IH|q k IH|q k IH|q k IH|src dst k IH|q t k IH|q k IH
                 |q k IH|msg k IH|a k IH|r k IH|r d k IH|k IH|r k IH|r k IH
                 |k IH];
    intros w Hp (Hl & Hd & Ht & Hj & Ha & _); cbn [run world ctl] in *;
    simpl in Hp.
  - by split_and!.
  - by split_and!.
  - by apply IH.
  - destruct (fs_readdirSync _ _); [by apply IH | by split_and!].
  - destruct (fs_readFileSync _ _); [by apply IH | by split_and!].
  - destruct (fs_mkdirSync _ _); [by apply IH | by split_and!].
  - destruct (fs_copyFileSync _ _ _); [by apply IH | by split_and!].
  - destruct (fs_writeFileSync _ _ _); [by apply IH | by split_and!].
  - destruct (fs_unlinkSync _ _); [by apply IH | by split_and!].
  - destruct (fs_rmdirSync _ _); [by apply IH | by split_and!].
  - by apply IH.
  - by apply IH.
  - destruct (heap w !! r); [by apply IH | by split_and!].
  - destruct (heap w !! r); [by apply IH | by split_and!].
  - simpl. rewrite Ht. by split_and!.
  - done.
  - destruct (heap w !! r); [|by split_and!]. simpl. split_and!; try done.
    apply Forall_app. split; [done|]. by repeat constructor.
  - unfold waitAll. rewrite Hl. simpl. apply IH; [done|]. simpl.
    split_and!; auto.
Qed.

Lemma step_inline_inv C th s ev s' :
  inline_inv C th s -> step s ev = Some s' -> inline_inv C th s'.
Proof.
  intros (Hl & Hd & Ht & Hj & Ha & Hc). destruct ev as [|j ev|j res]; simpl.
  - destruct (ctl s) as [p|d r k|j k|k|r]; try done.
    intros [= <-]. apply run_inline_inv; [done|]. by split_and!.
  - destruct (jobs (world s) !! j) as [job|] eqn:Hjob; [|done].
    rewrite Forall_lookup in Hj. by rewrite (Hj j job Hjob).
  - destruct (ctl s) as [p|d r k|j' k|k|r]; try done.
    destruct (jobs (world s) !! j) as [job|] eqn:Hjob; [|done].
    destruct (decide (j = j')); [|done]. destruct (inline job); [|done].
    intros [= <-]. unfold engine_reports, inline_inv.
    destruct (processOneFile res); simpl; split_and!; try done;
      by apply Forall_insert.
Qed.

Lemma exec_inline_inv C th evs : forall s s',
  inline_inv C th s -> exec s evs = Some s' -> inline_inv C th s'.
Proof.
  induction evs as [|ev evs IH]; intros s s' Hs; simpl.
  - by intros [= <-].
  - destruct (step s ev) as [s1|] eqn:Hstep; [|done].
    apply IH. by apply (step_inline_inv C th s ev).
Qed.

(** X11. A run of [processContent] that is not concurrent, or has no
    [worker_threads] module, never uses the [ConcurrencyLimiter]: at
    every moment the counter is at its capacity, no promise was pushed,
    no Deferred was made and every job runs in line; the dispatcher never
    waits for a slot or for [waitAll], which, called with no promise, is
    fulfilled at once; and no worker can report. *)
Theorem X11_inline_runs_do_not_use_the_gate
    fileLocation pkgVersion snapshotVersionOf stampOf (m : Mode)
    (concurrently : bool) (f : FS) (th : bool) (evs : list Event)
    (s : System) :
  negb concurrently || negb th = true ->
  exec (start numberOfThreads f th
          (processContent fileLocation pkgVersion snapshotVersionOf stampOf
             m concurrently)) evs = Some s ->
  limiter (world s) = MkLimiter [] None numberOfThreads
  /\ deferreds (world s) = []
  /\ (forall job, job ∈ jobs (world s) -> inline job = true)
  /\ (all (world s) = None \/ all (world s) = Some ([], Fulfilled))
  /\ (forall d data k, ctl s <> AwaitDeferred d data k)
  /\ (forall k, ctl s <> AwaitAll k)
  /\ (forall j ev, step s (Worker j ev) = None).
Proof.
  intros Hin Hex.
  assert (Hinv : inline_inv numberOfThreads th s).
  { eapply exec_inline_inv; [|exact Hex].
    unfold inline_inv. simpl. split_and!; auto.
    by apply no_addWork_processContent. }
  destruct Hinv as (Hl & Hd & Ht & Hj & Ha & Hc).
  split_and!; try done.
  - intros job Hjob. rewrite Forall_forall in Hj. by apply Hj.
  - intros d data k Hk. by rewrite Hk in Hc.
  - intros k Hk. by rewrite Hk in Hc.
  - intros j ev. simpl.
    destruct (jobs (world s) !! j) as [job|] eqn:Hjob; [|done].
    rewrite Forall_lookup in Hj. by rewrite (Hj j job Hjob).
Qed.

Lemma X11_witness :
  limiter (world ex_inline_failure) = MkLimiter [] None numberOfThreads
  /\ all (world ex_inline_failure) = None.
Proof.
  assert (Hex : exec (start numberOfThreads (ex_corpus ["a"; "b"]) true
                        (processContent ex_root "1.0.0" ex_versionOf
                           ex_stampOf Compare false))
                  [Tick; Tick; Engine 0 (Returns ["snapshot mismatch"])]
                = Some ex_inline_failure)
    by (vm_compute; reflexivity).
  destruct (X11_inline_runs_do_not_use_the_gate ex_root "1.0.0" ex_versionOf
              ex_stampOf Compare false (ex_corpus ["a"; "b"]) true
              [Tick; Tick; Engine 0 (Returns ["snapshot mismatch"])]
              ex_inline_failure eq_refl Hex) as (H1 & _).
  split; [exact H1 | vm_compute; reflexivity].
Defined.

(** X12. [getFileLocations] returns locations that exist, both
    relative to the working directory or both in the package above
    [__dirname]; the working directory comes first. It never mixes the
    two: when the working directory has [content/snapshotTestContent] but
    no [dist/replayWorker.js], it fails the assertion on the worker file
    even if the package has both. In every other case it fails one of
    its assertions. *)
Theorem X12_getFileLocations_finds_what_exists (f : FS) (cwd dirname : path) :
  (forall c wk,
     getFileLocations f cwd dirname = Ok (c, wk) ->
     fs_existsSync f (resolve_location cwd c) = true
     /\ fs_existsSync f (resolve_location cwd wk) = true
     /\ ((c = Relative ["content"; "snapshotTestContent"]
          /\ wk = Relative ["dist"; "replayWorker.js"])
         \/ (fs_existsSync f (cwd ++ ["content"; "snapshotTestContent"])
             = false
             /\ c = Absolute (parent dirname
                                ++ ["content"; "snapshotTestContent"])
             /\ wk = Absolute (parent dirname
                                 ++ ["dist"; "replayWorker.js"]))))
  /\ (fs_existsSync f (cwd ++ ["content"; "snapshotTestContent"]) = true ->
      fs_existsSync f (cwd ++ ["dist"; "replayWorker.js"]) = false ->
      getFileLocations f cwd dirname
      = Err (AssertionError
               "Cannot find worker js file: ./dist/replayWorker.js"))
  /\ (forall e, getFileLocations f cwd dirname = Err e ->
                exists msg, e = AssertionError msg).
Proof.
  unfold getFileLocations. split; [|split].
  - intros c wk.
    destruct (fs_existsSync f (cwd ++ _)) eqn:H1.
    + destruct (fs_existsSync f (cwd ++ ["dist"; _])) eqn:H2; [|done].
      intros [= <- <-]. simpl. rewrite H1, H2. split_and!; auto.
    + destruct (fs_existsSync f (parent dirname ++ _)) eqn:H2; [|done].
      destruct (fs_existsSync f (parent dirname ++ ["dist"; _])) eqn:H3;
        [|done].
      intros [= <- <-]. simpl. rewrite H2, H3. split_and!; auto.
  - intros -> ->. done.
  - intros e. repeat case_match; try done; intros [= <-]; by eexists.
Qed.

Lemma X12_witness :
  getFileLocations ex_disk ["work"] ["pkg"; "dist"]
  = Err (AssertionError "Cannot find worker js file: ./dist/replayWorker.js")
  /\ getFileLocations ex_disk ["pkg"] ["pkg"; "dist"]
     = Ok (Relative ["content"; "snapshotTestContent"],
           Relative ["dist"; "replayWorker.js"])
  /\ getFileLocations ex_disk ["tmp"] ["pkg"; "dist"]
     = Ok (Absolute ["pkg"; "content"; "snapshotTestContent"],
           Absolute ["pkg"; "dist"; "replayWorker.js"]).
Proof.
  split.
  - apply (X12_getFileLocations_finds_what_exists ex_disk ["work"]
             ["pkg"; "dist"]); vm_compute; reflexivity.
  - split; vm_compute; reflexivity.
Defined.

(** ** When the migration succeeds *)

(** The copy loop goes through a listing of files, none of which has a
    folder of its name in the archive. *)
Lemma copy_loop_succeeds (cur dst : path) :
  (forall a b, cur ++ [a] <> dst ++ [b]) ->
  forall l w,
  is_directory (fs w) dst = true ->
  (forall x, x ∈ l ->
     isDirectory x = false
     /\ (exists t, fs_get (fs w) (cur ++ [name x]) = Some (File t))
     /\ fs_get (fs w) (dst ++ [name x]) <> Some Dir) ->
  ctl (run (forOf l (copy_step cur dst)) w) = Settled Fulfilled.
Proof.
  intros Hcd. induction l as [|x l IH]; intros w Hdst Hl.
  - by rewrite run_forOf_nil.
  - rewrite run_forOf_cons, run_copy_step.
    destruct (Hl x) as (Hx & [t Ht] & Hd); [apply elem_of_cons; by left|].
    rewrite Hx.
    rewrite (fs_copyFileSync_can _ _ _ t); try done.
    2:{ by rewrite parent_child. }
    simpl. apply IH; simpl.
    + rewrite is_directory_put; [done | apply child_ne_self].
    + intros y Hy. destruct (Hl y) as (Hy1 & [t' Ht'] & Hy3);
        [apply elem_of_cons; by right|].
      split_and!; [done| |].
      * exists t'. rewrite fs_get_put, decide_False; [done|].
        intros H'. symmetry in H'. by apply Hcd in H'.
      * rewrite fs_get_put. by destruct (decide _).
Qed.

(** The copy loop never replaces a folder. *)
Lemma copy_loop_keeps_folders (cur dst : path) q : forall l w,
  fs_get (fs w) q = Some Dir ->
  fs_get (fs (world (run (forOf l (copy_step cur dst)) w))) q = Some Dir.
Proof.
  induction l as [|x l IH]; intros w Hq.
  - by rewrite run_forOf_nil.
  - rewrite run_forOf_cons, run_copy_step.
    destruct (isDirectory x); [done|].
    destruct (fs_copyFileSync _ _ _) as [f|e] eqn:Hcp; simpl; [|done].
    apply IH. simpl.
    apply fs_copyFileSync_Ok in Hcp as (t & _ & -> & _ & Hd).
    rewrite fs_get_put. destruct (decide _) as [Heq|]; [|done].
    subst q. congruence.
Qed.

Lemma archive_mkdir_keeps_entries f (folder : path) (v : string) f1 y :
  fs_mkdirSync f (folder ++ ["src_snapshots"; v]) = Ok f1 ->
  fs_get f1 ((folder ++ ["src_snapshots"; v]) ++ [y])
  = fs_get f ((folder ++ ["src_snapshots"; v]) ++ [y]).
Proof.
  intros Hm.
  destruct (fs_mkdirSync_spec f (folder ++ ["src_snapshots"]) v f1)
    as (_ & _ & Hsame & _).
  { by rewrite <- app_assoc. }
  specialize (Hsame y). rewrite <- !app_assoc in Hsame.
  by rewrite <- !app_assoc.
Qed.

Lemma migration_run pkgVersion snapshotVersionOf stampOf data concurrently
    (k : unit -> Prog unit) w d l text v f1 :
  heap w !! data = Some d ->
  let cur := folder d ++ ["current_snapshots"] in
  let vf := cur ++ ["snapshotVersion.json"] in
  let dst := folder d ++ ["src_snapshots"; v] in
  let w1 := did (set_fs w f1) (ActMkdir dst) in
  let s1 := run (forOf l (copy_step cur dst)) w1 in
  fs_readdirSync (fs w) cur = Ok l ->
  fs_readFileSync (fs w) vf = Ok text ->
  snapshotVersionOf text = Version v ->
  fs_mkdirSync (fs w) dst = Ok f1 ->
  run (processNodeForWrite pkgVersion snapshotVersionOf stampOf data
         concurrently ≫= k) w
  = match ctl s1 with
    | Settled Fulfilled =>
        MkSystem (world s1)
          (Ready ((submit data concurrently (threads (world s1));;
                   writeFileSync vf (stampOf pkgVersion)) ≫= k))
    | _ => s1
    end.
Proof.
  intros Hd cur vf dst w1 s1 Hl Hr Hv Hm.
  destruct (fs_readdirSync_Ok _ _ _ Hl) as [Hcur Hch].
  assert (Hvf := fs_readFileSync_Ok _ _ _ Hr).
  assert (Hl1 : fs_readdirSync f1 cur = Ok l).
  { unfold fs_readdirSync.
    rewrite (mkdir_from_keeps _ _ _ _ _ _ Hm Hcur).
    unfold cur. rewrite (archive_mkdir_keeps_current _ _ _ _ Hm).
    by rewrite Hch. }
  rewrite (processNodeForWrite_run _ _ _ _ _ _ _ _ Hd
             (fs_existsSync_Some _ _ _ Hcur) (fs_existsSync_Some _ _ _ Hvf)).
  fold cur vf. rewrite Hr, Hv. cbv zeta. fold dst. rewrite Hm, Hl1.
  done.
Qed.

(** X14. When the stamp of a baseline is read and gives the version
    [v], one component of a path, and the folder [src_snapshots/v] is
    there or can be made, the
    migration of [processNodeForWrite] succeeds exactly when every entry
    of [current_snapshots] is a file and the archive has no folder with
    the name of one. Then every entry is copied, in the order of the
    listing, nothing else is changed, and the workflow goes on to submit
    its job. When an entry is a folder, or the archive has a folder of its
    name, the workflow is rejected, with the assertion or with the error
    of the copy, and no job is submitted. *)
Theorem X14_migration_succeeds_for_files_only
    pkgVersion snapshotVersionOf stampOf (data : ref) (concurrently : bool)
    (k : unit -> Prog unit) (w : World) (d : IWorkerArgs)
    (l : list Dirent) (text v : string) (f1 : FS) :
  heap w !! data = Some d ->
  let cur := folder d ++ ["current_snapshots"] in
  let vf := cur ++ ["snapshotVersion.json"] in
  let dst := folder d ++ ["src_snapshots"; v] in
  let s := run (processNodeForWrite pkgVersion snapshotVersionOf stampOf
                  data concurrently ≫= k) w in
  NoDup (fs w).*1 ->
  fs_readdirSync (fs w) cur = Ok l ->
  fs_readFileSync (fs w) vf = Ok text ->
  snapshotVersionOf text = Version v ->
  path_component v = true ->
  fs_mkdirSync (fs w) dst = Ok f1 ->
  ((forall x, x ∈ l ->
      isDirectory x = false
      /\ fs_get (fs w) (dst ++ [name x]) <> Some Dir) ->
   ctl s = Ready ((submit data concurrently (threads w);;
                   writeFileSync vf (stampOf pkgVersion)) ≫= k)
   /\ quiet w (world s)
   /\ acts (world s) = acts w ++ ActMkdir dst :: copies cur dst l)
  /\ (forall x, x ∈ l ->
        isDirectory x = true
        \/ fs_get (fs w) (dst ++ [name x]) = Some Dir ->
        jobs (world s) = jobs w
        /\ exists e, ctl s = Settled (Rejected e)
                     /\ (e = AssertionError "" \/ fs_error e)).
Proof.
  intros Hd cur vf dst s Hnd Hl Hr Hv _ Hm.
  unfold s.
  rewrite (migration_run _ _ _ _ _ _ _ _ _ _ _ _ Hd Hl Hr Hv Hm).
  fold cur vf dst.
  set (w1 := did (set_fs w f1) (ActMkdir dst)).
  set (s1 := run (forOf l (copy_step cur dst)) w1).
  destruct (fs_readdirSync_Ok _ _ _ Hl) as [Hcur Hch].
  destruct (copy_loop_spec cur dst l w1)
    as (Hq & _ & _ & done & _ & Hacts & Hfiles & _ & Hcopied & Hctl).
  fold s1 in Hq, Hacts, Hcopied, Hctl.
  assert (Hdst : fs_get f1 dst = Some Dir).
  { destruct (fs_mkdirSync_spec (fs w) (folder d ++ ["src_snapshots"]) v f1)
      as (_ & Hdir & _).
    - by rewrite <- app_assoc.
    - unfold dst. by rewrite <- app_assoc in Hdir. }
  split.
  - intros Hall.
    assert (Hok : ctl s1 = Settled Fulfilled).
    { apply copy_loop_succeeds.
      - apply current_ne_archive.
      - by apply is_directory_Dir.
      - intros x Hx. destruct (Hall x Hx) as [Hf Ha]. split_and!; [done| |].
        + destruct (children_file (fs w) cur x Hnd) as [t Ht]; try done.
          * by rewrite <- Hch.
          * exists t. apply (mkdir_from_keeps _ _ _ _ _ _ Hm Ht).
        + unfold w1. simpl. unfold dst.
          by rewrite (archive_mkdir_keeps_entries _ _ _ _ _ Hm). }
    rewrite Hok in Hctl |- *. subst done. simpl.
    destruct Hq as [Hh Hli Hde Hjo Hal Hco Hth]. split_and!.
    + by rewrite Hth.
    + by split.
    + rewrite Hacts. unfold w1. simpl. by rewrite <- app_assoc.
  - intros x Hx Hbad.
    assert (Hne : ctl s1 <> Settled Fulfilled).
    { intros Hok. rewrite Hok in Hctl. subst done.
      destruct Hbad as [Hbad|Hbad].
      - rewrite (Hfiles x Hx) in Hbad. done.
      - destruct (Hcopied (current_ne_archive _ _) x Hx) as (t & _ & Ht).
        assert (Hkeep : fs_get (fs (world s1)) (dst ++ [name x]) = Some Dir).
        { apply copy_loop_keeps_folders. unfold w1. simpl. unfold dst.
          by rewrite (archive_mkdir_keeps_entries _ _ _ _ _ Hm). }
        congruence. }
    destruct (ctl s1) as [| | | |[| |e]] eqn:Hc; try done.
    split; [by destruct Hq|].
    exists e. split; [done|].
    destruct Hctl as (y & rest & _ & Hy).
    destruct (isDirectory y); [by left|].
    right. apply (fs_copyFileSync_error _ _ _ _ Hy).
Qed.

Lemma X14_witness :
  ctl (run (processNodeForWrite "1.0.0" ex_versionOf ex_stampOf 0%nat true
              ≫= (fun _ => Ret tt)) (ex_world (ex_corpus ["a"])))
  = Ready ((submit 0%nat true true;;
            writeFileSync (((ex_root ++ ["a"]) ++ ["current_snapshots"])
                             ++ ["snapshotVersion.json"])
                          (ex_stampOf "1.0.0")) ≫= (fun _ => Ret tt)).
Proof.
  destruct (X14_migration_succeeds_for_files_only "1.0.0" ex_versionOf
              ex_stampOf 0%nat true (fun _ => Ret tt)
              (ex_world (ex_corpus ["a"])) (ex_args "a")
              [MkDirent "snapshotVersion.json" false;
               MkDirent "snapshot_1000.json" false]
              "0.9.0" "0.9.0"
              (ex_corpus ["a"]
               ++ [(ex_root ++ ["a"; "src_snapshots"], Dir);
                   (ex_root ++ ["a"; "src_snapshots"; "0.9.0"], Dir)]))
    as [H _].
  - reflexivity.
  - apply (bool_decide_unpack _). vm_compute. exact I.
  - vm_compute. reflexivity.
  - vm_compute. reflexivity.
  - reflexivity.
  - reflexivity.
  - vm_compute. reflexivity.
  - destruct H as [H _]; [|exact H].
    intros x Hx.
    repeat (apply elem_of_cons in Hx as [->|Hx];
            [split; [reflexivity | vm_compute; discriminate]|]).
    apply elem_of_nil in Hx. destruct Hx.
Defined.


(** ** The clean-up before the migration *)

(** Deleting a child of a directory takes it off the listing. *)
Lemma children_del_child f (d : path) (x : string) :
  children (fs_del f (d ++ [x])) d
  = filter (fun e => name e <> x) (children f d).
Proof.
  induction f as [|[r m] f IH]; cbn [fs_del]; [done|].
  destruct (decide (r = d ++ [x])) as [->|Hrp].
  - rewrite children_cons, IH.
    replace (dirent_in d (d ++ [x], m))
      with (Some (MkDirent x (is_dir_node m)))
      by (symmetry; by apply dirent_in_Some).
    rewrite filter_cons. simpl. by rewrite decide_False by (by intros ?).
  - rewrite !children_cons, IH.
    destruct (dirent_in d (r, m)) as [[y b]|] eqn:He; [|done].
    apply dirent_in_Some in He as [He _]. simpl in He.
    rewrite filter_cons. simpl. rewrite decide_True; [done|].
    intros ->. done.
Qed.

(** The loop of [cleanFailedSnapshots] leaves the listing of every other
    directory as it is. *)
Lemma unlink_loop_children (failed d : path) :
  d <> failed ->
  forall l w,
  children (fs (world (run (forOf l (clean_step failed)) w))) d
  = children (fs w) d.
Proof.
  intros Hd. induction l as [|x l IH]; intros w.
  - by rewrite run_forOf_nil.
  - rewrite run_forOf_cons, run_clean_step.
    destruct (isDirectory x); simpl; [apply IH|].
    unfold fs_unlinkSync.
    destruct (fs_get (fs w) (failed ++ [name x])) as [[t|]|]; simpl;
      try done.
    rewrite IH. simpl. apply children_del_other.
    intros y Hy. apply child_inj in Hy as [Hy _]. by destruct Hd.
Qed.

(** [mkdirSync] with [recursive] succeeds when no file is in the way. *)
Lemma mkdir_from_can todo : forall f dn,
  (forall i t, (0 < i <= length todo)%nat ->
               fs_get f (dn ++ take i todo) <> Some (File t)) ->
  exists f1, mkdir_from f dn todo = Ok f1.
Proof.
  induction todo as [|c todo IH]; intros f dn Hno; cbn [mkdir_from].
  - by eexists.
  - assert (Hc : forall t, fs_get f (dn ++ [c]) <> Some (File t)).
    { intros t. apply (Hno 1%nat t). simpl. lia. }
    destruct (fs_get f (dn ++ [c])) as [[t|]|] eqn:Hg.
    + by destruct (Hc t).
    + apply IH. intros i t Hi. rewrite <- app_assoc.
      apply (Hno (S i) t). simpl. lia.
    + apply IH. intros i t Hi. rewrite fs_get_put.
      destruct (decide _); [done|].
      rewrite <- app_assoc. apply (Hno (S i) t). simpl. lia.
Qed.

Lemma mkdir_from_no_file todo f dn f1 i t :
  mkdir_from f dn todo = Ok f1 -> (0 < i <= length todo)%nat ->
  fs_get f (dn ++ take i todo) <> Some (File t).
Proof.
  intros Hm Hi Hf.
  destruct (mkdir_from_spec _ _ _ _ Hm) as (_ & H2 & H3).
  specialize (H3 i Hi).
  destruct (H2 (dn ++ take i todo)) as [H|[H _]]; congruence.
Qed.

(** [cleanFailedSnapshots] on a [FailedSnapshots] of files, with the
    state the caller goes on in. *)
Lemma cleanFailedSnapshots_files (dir : path) (k : unit -> Prog unit) w l :
  let cur := dir ++ ["current_snapshots"] in
  let failed := cur ++ ["FailedSnapshots"] in
  NoDup (fs w).*1 ->
  fs_existsSync (fs w) cur = true ->
  fs_readdirSync (fs w) failed = Ok l ->
  (forall x, x ∈ l -> isDirectory x = false) ->
  exists w',
    run (cleanFailedSnapshots dir ≫= k) w = run (k tt) w'
    /\ quiet w w'
    /\ acts w' = acts w ++ unlinks failed l ++ [ActRmdir failed]
    /\ NoDup (fs w').*1
    /\ fs_get (fs w') failed = None
    /\ (forall q, q <> failed -> (forall x, q <> failed ++ [x]) ->
                  fs_get (fs w') q = fs_get (fs w) q)
    /\ children (fs w') cur
       = filter (fun e => name e <> "FailedSnapshots") (children (fs w) cur).
Proof.
  intros cur failed Hnd Hcur Hl Hfiles.
  destruct (clean_loop dir w l Hnd Hl)
    as (H1 & H2 & H3 & H4 & H5 & H6 & _ & H8 & H9).
  fold cur failed in H1, H2, H3, H4, H5, H6, H8, H9.
  assert (Hkeep := unlink_loop_children failed cur
                     (not_eq_sym (child_ne_self cur _)) l w).
  set (s := run (forOf l (clean_step failed)) w) in *.
  assert (Hempty : children (fs (world s)) failed = []).
  { destruct (children (fs (world s)) failed) as [|[x b] rest] eqn:Hch;
      [done|]. exfalso.
    assert (Hin : MkDirent x b ∈ children (fs (world s)) failed)
      by (rewrite Hch; apply elem_of_cons; by left).
    apply elem_of_children in Hin as (n & Hin & _).
    apply fs_elem_get in Hin; [|done].
    destruct (decide (x ∈ name <$> l)) as [Hx|Hx].
    - apply list_elem_of_fmap in Hx as (y & -> & Hy).
      rewrite H6 in Hin; [done | done | by apply Hfiles].
    - by rewrite H8 in Hin. }
  exists (did (set_fs (world s) (fs_del (fs (world s)) failed))
            (ActRmdir failed)).
  split_and!.
  - rewrite run_cleanFailedSnapshots. fold cur failed. rewrite Hcur.
    destruct (fs_readdirSync_Ok _ _ _ Hl) as [Hdir _].
    unfold fs_existsSync at 1. rewrite Hdir, Hl. cbv zeta. fold s.
    rewrite H1. unfold fs_rmdirSync. by rewrite H5, Hempty.
  - destruct H2. by split.
  - simpl. rewrite H3. by rewrite <- app_assoc.
  - simpl. by apply fs_del_NoDup.
  - simpl. by rewrite fs_get_del, decide_True.
  - intros q Hq Hq'. simpl. rewrite fs_get_del, decide_False by done.
    by apply H9.
  - simpl. unfold failed. by rewrite children_del_child, Hkeep.
Qed.

(** The first turn of the workflow of [processNodeForWrite], on its
    own. *)
Lemma processNodeForWrite_first_turn pkgVersion snapshotVersionOf stampOf
    data concurrently w d l text v f1 :
  heap w !! data = Some d ->
  let cur := folder d ++ ["current_snapshots"] in
  let vf := cur ++ ["snapshotVersion.json"] in
  let dst := folder d ++ ["src_snapshots"; v] in
  let w1 := did (set_fs w f1) (ActMkdir dst) in
  let s1 := run (forOf l (copy_step cur dst)) w1 in
  fs_get (fs w) cur = Some Dir ->
  fs_readFileSync (fs w) vf = Ok text ->
  snapshotVersionOf text = Version v ->
  fs_mkdirSync (fs w) dst = Ok f1 ->
  fs_readdirSync f1 cur = Ok l ->
  ctl s1 = Settled Fulfilled ->
  run (processNodeForWrite pkgVersion snapshotVersionOf stampOf data
         concurrently) w
  = MkSystem (world s1)
      (Ready (submit data concurrently (threads (world s1));;
              writeFileSync vf (stampOf pkgVersion))).
Proof.
  intros Hd cur vf dst w1 s1 Hcur Hr Hv Hm Hl Hok.
  assert (Hvf := fs_existsSync_Some _ _ _ (fs_readFileSync_Ok _ _ _ Hr)).
  unfold processNodeForWrite. simpl. rewrite Hd. simpl. fold cur.
  rewrite (fs_existsSync_Some _ _ _ Hcur). simpl.
  fold vf. rewrite Hvf. simpl. rewrite Hr. simpl. rewrite Hv. simpl.
  fold dst. rewrite Hm. simpl. fold w1. rewrite Hl.
  change (forOf l _) with (forOf l (copy_step cur dst)).
  rewrite run_bind. fold s1. by rewrite Hok.
Qed.


(** No path on the way to the archive of a version is [FailedSnapshots]
    or lies in it. *)
Lemma archive_off_failed (dir : path) (v : string) (i : nat) :
  let failed := (dir ++ ["current_snapshots"]) ++ ["FailedSnapshots"] in
  take i (dir ++ ["src_snapshots"; v]) <> failed
  /\ forall x, take i (dir ++ ["src_snapshots"; v]) <> failed ++ [x].
Proof.
  intros failed. split.
  - intros H. assert (Hlen := f_equal length H).
    unfold failed in Hlen. rewrite length_take, !length_app in Hlen.
    simpl in Hlen.
    rewrite take_ge in H by (rewrite length_app; simpl; lia).
    unfold failed in H. by simplify_list_eq.
  - intros x H. assert (Hlen := f_equal length H).
    unfold failed in Hlen. rewrite length_take, !length_app in Hlen.
    simpl in Hlen. lia.
Qed.

Lemma archive_entry_off_failed (dir : path) (v y : string) :
  let failed := (dir ++ ["current_snapshots"]) ++ ["FailedSnapshots"] in
  (dir ++ ["src_snapshots"; v]) ++ [y] <> failed
  /\ forall x, (dir ++ ["src_snapshots"; v]) ++ [y] <> failed ++ [x].
Proof.
  intros failed. split.
  - intros H. apply (f_equal length) in H. unfold failed in H.
    rewrite !length_app in H. simpl in H. lia.
  - intros x H. unfold failed in H. by simplify_list_eq.
Qed.

Lemma current_entry_off_failed (dir : path) (y : string) :
  let cur := dir ++ ["current_snapshots"] in
  let failed := cur ++ ["FailedSnapshots"] in
  y <> "FailedSnapshots" ->
  cur ++ [y] <> failed /\ forall x, cur ++ [y] <> failed ++ [x].
Proof.
  intros cur failed Hy. split.
  - intros H. apply child_inj in H as [_ H]. done.
  - intros x H. apply (f_equal length) in H. unfold failed, cur in H.
    rewrite !length_app in H. simpl in H. lia.
Qed.

Lemma current_off_failed (dir : path) :
  let cur := dir ++ ["current_snapshots"] in
  let failed := cur ++ ["FailedSnapshots"] in
  cur <> failed /\ forall x, cur <> failed ++ [x].
Proof.
  intros cur failed. split.
  - apply not_eq_sym, child_ne_self.
  - intros x H. apply (f_equal length) in H. unfold failed in H.
    rewrite !length_app in H. simpl in H. lia.
Qed.

Lemma run_processEntry_write fileLocation pkgVersion snapshotVersionOf
    stampOf concurrently node w :
  let dir := fileLocation ++ [name node] in
  isDirectory node = true ->
  fs_existsSync (fs w) (dir ++ ["messages.json"]) = true ->
  run (processEntry fileLocation pkgVersion snapshotVersionOf stampOf Write
         concurrently node) w
  = run (cleanFailedSnapshots dir
         ≫= (fun _ =>
               NewArgs (MkArgs dir Write 1000 None)
                 (fun data =>
                    processNodeForWrite pkgVersion snapshotVersionOf stampOf
                      data concurrently))) w.
Proof.
  intros dir Hdir Hex. unfold processEntry. rewrite Hdir.
  cbn [negb run bind existsSync mbind mret]. simpl.
  fold dir. rewrite Hex. reflexivity.
Qed.

(** A leftover [FailedSnapshots] stops the migration that is run without
    the clean-up. *)
Lemma leftover_stops_the_migration pkgVersion snapshotVersionOf stampOf
    data concurrently (k : unit -> Prog unit) w d l text v f1 :
  heap w !! data = Some d ->
  let cur := folder d ++ ["current_snapshots"] in
  let failed := cur ++ ["FailedSnapshots"] in
  let vf := cur ++ ["snapshotVersion.json"] in
  let dst := folder d ++ ["src_snapshots"; v] in
  NoDup (fs w).*1 ->
  fs_readdirSync (fs w) cur = Ok l ->
  fs_get (fs w) failed = Some Dir ->
  (forall x, x ∈ l -> isDirectory x = true -> name x = "FailedSnapshots") ->
  fs_readFileSync (fs w) vf = Ok text ->
  snapshotVersionOf text = Version v ->
  fs_mkdirSync (fs w) dst = Ok f1 ->
  (forall y, fs_get (fs w) (dst ++ [y]) <> Some Dir) ->
  ctl (run (processNodeForWrite pkgVersion snapshotVersionOf stampOf data
              concurrently ≫= k) w)
  = Settled (Rejected (AssertionError "")).
Proof.
  intros Hd cur failed vf dst Hnd Hl Hfailed Honly Hr Hv Hm Harch.
  rewrite (migration_run _ _ _ _ _ _ _ _ _ _ _ _ Hd Hl Hr Hv Hm).
  fold cur vf dst.
  destruct (fs_readdirSync_Ok _ _ _ Hl) as [Hcur Hch].
  assert (Hin : MkDirent "FailedSnapshots" true ∈ l).
  { rewrite Hch. apply elem_of_children. exists Dir. split; [|done].
    by apply fs_get_Some_elem. }
  apply list_elem_of_split in Hin as (pre & post & Hsplit).
  assert (Hnames : NoDup (name <$> l))
    by (rewrite Hch; by apply children_names_NoDup).
  assert (Hpre : forall x, x ∈ pre -> isDirectory x = false).
  { intros x Hx. destruct (isDirectory x) eqn:Hxd; [|done]. exfalso.
    assert (Hn : name x = "FailedSnapshots").
    { apply Honly; [|done]. rewrite Hsplit. apply elem_of_app. by left. }
    rewrite Hsplit, fmap_app, fmap_cons in Hnames.
    apply NoDup_app in Hnames as (_ & Hno & _).
    apply (Hno (name x)).
    - apply list_elem_of_fmap. by exists x.
    - rewrite Hn. apply elem_of_cons. by left. }
  assert (Hstop :
    ctl (run (forOf l (copy_step cur dst)) (did (set_fs w f1) (ActMkdir dst)))
    = Settled (Rejected (AssertionError ""))).
  { rewrite Hsplit. apply copy_loop_stops; try done.
    - apply current_ne_archive.
    - apply is_directory_Dir. simpl.
      destruct (fs_mkdirSync_spec (fs w) (folder d ++ ["src_snapshots"]) v f1)
        as (_ & Hdir & _).
      + by rewrite <- app_assoc.
      + unfold dst. by rewrite <- app_assoc in Hdir.
    - intros x Hx. split; [by apply Hpre|].
      destruct (children_file (fs w) cur x Hnd) as [t Ht].
      + rewrite <- Hch, Hsplit. apply elem_of_app. by left.
      + by apply Hpre.
      + exists t. apply (mkdir_from_keeps _ _ _ _ _ _ Hm Ht).
    - intros y. simpl. unfold dst.
      rewrite (archive_mkdir_keeps_entries _ _ _ _ _ Hm). apply Harch. }
  by rewrite Hstop.
Qed.

(** X15. In Write mode the clean-up of [processContent] is what lets
    the migration pass when a failed Stress run left its
    [FailedSnapshots] in [current_snapshots]. For a test case whose
    [FailedSnapshots] holds files only, whose [current_snapshots] has
    no other folder, and whose version [v] is one component of a path,
    the workflow of the entry deletes [FailedSnapshots],
    then archives every remaining entry of [current_snapshots], and goes
    on to submit the job of the folder: no assertion fails,
    [FailedSnapshots] is gone and nothing of that name is put in the
    archive.
    [processNodeForWrite] run on the same files without the clean-up is
    rejected with the assertion of its loop. *)
Theorem X15_cleanup_lets_the_migration_pass
    fileLocation pkgVersion snapshotVersionOf stampOf (concurrently : bool)
    (node : Dirent) (k : unit -> Prog unit) (w : World)
    (lf l : list Dirent) (text v : string) (f1 : FS) :
  let dir := fileLocation ++ [name node] in
  let cur := dir ++ ["current_snapshots"] in
  let failed := cur ++ ["FailedSnapshots"] in
  let vf := cur ++ ["snapshotVersion.json"] in
  let dst := dir ++ ["src_snapshots"; v] in
  let kept := filter (fun e => name e <> "FailedSnapshots") l in
  isDirectory node = true ->
  fs_existsSync (fs w) (dir ++ ["messages.json"]) = true ->
  NoDup (fs w).*1 ->
  fs_readdirSync (fs w) cur = Ok l ->
  fs_readdirSync (fs w) failed = Ok lf ->
  (forall x, x ∈ lf -> isDirectory x = false) ->
  (forall x, x ∈ l -> isDirectory x = true -> name x = "FailedSnapshots") ->
  fs_readFileSync (fs w) vf = Ok text ->
  snapshotVersionOf text = Version v ->
  path_component v = true ->
  fs_mkdirSync (fs w) dst = Ok f1 ->
  (forall y, fs_get (fs w) (dst ++ [y]) <> Some Dir) ->
  (exists w',
     run (processEntry fileLocation pkgVersion snapshotVersionOf stampOf
            Write concurrently node ≫= k) w
     = MkSystem w'
         (Ready ((submit (length (heap w)) concurrently (threads w);;
                  writeFileSync vf (stampOf pkgVersion)) ≫= k))
     /\ heap w' = heap w ++ [MkArgs dir Write 1000 None]
     /\ jobs w' = jobs w
     /\ limiter w' = limiter w
     /\ acts w' = acts w ++ unlinks failed lf ++ [ActRmdir failed]
                  ++ ActMkdir dst :: copies cur dst kept
     /\ fs_get (fs w') failed = None
     /\ fs_get (fs w') (dst ++ ["FailedSnapshots"])
        = fs_get (fs w) (dst ++ ["FailedSnapshots"]))
  /\ (forall data d k0,
        heap w !! data = Some d -> folder d = dir ->
        ctl (run (processNodeForWrite pkgVersion snapshotVersionOf stampOf
                    data concurrently ≫= k0) w)
        = Settled (Rejected (AssertionError ""))).
Proof.
  intros dir cur failed vf dst kept Hdir Hex Hnd Hl Hlf Hfiles Honly Hr Hv
    _ Hm Harch.
  destruct (fs_readdirSync_Ok _ _ _ Hl) as [Hcur Hch].
  destruct (fs_readdirSync_Ok _ _ _ Hlf) as [Hfailed _].
  split.
  2:{ intros data d k0 Hd Hfolder.
      apply (leftover_stops_the_migration _ _ _ _ _ _ _ _ l text v f1 Hd);
        rewrite ?Hfolder; done. }
  set (args := MkArgs dir Write 1000 None).
  set (kk := fun _ : unit =>
               NewArgs args
                 (fun data =>
                    processNodeForWrite pkgVersion snapshotVersionOf stampOf
                      data concurrently)).
  destruct (cleanFailedSnapshots_files dir kk w lf Hnd
              (fs_existsSync_Some _ _ _ Hcur) Hlf Hfiles)
    as (w2 & Hrun2 & Hq2 & Hacts2 & Hnd2 & Hgone & Hsame & Hch2).
  fold cur failed in Hrun2, Hacts2, Hgone, Hsame, Hch2.
  rewrite <- Hch in Hch2. fold kept in Hch2.
  destruct Hq2 as [Hheap2 Hlim2 Hdef2 Hjobs2 Hall2 Hcon2 Hth2].
  (* the files the migration needs are as they were *)
  assert (Hcur2 : fs_get (fs w2) cur = Some Dir).
  { rewrite Hsame; [done | apply current_off_failed..]. }
  assert (Hr2 : fs_readFileSync (fs w2) vf = Ok text).
  { unfold fs_readFileSync. rewrite Hsame; [exact Hr | |];
      by apply current_entry_off_failed. }
  destruct (mkdir_from_can dst (fs w2) []) as [f1' Hm2].
  { intros i t Hi. simpl. rewrite Hsame; [|apply archive_off_failed..].
    apply (mkdir_from_no_file _ _ [] _ _ _ Hm Hi). }
  change (fs_mkdirSync (fs w2) dst = Ok f1') in Hm2.
  set (w3 := set_heap w2 (heap w2 ++ [args])).
  assert (Hd3 : heap w3 !! length (heap w2) = Some args)
    by (by apply list_lookup_middle).
  assert (Hl2 : fs_readdirSync f1' cur = Ok kept).
  { unfold fs_readdirSync.
    rewrite (mkdir_from_keeps _ _ _ _ _ _ Hm2 Hcur2).
    unfold cur. rewrite (archive_mkdir_keeps_current _ _ _ _ Hm2).
    fold cur. by rewrite Hch2. }
  set (w4 := did (set_fs w3 f1') (ActMkdir dst)).
  set (s1 := run (forOf kept (copy_step cur dst)) w4).
  assert (Hdst : fs_get f1' dst = Some Dir).
  { destruct (fs_mkdirSync_spec (fs w2) (dir ++ ["src_snapshots"]) v f1')
      as (_ & Hd & _).
    - by rewrite <- app_assoc.
    - unfold dst. by rewrite <- app_assoc in Hd. }
  assert (Hok : ctl s1 = Settled Fulfilled).
  { apply copy_loop_succeeds.
    - apply current_ne_archive.
    - by apply is_directory_Dir.
    - intros x Hx. apply list_elem_of_filter in Hx as [Hname Hx].
      assert (Hxf : isDirectory x = false).
      { destruct (isDirectory x) eqn:Hxd; [|done].
        by destruct Hname; apply Honly. }
      split_and!; [done| |].
      + destruct (children_file (fs w) cur x Hnd) as [t Ht]; try done.
        * by rewrite <- Hch.
        * exists t. simpl. apply (mkdir_from_keeps _ _ _ _ _ _ Hm2).
          rewrite Hsame; [done | |]; by apply current_entry_off_failed.
      + simpl. unfold dst.
        rewrite (archive_mkdir_keeps_entries _ _ _ _ _ Hm2).
        rewrite Hsame; [apply Harch | apply archive_entry_off_failed..]. }
  destruct (copy_loop_spec cur dst kept w4)
    as (Hq & _ & _ & done & _ & Hacts & _ & Hother & _ & Hctl).
  fold s1 in Hq, Hacts, Hother, Hctl. rewrite Hok in Hctl. subst done.
  destruct Hq as [Hheap Hlim Hdef Hjobs Hall Hcon Hth].
  exists (world s1). split_and!.
  - rewrite run_bind, run_processEntry_write by done.
    fold dir args kk. rewrite Hrun2.
    change (run (kk tt) w2)
      with (run (processNodeForWrite pkgVersion snapshotVersionOf stampOf
                   (length (heap w2)) concurrently) w3).
    rewrite (processNodeForWrite_first_turn _ _ _ _ _ _ _ kept text v f1'
               Hd3); try done.
    change (folder args) with dir. fold cur vf dst w4 s1. cbn [ctl world].
    rewrite Hth. cbn [threads did set_fs set_heap w4 w3].
    by rewrite Hheap2, Hth2.
  - rewrite Hheap. simpl. by rewrite Hheap2.
  - rewrite Hjobs. simpl. done.
  - rewrite Hlim. simpl. done.
  - rewrite Hacts. simpl. rewrite Hacts2. by rewrite <- !app_assoc.
  - rewrite Hother.
    + simpl. destruct (mkdir_from_spec _ _ _ _ Hm2) as (_ & H2 & _).
      destruct (H2 failed) as [<-|(_ & _ & i & _ & Hi)]; [done|].
      symmetry in Hi. by apply (archive_off_failed dir v i) in Hi.
    + intros y _ H. symmetry in H.
      by apply (archive_entry_off_failed dir v (name y)) in H.
  - rewrite Hother.
    + simpl. unfold dst.
      rewrite (archive_mkdir_keeps_entries _ _ _ _ _ Hm2).
      apply Hsame; apply archive_entry_off_failed.
    + intros y Hy H. apply list_elem_of_filter in Hy as [Hy _].
      apply child_inj in H as [_ H]. by destruct Hy.
Qed.

Lemma X15_witness :
  (exists w',
     run (processEntry ex_root "1.0.0" ex_versionOf ex_stampOf Write true
            (MkDirent "a" true) ≫= (fun _ => limiter_waitAll))
         (ex_world ex_stress_leftover)
     = MkSystem w'
         (Ready ((submit 1%nat true true;;
                  writeFileSync
                    (((ex_root ++ ["a"]) ++ ["current_snapshots"])
                       ++ ["snapshotVersion.json"])
                    (ex_stampOf "1.0.0")) ≫= (fun _ => limiter_waitAll))))
  /\ ctl (run (processNodeForWrite "1.0.0" ex_versionOf ex_stampOf 0%nat
                 true ≫= (fun _ => Ret tt)) (ex_world ex_stress_leftover))
     = Settled (Rejected (AssertionError "")).
Proof.
  destruct (X15_cleanup_lets_the_migration_pass ex_root "1.0.0"
              ex_versionOf ex_stampOf true (MkDirent "a" true)
              (fun _ => limiter_waitAll) (ex_world ex_stress_leftover)
              [MkDirent "s1.json" false; MkDirent "s2.json" false]
              [MkDirent "FailedSnapshots" true;
               MkDirent "snapshotVersion.json" false;
               MkDirent "snapshot_1000.json" false]
              "0.9.0" "0.9.0"
              (ex_stress_leftover
               ++ [(ex_root ++ ["a"; "src_snapshots"], Dir);
                   (ex_root ++ ["a"; "src_snapshots"; "0.9.0"], Dir)]))
    as [(w' & Hrun & _) Hstop].
  - reflexivity.
  - vm_compute. reflexivity.
  - apply (bool_decide_unpack _). vm_compute. exact I.
  - vm_compute. reflexivity.
  - vm_compute. reflexivity.
  - intros x Hx.
    repeat (apply elem_of_cons in Hx as [->|Hx]; [reflexivity|]).
    apply elem_of_nil in Hx. destruct Hx.
  - intros x Hx.
    repeat (apply elem_of_cons in Hx as [->|Hx];
            [first [discriminate | reflexivity]|]).
    apply elem_of_nil in Hx. destruct Hx.
  - vm_compute. reflexivity.
  - reflexivity.
  - reflexivity.
  - vm_compute. reflexivity.
  - intros y. unfold fs_get.
    apply (bool_decide_unpack _). vm_compute. exact I.
  - split.
    + exists w'. exact Hrun.
    + apply (Hstop 0%nat (ex_args "a")); reflexivity.
Defined.


(** ** Runs in line are sequential *)

Lemma run_sequential C th (p : Prog unit) : forall w,
  no_addWork th p ->
  inline_inv C th (MkSystem w (Ready p)) ->
  Forall passed (jobs w) ->
  sequential (run p w).
Proof.
  unfold inline_inv, sequential.
  induction p as [a|e|q k IH|q k IH|q k IH|q k IH|src dst k IH|q t k IH|q k IH
                 |q k IH|msg k IH|a k IH|r k IH|r d k IH|k IH|r k IH|r k IH
                 |k IH];
    intros w Hp (Hl & Hd & Ht & Hj & Ha & _) Hpass;
    cbn [run world ctl fail] in *; simpl in Hp.
  - done.
  - exists (jobs w), []. rewrite app_nil_r. auto.
  - by apply IH.
  - destruct (fs_readdirSync _ _); [by apply IH|].
    exists (jobs w), []. rewrite app_nil_r. auto.
  - destruct (fs_readFileSync _ _); [by apply IH|].
    exists (jobs w), []. rewrite app_nil_r. auto.
  - destruct (fs_mkdirSync _ _); [by apply IH|].
    exists (jobs w), []. rewrite app_nil_r. auto.
  - destruct (fs_copyFileSync _ _ _); [by apply IH|].
    exists (jobs w), []. rewrite app_nil_r. auto.
  - destruct (fs_writeFileSync _ _ _); [by apply IH|].
    exists (jobs w), []. rewrite app_nil_r. auto.
  - destruct (fs_unlinkSync _ _); [by apply IH|].
    exists (jobs w), []. rewrite app_nil_r. auto.
  - destruct (fs_rmdirSync _ _); [by apply IH|].
    exists (jobs w), []. rewrite app_nil_r. auto.
  - by apply IH.
  - by apply IH.
  - destruct (heap w !! r); [by apply IH|].
    exists (jobs w), []. rewrite app_nil_r. auto.
  - destruct (heap w !! r); [by apply IH|].
    exists (jobs w), []. rewrite app_nil_r. auto.
  - done.
  - done.
  - destruct (heap w !! r) as [a|]; simpl.
    + exists (jobs w), a. auto.
    + exists (jobs w), []. rewrite app_nil_r. auto.
  - unfold waitAll. rewrite Hl. simpl. apply IH; [done| |done]. simpl.
    split_and!; auto.
Qed.

Lemma step_sequential C th s ev s' :
  inline_inv C th s -> sequential s -> step s ev = Some s' -> sequential s'.
Proof.
  intros Hinv Hseq.
  assert (Hinv' := Hinv). destruct Hinv' as (Hl & Hd & Ht & Hj & Ha & Hc).
  destruct ev as [|j ev|j res]; simpl.
  - unfold sequential in Hseq.
    destruct (ctl s) as [p|d r k|j k|k|r] eqn:Hctl; try done.
    intros [= <-]. apply (run_sequential C th); [done| |done].
    unfold inline_inv. simpl. by split_and!.
  - destruct (jobs (world s) !! j) as [job|] eqn:Hjob; [|done].
    rewrite Forall_lookup in Hj. by rewrite (Hj j job Hjob).
  - unfold sequential in Hseq.
    destruct (ctl s) as [p|d r k|j' k|k|r] eqn:Hctl; try done.
    destruct (jobs (world s) !! j) as [job|] eqn:Hjob; [|done].
    destruct (decide (j = j')) as [->|]; [|done].
    destruct (inline job); [|done].
    intros [= <-].
    destruct Hseq as (done & a & Hjobs & -> & Hdone).
    rewrite Hjobs in Hjob. rewrite list_lookup_middle in Hjob by done.
    injection Hjob as <-.
    unfold engine_reports, sequential, set_job. simpl workerData.
    rewrite Hjobs.
    replace (<[length done:=_]> (done ++ [_]))
      with (done ++ [MkJob a true (processOneFile res) (processOneFile res)]).
    2:{ rewrite insert_app_r_alt by done. by rewrite Nat.sub_diag. }
    destruct (processOneFile res) as [| |e] eqn:Hres; simpl.
    + by destruct (processOneFile_settles res).
    + apply Forall_app. split; [done|]. by repeat constructor.
    + exists done, [MkJob a true (Rejected e) (Rejected e)].
      split_and!; eauto.
Qed.

Lemma exec_sequential C th evs : forall s s',
  inline_inv C th s -> sequential s -> exec s evs = Some s' -> sequential s'.
Proof.
  induction evs as [|ev evs IH]; intros s s' Hs Hq; simpl.
  - by intros [= <-].
  - destruct (step s ev) as [s1|] eqn:Hstep; [|done].
    apply IH.
    + by apply (step_inline_inv C th s ev).
    + by apply (step_sequential C th s ev).
Qed.

Lemma sequential_shape s :
  sequential s ->
  exists done rest,
    jobs (world s) = done ++ rest /\ Forall passed done
    /\ ((rest = [] /\ forall j k, ctl s <> AwaitInline j k)
        \/ (exists a k, rest = [MkJob a true Pending Pending]
                        /\ ctl s = AwaitInline (length done) k)
        \/ (exists a e, rest = [MkJob a true (Rejected e) (Rejected e)]
                        /\ ctl s = Settled (Rejected e))).
Proof.
  unfold sequential. destruct (ctl s) as [p|d r k|j k|k|[| |e]] eqn:Hctl.
  - intros H. exists (jobs (world s)), []. rewrite app_nil_r. auto.
  - intros H. exists (jobs (world s)), []. rewrite app_nil_r. auto.
  - intros (done & a & Hjobs & -> & Hdone). exists done, [MkJob a true Pending Pending].
    split_and!; [done..|]. right. left. eauto.
  - intros H. exists (jobs (world s)), []. rewrite app_nil_r. auto.
  - intros H. exists (jobs (world s)), []. rewrite app_nil_r. auto.
  - intros H. exists (jobs (world s)), []. rewrite app_nil_r. auto.
  - intros (done & rest & Hjobs & Hdone & [->|[a ->]]).
    + exists done, []. auto.
    + exists done, [MkJob a true (Rejected e) (Rejected e)].
      split_and!; [done..|]. right. right. eauto.
Qed.

(** X16. A run of [processContent] that is not concurrent, or has no
    [worker_threads] module, replays its test cases one at a time, in the
    order they are started. At every moment every job but the last has
    succeeded; a job that has not settled is the last one, and the
    dispatcher waits for it and for nothing else, so that its replay can
    end; and a job that has failed is the last one too: the run is
    rejected with its error. *)
Theorem X16_inline_jobs_run_one_at_a_time
    fileLocation pkgVersion snapshotVersionOf stampOf (m : Mode)
    (concurrently : bool) (f : FS) (th : bool) (evs : list Event)
    (s : System) :
  negb concurrently || negb th = true ->
  exec (start numberOfThreads f th
          (processContent fileLocation pkgVersion snapshotVersionOf stampOf
             m concurrently)) evs = Some s ->
  (forall i j a b,
     (i < j)%nat -> jobs (world s) !! i = Some a ->
     jobs (world s) !! j = Some b -> settled a = Fulfilled)
  /\ (forall j job,
        jobs (world s) !! j = Some job -> settled job = Pending ->
        S j = length (jobs (world s)) /\ exists k, ctl s = AwaitInline j k)
  /\ (forall j k,
        ctl s = AwaitInline j k ->
        (exists job, jobs (world s) !! j = Some job /\ settled job = Pending)
        /\ forall res, step s (Engine j res) <> None)
  /\ (forall j job e,
        jobs (world s) !! j = Some job -> settled job = Rejected e ->
        S j = length (jobs (world s)) /\ ctl s = Settled (Rejected e)).
Proof.
  intros Hin Hex.
  assert (Hstart : inline_inv numberOfThreads th
                     (start numberOfThreads f th
                        (processContent fileLocation pkgVersion
                           snapshotVersionOf stampOf m concurrently))).
  { unfold inline_inv. simpl. split_and!; auto.
    by apply no_addWork_processContent. }
  assert (Hseq : sequential s).
  { eapply exec_sequential; [exact Hstart| |exact Hex].
    unfold sequential. simpl. constructor. }
  apply sequential_shape in Hseq
    as (done & rest & Hjobs & Hdone & Hrest).
  rewrite Forall_lookup in Hdone.
  assert (Hlen : (length rest <= 1)%nat).
  { destruct Hrest as [[-> _]|[(a & k & -> & _)|(a & e & -> & _)]];
      simpl; lia. }
  assert (Hold : forall j job,
            jobs (world s) !! j = Some job -> (j < length done)%nat ->
            settled job = Fulfilled).
  { intros j job Hj Hlt. rewrite Hjobs, lookup_app_l in Hj by done.
    by destruct (Hdone j job Hj) as (_ & ? & _). }
  assert (Hlast : forall j job,
            jobs (world s) !! j = Some job -> settled job <> Fulfilled ->
            j = length done /\ rest = [job]).
  { intros j job Hj Hne.
    destruct (decide (j < length done)%nat) as [Hlt|Hge];
      [by destruct Hne; apply (Hold j)|].
    rewrite Hjobs, lookup_app_r in Hj by lia.
    destruct rest as [|x [|y rest]]; simpl in Hlen; try lia; [done|].
    destruct (j - length done)%nat as [|n] eqn:Hn; [|done].
    simpl in Hj. injection Hj as ->. split; [lia | done]. }
  split_and!.
  - intros i j a b Hij Ha Hb. apply (Hold i a Ha).
    apply lookup_lt_Some in Hb. rewrite Hjobs, length_app in Hb. lia.
  - intros j job Hj Hp.
    destruct (Hlast j job Hj) as [-> Hr]; [congruence|].
    rewrite Hjobs, length_app, Hr. simpl. split; [lia|].
    destruct Hrest as [[-> _]|[(a & k & _ & Hk)|(a & e & Heq & _)]].
    + done.
    + eauto.
    + rewrite Hr in Heq. injection Heq as ->. done.
  - intros j k Hk.
    destruct Hrest as [[_ Hno]|[(a & k' & -> & Hk')|(a & e & _ & He)]].
    + by destruct (Hno j k).
    + rewrite Hk in Hk'. injection Hk' as -> ->.
      assert (Hj : jobs (world s) !! length done
                   = Some (MkJob a true Pending Pending))
        by (rewrite Hjobs; by apply list_lookup_middle).
      split; [eauto|].
      intros res. simpl. rewrite Hk, Hj. rewrite decide_True by done. done.
    + congruence.
  - intros j job e Hj He.
    destruct (Hlast j job Hj) as [-> Hr]; [congruence|].
    rewrite Hjobs, length_app, Hr. simpl. split; [lia|].
    destruct Hrest as [[-> _]|[(a & k & Heq & _)|(a & e' & Heq & Hc)]].
    + done.
    + rewrite Hr in Heq. injection Heq as ->. done.
    + rewrite Hr in Heq. injection Heq as ->. simpl in He.
      by injection He as ->.
Qed.

Lemma X16_witness :
  (exists k, ctl ex_second_in_line = AwaitInline 1 k)
  /\ forall a, jobs (world ex_second_in_line) !! 0%nat = Some a ->
               settled a = Fulfilled.
Proof.
  assert (Hex : exec (start numberOfThreads (ex_corpus ["a"; "b"]) true
                        (processContent ex_root "1.0.0" ex_versionOf
                           ex_stampOf Compare false))
                  [Tick; Tick; Engine 0 (Returns []); Tick; Tick]
                = Some ex_second_in_line)
    by (vm_compute; reflexivity).
  destruct (X16_inline_jobs_run_one_at_a_time ex_root "1.0.0" ex_versionOf
              ex_stampOf Compare false (ex_corpus ["a"; "b"]) true
              [Tick; Tick; Engine 0 (Returns []); Tick; Tick]
              ex_second_in_line eq_refl Hex) as (H1 & H2 & _).
  split.
  - destruct (H2 1%nat
                (MkJob (MkArgs (ex_root ++ ["b"]) Compare 1000 None) true
                   Pending Pending)) as [_ Hk].
    + vm_compute. reflexivity.
    + reflexivity.
    + exact Hk.
  - intros a Ha.
    apply (H1 0%nat 1%nat a
             (MkJob (MkArgs (ex_root ++ ["b"]) Compare 1000 None) true
                Pending Pending)); [lia | exact Ha |].
    vm_compute. reflexivity.
Defined.


(** ** What the dispatcher does to the files *)

Lemma writes_bind {A B : Type} P (p : Prog A) (k : A -> Prog B) :
  writes P p -> (forall a, writes P (k a)) -> writes P (bind p k).
Proof.
  induction p; simpl; intros Hp Hk; auto; destruct Hp; split; auto.
Qed.

Lemma writes_forOf {X : Type} P (l : list X) (body : X -> Prog unit) :
  (forall x, writes P (body x)) -> writes P (forOf l body).
Proof.
  intros Hb. induction l as [|x l IH]; [done|]. simpl.
  apply writes_bind; auto.
Qed.

Lemma writes_processNode P data conc : writes P (processNode data conc).
Proof. unfold processNode. simpl. intros th. by destruct (_ || _). Qed.

Lemma writes_processNodeForValidate P data conc :
  writes P (processNodeForValidate data conc).
Proof.
  unfold processNodeForValidate. simpl. intros d x.
  destruct (negb x); [done|]. simpl. intros l.
  apply writes_forOf. intros n. destruct (negb (isDirectory n)); [done|].
  simpl. intros t. by destruct (_ || _).
Qed.

Lemma writes_cleanFailedSnapshots fileLocation (n : string) :
  writes (cleans fileLocation) (cleanFailedSnapshots (fileLocation ++ [n])).
Proof.
  unfold cleanFailedSnapshots. simpl. intros x. destruct (negb x); [done|].
  simpl. intros y. destruct (negb y); [done|]. simpl. intros l.
  apply writes_bind.
  - apply writes_forOf. intros e. destruct (isDirectory e); [done|].
    simpl. split; [|done]. exists n, (name e). by rewrite <- !app_assoc.
  - intros _. simpl. split; [|done]. exists n. by rewrite <- !app_assoc.
Qed.

Lemma writes_processContent fileLocation pv sv st m conc :
  m <> Write ->
  writes (cleans fileLocation) (processContent fileLocation pv sv st m conc).
Proof.
  intros Hm. unfold processContent.
  apply writes_bind; [done|]. intros l.
  apply writes_bind; [|done]. apply writes_forOf. intros node.
  unfold processEntry. destruct (negb (isDirectory node)); [done|].
  apply writes_bind; [done|]. intros ex. destruct (negb ex); [done|].
  apply writes_bind; [apply writes_cleanFailedSnapshots|]. intros _.
  apply writes_bind; [done|].
  intros data. destruct m.
  - done.
  - apply writes_processNode.
  - apply writes_processNode.
  - apply writes_processNodeForValidate.
Qed.

Section WritesInv.
Variable P : Action -> Prop.
Hypothesis Hstart : forall j, P (ActStart j).
Hypothesis Hsettle : forall j b, P (ActSettle j b).

Lemma run_writes_inv (p : Prog unit) : forall w,
  writes P p -> Forall P (acts w) -> writes_inv P (run p w).
Proof.
  unfold writes_inv.
  assert (Hdid : forall w a, Forall P (acts w) -> P a ->
                             Forall P (acts w ++ [a])).
  { intros w a Hw Ha. apply Forall_app. split; [done|]. by constructor. }
  induction p as [a|e|q k IH|q k IH|q k IH|q k IH|src dst k IH|q t k IH|q k IH
                 |q k IH|msg k IH|a k IH|r k IH|r d k IH|k IH|r k IH|r k IH
                 |k IH];
    intros w Hp Ha; cbn [run]; simpl in Hp.
  - done.
  - done.
  - by apply IH.
  - destruct (fs_readdirSync _ _); [by apply IH | done].
  - destruct (fs_readFileSync _ _); [by apply IH | done].
  - destruct Hp. destruct (fs_mkdirSync _ _); [|done].
    apply IH; [done|]. by apply Hdid.
  - destruct Hp. destruct (fs_copyFileSync _ _ _); [|done].
    apply IH; [done|]. by apply Hdid.
  - destruct Hp. destruct (fs_writeFileSync _ _ _); [|done].
    apply IH; [done|]. by apply Hdid.
  - destruct Hp. destruct (fs_unlinkSync _ _); [|done].
    apply IH; [done|]. by apply Hdid.
  - destruct Hp. destruct (fs_rmdirSync _ _); [|done].
    apply IH; [done|]. by apply Hdid.
  - by apply IH.
  - by apply IH.
  - destruct (heap w !! r); [by apply IH | done].
  - destruct (heap w !! r); [by apply IH | done].
  - simpl. auto.
  - assert (Hc := addWork_cases w r).
    destruct (addWork w r) as [w'|w' dd|w' e].
    + destruct Hc as (a & l & _ & ->). apply IH; [done|]. simpl.
      by apply Hdid.
    + destruct Hc as [_ Hacts]. simpl. by rewrite Hacts.
    + destruct Hc as [_ Hacts]. simpl. by rewrite Hacts.
  - destruct (heap w !! r) as [a|]; [|done]. simpl. split; [|done].
    by apply Hdid.
  - unfold waitAll. simpl.
    destruct (promise_all _); [done | by apply IH | done].
Qed.

Lemma step_writes_inv s ev s' :
  writes_inv P s -> step s ev = Some s' -> writes_inv P s'.
Proof.
  intros (Ha & Hc). destruct ev as [|j ev|j res]; simpl.
  - destruct (ctl s) as [p|d r k|j k|k|r]; try done.
    + intros [= <-]. by apply run_writes_inv.
    + destruct (resolved _ _); [|done].
      assert (Hcase := addWork_resume_cases (world s) r).
      destruct (addWork_resume (world s) r) as [w'|w' dd|w' e]; [|done|].
      * intros [= <-]. destruct Hcase as (a & l & _ & ->).
        apply run_writes_inv; [done|]. simpl.
        apply Forall_app. split; [done|]. by constructor.
      * intros [= <-]. subst w'. by split.
  - destruct (jobs (world s) !! j) as [job|] eqn:Hjob; [|done].
    destruct (inline job); [done|]. intros [= <-].
    destruct (worker_reports_world s j job ev Hjob) as [Hsame Hrep].
    destruct (decide (settled job = Pending)) as [Hp|Hnp].
    2:{ rewrite (Hsame Hnp). by split. }
    destruct (Hrep Hp) as (r & p & _ & _ & _ & _ & _ & Hacts & Hctl).
    unfold writes_inv. rewrite Hacts, Hctl. split.
    + apply Forall_app. split; [done|]. by constructor.
    + destruct (ctl s) as [q|d r' k|j' k|k|r']; simpl in *; try done.
      by repeat case_match.
  - destruct (ctl s) as [p|d r k|j' k|k|r]; try done.
    destruct (jobs (world s) !! j) as [job|] eqn:Hjob; [|done].
    destruct (decide (j = j')); [|done]. destruct (inline job); [|done].
    intros [= <-]. unfold engine_reports, writes_inv.
    destruct (processOneFile res); simpl; split; try done;
      apply Forall_app; (split; [done|]); by constructor.
Qed.

Lemma exec_writes_inv evs : forall s s',
  writes_inv P s -> exec s evs = Some s' -> writes_inv P s'.
Proof.
  induction evs as [|ev evs IH]; intros s s' Hs; simpl.
  - by intros [= <-].
  - destruct (step s ev) as [s1|] eqn:Hstep; [|done].
    apply IH. by apply (step_writes_inv s ev).
Qed.

End WritesInv.

(** X10. Outside Write mode the dispatcher itself changes no file of
    the corpus but what a failed Stress run left behind. In a run of
    [processContent] in Compare, Stress or Validate mode, whatever the
    jobs report, every call of the dispatcher that changes files is the
    [unlinkSync] of an entry of the [FailedSnapshots] of a test case, or
    the [rmdirSync] of that folder: it makes no folder, copies no file and
    writes none. What the replay tool of a job writes is not a call of
    the dispatcher, and nothing is said of it here. *)
Theorem X10_only_write_mode_writes
    fileLocation pkgVersion snapshotVersionOf stampOf (m : Mode)
    (concurrently : bool) (f : FS) (th : bool) (evs : list Event)
    (s : System) :
  m <> Write ->
  exec (start numberOfThreads f th
          (processContent fileLocation pkgVersion snapshotVersionOf stampOf
             m concurrently)) evs = Some s ->
  Forall (cleans fileLocation) (acts (world s)).
Proof.
  intros Hm Hex.
  assert (Hinv : writes_inv (cleans fileLocation) s).
  { eapply exec_writes_inv; [done | done | | exact Hex].
    split; simpl; [constructor|]. by apply writes_processContent. }
  by destruct Hinv.
Qed.

Lemma X10_witness :
  Forall (cleans ex_root) (acts (world ex_compare_after_stress))
  /\ ActRmdir (ex_root ++ ["a"; "current_snapshots"; "FailedSnapshots"])
     ∈ acts (world ex_compare_after_stress).
Proof.
  assert (Hex : exec (start numberOfThreads ex_stress_leftover true
                        (processContent ex_root "1.0.0" ex_versionOf
                           ex_stampOf Compare true))
                  [Tick; Tick; Worker 0 (OnExit 0); Tick]
                = Some ex_compare_after_stress)
    by (vm_compute; reflexivity).
  split.
  - apply (X10_only_write_mode_writes ex_root "1.0.0" ex_versionOf
             ex_stampOf Compare true ex_stress_leftover true
             [Tick; Tick; Worker 0 (OnExit 0); Tick]
             ex_compare_after_stress); [discriminate | exact Hex].
  - apply (bool_decide_unpack _). vm_compute. exact I.
Defined.


(** ** Runs in line come to an end *)

Lemma engine_success_step (w : World) (j : nat) (k : Prog unit) a :
  jobs w !! j = Some (MkJob a true Pending Pending) ->
  step (MkSystem w (AwaitInline j k)) (Engine j (Returns []))
  = Some (MkSystem
            (did (set_job w j (MkJob a true Fulfilled Fulfilled))
                 (ActSettle j true))
            (Ready k)).
Proof.
  intros Hj. simpl. rewrite Hj. by rewrite decide_True by done.
Qed.

Lemma finish_inline th (p : Prog unit) : forall w,
  no_addWork th p ->
  promises (limiter w) = [] -> threads w = th ->
  exists evs s',
    replays_succeed evs /\ exec (run p w) evs = Some s'
    /\ exists r, ctl s' = Settled r.
Proof.
  assert (Hstop : forall w e,
            exists evs s',
              replays_succeed evs /\ exec (fail w e) evs = Some s'
              /\ exists r, ctl s' = Settled r).
  { intros w e. exists [], (fail w e). split; [constructor|].
    split; [done|]. by eexists. }
  induction p as [a|e|q k IH|q k IH|q k IH|q k IH|src dst k IH|q t k IH|q k IH
                 |q k IH|msg k IH|a k IH|r k IH|r d k IH|k IH|r k IH|r k IH
                 |k IH];
    intros w Hp Hl Ht; cbn [run] in *; simpl in Hp.
  - exists [], (MkSystem w (Settled Fulfilled)). split; [constructor|].
    split; [done|]. by eexists.
  - apply Hstop.
  - by apply IH.
  - destruct (fs_readdirSync _ _); [by apply IH | apply Hstop].
  - destruct (fs_readFileSync _ _); [by apply IH | apply Hstop].
  - destruct (fs_mkdirSync _ _); [by apply IH | apply Hstop].
  - destruct (fs_copyFileSync _ _ _); [by apply IH | apply Hstop].
  - destruct (fs_writeFileSync _ _ _); [by apply IH | apply Hstop].
  - destruct (fs_unlinkSync _ _); [by apply IH | apply Hstop].
  - destruct (fs_rmdirSync _ _); [by apply IH | apply Hstop].
  - by apply IH.
  - by apply IH.
  - destruct (heap w !! r); [by apply IH | apply Hstop].
  - destruct (heap w !! r); [by apply IH | apply Hstop].
  - destruct (IH th w) as (evs & s' & Hev & Hex & Hr); [done..|].
    exists (Tick :: evs), s'. split; [by constructor|]. split; [|done].
    cbn [exec step ctl world]. by rewrite Ht.
  - done.
  - destruct (heap w !! r) as [a|]; [|apply Hstop].
    set (j := length (jobs w)).
    set (w1 := did (set_jobs w (jobs w ++ [MkJob a true Pending Pending]))
                   (ActStart j)).
    set (w2 := did (set_job w1 j (MkJob a true Fulfilled Fulfilled))
                   (ActSettle j true)).
    destruct (IH w2) as (evs & s' & Hev & Hex & Hr); [done..|].
    exists (Engine j (Returns []) :: Tick :: evs), s'.
    split; [by repeat constructor|]. split; [|done].
    cbn [exec]. rewrite (engine_success_step w1 j k a).
    + done.
    + unfold w1, j. simpl. by apply list_lookup_middle.
  - unfold waitAll. rewrite Hl. simpl. by apply IH.
Qed.

(** X17. A run of [processContent] in line cannot get stuck. From
    every state it can reach, the run comes to its end when the replays
    that are still to be made succeed: the dispatcher and the replay
    engine take turns, no worker is involved, and after finitely many
    steps the promise of [processContent] has settled. *)
Theorem X17_inline_runs_come_to_an_end
    fileLocation pkgVersion snapshotVersionOf stampOf (m : Mode)
    (concurrently : bool) (f : FS) (th : bool) (evs : list Event)
    (s : System) :
  negb concurrently || negb th = true ->
  exec (start numberOfThreads f th
          (processContent fileLocation pkgVersion snapshotVersionOf stampOf
             m concurrently)) evs = Some s ->
  exists evs' s',
    replays_succeed evs' /\ exec s evs' = Some s'
    /\ exists r, ctl s' = Settled r.
Proof.
  intros Hin Hex.
  assert (Hstart : inline_inv numberOfThreads th
                     (start numberOfThreads f th
                        (processContent fileLocation pkgVersion
                           snapshotVersionOf stampOf m concurrently))).
  { unfold inline_inv. simpl. split_and!; auto.
    by apply no_addWork_processContent. }
  assert (Hinv : inline_inv numberOfThreads th s)
    by (eapply exec_inline_inv; [exact Hstart | exact Hex]).
  assert (Hseq : sequential s).
  { eapply exec_sequential; [exact Hstart| |exact Hex].
    unfold sequential. simpl. constructor. }
  destruct s as [w c]. unfold sequential in Hseq. simpl in Hseq.
  destruct Hinv as (Hl & _ & Ht & _ & _ & Hc). simpl in Hl, Ht, Hc.
  destruct c as [p|d r k|j k|k|r]; try done.
  - destruct (finish_inline th p w Hc) as (evs' & s' & Hev & Hex' & Hr);
      [by rewrite Hl | done |].
    exists (Tick :: evs'), s'. split; [by constructor|]. by split.
  - destruct Hseq as (done & a & Hjobs & -> & Hdone).
    assert (Hj : jobs w !! length done = Some (MkJob a true Pending Pending))
      by (rewrite Hjobs; by apply list_lookup_middle).
    assert (Hstep := engine_success_step w (length done) k a Hj).
    destruct (finish_inline th k
                (did (set_job w (length done) (MkJob a true Fulfilled Fulfilled))
                     (ActSettle (length done) true)) Hc)
      as (evs' & s' & Hev & Hex' & Hr); [simpl; by rewrite Hl | done |].
    exists (Engine (length done) (Returns []) :: Tick :: evs'), s'.
    split; [by repeat constructor|]. split; [|done].
    cbn [exec]. rewrite Hstep. done.
  - exists [], (MkSystem w (Settled r)). split; [constructor|].
    split; [done|]. by eexists.
Qed.

Lemma X17_witness :
  exists evs' s',
    replays_succeed evs' /\ exec ex_second_in_line evs' = Some s'
    /\ exists r, ctl s' = Settled r.
Proof.
  assert (Hex : exec (start numberOfThreads (ex_corpus ["a"; "b"]) true
                        (processContent ex_root "1.0.0" ex_versionOf
                           ex_stampOf Compare false))
                  [Tick; Tick; Engine 0 (Returns []); Tick; Tick]
                = Some ex_second_in_line)
    by (vm_compute; reflexivity).
  exact (X17_inline_runs_come_to_an_end ex_root "1.0.0" ex_versionOf
           ex_stampOf Compare false (ex_corpus ["a"; "b"]) true
           [Tick; Tick; Engine 0 (Returns []); Tick; Tick]
           ex_second_in_line eq_refl Hex).
Defined.
